(* ===== verification/_CoqProject ===== *)
-Q . S2P
Prelude.v
GoTime.v
GoStrings.v
Float64.v
Codec.v
QueueDb.v
QueueStore.v
QueueFacts.v
QueueSteps.v
QueueInvariant.v
QueueProps.v
QueueSeqs.v
Wire.v
Forwarder.v
QueueSource.v
MqttAdapter.v
Transports.v
ServerStore.v
ServerSettings.v
Server.v
Pipeline.v
Modbus.v
Inventory.v
BlockPlan.v
Observers.v
Poller.v
PollerProps.v
Manager.v
InventoryProps.v
Api.v
ConfigIo.v
ConfigIoProps.v
GoText.v
NetConfig.v
NetConfigProps.v
Nmcli.v
NmcliModel.v
TimeService.v
TimeProps.v
Config.v
SettingsApi.v
SettingsProps.v
Sim.v
Migrate.v
Influx.v
InfluxProps.v
Gateway.v
GatewayProps.v
NetworkApi.v
TestActions.v
ServerStatus.v
ServerStatusProps.v
Logging.v
Panels.v
Plant.v
PlantProps.v
GapProps.v
ManagerRace.v
ApiPollers.v
EndToEnd.v
Schema.v
Json.v
Dto.v
DtoProps.v
InfluxClient.v
ModbusClient.v
