(* ===== verification/Prelude.v ===== *)
(** * The nxIIoT gateway: a model of its Go code and the theorems that make it
    correct

    The repository is an industrial gateway (module nxiiot-gateway, src/): it
    polls Modbus devices, shows the readings on a web page, stores them in a
    queue on disk and forwards them to a server over HTTP or MQTT.  With it come
    a reference server (cmd/server-demo) and a Modbus simulator (cmd/modbus-sim).
    This library is a shallow embedding of those programs' Go code: every
    definition follows a Go function or type and keeps its name where it can.

    ** How the parts interact

    [cmd/gateway/main.go] opens everything: config.yaml, gateway.db (with its
    migrations), queue.db, the time service, the acquisition manager, the
    transport and the forwarder, and the API.  The manager runs one poller per
    connection; a poller plans block reads, reads a device and hands each reading
    to the callback, which updates the status and latest-value stores and
    appends to the queue.  The queue buffers, flushes compressed chunks to
    queue.db and evicts when the disk fills; the forwarder reads batches, sends
    them through a transport and acknowledges what the server took.  The server
    drops the chunks it already has, counts gaps and writes to InfluxDB.  The API
    edits gateway.db and reloads the manager, edits config.yaml and restarts,
    changes the host's network behind a confirm-or-revert timer, and shows the
    state of everything.

    ** Files, in the order of their dependencies

    Go itself:
    - Prelude: results, the state-and-error monad [M], machine integers
      ([Int.i64], [Int.u16], ...), lists.
    - GoTime: package time (calendar, formatting, parsing); GoStrings and
      GoText: packages strings and strconv; Float64: IEEE-754 double precision.

    Store and forward:
    - Codec: internal/queue/codec.go.  QueueDb: queue.db, its statements and
      transactions, and the fields of [Store].  QueueStore: every operation of
      internal/queue/store.go and capacity.go.  QueueFacts: what each does to the
      tables.  QueueSteps: the goroutines around one [Store], interleaved at its
      critical sections and transactions, with crashes, as a step relation.
      QueueInvariant: its invariant by rule induction.  QueueProps: the results.
    - Wire, Forwarder, MqttAdapter, Transports: internal/forwarder.  The forwarder
      is proved against the classes [SourceSpec] (the queue's promise) and
      [AdapterSpec] (a transport's); QueueSource proves the first for the queue,
      Pipeline the second for HTTP against the server, and Transports makes
      both transports adapters.
    - ServerStore, ServerSettings, Server, Influx, ServerStatus: cmd/server-demo
      (store.go, settings.go, server.go and mqtt.go, influx.go, the page and
      main.go); InfluxProps and ServerStatusProps: their theorems.
    - Pipeline: queue, forwarder, HTTP and server over a network that loses
      requests and responses.  InfluxClient: the HTTP requests of influx.go.
    - Plant: everything together as one step relation -- the queue's goroutines,
      the sending loop over either transport, a network that loses, repeats and
      reorders, restarts, the server; PlantProps: its invariant and what it says
      of every reading.  QueueSeqs: the queue's account told by sequence number;
      GapProps: what the gaps the server reports mean.  EndToEnd: one polling pass, the queue, the sending loop
      and the server on a healthy day.

    Acquisition and configuration:
    - Modbus: internal/modbus.  Sim: cmd/modbus-sim.  BlockPlan, Poller, Manager:
      internal/acquisition (blockplan.go, poller.go, manager.go); PollerProps:
      their theorems.  ManagerRace: reloads that overlap, statement by
      statement.  ApiPollers: the API and the manager together.  ModbusClient:
      the clients of tcp.go and rtu.go over the goburrow library, and the requests
      of a cycle on the wire.  Observers: internal/status, diagnostics,
      processor, the latest values and the log ring.
    - Inventory: the models and repositories of internal/connection, device and
      datapoint; InventoryProps: their invariant.  Api and ConfigIo: the
      handlers of internal/api that edit them, export and import; ConfigIoProps:
      their theorems.  Json: encoding/json and writeJSON.  Dto: the DTOs of
      connections, devices and data points, and the handlers from body to body;
      DtoProps: their theorems.  Migrate: internal/storage/storage.go.  Schema:
      the scripts of src/migrations as statements on a schema, the repositories'
      statements against it, and cmd/gateway/devseed.go.
    - Config: internal/config.  SettingsApi: internal/api/settings.go.
      SettingsProps: their theorems.

    The host and the process:
    - NetConfig: internal/netconfig, with Go's timers and concurrent callers;
      NetConfigProps: the confirm-or-revert guarantees over any [Controller];
      Nmcli: the nmcli controller over what NetworkManager documents ([NMSpec]);
      NmcliModel: a small NetworkManager on which all of it is run.  NetworkApi:
      internal/api/network.go.
    - TimeService: internal/time; TimeProps: its theorems.
    - Gateway: cmd/gateway/main.go and adapter.go, storage/diskusage.go;
      GatewayProps: its theorems.
    - TestActions: internal/api/test.go.  Logging: internal/logger and
      internal/api/logs.go.  Panels: routing, the read-only pages and
      internal/system.

    ** How Go is modelled

    A struct is a record, an enumeration of strings is its strings, an enumeration
    of our own an inductive type.  An [int64], [int] or [time.Duration] is an
    integer wrapped by [Int.i64] where the code computes with it, a [uint16] by
    [Int.u16]; an instant is its nanoseconds since 1970 UTC; a [float64] is
    computed with the rounded arithmetic of [spec_float].  A function that
    returns an error returns a [result]; one that changes state takes it and
    returns it ([M] when it does both).  A panic is [None].  A method that holds
    its store's mutex is one step; where goroutines meet (the queue, the network
    timers, the manager's tasks) their critical sections are separate steps.
    Maps are [gmap]s, and where Go's iteration order or an unstable sort could
    show, the order is a parameter ([GoOrder]).

    What is outside is a class, and what the code relies on of it a law of that
    class or a named hypothesis: SQL statements that may fail, by number ([Env],
    [InvEnv], [SqlEnv]); compress/flate ([Flate]); the Modbus client library
    ([Library] with what it documents, [Documented]; [Goburrow], [Client]); the
    clock and the link ([World], [Surroundings]); HTTP and MQTT
    ([HttpWorld], [MqttWorld], [MqttEnv], [Network]); nmcli ([Nmcli], [NMSpec]);
    NTP, the hardware clock and settimeofday ([TimeEnv], [RTCDev], [ClockDev]);
    YAML, files and X.509 ([ConfigEnv], [TLSEnv]); InfluxDB ([InfluxHTTP], [Web],
    [LineEnv]); [url.Parse] ([UrlEnv], [SettingsEnv]); host statistics ([DiskEnv], [HostEnv]).
    Each law is met by an instance that a witness evaluates.  JSON text is its
    structure ([Json.json]): for connections, devices and data points a body is such
    a document, read and written field by field (Dto); elsewhere it is what it
    decodes to, or [None].

    ** What the theorems show

    - Delivery: over every run of gateway, network and server each reading
      appended is in the server's database, evicted, dropped or lost to a restart
      and counted as that, or still queued (PlantProps
      [every_reading_accounted]); on a healthy day the value in every register
      reaches the database (EndToEnd [register_to_database]).  The queue by itself
      keeps that account in every interleaving (QueueProps [reading_ledger],
      [counters_exact], [flush_outcome], [read_batch_outcome]);
      the forwarder removes only what the server received, and empties the
      queue when all is well (Forwarder [forwarder_at_least_once],
      [forwarder_drains]); the server stores a chunk once and acknowledges only
      what it stored (ServerStore [ingest_exactly_once], Server
      [ack_means_stored]); end to end exactly once (Pipeline
      [exactly_once_delivery]).  What the server reports missing of a gateway's
      stream was evicted there (GapProps [reported_gaps_were_evicted]), though
      what is evicted before the stream's first message is not reported
      ([first_eviction_unreported]) and a late message may still bring what was
      ([reported_gap_may_arrive]).  A value JSON cannot carry stops it for ever
      (Transports [non_finite_value_blocks]).
    - Encodings: the chunk codec, the line protocol and the settings page are
      proved against their readers ([chunk_round_trip],
      [line_protocol_round_trip], [shown_settings_resubmitted],
      [save_then_load]).
    - Acquisition: block reads partition the points, stay within the protocol's
      limits and give what dedicated reads would; a pass emits one reading per
      point (BlockPlan, PollerProps); the running pollers are those of the
      tables (Manager [reload_matches_configuration]), also when reloads overlap
      and all start after the last write (ManagerRace [concurrent_reloads]; one
      that read before it can win, [stale_reload_wins]), and follow the requests
      of the configuration API (ApiPollers [pollers_follow_api]); a cycle
      sends the planned requests, each to its own slave (ModbusClient [cycle_requests]); a test read
      agrees with a poll (TestActions [test_read_agrees]).  A poller never reopens a dead
      connection (PollerProps [dead_connection_never_reopened]).
    - Configuration: any API requests leave the tables consistent and usable
      ([api_stores_valid_configuration], [configuration_consistent]); migrations
      run once and in order ([migrations_applied_once]), lead from every version
      to the schema the repositories need ([migrations_fit_repositories]) and give
      every old device a connection with its settings
      ([connection_split_preserves]); an object shown and sent back changes
      nothing ([resubmission_changes_nothing]), and a NaN empties the page
      ([unsendable_value_blanks_list]); every loaded configuration is complete ([load_well_formed]).
    - Process: what starting depends on, that an accepted save never prevents the
      next start, what a rejected one does to the readings, what is on disk
      after a shutdown, and that an API that cannot listen ends it all
      (GatewayProps).
    - Host: an unconfirmed network change is undone and a confirmed one kept
      (NetConfigProps), what nmcli is told is what it reads back (Nmcli
      [static_then_current]), every answer of the network page (NetworkApi);
      the accuracy of the clock offset with its era, each branch of a sync and
      the consistency of the status (TimeProps).
    - Server page: it lists everything once, and saving its settings keeps the
      parts in step (ServerStatusProps).
    - The rest: the simulator answers every frame and its loop ends (Sim), the
      log page shows the newest records (Logging), a request has at most one
      handler (Panels).

    Some theorems state behaviour the authors did not intend; they are written as
    the code behaves, and say so.

    ** Fuel and bounds

    Recursion that is not structural takes fuel.  A varint has at most 10 bytes
    and the loops take 10 ([PutUvarint], [ReadUvarint]); an int64 has at most
    20 digits ([ndigits]); trimming, expanding and reading lines consume a byte
    a turn and take the length of the text; [handleConn] consumes at least 7
    bytes a frame, and [handleConn_answers] proves that the length of the stream is
    enough.  Retry, eviction and discard loops have the code's own bounds.  The
    endless loops (forwarder, poller, flusher, time service) are a number of
    turns, universally quantified in the theorems.

    ** Not modelled

    The web page (web/, TypeScript and HTML), Docker and deployment files;
    the HTTP listeners, beyond how they return; the text of JSON, of error messages that quote their
    argument, and of most log lines; the rules of SQLite beyond those of [exec_ddl]
    and the tables' constraints; real time within one operation; the memory model
    below the mutexes; in the runs of Plant, a restart of the reference server
    (whose seqs and counters live in memory) and a queue file damaged on disk
    (what [ReadBatch] does with such rows is in [read_batch_outcome]). *)

From Stdlib Require Export ZArith Lia.
From stdpp Require Export base gmap strings list fin_maps option sorting.

(** * Results: Go's [(value, error)] pairs *)

(** A Go call that returns [(A, error)]: the value, or the error. *)
Inductive result (E A : Type) : Type :=
| Ok (a : A)
| Err (e : E).
Arguments Ok {E A} a.
Arguments Err {E A} e.

#[export] Instance result_ret {E} : MRet (result E) := fun A a => Ok a.
#[export] Instance result_bind {E} : MBind (result E) :=
  fun A B f r => match r with Ok a => f a | Err e => Err e end.
#[export] Instance result_fmap {E} : FMap (result E) :=
  fun A B f r => match r with Ok a => Ok (f a) | Err e => Err e end.

#[export] Instance result_eq_dec {E A} `{EqDecision E, EqDecision A} :
  EqDecision (result E A).
Proof. solve_decision. Defined.

(** The error of a result, as Go's [err] variable ([None] is [nil]). *)
Definition err_of {E A} (r : result E A) : option E :=
  match r with Ok _ => None | Err e => Some e end.

(** [if err := op(); err != nil { return ..., wrap(err) }]. *)
Definition map_err {E F A} (f : E -> F) (r : result E A) : result F A :=
  match r with Ok a => Ok a | Err e => Err (f e) end.

(** * Stateful, fallible code *)

(** A call that reads and writes a state [S] and may return an error. *)
Definition M (E S A : Type) : Type := S -> result E A * S.

#[export] Instance M_ret {E S} : MRet (M E S) := fun A a s => (Ok a, s).
#[export] Instance M_bind {E S} : MBind (M E S) :=
  fun A B f m s =>
    match m s with
    | (Ok a, s') => f a s'
    | (Err e, s') => (Err e, s')
    end.

Definition fail {E S A} (e : E) : M E S A := fun s => (Err e, s).
Definition get {E S} : M E S S := fun s => (Ok s, s).
Definition modify {E S} (f : S -> S) : M E S unit := fun s => (Ok tt, f s).

(** Run [m] and hand its outcome to the caller instead of returning early:
    Go's [err := op()] followed by code that looks at [err]. *)
Definition try {E S A} (m : M E S A) : M E S (result E A) :=
  fun s => let '(r, s') := m s in (Ok r, s').

(** Rewrite the error of a call, as [fmt.Errorf("...: %w", err)] does. *)
Definition wrap {E F S A} (f : E -> F) (m : M E S A) : M F S A :=
  fun s => let '(r, s') := m s in (map_err f r, s').

Lemma bind_ok {E S A B} (m : M E S A) (f : A -> M E S B) s a s' :
  m s = (Ok a, s') -> (m ≫= f) s = f a s'.
Proof. intros H. unfold mbind, M_bind. by rewrite H. Qed.

Lemma bind_err {E S A B} (m : M E S A) (f : A -> M E S B) s e s' :
  m s = (Err e, s') -> (m ≫= f) s = (Err e, s').
Proof. intros H. unfold mbind, M_bind. by rewrite H. Qed.

Lemma bind_inv {E S A B} (m : M E S A) (f : A -> M E S B) s r s' :
  (m ≫= f) s = (r, s') ->
  (exists a s1, m s = (Ok a, s1) /\ f a s1 = (r, s')) \/
  (exists e, m s = (Err e, s') /\ r = Err e).
Proof.
  unfold mbind, M_bind. destruct (m s) as [[a|e] s1] eqn:Hm; intros H.
  - left. eauto.
  - right. simplify_eq. eauto.
Qed.

(** * Machine integers *)

Module Int.
Local Open Scope Z_scope.

Definition two8 : Z := 256.
Definition two16 : Z := 65536.
Definition two31 : Z := 2147483648.
Definition two32 : Z := 4294967296.
Definition two63 : Z := 9223372036854775808.
Definition two64 : Z := 18446744073709551616.

(** Conversions to Go's fixed-width types, with their wrap-around. *)
Definition u8 (z : Z) : Z := z mod 256.
Definition u16 (z : Z) : Z := z mod 65536.
Definition u32 (z : Z) : Z := z mod 4294967296.
Definition u64 (z : Z) : Z := z mod 18446744073709551616.
Definition i16 (z : Z) : Z := (z + 32768) mod 65536 - 32768.
Definition i32 (z : Z) : Z := (z + 2147483648) mod 4294967296 - 2147483648.
Definition i64 (z : Z) : Z :=
(z + 9223372036854775808) mod 18446744073709551616 - 9223372036854775808.

Definition is_u8 (z : Z) : Prop := 0 <= z < 256.
Definition is_u16 (z : Z) : Prop := 0 <= z < 65536.
Definition is_u64 (z : Z) : Prop := 0 <= z < 18446744073709551616.
Definition is_i64 (z : Z) : Prop :=
-9223372036854775808 <= z < 9223372036854775808.

Lemma u8_id z : is_u8 z -> u8 z = z.
Proof. apply Z.mod_small. Qed.
Lemma u16_id z : is_u16 z -> u16 z = z.
Proof. apply Z.mod_small. Qed.
Lemma u64_id z : is_u64 z -> u64 z = z.
Proof. apply Z.mod_small. Qed.
Lemma i64_id z : is_i64 z -> i64 z = z.
Proof. unfold i64, is_i64. intros H. rewrite Z.mod_small; lia. Qed.

Lemma u8_range z : is_u8 (u8 z).
Proof. apply Z.mod_pos_bound. lia. Qed.
Lemma u16_range z : is_u16 (u16 z).
Proof. apply Z.mod_pos_bound. lia. Qed.
Lemma u64_range z : is_u64 (u64 z).
Proof. apply Z.mod_pos_bound. lia. Qed.
Lemma i64_range z : is_i64 (i64 z).
Proof.
unfold i64, is_i64.
pose proof (Z.mod_pos_bound (z + 9223372036854775808) 18446744073709551616).
lia.
Qed.

(** Signed 64-bit arithmetic wraps, so a difference undoes itself. *)
Lemma i64_add_sub a b : is_i64 b -> i64 (a + i64 (b - a)) = b.
Proof.
intros Hb. unfold i64 at 2.
set (m := 18446744073709551616).
rewrite Z.mod_eq by (unfold m; lia).
set (q := (b - a + 9223372036854775808) / m).
unfold i64. fold m.
replace (a + (b - a + 9223372036854775808 - m * q - 9223372036854775808)
         + 9223372036854775808)
  with (b + 9223372036854775808 + (- q) * m) by lia.
rewrite Z_mod_plus_full. fold (i64 b). by apply i64_id.
Qed.
End Int.

(** * Automation shared by the components *)

Create HintDb gateway.
Create Rewrite HintDb gateway.

#[export] Hint Resolve Int.u8_range Int.u16_range Int.u64_range Int.i64_range : gateway.
#[export] Hint Rewrite @bind_ok @bind_err using eassumption : gateway.

(** Turn the boolean tests of the code on integers into propositions. *)
Ltac zbool :=
  repeat match goal with
  | H : (_ <? _)%Z = true |- _ => apply Z.ltb_lt in H
  | H : (_ <? _)%Z = false |- _ => apply Z.ltb_ge in H
  | H : (_ <=? _)%Z = true |- _ => apply Z.leb_le in H
  | H : (_ <=? _)%Z = false |- _ => apply Z.leb_gt in H
  | H : (_ =? _)%Z = true |- _ => apply Z.eqb_eq in H
  | H : (_ =? _)%Z = false |- _ => apply Z.eqb_neq in H
  | H : (_ && _)%bool = true |- _ => apply andb_true_iff in H; destruct H
  | H : (_ || _)%bool = false |- _ => apply orb_false_iff in H; destruct H
  | H : negb _ = true |- _ => apply negb_true_iff in H
  | H : negb _ = false |- _ => apply negb_false_iff in H
  end.

(** Split a run of monadic code that is known to have returned. *)
Ltac step_inv H :=
  apply bind_inv in H;
  destruct H as [(? & ? & ? & H)|(? & ? & H)].

(** Compute the glue of [result] code, and nothing else. *)
Ltac res_simpl :=
  unfold mret, result_ret; cbn [map_err mbind result_bind fmap result_fmap fst snd].
Tactic Notation "res_simpl" "in" hyp(H) :=
  unfold mret, result_ret in H;
  cbn [map_err mbind result_bind fmap result_fmap fst snd] in H.

(** * Lists *)

(** [xs[lo:hi]] and [xs[lo:]] for indices in range. *)
Definition slice {A} (lo hi : nat) (l : list A) : list A := take (hi - lo) (drop lo l).

(** Sum of an integer measure over a list. *)
Definition sumZ {A} (f : A -> Z) (l : list A) : Z :=
  foldr (fun x acc => (f x + acc)%Z) 0%Z l.

Section SumZ.
Local Open Scope Z_scope.
Context {A : Type} (f : A -> Z).

Lemma sumZ_nil : sumZ f [] = 0.
Proof. done. Qed.
Lemma sumZ_cons x l : sumZ f (x :: l) = f x + sumZ f l.
Proof. done. Qed.
Lemma sumZ_app l k : sumZ f (l ++ k) = sumZ f l + sumZ f k.
Proof. induction l as [|x l IH]; cbn; [done|]. fold (sumZ f (l ++ k)). unfold sumZ in *. lia. Qed.
Lemma sumZ_nonneg l : Forall (fun x => 0 <= f x) l -> 0 <= sumZ f l.
Proof. induction 1; cbn; [lia|]. unfold sumZ in *. lia. Qed.
Lemma sumZ_take_drop n l : sumZ f l = sumZ f (take n l) + sumZ f (drop n l).
Proof. by rewrite <- sumZ_app, take_drop. Qed.
End SumZ.

#[export] Hint Rewrite @sumZ_app @sumZ_cons @sumZ_nil : gateway.

(** * Bits *)

Section Bits.
Local Open Scope Z_scope.

(** A value below [2^s] shares no bit with one shifted by [s]. *)
Lemma land_shiftl_0 a x s :
0 <= s -> 0 <= a < 2 ^ s -> Z.land a (Z.shiftl x s) = 0.
Proof.
intros Hs Ha. apply Z.bits_inj'. intros n Hn.
rewrite Z.land_spec, Z.bits_0, Z.shiftl_spec by lia.
destruct (decide (n < s)).
- by rewrite (Z.testbit_neg_r x) by lia; rewrite andb_false_r.
- destruct (decide (a = 0)) as [->|]; [by rewrite Z.bits_0|].
  rewrite Z.bits_above_log2; [done|lia|].
  assert (Z.log2 a < s) by (apply Z.log2_lt_pow2; lia). lia.
Qed.

(** Or-ing a value shifted past the bits of [a] adds it. *)
Lemma lor_shiftl_add a x s :
0 <= s -> 0 <= a < 2 ^ s -> Z.lor a (Z.shiftl x s) = a + x * 2 ^ s.
Proof.
intros Hs Ha. rewrite <- Z.shiftl_mul_pow2 by done.
rewrite <- Z.lxor_lor, Z.add_nocarry_lxor by (by apply land_shiftl_0). done.
Qed.

Lemma testbit_high a n m : 0 <= a < 2 ^ n -> n <= m -> Z.testbit a m = false.
Proof.
intros Ha Hm. destruct (decide (n < 0)) as [|Hn0].
{ rewrite Z.pow_neg_r in Ha by lia. lia. }
rewrite <- (Z.mod_small a (2 ^ n)) by done. apply Z.mod_pow2_bits_high. lia.
Qed.

(** Complementing the low [n] bits subtracts from [2^n - 1]. *)
Lemma lxor_ones_sub u n : 0 <= n -> 0 <= u < 2 ^ n -> Z.lxor u (Z.ones n) = Z.ones n - u.
Proof.
intros Hn Hu. rewrite Z.sub_nocarry_ldiff; apply Z.bits_inj'; intros m Hm;
  rewrite ?Z.lxor_spec, ?Z.ldiff_spec, ?Z.bits_0; destruct (decide (m < n));
  rewrite ?Z.ones_spec_low, ?Z.ones_spec_high, ?(testbit_high u n m) by lia;
  by destruct (Z.testbit u m).
Qed.
End Bits.

Section Filter.
Context {A : Type} (P : A -> Prop) `{!forall x, Decision (P x)}.

Lemma filter_none l : Forall (fun x => ~ P x) l -> filter P l = [].
Proof. induction 1 as [|x l Hx _ IH]; [done|]. rewrite filter_cons. by rewrite decide_False. Qed.
Lemma filter_all l : Forall P l -> filter P l = l.
Proof.
induction 1 as [|x l Hx _ IH]; [done|]. rewrite filter_cons, decide_True by done. by rewrite IH.
Qed.
Lemma Forall_filter (Q : A -> Prop) l : Forall Q l -> Forall Q (filter P l).
Proof.
rewrite !Forall_forall. intros HQ x Hx. apply list_elem_of_filter in Hx as [_ ?]. by apply HQ.
Qed.
End Filter.
