(* ===== verification/GoTime.v ===== *)
(** Go's [time] package as the program uses it: instants as nanoseconds since
    1970 UTC, [time.Date]'s calendar, [Format] with the wire layout and [Parse]
    with [time.RFC3339Nano]. *)

From Stdlib Require Import Ascii.
From S2P Require Import Prelude.

Local Open Scope list_scope.
Local Open Scope Z_scope.

(** * The calendar *)

(** Day number (days since 1970-01-01) to year, month, day, and back, in the
    proleptic Gregorian calendar; years start in March, in 400-year eras. *)
Definition year_of_era (doe : Z) : Z := (doe - doe / 1460 + doe / 36524 - doe / 146096) / 365.
Definition start_of_year (yoe : Z) : Z := 365 * yoe + yoe / 4 - yoe / 100.

Definition civil (days : Z) : Z * Z * Z :=
  let z := days + 719468 in
  let yoe := year_of_era (z mod 146097) in
  let doy := z mod 146097 - start_of_year yoe in
  let mp := (5 * doy + 2) / 153 in
  let m := if mp <? 10 then mp + 3 else mp - 9 in
  (yoe + 400 * (z / 146097) + (if m <=? 2 then 1 else 0), m, doy - (153 * mp + 2) / 5 + 1).

Definition days_of_civil (y m d : Z) : Z :=
  let y' := y - (if m <=? 2 then 1 else 0) in
  let mp := if m <=? 2 then m + 9 else m - 3 in
  y' / 400 * 146097 + start_of_year (y' mod 400) + ((153 * mp + 2) / 5 + d - 1) - 719468.

Definition is_leap (y : Z) : bool :=
  (y mod 4 =? 0) && (negb (y mod 100 =? 0) || (y mod 400 =? 0)).
Definition days_in (m y : Z) : Z :=
  if m =? 2 then (if is_leap y then 29 else 28)
  else if (m =? 4) || (m =? 6) || (m =? 9) || (m =? 11) then 30 else 31.

(** Everything the calendar proofs need of one day of a year: a month, a day
    that exists whatever the year, or February 29. *)
Definition day_ok (doy : Z) : bool :=
  let mp := (5 * doy + 2) / 153 in
  let m := if mp <? 10 then mp + 3 else mp - 9 in
  let d := doy - (153 * mp + 2) / 5 + 1 in
  (1 <=? m) && (m <=? 12) && (1 <=? d) && ((d <=? days_in m 1) || (m =? 2) && (d =? 29) && (doy =? 365))
  && ((if m <=? 2 then m + 9 else m - 3) =? mp).

Fixpoint all_from (n : nat) (i : Z) (p : Z -> bool) : bool :=
  match n with O => true | S k => p i && all_from k (i + 1) p end.

Lemma all_from_spec n i p j : all_from n i p = true -> i <= j < i + Z.of_nat n -> p j = true.
Proof.
  revert i. induction n as [|n IH]; intros i; cbn [all_from]; [lia|].
  intros [Hp Ha]%andb_true_iff Hj.
  destruct (decide (i = j)) as [->|]; [done|]. apply (IH (i + 1)); [done|lia].
Qed.

(** A decidable fact of finitely many integers, by computation. *)
Lemma all_range n i (P : Z -> Prop) `{!forall j, Decision (P j)} j :
  all_from n i (fun j => bool_decide (P j)) = true -> i <= j < i + Z.of_nat n -> P j.
Proof. intros Ha Hj. eapply all_from_spec in Ha; [|exact Hj]. by apply bool_decide_eq_true in Ha. Qed.

Lemma year_ok doy : 0 <= doy <= 365 -> day_ok doy = true.
Proof. intros Hd. apply (all_from_spec 366 0); [by vm_compute|lia]. Qed.

Ltac div_lia := Z.to_euclidean_division_equations; lia.

(** The day of the year a day of an era falls on; day 365 needs a leap year. *)
Lemma era_ok doe :
  0 <= doe < 146097 ->
  let yoe := year_of_era doe in
  let doy := doe - start_of_year yoe in
  0 <= yoe <= 399 /\ 0 <= doy <= 365 /\ (doy = 365 -> is_leap (yoe + 1) = true).
Proof.
  intros Hd. cbv zeta. unfold year_of_era, start_of_year. split; [div_lia|]. split; [div_lia|].
  intros H365. unfold is_leap.
  assert (H4 : ((doe - doe / 1460 + doe / 36524 - doe / 146096) / 365 + 1) mod 4 = 0) by div_lia.
  rewrite H4. cbn [Z.eqb andb]. apply orb_true_iff.
  destruct (decide (((doe - doe / 1460 + doe / 36524 - doe / 146096) / 365 + 1) mod 100 = 0)) as [H100|H100].
  - right. assert ((doe - doe / 1460 + doe / 36524 - doe / 146096) / 365 + 1 = 400) as -> by div_lia. done.
  - left. by rewrite (proj2 (Z.eqb_neq _ _) H100).
Qed.

Lemma is_leap_shift y k : is_leap (y + 400 * k) = is_leap y.
Proof.
  unfold is_leap.
  replace (y + 400 * k) with (y + k * 4 * 100) at 2 by lia.
  replace (y + 400 * k) with (y + k * 100 * 4) at 1 by lia.
  replace (y + 400 * k) with (y + k * 400) by lia.
  by rewrite !Z_mod_plus_full.
Qed.

(** [civil] yields a date that exists, and [days_of_civil] takes it back. *)
Lemma civil_ok days y m d :
  civil days = (y, m, d) ->
  1 <= m <= 12 /\ 1 <= d <= days_in m y /\ days_of_civil y m d = days.
Proof.
  unfold civil. set (z := days + 719468). pose proof (Z.div_mod z 146097 ltac:(lia)) as Hz.
  destruct (era_ok (z mod 146097) (Z.mod_pos_bound z 146097 ltac:(lia))) as (Hy & Hdoy & Hleap).
  set (doe := z mod 146097) in *. set (yoe := year_of_era doe) in *.
  pose proof (year_ok _ Hdoy) as Hok. unfold day_ok in Hok.
  set (doy := doe - start_of_year yoe) in *. set (mp := (5 * doy + 2) / 153) in *.
  cbv zeta. intros [= <- <- <-]. set (m := if mp <? 10 then _ else _) in *.
  set (d := doy - (153 * mp + 2) / 5 + 1) in *.
  set (b := if m <=? 2 then 1 else 0) in *. rewrite !andb_true_iff in Hok.
  destruct Hok as ((((Hm1 & Hm12) & Hd1) & Hdm) & Hmp). zbool.
  assert (Hd : d <= days_in m (yoe + 400 * (z / 146097) + b)).
  { destruct (decide (m = 2)) as [Hm2|Hm2].
    - replace (yoe + 400 * (z / 146097) + b) with (yoe + 1 + 400 * (z / 146097))
        by (unfold b; rewrite Hm2; cbn; lia).
      unfold days_in. rewrite Hm2, is_leap_shift. cbn [Z.eqb Pos.eqb].
      apply orb_true_iff in Hdm as [Hdm|Hdm].
      + unfold days_in in Hdm. rewrite Hm2 in Hdm. change (is_leap 1) with false in Hdm.
        cbn [Z.eqb Pos.eqb] in Hdm. apply Z.leb_le in Hdm. destruct (is_leap _); lia.
      + rewrite !andb_true_iff, !Z.eqb_eq in Hdm. destruct Hdm as ((_ & ->) & H365).
        by rewrite Hleap by done.
    - rewrite (proj2 (Z.eqb_neq _ _) Hm2), orb_false_r in Hdm. apply Z.leb_le in Hdm.
      unfold days_in in *. by rewrite (proj2 (Z.eqb_neq _ _) Hm2) in *. }
  split; [lia|]. split; [lia|]. unfold days_of_civil. fold b.
  replace (yoe + 400 * (z / 146097) + b - b) with (yoe + z / 146097 * 400) by lia.
  rewrite Z_div_plus_full, Z_mod_plus_full, Z.div_small, Z.mod_small by lia.
  replace (if m <=? 2 then m + 9 else m - 3) with mp by lia. unfold d, doy, z in *. lia.
Qed.

(** * Digits *)

Definition digit (n : Z) : ascii := ascii_of_N (Z.to_N (48 + n)).
Definition digit_value (a : ascii) : option Z :=
  let n := Z.of_N (N_of_ascii a) - 48 in
  if (0 <=? n) && (n <=? 9) then Some n else None.

(** [w] decimal digits, most significant first. *)
Fixpoint digits (w : nat) (n : Z) : list ascii :=
  match w with O => [] | S k => digits k (n / 10) ++ [digit (n mod 10)] end.

(** Read [w] digits. *)
Fixpoint read_digits (w : nat) (acc : Z) (s : list ascii) : option (Z * list ascii) :=
  match w, s with
  | O, _ => Some (acc, s)
  | S k, a :: s => v ← digit_value a; read_digits k (10 * acc + v) s
  | S _, [] => None
  end.

Lemma digit_value_digit n : 0 <= n <= 9 -> digit_value (digit n) = Some n.
Proof.
  intros Hn. apply (all_range 10 0 (fun n => digit_value (digit n) = Some n)); [by vm_compute|lia].
Qed.

Lemma length_digits w n : length (digits w n) = w.
Proof. revert n. induction w as [|w IH]; intros n; [done|]. cbn. rewrite length_app, IH. cbn. lia. Qed.

Lemma read_digits_app w w' acc s n r :
  read_digits w acc s = Some (n, r) -> read_digits (w + w') acc s = read_digits w' n r.
Proof.
  revert acc s. induction w as [|w IH]; intros acc s; cbn; [by intros [= <- <-]|].
  destruct s as [|a s]; [done|]. destruct (digit_value a) as [v|]; cbn; [|done]. apply IH.
Qed.

Lemma read_digits_digits w n acc s :
  0 <= n < 10 ^ Z.of_nat w ->
  read_digits w acc (digits w n ++ s) = Some (acc * 10 ^ Z.of_nat w + n, s).
Proof.
  revert n acc s. induction w as [|w IH]; intros n acc s Hn.
  { cbn in *. repeat f_equal. lia. }
  rewrite Nat2Z.inj_succ, Z.pow_succ_r in * by lia. cbn [digits]. rewrite <- app_assoc.
  assert (Hdiv : 0 <= n / 10 < 10 ^ Z.of_nat w)
    by (split; [apply Z.div_pos; lia|apply Z.div_lt_upper_bound; lia]).
  replace (S w) with (w + 1)%nat by lia.
  rewrite (read_digits_app _ _ _ _ _ _ (IH _ _ _ Hdiv)). cbn [app read_digits].
  pose proof (Z.mod_pos_bound n 10 ltac:(lia)). rewrite digit_value_digit by lia.
  cbn -[Z.mul Z.add]. pose proof (Z.div_mod n 10 ltac:(lia)).
  apply f_equal, (f_equal (fun x => (x, s))). lia.
Qed.

Lemma read_digits_0 w n s :
  0 <= n < 10 ^ Z.of_nat w -> read_digits w 0 (digits w n ++ s) = Some (n, s).
Proof. intros Hn. by rewrite read_digits_digits. Qed.

(** * Format with the layout ["2006-01-02T15:04:05.000Z07:00"], in UTC *)

Fixpoint ndigits (fuel : nat) (n : Z) : nat :=
  match fuel with O => O | S k => if n <? 10 then 1%nat else S (ndigits k (n / 10)) end.

(** [appendInt]: a sign, then at least [width] digits. *)
Definition append_int (width : nat) (n : Z) : list ascii :=
  (if n <? 0 then ["-"%char] else []) ++ digits (Nat.max width (ndigits 20 (Z.abs n))) (Z.abs n).

Definition second : Z := 1000000000.

(** [t.Sub(u)]: the difference as a [Duration], saturating. *)
Definition time_sub (t u : Z) : Z := Z.max (- Int.two63) (Z.min (Int.two63 - 1) (t - u)).

(** The common part of the layouts: [frac] is the fraction with its point. *)
Definition format_at (frac : list ascii) (t : Z) : list ascii :=
  let sec := t / second in
  let sod := sec mod 86400 in
  let '(y, m, d) := civil (sec / 86400) in
  append_int 4 y ++ "-"%char :: digits 2 m ++ "-"%char :: digits 2 d ++ "T"%char ::
  digits 2 (sod / 3600) ++ ":"%char :: digits 2 (sod / 60 mod 60) ++ ":"%char ::
  digits 2 (sod mod 60) ++ frac ++ ["Z"%char].

Definition format_wire (t : Z) : list ascii :=
  format_at ("."%char :: digits 3 (t mod second / 1000000)) t.

(** [time.RFC3339Nano]: the fraction without its trailing zeros. *)
Fixpoint trimmed_digits (w : nat) (n : Z) : list ascii :=
  match w with
  | O => []
  | S k => if n mod 10 =? 0 then trimmed_digits k (n / 10) else digits w n
  end.
Definition format_nano (t : Z) : list ascii :=
  let ns := t mod second in
  format_at (if ns =? 0 then [] else "."%char :: trimmed_digits 9 ns) t.

(** * Parse with [time.RFC3339Nano] *)

Definition expect (a : ascii) (s : list ascii) : option (list ascii) :=
  match s with b :: s => if decide (a = b) then Some s else None | [] => None end.

Definition in_range (lo hi n : Z) : option unit :=
  if (lo <=? n) && (n <=? hi) then Some tt else None.

(** [getnum] without a fixed width: one digit, or two. *)
Definition read_hour (s : list ascii) : option (Z * list ascii) :=
  match read_digits 2 0 s with Some r => Some r | None => read_digits 1 0 s end.

Fixpoint span_digits (s : list ascii) : list Z * list ascii :=
  match s with
  | a :: s' =>
    match digit_value a with
    | Some v => let '(vs, r) := span_digits s' in (v :: vs, r)
    | None => ([], s)
    end
  | [] => ([], [])
  end.

(** [parseNanoseconds]: the first nine digits, scaled. *)
Definition nanoseconds (vs : list Z) : Z :=
  let vs := take 9 vs in
  foldl (fun n v => 10 * n + v) 0 vs * 10 ^ (9 - Z.of_nat (length vs)).

(** An optional fraction: a point or comma and at least one digit. *)
Definition read_fraction (s : list ascii) : Z * list ascii :=
  match s with
  | a :: s' =>
    if bool_decide (a = "."%char) || bool_decide (a = ","%char) then
      match span_digits s' with
      | ([], _) => (0, s)
      | (vs, r) => (nanoseconds vs, r)
      end
    else (0, s)
  | [] => (0, s)
  end.

(** [Z], or an offset in seconds; nothing may follow. *)
Definition read_zone (s : list ascii) : option Z :=
  match s with
  | [a] => if decide (a = "Z"%char) then Some 0 else None
  | a :: s =>
    sign ← (if decide (a = "+"%char) then Some 1 else if decide (a = "-"%char) then Some (-1) else None);
    '(hr, s) ← read_digits 2 0 s;
    s ← expect ":"%char s;
    '(mm, s) ← read_digits 2 0 s;
    _ ← in_range 0 24 hr;
    _ ← in_range 0 60 mm;
    match s with [] => Some (sign * ((hr * 60 + mm) * 60)) | _ => None end
  | [] => None
  end.

Definition parse_rfc3339 (s : list ascii) : option Z :=
  '(y, s) ← read_digits 4 0 s;
  s ← expect "-"%char s;
  '(m, s) ← read_digits 2 0 s;
  s ← expect "-"%char s;
  '(d, s) ← read_digits 2 0 s;
  s ← expect "T"%char s;
  '(hh, s) ← read_hour s;
  s ← expect ":"%char s;
  '(mi, s) ← read_digits 2 0 s;
  s ← expect ":"%char s;
  '(ss, s) ← read_digits 2 0 s;
  let '(ns, s) := read_fraction s in
  zone ← read_zone s;
  _ ← in_range 1 12 m;
  _ ← in_range 0 23 hh;
  _ ← in_range 0 59 mi;
  _ ← in_range 0 59 ss;
  _ ← in_range 1 (days_in m y) d;
  Some ((days_of_civil y m d * 86400 + hh * 3600 + mi * 60 + ss - zone) * second + ns).

Lemma expect_same a s : expect a (a :: s) = Some s.
Proof. cbn. by rewrite decide_True. Qed.
Lemma in_range_ok lo hi n : lo <= n <= hi -> in_range lo hi n = Some tt.
Proof. intros Hn. unfold in_range. by rewrite (proj2 (Z.leb_le lo n)), (proj2 (Z.leb_le n hi)) by lia. Qed.

Lemma append_int_year y : 0 <= y <= 9999 -> append_int 4 y = digits 4 y.
Proof.
  intros Hy. unfold append_int. rewrite (proj2 (Z.ltb_ge y 0)), Z.abs_eq by lia.
  assert (Hn : (ndigits 20 y <= 4)%nat).
  { cbn [ndigits]. repeat (destruct (_ <? 10) eqn:?; [lia|]; zbool).
    assert (y / 10 / 10 / 10 < 10); [|lia].
    rewrite !Z.div_div by lia. apply Z.div_lt_upper_bound; lia. }
  by rewrite Nat.max_l by lia.
Qed.

Lemma read_fraction_ms ms :
  0 <= ms < 1000 -> read_fraction ("."%char :: digits 3 ms ++ ["Z"%char]) = (ms * 1000000, ["Z"%char]).
Proof.
  intros Hms. apply (all_range 1000 0 (fun ms =>
    read_fraction ("."%char :: digits 3 ms ++ ["Z"%char]) = (ms * 1000000, ["Z"%char])));
    [by vm_compute|lia].
Qed.

Lemma div_mod_86400 sod :
  0 <= sod < 86400 -> 0 <= sod / 3600 <= 23 /\ 0 <= sod / 60 mod 60 <= 59 /\ 0 <= sod mod 60 <= 59 /\
  sod = sod / 3600 * 3600 + sod / 60 mod 60 * 60 + sod mod 60.
Proof.
  intros Hs. pose proof (Z.div_mod sod 60 ltac:(lia)). pose proof (Z.mod_pos_bound sod 60 ltac:(lia)).
  pose proof (Z.div_mod (sod / 60) 60 ltac:(lia)). pose proof (Z.mod_pos_bound (sod / 60) 60 ltac:(lia)).
  replace (sod / 3600) with (sod / 60 / 60) by (rewrite Z.div_div by lia; done). lia.
Qed.

Definition year_of (t : Z) : Z := (civil (t / second / 86400)).1.1.

(** Parsing a formatted instant gives its seconds and the fraction read. *)
Lemma parse_format_at frac ns t :
  0 <= year_of t <= 9999 -> read_fraction (frac ++ ["Z"%char]) = (ns, ["Z"%char]) ->
  parse_rfc3339 (format_at frac t) = Some (t / second * second + ns).
Proof.
  unfold year_of, format_at. set (sec := t / second). set (sod := sec mod 86400).
  destruct (civil (sec / 86400)) as [[y m] d] eqn:Ec. cbn [fst]. intros Hy Hf.
  apply civil_ok in Ec as (Hm & Hd & Hday).
  pose proof (Z.mod_pos_bound sec 86400 ltac:(lia)) as Hsod. fold sod in Hsod.
  destruct (div_mod_86400 sod Hsod) as (Hh & Hmi & Hs & Hsplit).
  assert (Hd' : 0 <= d < 100) by (split; [lia|]; unfold days_in in Hd; repeat case_match; lia).
  unfold parse_rfc3339, read_hour. rewrite append_int_year by done.
  do 6 (rewrite ?expect_same; cbn [mbind option_bind];
        rewrite read_digits_0 by (cbn; lia); cbn [mbind option_bind]).
  cbn [mbind option_bind]. rewrite Hf. cbn [read_zone].
  rewrite decide_True by done. cbn [mbind option_bind].
  rewrite !in_range_ok by lia. cbn [mbind option_bind]. rewrite Hday. f_equal.
  pose proof (Z.div_mod sec 86400 ltac:(lia)) as Hsec. fold sod in Hsec. unfold second. lia.
Qed.

(** [format_wire] keeps the milliseconds. *)
Lemma parse_format t :
  0 <= year_of t <= 9999 ->
  parse_rfc3339 (format_wire t) = Some (t / 1000000 * 1000000).
Proof.
  intros Hy. pose proof (Z.mod_pos_bound t second ltac:(done)) as Hm.
  assert (Hms : 0 <= t mod second / 1000000 < 1000).
  { unfold second in *. split; [apply Z.div_pos; lia|apply Z.div_lt_upper_bound; lia]. }
  unfold format_wire. erewrite parse_format_at; [|done|cbn [app]; by apply read_fraction_ms]. f_equal.
  pose proof (Z.div_mod t second ltac:(done)) as Ht.
  assert (Hq : t / 1000000 = t / second * 1000 + t mod second / 1000000).
  { rewrite Ht at 1. unfold second at 1. replace (1000000000 * (t / second)) with (t / second * 1000 * 1000000) by lia.
    rewrite Z.div_add_l by lia. done. }
  rewrite Hq. unfold second. lia.
Qed.

(** ** The nanoseconds of [format_nano] *)

Lemma span_digits_app vs r :
  Forall (fun v => 0 <= v <= 9) vs -> span_digits (map digit vs ++ r) = (vs ++ (span_digits r).1, (span_digits r).2).
Proof.
  induction vs as [|v vs IH]; intros Hv; [cbn [map app]; by destruct (span_digits r)|].
  apply Forall_cons in Hv as [Hv Hvs]. cbn [map app span_digits]. rewrite digit_value_digit by done.
  by rewrite IH.
Qed.

(** The digits of [n], and the number they stand for. *)
Lemma digits_values w n : exists vs, digits w n = map digit vs /\ Forall (fun v => 0 <= v <= 9) vs /\ length vs = w.
Proof.
  revert n. induction w as [|w IH]; intros n; [by exists []|]. destruct (IH (n / 10)) as (vs & E & Hv & Hl).
  exists (vs ++ [n mod 10]). cbn [digits]. rewrite E, map_app. pose proof (Z.mod_pos_bound n 10 ltac:(lia)).
  split; [done|]. rewrite Forall_app, Forall_singleton, length_app. cbn. split; [split; [done|lia]|lia].
Qed.
Lemma values_number w n vs :
  0 <= n < 10 ^ Z.of_nat w -> digits w n = map digit vs -> Forall (fun v => 0 <= v <= 9) vs ->
  foldl (fun n v => 10 * n + v) 0 vs = n.
Proof.
  revert n vs. induction w as [|w IH]; intros n vs Hn E Hv.
  { destruct vs; [|done]. cbn in *. lia. }
  rewrite Nat2Z.inj_succ, Z.pow_succ_r in Hn by lia. cbn [digits] in E.
  destruct (digits_values w (n / 10)) as (us & Eu & Hu & Hl).
  assert (Ev : vs = us ++ [n mod 10]).
  { rewrite Eu in E. pose proof (Z.mod_pos_bound n 10 ltac:(lia)) as Hm.
    replace (map digit us ++ [digit (n mod 10)]) with (map digit (us ++ [n mod 10])) in E by by rewrite map_app.
    assert (Hs : span_digits (map digit vs ++ []) = span_digits (map digit (us ++ [n mod 10]) ++ [])) by by rewrite E.
    assert (Hum : Forall (fun v => 0 <= v <= 9) (us ++ [n mod 10])).
    { rewrite Forall_app, Forall_singleton. split; [done|lia]. }
    rewrite !span_digits_app in Hs by done.
    cbn in Hs. rewrite !app_nil_r in Hs. by injection Hs as <-. }
  rewrite Ev, foldl_app. cbn [foldl]. rewrite (IH (n / 10) us); [|split; [apply Z.div_pos; lia|apply Z.div_lt_upper_bound; lia]|done|done].
  pose proof (Z.div_mod n 10 ltac:(lia)). lia.
Qed.

(** Reading [w] digits less their trailing zeros. *)
Lemma read_trimmed w n :
  (w <= 9)%nat -> 0 < n < 10 ^ Z.of_nat w ->
  exists vs, trimmed_digits w n = map digit vs /\ Forall (fun v => 0 <= v <= 9) vs /\ vs <> [] /\
    (length vs <= w)%nat /\ foldl (fun n v => 10 * n + v) 0 vs * 10 ^ (Z.of_nat w - Z.of_nat (length vs)) = n.
Proof.
  revert n. induction w as [|w IH]; intros n Hw Hn; [cbn in *; lia|]. cbn [trimmed_digits].
  pose proof (Z.div_mod n 10 ltac:(lia)) as Hd. destruct (n mod 10 =? 0) eqn:Em; zbool.
  - rewrite Nat2Z.inj_succ, Z.pow_succ_r in Hn by lia.
    destruct (IH (n / 10)) as (vs & E & Hv & Hne & Hl & Hf); [lia| |].
    { split; [lia|apply Z.div_lt_upper_bound; lia]. }
    exists vs. split; [done|]. split; [done|]. split; [done|]. split; [lia|].
    rewrite Nat2Z.inj_succ. replace (Z.succ (Z.of_nat w) - Z.of_nat (length vs)) with (Z.succ (Z.of_nat w - Z.of_nat (length vs))) by lia.
    rewrite Z.pow_succ_r by lia. lia.
  - destruct (digits_values (S w) n) as (vs & E & Hv & Hl). exists vs. split; [done|]. split; [done|].
    split; [by destruct vs|]. split; [lia|]. rewrite Hl, Z.sub_diag, Z.mul_1_r.
    eapply values_number; [|exact E|exact Hv]. lia.
Qed.

(** Parsing what [format_nano] writes gives the instant back. *)
Lemma parse_format_nano t : 0 <= year_of t <= 9999 -> parse_rfc3339 (format_nano t) = Some t.
Proof.
  intros Hy. pose proof (Z.mod_pos_bound t second ltac:(done)) as Hm. pose proof (Z.div_mod t second ltac:(done)) as Ht.
  unfold format_nano. destruct (t mod second =? 0) eqn:E; zbool.
  - erewrite parse_format_at; [|done|reflexivity]. f_equal. lia.
  - destruct (read_trimmed 9 (t mod second)) as (vs & Ev & Hv & Hne & Hl & Hf); [done|unfold second in *; cbn; lia|].
    erewrite parse_format_at with (ns := t mod second); [f_equal; lia|done|].
    cbn [app read_fraction]. rewrite bool_decide_true by done. cbn [orb]. rewrite Ev, span_digits_app by done.
    cbn [span_digits fst snd]. rewrite app_nil_r. destruct vs as [|v vs]; [done|].
    unfold nanoseconds. rewrite take_ge by (cbn in *; lia). f_equal. exact Hf.
Qed.
