(* ===== verification/GoStrings.v ===== *)
(** Go's [strings] package as the program uses it, on byte strings. *)

From Stdlib Require Import Ascii.
From S2P Require Import Prelude.

Local Open Scope list_scope.

Definition bytes_of (s : string) : list ascii := String.list_ascii_of_string s.
Definition of_bytes (l : list ascii) : string := String.string_of_list_ascii l.

Definition HasPrefix (s p : string) : bool := bool_decide (bytes_of p `prefix_of` bytes_of s).
Definition HasSuffix (s p : string) : bool := bool_decide (bytes_of p `suffix_of` bytes_of s).
Definition TrimSuffix (s p : string) : string :=
  if HasSuffix s p then of_bytes (take (length (bytes_of s) - length (bytes_of p)) (bytes_of s)) else s.

(** [strings.Contains]. *)
Fixpoint infix (p s : list ascii) : bool :=
  bool_decide (p `prefix_of` s) || match s with [] => false | _ :: s => infix p s end.
Definition Contains (s p : string) : bool := infix (bytes_of p) (bytes_of s).

(** [strings.ToLower] of ASCII letters; other bytes are kept. *)
Definition lower (a : ascii) : ascii :=
  let n := N_of_ascii a in
  if ((65 <=? n) && (n <=? 90))%N then ascii_of_N (n + 32) else a.
Definition ToLower (s : string) : string := of_bytes (map lower (bytes_of s)).

(** * TrimSpace *)

(** The encodings of the runes [unicode.IsSpace] accepts. *)
Definition spaces : list (list ascii) :=
  map (map (fun n => ascii_of_N (Z.to_N n)))
    ([[9]; [10]; [11]; [12]; [13]; [32]; [194; 133]; [194; 160]; [225; 154; 128]]
     ++ map (fun n => [226; 128; n]%Z) (seqZ 128 11)
     ++ [[226; 128; 168]; [226; 128; 169]; [226; 128; 175]; [226; 129; 159]; [227; 128; 128]])%Z.

Definition starts_with (ws : list (list ascii)) (s : list ascii) : option (list ascii) :=
  head (filter (fun w => w `prefix_of` s) ws).

Fixpoint strip (ws : list (list ascii)) (fuel : nat) (s : list ascii) : list ascii :=
  match fuel with
  | O => s
  | S k => match starts_with ws s with Some w => strip ws k (drop (length w) s) | None => s end
  end.

Definition trim_left (s : list ascii) : list ascii := strip spaces (length s) s.
Definition trim_right (s : list ascii) : list ascii :=
  reverse (strip (map reverse spaces) (length s) (reverse s)).
Definition TrimSpace (s : string) : string := of_bytes (trim_right (trim_left (bytes_of s))).

Lemma bytes_of_bytes l : bytes_of (of_bytes l) = l.
Proof. apply String.list_ascii_of_string_of_list_ascii. Qed.
Lemma of_bytes_of s : of_bytes (bytes_of s) = s.
Proof. apply String.string_of_list_ascii_of_string. Qed.

Lemma starts_with_none ws s : starts_with ws s = None <-> forall w, w ∈ ws -> ~ w `prefix_of` s.
Proof.
  unfold starts_with. split.
  - intros Hn w Hw Hp. destruct (filter _ ws) as [|x xs] eqn:E; [|done].
    assert (Hin : w ∈ filter (fun w => w `prefix_of` s) ws) by by apply list_elem_of_filter.
    rewrite E in Hin. by apply elem_of_nil in Hin.
  - intros Hn. rewrite filter_none; [done|]. by apply Forall_forall.
Qed.

(** With no empty separator, [strip] leaves nothing to strip, and a suffix. *)
Lemma strip_done ws fuel s :
  Forall (fun w => w <> []) ws -> (length s <= fuel)%nat ->
  starts_with ws (strip ws fuel s) = None /\ strip ws fuel s `suffix_of` s.
Proof.
  intros Hws. revert s. induction fuel as [|k IH]; intros s Hl; cbn [strip].
  { destruct s as [|a s]; [|cbn in Hl; lia]. split; [|done]. apply starts_with_none.
    intros w Hw Hp. rewrite Forall_forall in Hws. by apply (Hws w Hw), prefix_nil_inv. }
  destruct (starts_with ws s) as [w|] eqn:E; [|done].
  assert (Hw : w ∈ ws /\ w `prefix_of` s).
  { unfold starts_with in E. apply head_Some_elem_of in E.
    apply list_elem_of_filter in E as [? ?]. done. }
  destruct Hw as [Hw [r ->]]. rewrite Forall_forall in Hws. specialize (Hws w Hw).
  rewrite drop_app_length. destruct (IH r) as [Hn Hs].
  { rewrite length_app in Hl. destruct w; [done|]. cbn in Hl. lia. }
  split; [done|]. etransitivity; [exact Hs|]. by exists w.
Qed.

Lemma strip_none ws fuel s : starts_with ws s = None -> strip ws fuel s = s.
Proof. destruct fuel; cbn; [done|]. by intros ->. Qed.

Lemma spaces_nonempty : Forall (fun w => w <> []) spaces.
Proof. apply (bool_decide_unpack _). vm_compute. exact I. Qed.
Lemma rev_spaces_nonempty : Forall (fun w => w <> []) (map reverse spaces).
Proof. apply (bool_decide_unpack _). vm_compute. exact I. Qed.

(** Trimming trimmed text changes nothing. *)
Lemma TrimSpace_idem s : TrimSpace (TrimSpace s) = TrimSpace s.
Proof.
  unfold TrimSpace. rewrite bytes_of_bytes. set (l := trim_left (bytes_of s)).
  destruct (strip_done spaces (length (bytes_of s)) (bytes_of s) spaces_nonempty) as [Hl _]; [done|].
  fold (trim_left (bytes_of s)) in Hl. fold l in Hl.
  destruct (strip_done (map reverse spaces) (length l) (reverse l) rev_spaces_nonempty) as [Hr Hsuf].
  { by rewrite length_reverse. }
  assert (Hleft : trim_left (trim_right l) = trim_right l).
  { apply strip_none, starts_with_none. intros w Hw Hp. rewrite starts_with_none in Hl.
    apply (Hl w Hw). etransitivity; [exact Hp|]. unfold trim_right.
    apply prefix_suffix_reverse. by rewrite reverse_involutive. }
  rewrite Hleft. unfold trim_right at 1. f_equal. rewrite <- (reverse_involutive (trim_right l)) at 3.
  f_equal. apply strip_none. unfold trim_right. by rewrite reverse_involutive.
Qed.
