(* ===== verification/Float64.v ===== *)
(** Go's float64 (IEEE-754 binary64): bit patterns, exact conversion from
    integers, and the rounded arithmetic of Corelib's [SpecFloat].  A stored
    float64 is its 64-bit pattern, so NaN payloads are kept; arithmetic goes
    through [spec_float], whose NaN carries no payload. *)

From Corelib Require Import SpecFloat.
From S2P Require Import Prelude.

Local Open Scope Z_scope.

Abbreviation f64 := spec_float.

Definition prec : Z := 53.
Definition emax : Z := 1024.

Definition fadd : f64 -> f64 -> f64 := SFadd prec emax.
Definition fsub : f64 -> f64 -> f64 := SFsub prec emax.
Definition fmul : f64 -> f64 -> f64 := SFmul prec emax.
Definition fdiv : f64 -> f64 -> f64 := SFdiv prec emax.
(** [a >= b], [a <= b], [a < b], [a == b]: all false on NaN. *)
Definition fge (a b : f64) : bool := SFleb b a.
Definition fle (a b : f64) : bool := SFleb a b.
Definition flt (a b : f64) : bool := SFltb a b.
Definition feq (a b : f64) : bool := SFeqb a b.

(** [float64(n)] of a positive integer of at most 53 bits: exact, with the
    mantissa normalised to 53 bits. *)
Definition exact_pos (s : bool) (p : positive) : f64 :=
  let k := Z.log2 (Zpos p) in
  S754_finite s (Z.to_pos (Z.shiftl (Zpos p) (52 - k))) (k - 52).

(** [float64(n)]: exact when [n] has at most 53 bits, otherwise rounded. *)
Definition of_Z (n : Z) : f64 :=
  match n with
  | Z0 => S754_zero false
  | Zpos p => if Z.log2 n <=? 52 then exact_pos false p else binary_normalize prec emax n 0 false
  | Zneg p => if Z.log2 (- n) <=? 52 then exact_pos true p else binary_normalize prec emax n 0 false
  end.

(** [math.Float64frombits] and [math.Float64bits]. *)
Definition of_bits (b : Z) : f64 :=
  let s := Z.testbit b 63 in
  let e := Z.land (Z.shiftr b 52) 2047 in
  let m := Z.land b 4503599627370495 in
  if e =? 2047 then (if m =? 0 then S754_infinity s else S754_nan)
  else if e =? 0 then
    match m with Zpos p => S754_finite s p (-1074) | _ => S754_zero s end
  else match m + 4503599627370496 with
       | Zpos p => S754_finite s p (e - 1075)
       | _ => S754_nan
       end.

Definition sign_bit (s : bool) : Z := if s then 9223372036854775808 else 0.

Definition to_bits (f : f64) : Z :=
  match f with
  | S754_zero s => sign_bit s
  | S754_infinity s => sign_bit s + Z.shiftl 2047 52
  | S754_nan => 9221120237041090561
  | S754_finite s m e =>
    if Zpos m <? 4503599627370496 then sign_bit s + Zpos m
    else sign_bit s + (Z.shiftl (e + 1075) 52 + (Zpos m - 4503599627370496))
  end.

(** [float64(math.Float32frombits(b))]: widening is exact. *)
Definition of_bits32 (b : Z) : f64 :=
  let s := Z.testbit b 31 in
  let e := Z.land (Z.shiftr b 23) 255 in
  let m := Z.land b 8388607 in
  if e =? 255 then (if m =? 0 then S754_infinity s else S754_nan)
  else if e =? 0 then
    match m with Zpos p => binary_normalize prec emax (cond_Zopp s m) (-149) s | _ => S754_zero s end
  else match m + 8388608 with
       | Zpos p => S754_finite s (Z.to_pos (Z.shiftl (Zpos p) 29)) (e - 150 - 29)
       | _ => S754_nan
       end.

(** [math.Ceil]. *)
Definition fceil (f : f64) : f64 :=
  match f with
  | S754_finite s m e =>
    if 0 <=? e then f
    else
      let q := Zpos m / 2 ^ (- e) in
      let exact := Zpos m mod 2 ^ (- e) =? 0 in
      let n := if s then - q else if exact then q else q + 1 in
      match n with Z0 => S754_zero s | _ => of_Z n end
  | _ => f
  end.

(** The integer part, towards zero. *)
Definition trunc (f : f64) : option Z :=
  match f with
  | S754_zero _ => Some 0
  | S754_finite s m e =>
    Some (cond_Zopp s (if 0 <=? e then Zpos m * 2 ^ e else Zpos m / 2 ^ (- e)))
  | _ => None
  end.

(** [int64(f)]: the integer part when it fits.  Go leaves the other cases to
    the implementation: [oob] says what that one gives. *)
Definition to_i64 (oob : f64 -> Z) (f : f64) : Z :=
  match trunc f with
  | Some n => if (-9223372036854775808 <=? n) && (n <? 9223372036854775808) then n else oob f
  | None => oob f
  end.

(** The float is exactly the integer [n]. *)
Definition is_int (f : f64) (n : Z) : Prop :=
  match f with
  | S754_zero _ => n = 0
  | S754_finite s m e => cond_Zopp s (Zpos m) * 2 ^ Z.max e 0 = n * 2 ^ Z.max (- e) 0
  | _ => False
  end.

(** * Facts *)

Lemma exact_mantissa p : Z.log2 (Zpos p) <= 52 ->
  Zpos (Z.to_pos (Z.shiftl (Zpos p) (52 - Z.log2 (Zpos p)))) = Zpos p * 2 ^ (52 - Z.log2 (Zpos p)) /\
  4503599627370496 <= Zpos p * 2 ^ (52 - Z.log2 (Zpos p)) < 9007199254740992.
Proof.
  intros Hk. set (k := Z.log2 (Zpos p)) in *.
  pose proof (Z.log2_spec (Zpos p) eq_refl) as [Hlo Hhi]. fold k in Hlo, Hhi.
  assert (Hk0 : 0 <= k) by apply Z.log2_nonneg.
  assert (Hp : 0 < 2 ^ (52 - k)) by (apply Z.pow_pos_nonneg; lia).
  rewrite Z.shiftl_mul_pow2 by lia. rewrite Z2Pos.id by (apply Z.mul_pos_pos; lia).
  split; [done|].
  change 4503599627370496 with (2 ^ 52). change 9007199254740992 with (2 ^ 53).
  replace 52 with (k + (52 - k)) at 1 by lia. replace 53 with (Z.succ k + (52 - k)) by lia.
  rewrite !Z.pow_add_r by lia. nia.
Qed.

Lemma sign_bit_shape s x : 0 <= x < 9223372036854775808 ->
  Z.testbit (sign_bit s + x) 63 = s /\
  Z.land (Z.shiftr (sign_bit s + x) 52) 2047 = x / 4503599627370496 /\
  Z.land (sign_bit s + x) 4503599627370495 = x mod 4503599627370496.
Proof.
  intros Hx.
  change 2047 with (Z.ones 11). change 4503599627370495 with (Z.ones 52).
  rewrite !Z.land_ones, Z.shiftr_div_pow2 by lia.
  change (2 ^ 52) with 4503599627370496. change (2 ^ 11) with 2048.
  split_and!.
  - apply Z.b2z_inj. rewrite Z.testbit_spec' by lia. change (2 ^ 63) with 9223372036854775808.
    destruct s; cbn [sign_bit Z.b2z].
    + replace (9223372036854775808 + x) with (x + 1 * 9223372036854775808) by lia.
      rewrite Z.div_add, Z.div_small by lia. done.
    + by rewrite Z.add_0_l, Z.div_small by lia.
  - assert (0 <= x / 4503599627370496 < 2048).
    { split; [apply Z.div_pos; lia|apply Z.div_lt_upper_bound; lia]. }
    destruct s; cbn [sign_bit].
    + replace (9223372036854775808 + x) with (x + 2048 * 4503599627370496) by lia.
      rewrite Z.div_add by lia. replace (x / 4503599627370496 + 2048)
        with (x / 4503599627370496 + 1 * 2048) by lia.
      rewrite Z_mod_plus_full. by apply Z.mod_small.
    + rewrite Z.add_0_l. by apply Z.mod_small.
  - destruct s; cbn [sign_bit]; [|done].
    replace (9223372036854775808 + x) with (x + 2048 * 4503599627370496) by lia.
    apply Z_mod_plus_full.
Qed.

(** The bit pattern of a normal float names that float. *)
Lemma of_to_bits_normal s m e :
  4503599627370496 <= Zpos m < 9007199254740992 -> -1074 <= e <= 971 ->
  of_bits (to_bits (S754_finite s m e)) = S754_finite s m e.
Proof.
  intros Hm He. unfold to_bits. rewrite (proj2 (Z.ltb_ge _ _)) by lia.
  rewrite Z.shiftl_mul_pow2 by lia. change (2 ^ 52) with 4503599627370496.
  set (x := (e + 1075) * 4503599627370496 + (Zpos m - 4503599627370496)).
  assert (Hx : 0 <= x < 9223372036854775808) by lia.
  destruct (sign_bit_shape s x Hx) as (H1 & H2 & H3). unfold of_bits.
  rewrite H1, H2, H3.
  assert (Hd : x / 4503599627370496 = e + 1075).
  { unfold x. rewrite Z.add_comm, Z.div_add, Z.div_small by lia. lia. }
  assert (Hr : x mod 4503599627370496 = Zpos m - 4503599627370496).
  { unfold x. rewrite Z.add_comm, Z_mod_plus_full. apply Z.mod_small. lia. }
  rewrite Hd, Hr, (proj2 (Z.eqb_neq _ 2047)), (proj2 (Z.eqb_neq _ 0)) by lia.
  replace (Zpos m - 4503599627370496 + 4503599627370496) with (Zpos m) by lia.
  f_equal. lia.
Qed.

(** Integers of at most 53 bits convert exactly, also through their bits. *)
Lemma of_Z_exact n : Z.abs n < 9007199254740992 -> is_int (of_bits (to_bits (of_Z n))) n.
Proof.
  intros Hn.
  assert (Hpos : forall s p, Zpos p < 9007199254740992 ->
    Z.log2 (Zpos p) <= 52 /\
    is_int (of_bits (to_bits (exact_pos s p))) (cond_Zopp s (Zpos p))).
  { intros s p Hp. assert (Hk : Z.log2 (Zpos p) <= 52).
    { change 9007199254740992 with (2 ^ 53) in Hp.
      enough (Z.log2 (Zpos p) < 53) by lia. by apply Z.log2_lt_pow2. }
    split; [done|]. destruct (exact_mantissa p Hk) as [Hm Hr].
    pose proof (Z.log2_nonneg (Zpos p)). unfold exact_pos.
    rewrite of_to_bits_normal by lia. unfold is_int. rewrite Hm.
    set (k := Z.log2 (Zpos p)) in *.
    rewrite Z.max_r, Z.max_l, Z.mul_1_r by lia. replace (- (k - 52)) with (52 - k) by lia.
    by destruct s; cbn [cond_Zopp]; rewrite <- ?Z.mul_opp_l. }
  destruct n as [|p|p]; [done| |].
  - destruct (Hpos false p) as [Hk Hi]; [lia|]. unfold of_Z.
    by rewrite (proj2 (Z.leb_le _ _)) by done.
  - destruct (Hpos true p) as [Hk Hi]; [lia|]. unfold of_Z. cbn [Z.opp].
    by rewrite (proj2 (Z.leb_le _ _)) by done.
Qed.
