(* ===== verification/Codec.v ===== *)
(** The chunk codec of the store-and-forward queue (internal/queue/codec.go):
    the varint encodings of Go's encoding/binary that it uses, [encodeChunk],
    [decodeChunk], and the round trip between them.

    Bytes are integers in [0, 256).  A float64 value is its IEEE-754 bit
    pattern, an instant is a count of nanoseconds since the Unix epoch (the
    codec keeps milliseconds only).  compress/flate is the interface [Flate]. *)

From Stdlib Require Import Ascii.
From S2P Require Import Prelude.

Local Open Scope string_scope.
Local Open Scope list_scope.
Local Open Scope Z_scope.

(** * encoding/binary: varints *)

Module Varint.
Inductive read_error := EOF | UnexpectedEOF | Overflow.

(** [binary.PutUvarint]: seven bits per byte, least significant first. *)
Fixpoint put_loop (fuel : nat) (x : Z) : list Z :=
match fuel with
| O => []
| S f =>
  if x <? 128 then [x]
  else Z.lor (Int.u8 x) 128 :: put_loop f (Z.shiftr x 7)
end.

(** A uint64 takes at most [binary.MaxVarintLen64] = 10 bytes. *)
Definition PutUvarint (x : Z) : list Z := put_loop 10 x.

(** [binary.PutVarint]: zig-zag ([ux := uint64(x) << 1; if x < 0 { ux = ^ux }]). *)
Definition zigzag (x : Z) : Z :=
let ux := Int.u64 (Z.shiftl (Int.u64 x) 1) in
if x <? 0 then Z.lxor ux 18446744073709551615 else ux.

Definition PutVarint (x : Z) : list Z := PutUvarint (zigzag x).

(** [binary.ReadUvarint] on a byte reader: the value and the unread bytes. *)
Fixpoint read_loop (fuel : nat) (i s x : Z) (r : list Z) : result read_error (Z * list Z) :=
match fuel with
| O => Err Overflow
| S f =>
  match r with
  | [] => Err (if i >? 0 then UnexpectedEOF else EOF)
  | b :: r' =>
    if b <? 128 then
      if (i =? 9) && (b >? 1) then Err Overflow
      else Ok (Z.lor x (Int.u64 (Z.shiftl b s)), r')
    else read_loop f (i + 1) (s + 7)
           (Z.lor x (Int.u64 (Z.shiftl (Z.land b 127) s))) r'
  end
end.

Definition ReadUvarint (r : list Z) : result read_error (Z * list Z) := read_loop 10 0 0 0 r.

Definition unzigzag (ux : Z) : Z :=
let x := Int.i64 (Z.shiftr ux 1) in
if negb (Z.land ux 1 =? 0) then Z.lnot x else x.

Definition ReadVarint (r : list Z) : result read_error (Z * list Z) :=
match ReadUvarint r with
| Ok (ux, r') => Ok (unzigzag ux, r')
| Err e => Err e
end.
End Varint.

(** * Readings and strings *)

(** [queue.Reading]: [Value] is [None] for Go's nil pointer. *)
Record Reading := mkReading {
  DeviceID : Z;
  DatapointID : Z;
  Value : option Z;
  Quality : string;
  At : Z
}.

#[export] Instance Reading_eq_dec : EqDecision Reading.
Proof. solve_decision. Defined.

(** [time.Time.UnixMilli], as an int64. *)
Definition UnixMilli (t : Z) : Z := Int.i64 (t / 1000000).

(** [time.UnixMilli]. *)
Definition of_UnixMilli (ms : Z) : Z := ms * 1000000.

(** The bytes of a Go string, and back. *)
Definition byte_of_ascii (a : ascii) : Z := Z.of_N (N_of_ascii a).
Definition ascii_of_byte (b : Z) : ascii := ascii_of_N (Z.to_N b).
Definition string_bytes (s : string) : list Z := map byte_of_ascii (String.list_ascii_of_string s).
Definition bytes_string (bs : list Z) : string :=
  String.string_of_list_ascii (map ascii_of_byte bs).

(** [binary.LittleEndian.PutUint64] and [Uint64]. *)
Fixpoint le_put (n : nat) (v : Z) : list Z :=
  match n with O => [] | S k => Int.u8 v :: le_put k (Z.shiftr v 8) end.
Fixpoint le_get (bs : list Z) : Z :=
  match bs with [] => 0 | b :: bs' => Z.lor b (Z.shiftl (le_get bs') 8) end.

(** * Quality codes *)

Definition qualityGood : Z := 0.
Definition qualityTimeout : Z := 1.
Definition qualityCRCError : Z := 2.
Definition qualityDeviceOffline : Z := 3.
Definition qualityInvalid : Z := 4.
Definition qualityOther : Z := 127.
Definition hasValueBit : Z := 128.
Definition chunkFormatV1 : Z := 1.

Definition qualityCodes : gmap string Z :=
  list_to_map [("GOOD", qualityGood); ("TIMEOUT", qualityTimeout);
    ("CRC_ERROR", qualityCRCError); ("DEVICE_OFFLINE", qualityDeviceOffline);
    ("INVALID", qualityInvalid)].

Definition qualityNames : gmap Z string :=
  list_to_map [(qualityGood, "GOOD"); (qualityTimeout, "TIMEOUT");
    (qualityCRCError, "CRC_ERROR"); (qualityDeviceOffline, "DEVICE_OFFLINE");
    (qualityInvalid, "INVALID")].

(** * Compression, as an interface *)

(** What the codec relies on in compress/flate: reading back a written stream. *)
Class Flate := {
  deflate : list Z -> list Z;
  inflate : list Z -> result string (list Z);
  inflate_deflate : forall raw, Forall Int.is_u8 raw -> inflate (deflate raw) = Ok raw
}.

(** * encodeChunk *)

Inductive encode_error := NegativeID (device datapoint : Z).

(** One record of the list, after the id check: [prev] is the previous
    record's timestamp; [ts - prev] is int64 arithmetic. *)
Definition encode_record (prev : Z) (r : Reading) : list Z :=
  let ts := UnixMilli (At r) in
  let known := qualityCodes !! Quality r in
  let code := match known with Some c => c | None => qualityOther end in
  let code := match Value r with Some _ => Z.lor code hasValueBit | None => code end in
  Varint.PutUvarint (Int.u64 (DatapointID r)) ++
  Varint.PutUvarint (Int.u64 (DeviceID r)) ++
  Varint.PutVarint (Int.i64 (ts - prev)) ++
  [code] ++
  match known with
  | Some _ => []
  | None => let q := string_bytes (Quality r) in
            Varint.PutUvarint (Z.of_nat (length q)) ++ q
  end ++
  match Value r with
  | Some v => le_put 8 v
  | None => []
  end.

Fixpoint encode_records (prev : Z) (rs : list Reading) : result encode_error (list Z) :=
  match rs with
  | [] => Ok []
  | r :: rs' =>
    if (DatapointID r <? 0) || (DeviceID r <? 0)
    then Err (NegativeID (DeviceID r) (DatapointID r))
    else bs ← encode_records (UnixMilli (At r)) rs';
         mret (encode_record prev r ++ bs)
  end.

Definition first_ts (rs : list Reading) : Z :=
  match rs with r :: _ => UnixMilli (At r) | [] => 0 end.

(** The record list, before compression. *)
Definition encode_raw (rs : list Reading) : result encode_error (list Z) :=
  bs ← encode_records (first_ts rs) rs;
  mret (Varint.PutUvarint (Z.of_nat (length rs)) ++ Varint.PutVarint (first_ts rs) ++ bs).

Definition encodeChunk `{Flate} (rs : list Reading) : result encode_error (list Z) :=
  raw ← encode_raw rs;
  mret (chunkFormatV1 :: deflate raw).

(** * decodeChunk *)

Inductive decode_error :=
| EmptyChunk
| UnknownFormat (b : Z)
| Decompress (e : string)
| ReadCount (e : Varint.read_error)
| CountExceedsSize (count : Z)
| ReadBase (e : Varint.read_error)
| BadDatapoint (i : Z) (e : Varint.read_error)
| BadDevice (i : Z) (e : Varint.read_error)
| BadTimestamp (i : Z) (e : Varint.read_error)
| BadQuality (i : Z)
| BadQualityLength (i : Z)
| UnknownQuality (i code : Z)
| BadValue (i : Z).

(** The quality of record [i]: a length-prefixed string for [qualityOther],
    otherwise a known code. *)
Definition decode_quality (i base : Z) (r : list Z) : result decode_error (string * list Z) :=
  if base =? qualityOther then
    match Varint.ReadUvarint r with
    | Err _ => Err (BadQualityLength i)
    | Ok (n, r) =>
      if n >? Z.of_nat (length r) then Err (BadQualityLength i)
      else Ok (bytes_string (take (Z.to_nat n) r), drop (Z.to_nat n) r)
    end
  else match qualityNames !! base with
       | Some name => Ok (name, r)
       | None => Err (UnknownQuality i base)
       end.

Definition decode_value (i code : Z) (r : list Z) : result decode_error (option Z * list Z) :=
  if negb (Z.land code hasValueBit =? 0) then
    if Z.of_nat (length r) <? 8 then Err (BadValue i)
    else Ok (Some (le_get (take 8 r)), drop 8 r)
  else Ok (None, r).

(** One turn of the record loop. *)
Definition decode_record (i prev : Z) (r : list Z) : result decode_error (Reading * Z * list Z) :=
  '(dp, r) ← map_err (BadDatapoint i) (Varint.ReadUvarint r);
  '(dev, r) ← map_err (BadDevice i) (Varint.ReadUvarint r);
  '(delta, r) ← map_err (BadTimestamp i) (Varint.ReadVarint r);
  let prev := Int.i64 (prev + delta) in
  match r with
  | [] => Err (BadQuality i)
  | code :: r =>
    '(q, r) ← decode_quality i (Z.ldiff code hasValueBit) r;
    '(v, r) ← decode_value i code r;
    mret (mkReading (Int.i64 dev) (Int.i64 dp) v q (of_UnixMilli prev), prev, r)
  end.

(** The loop, with the bytes it leaves unread. *)
Fixpoint decode_records (count : nat) (i prev : Z) (r : list Z) :
  result decode_error (list Reading * list Z) :=
  match count with
  | O => Ok ([], r)
  | S k =>
    '(rd, prev, r) ← decode_record i prev r;
    '(rds, r) ← decode_records k (i + 1) prev r;
    mret (rd :: rds, r)
  end.

Definition decode_raw (raw : list Z) : result decode_error (list Reading) :=
  '(count, r) ← map_err ReadCount (Varint.ReadUvarint raw);
  if count >? Z.of_nat (length raw) then Err (CountExceedsSize count)
  else
    '(prev, r) ← map_err ReadBase (Varint.ReadVarint r);
    '(readings, _) ← decode_records (Z.to_nat count) 0 prev r;
    mret readings.

Definition decodeChunk `{Flate} (blob : list Z) : result decode_error (list Reading) :=
  match blob with
  | [] => Err EmptyChunk
  | b :: rest =>
    if negb (b =? chunkFormatV1) then Err (UnknownFormat b)
    else raw ← map_err Decompress (inflate rest); decode_raw raw
  end.

(** * Round trips *)

Module VarintFacts.
Import Varint.

Lemma byte_low7 x : 0 <= x -> Z.lor (Int.u8 x) 128 = 128 + x mod 128.
Proof.
intros Hx. unfold Int.u8.
replace (x mod 256) with (x mod 128 + 128 * (x / 128 mod 2))
  by (change 256 with (128 * 2); rewrite (Z.rem_mul_r x 128 2) by lia; done).
assert (Hm : x / 128 mod 2 = 0 \/ x / 128 mod 2 = 1)
  by (pose proof (Z.mod_pos_bound (x / 128) 2); lia).
assert (H7 : forall y, 0 <= y < 128 -> Z.lor y 128 = y + 128).
{ intros y Hy. change 128 with (Z.shiftl 1 7) at 1. rewrite lor_shiftl_add; lia. }
pose proof (Z.mod_pos_bound x 128 ltac:(lia)) as Hb.
destruct Hm as [->| ->].
- rewrite Z.mul_0_r, Z.add_0_r, H7; lia.
- rewrite Z.mul_1_r, <- H7, <- Z.lor_assoc by done.
  change (Z.lor 128 128) with 128. rewrite H7; lia.
Qed.

Lemma read_put_loop f i s acc x tl :
(0 < f)%nat -> i = 10 - Z.of_nat f -> s = 7 * i -> (f <= 10)%nat ->
0 <= acc < 2 ^ s -> 0 <= x < 2 ^ (64 - s) ->
read_loop f i s acc (put_loop f x ++ tl) = Ok (acc + x * 2 ^ s, tl).
Proof.
revert i s acc x. induction f as [|f IH]; intros i s acc x Hf Hi Hs H10 Hacc Hx; [lia|].
cbn [put_loop read_loop].
assert (Hsmall : forall y, 0 <= y <= x -> Int.u64 (Z.shiftl y s) = Z.shiftl y s).
{ intros y Hy. apply Int.u64_id. rewrite Z.shiftl_mul_pow2 by lia. split; [lia|].
  apply Z.le_lt_trans with (x * 2 ^ s); [apply Z.mul_le_mono_nonneg_r; lia|].
  change 18446744073709551616 with (2 ^ 64).
  replace 64 with (64 - s + s) by lia. rewrite Z.pow_add_r by lia.
  apply Z.mul_lt_mono_pos_r; lia. }
destruct (x <? 128) eqn:Hlt; cbn [app]; zbool.
- rewrite (proj2 (Z.ltb_lt x 128)) by done.
  destruct (decide (i = 9)) as [->|].
  + subst s. change (2 ^ (64 - 7 * 9)) with 2 in Hx.
    destruct (x >? 1) eqn:?; [lia|]. cbn [andb].
    rewrite Hsmall, lor_shiftl_add by lia. done.
  + rewrite (proj2 (Z.eqb_neq i 9)) by done. cbn [andb].
    rewrite Hsmall, lor_shiftl_add by lia. done.
- rewrite byte_low7 by lia.
  pose proof (Z.mod_pos_bound x 128 ltac:(lia)) as Hb.
  rewrite (proj2 (Z.ltb_ge _ 128)) by lia.
  assert (Hland : Z.land (128 + x mod 128) 127 = x mod 128).
  { change 127 with (Z.ones 7). rewrite Z.land_ones by lia.
    change (2 ^ 7) with 128. rewrite <- Z.add_mod_idemp_l by lia.
    change (128 mod 128) with 0. rewrite Z.add_0_l. apply Z.mod_mod. lia. }
  rewrite Hland.
  assert (Hdm : x = 128 * (x / 128) + x mod 128) by (apply Z.div_mod; lia).
  assert (0 < x / 128) by (apply Z.div_str_pos; lia).
  rewrite Hsmall, lor_shiftl_add by lia.
  destruct f as [|f].
  { replace (64 - s) with 1 in Hx by lia. change (2 ^ 1) with 2 in Hx. lia. }
  rewrite Z.shiftr_div_pow2 by lia. change (2 ^ 7) with 128.
  rewrite IH; try lia.
  + f_equal. f_equal. rewrite Z.pow_add_r by lia. change (2 ^ 7) with 128. nia.
  + rewrite Z.pow_add_r by lia. change (2 ^ 7) with 128. nia.
  + split; [lia|]. apply Z.div_lt_upper_bound; [lia|].
    replace (64 - s) with (7 + (64 - (s + 7))) in Hx by lia.
    rewrite Z.pow_add_r in Hx by lia. lia.
Qed.

Lemma read_put_uvarint x tl : Int.is_u64 x -> ReadUvarint (PutUvarint x ++ tl) = Ok (x, tl).
Proof.
intros Hx. unfold ReadUvarint, PutUvarint.
rewrite read_put_loop by (unfold Int.is_u64 in *; lia).
by rewrite Z.add_0_l, Z.mul_1_r.
Qed.

Lemma zigzag_val x : Int.is_i64 x -> zigzag x = if x <? 0 then - 2 * x - 1 else 2 * x.
Proof.
unfold Int.is_i64, zigzag. intros Hx. rewrite Z.shiftl_mul_pow2 by lia.
change (2 ^ 1) with 2. destruct (x <? 0) eqn:Hs; zbool.
- assert (Hu : Int.u64 x = x + 18446744073709551616).
  { unfold Int.u64. rewrite <- (Z_mod_plus_full x 1), Z.mul_1_l. apply Z.mod_small. lia. }
  rewrite Hu. assert (Hv : Int.u64 ((x + 18446744073709551616) * 2)
                           = 2 * x + 18446744073709551616).
  { unfold Int.u64. replace ((x + 18446744073709551616) * 2)
      with (2 * x + 18446744073709551616 + 1 * 18446744073709551616) by lia.
    rewrite Z_mod_plus_full. apply Z.mod_small. lia. }
  rewrite Hv. change 18446744073709551615 with (Z.ones 64).
  rewrite lxor_ones_sub by lia. change (Z.ones 64) with 18446744073709551615. lia.
- rewrite !Int.u64_id by (unfold Int.is_u64; rewrite ?Int.u64_id; unfold Int.is_u64; lia).
  lia.
Qed.

Lemma zigzag_u64 x : Int.is_i64 x -> Int.is_u64 (zigzag x).
Proof.
intros Hx. rewrite zigzag_val by done. unfold Int.is_i64, Int.is_u64 in *.
destruct (x <? 0) eqn:?; zbool; lia.
Qed.

Lemma unzigzag_zigzag x : Int.is_i64 x -> unzigzag (zigzag x) = x.
Proof.
intros Hx. rewrite zigzag_val by done. unfold unzigzag.
rewrite Z.shiftr_div_pow2 by lia. change (2 ^ 1) with 2.
change 1 with (Z.ones 1) at 2. rewrite Z.land_ones by lia. change (2 ^ 1) with 2.
destruct (x <? 0) eqn:Hs; zbool; unfold Int.is_i64 in *.
- replace (- 2 * x - 1) with (1 + (- x - 1) * 2) by lia.
  rewrite Z_mod_plus_full, Z_div_plus_full by lia. cbn [negb Z.eqb].
  change (1 mod 2 =? 0) with false. change (1 / 2) with 0. cbn [negb].
  rewrite Int.i64_id by (unfold Int.is_i64; lia). unfold Z.lnot. lia.
- rewrite (Z.mul_comm 2 x), Z_mod_mult, Z_div_mult by lia. cbn [negb Z.eqb].
  apply Int.i64_id. unfold Int.is_i64. lia.
Qed.

Lemma read_put_varint x tl : Int.is_i64 x -> ReadVarint (PutVarint x ++ tl) = Ok (x, tl).
Proof.
intros Hx. unfold ReadVarint, PutVarint.
rewrite read_put_uvarint by (by apply zigzag_u64). by rewrite unzigzag_zigzag.
Qed.

(** Every byte written is a byte, and at least one is. *)
Lemma put_loop_bytes f x : 0 <= x -> Forall Int.is_u8 (put_loop f x).
Proof.
revert x. induction f as [|f IH]; intros x Hx; cbn; [constructor|].
destruct (x <? 128) eqn:?; zbool.
- repeat constructor; unfold Int.is_u8; lia.
- constructor; [|apply IH, Z.shiftr_nonneg; done].
  rewrite byte_low7 by done. pose proof (Z.mod_pos_bound x 128).
  unfold Int.is_u8. lia.
Qed.

Lemma put_uvarint_nonempty x : (1 <= length (PutUvarint x))%nat.
Proof. unfold PutUvarint. cbn [put_loop]. destruct (x <? 128); cbn; lia. Qed.
End VarintFacts.

Module CodecFacts.
Import VarintFacts.

(** A reading a Go program can hold: int64 ids that are not negative (the
  encoder refuses others), a 64-bit value pattern, a string of int length. *)
Record wf_reading (r : Reading) : Prop := {
wf_dev : 0 <= DeviceID r < Int.two63;
wf_dp : 0 <= DatapointID r < Int.two63;
wf_value : from_option Int.is_u64 True (Value r);
wf_quality : Z.of_nat (String.length (Quality r)) < Int.two63
}.

(** What the codec keeps of a reading: its instant to the millisecond. *)
Definition truncate (r : Reading) : Reading :=
mkReading (DeviceID r) (DatapointID r) (Value r) (Quality r)
  (of_UnixMilli (UnixMilli (At r))).

Lemma le_get_put n v tl :
0 <= v < 2 ^ (8 * Z.of_nat n) -> le_get (le_put n v) = v /\
take n (le_put n v ++ tl) = le_put n v /\ drop n (le_put n v ++ tl) = tl.
Proof.
revert v. induction n as [|n IH]; intros v Hv; cbn [le_put le_get app take drop].
{ change (2 ^ (8 * Z.of_nat 0)) with 1 in Hv. repeat split; lia. }
destruct (IH (Z.shiftr v 8)) as (Hg & -> & ->).
{ rewrite Z.shiftr_div_pow2 by lia. split; [apply Z.div_pos; lia|].
  apply Z.div_lt_upper_bound; [lia|]. rewrite <- Z.pow_add_r by lia.
  replace (8 + 8 * Z.of_nat n) with (8 * Z.of_nat (S n)) by lia. lia. }
repeat split. rewrite Hg, lor_shiftl_add;
  [|lia|apply Int.u8_range].
rewrite Z.shiftr_div_pow2 by lia. unfold Int.u8. change (2 ^ 8) with 256.
pose proof (Z.div_mod v 256). lia.
Qed.

Lemma bytes_string_bytes q : bytes_string (string_bytes q) = q.
Proof.
unfold bytes_string, string_bytes. rewrite map_map.
erewrite map_ext; [rewrite map_id; apply String.string_of_list_ascii_of_string|].
intros a. unfold ascii_of_byte, byte_of_ascii. rewrite N2Z.id. apply ascii_N_embedding.
Qed.

Lemma length_string_bytes q : length (string_bytes q) = String.length q.
Proof.
unfold string_bytes. rewrite length_map.
induction q as [|a q IH]; cbn; congruence.
Qed.

Lemma string_bytes_u8 q : Forall Int.is_u8 (string_bytes q).
Proof.
unfold string_bytes. apply Forall_map, Forall_true. intros a.
unfold byte_of_ascii, Int.is_u8. pose proof (N_ascii_bounded a). lia.
Qed.

(** The two quality tables are inverse to each other. *)
Lemma quality_tables q c :
qualityCodes !! q = Some c -> qualityNames !! c = Some q /\ 0 <= c <= 4.
Proof.
intros H. apply elem_of_list_to_map_2 in H.
repeat (apply elem_of_cons in H as [H|H]; [simplify_eq; split; [done|cbv; split; discriminate]|]).
by apply elem_of_nil in H.
Qed.

Lemma code_bits c : 0 <= c <= 4 \/ c = qualityOther ->
Z.ldiff c hasValueBit = c /\ Z.ldiff (Z.lor c hasValueBit) hasValueBit = c /\
Z.land c hasValueBit = 0 /\ Z.land (Z.lor c hasValueBit) hasValueBit <> 0 /\
Int.is_u8 c /\ Int.is_u8 (Z.lor c hasValueBit).
Proof.
intros H. assert (Hc : c = 0 \/ c = 1 \/ c = 2 \/ c = 3 \/ c = 4 \/ c = 127)
  by (unfold qualityOther in H; lia).
repeat destruct Hc as [->|Hc]; [..|subst c]; repeat split; try done; cbv; discriminate.
Qed.

Lemma record_round_trip i prev r tl :
wf_reading r -> Int.is_i64 prev ->
decode_record i prev (encode_record prev r ++ tl) =
  Ok (truncate r, UnixMilli (At r), tl).
Proof.
intros [Hdev Hdp Hval Hq] Hprev. unfold Int.two63 in *.
unfold decode_record, encode_record.
rewrite !Int.u64_id by (unfold Int.is_u64; lia).
rewrite <- !app_assoc.
rewrite read_put_uvarint by (unfold Int.is_u64; lia). cbn [map_err mbind result_bind].
rewrite read_put_uvarint by (unfold Int.is_u64; lia). cbn [map_err mbind result_bind].
rewrite read_put_varint by apply Int.i64_range. cbn [map_err mbind result_bind app].
rewrite Int.i64_add_sub by apply Int.i64_range.
set (c := match qualityCodes !! Quality r with Some c => c | None => qualityOther end).
assert (Hc : 0 <= c <= 4 \/ c = qualityOther).
{ subst c. destruct (qualityCodes !! Quality r) eqn:Hl; [|by right].
  left. apply (quality_tables _ _ Hl). }
destruct (code_bits c Hc) as (B1 & B2 & B3 & B4 & _).
assert (Hbase : Z.ldiff match Value r with Some _ => Z.lor c hasValueBit | None => c end
                  hasValueBit = c) by (by destruct (Value r)).
rewrite Hbase.
assert (Hdq : forall tl', decode_quality i c
  (match qualityCodes !! Quality r with
   | Some _ => []
   | None => Varint.PutUvarint (Z.of_nat (length (string_bytes (Quality r))))
             ++ string_bytes (Quality r)
   end ++ tl') = Ok (Quality r, tl')).
{ intros tl'. unfold decode_quality. subst c.
  destruct (qualityCodes !! Quality r) as [c|] eqn:Hl.
  - destruct (quality_tables _ _ Hl) as [Hn Hr].
    rewrite (proj2 (Z.eqb_neq c qualityOther)) by (unfold qualityOther; lia).
    by rewrite Hn.
  - change (qualityOther =? qualityOther) with true. cbn [app].
    rewrite <- app_assoc, read_put_uvarint
      by (rewrite length_string_bytes; unfold Int.is_u64; lia).
    rewrite length_app, Z.gtb_ltb. rewrite (proj2 (Z.ltb_ge _ _)) by lia.
    rewrite Nat2Z.id, take_app_length, drop_app_length, bytes_string_bytes. done. }
rewrite Hdq. cbn [mbind result_bind]. unfold decode_value.
rewrite !(Int.i64_id (DeviceID r)), !(Int.i64_id (DatapointID r)) by (unfold Int.is_i64; lia).
destruct (Value r) as [v|] eqn:Hv; cbn [from_option] in Hval.
- rewrite (proj2 (Z.eqb_neq _ _) B4). cbn [negb].
  destruct (le_get_put 8 v tl) as (Hg & Ht & Hd); [exact Hval|].
  rewrite Ht, Hd, Hg.
  destruct (_ <? 8) eqn:H8; zbool; [rewrite length_app in H8; cbn in H8; lia|].
  cbn. unfold truncate. by rewrite Hv.
- rewrite B3. cbn. unfold truncate. by rewrite Hv.
Qed.

Lemma encode_record_length prev r : (4 <= length (encode_record prev r))%nat.
Proof.
unfold encode_record. rewrite !length_app.
pose proof (put_uvarint_nonempty (Int.u64 (DatapointID r))).
pose proof (put_uvarint_nonempty (Int.u64 (DeviceID r))).
pose proof (put_uvarint_nonempty (Varint.zigzag (Int.i64 (UnixMilli (At r) - prev)))).
unfold Varint.PutVarint. cbn [length]. lia.
Qed.

Lemma encode_record_bytes prev r : wf_reading r -> Forall Int.is_u8 (encode_record prev r).
Proof.
intros [Hdev Hdp Hval Hq]. unfold Int.two63 in *. unfold encode_record.
assert (Hu : forall x, Forall Int.is_u8 (Varint.PutUvarint (Int.u64 x)))
  by (intros x; apply put_loop_bytes, Int.u64_range).
rewrite !Forall_app. split_and!; try apply Hu.
- apply put_loop_bytes, zigzag_u64, Int.i64_range.
- constructor; [|constructor].
  assert (Hc : forall c, 0 <= c <= 4 \/ c = qualityOther -> Int.is_u8
    (match Value r with Some _ => Z.lor c hasValueBit | None => c end))
    by (intros c H; destruct (code_bits c H) as (_ & _ & _ & _ & ? & ?); by destruct (Value r)).
  apply Hc. destruct (qualityCodes !! Quality r) eqn:Hl; [left; apply (quality_tables _ _ Hl)|by right].
- destruct (qualityCodes !! Quality r); [constructor|].
  apply Forall_app. split; [apply put_loop_bytes; lia|apply string_bytes_u8].
- destruct (Value r) as [v|]; [|constructor].
  generalize 8%nat v. induction n as [|n IH]; intros w; cbn; constructor;
    [apply Int.u8_range|apply IH].
Qed.

(** On readings with valid ids the encoder cannot fail, and the decoder's
  record loop reads back exactly what it wrote. *)
Lemma records_round_trip i prev rs tl :
Forall wf_reading rs -> Int.is_i64 prev ->
exists bs, encode_records prev rs = Ok bs /\
  decode_records (length rs) i prev (bs ++ tl) = Ok (map truncate rs, tl) /\
  (4 * length rs <= length bs)%nat /\ Forall Int.is_u8 bs.
Proof.
intros Hwf. revert i prev. induction Hwf as [|r rs Hr _ IH]; intros i prev Hprev.
{ exists []. split_and!; [done|done|cbn; lia|constructor]. }
destruct (IH (i + 1) (UnixMilli (At r)) (Int.i64_range _)) as (bs & He & Hd & Hlen & Hbytes).
exists (encode_record prev r ++ bs). cbn [encode_records]. rewrite He.
pose proof (wf_dev r Hr) as Hdev. pose proof (wf_dp r Hr) as Hdp.
rewrite (proj2 (Z.ltb_ge (DatapointID r) 0)), (proj2 (Z.ltb_ge (DeviceID r) 0)) by lia.
split_and!; [done| | |].
- cbn [decode_records length]. rewrite <- app_assoc, record_round_trip by done.
  cbn [mbind result_bind]. by rewrite Hd.
- rewrite length_app. pose proof (encode_record_length prev r). cbn [length]. lia.
- apply Forall_app. split; [by apply encode_record_bytes|done].
Qed.

(** The raw record list of valid readings: encodable, made of bytes, and
  read back exactly, with nothing left over. *)
Lemma raw_round_trip rs :
Forall wf_reading rs -> Z.of_nat (length rs) < Int.two63 ->
exists raw bs, encode_raw rs = Ok raw /\ Forall Int.is_u8 raw /\
  raw = Varint.PutUvarint (Z.of_nat (length rs)) ++ Varint.PutVarint (first_ts rs) ++ bs /\
  decode_records (length rs) 0 (first_ts rs) bs = Ok (map truncate rs, []) /\
  (length rs <= length raw)%nat.
Proof.
intros Hwf Hlen. unfold Int.two63 in Hlen.
assert (Hf : Int.is_i64 (first_ts rs))
  by (destruct rs; [split; cbn; lia|apply Int.i64_range]).
destruct (records_round_trip 0 (first_ts rs) rs [] Hwf Hf) as (bs & He & Hd & Hl & Hb).
rewrite app_nil_r in Hd. unfold encode_raw. rewrite He.
exists (Varint.PutUvarint (Z.of_nat (length rs)) ++ Varint.PutVarint (first_ts rs) ++ bs), bs.
split_and!; try done.
- rewrite !Forall_app. split_and!; [|apply put_loop_bytes, zigzag_u64; done|done].
  apply put_loop_bytes. lia.
- rewrite !length_app. lia.
Qed.

Lemma decode_raw_round_trip rs raw :
Forall wf_reading rs -> Z.of_nat (length rs) < Int.two63 ->
encode_raw rs = Ok raw -> decode_raw raw = Ok (map truncate rs).
Proof.
intros Hwf Hlen Henc.
destruct (raw_round_trip rs Hwf Hlen) as (raw' & bs & He & Hb & Hraw & Hd & Hl).
assert (raw' = raw) as -> by congruence. clear He. unfold Int.two63 in Hlen.
unfold decode_raw. rewrite Hraw at 1.
rewrite read_put_uvarint by (unfold Int.is_u64; lia). cbn [map_err mbind result_bind].
rewrite Z.gtb_ltb, (proj2 (Z.ltb_ge _ _)) by lia.
rewrite read_put_varint
  by (destruct rs; [split; cbn; lia|apply Int.i64_range]).
cbn [map_err mbind result_bind]. by rewrite Nat2Z.id, Hd.
Qed.

Lemma encode_then_decode `{Flate} rs :
Forall wf_reading rs -> Z.of_nat (length rs) < Int.two63 ->
exists blob, encodeChunk rs = Ok blob /\ decodeChunk blob = Ok (map truncate rs).
Proof.
intros Hwf Hlen. destruct (raw_round_trip rs Hwf Hlen) as (raw & bs & He & Hb & _).
exists (chunkFormatV1 :: deflate raw). unfold encodeChunk. rewrite He. split; [done|].
cbn. rewrite inflate_deflate by done. res_simpl. by apply decode_raw_round_trip.
Qed.
End CodecFacts.

(** * Reading past the end *)

(** A decoder is stable when more bytes after the ones it read change nothing. *)
Module PrefixFacts.
Definition stable {E A} (d : list Z -> result E (A * list Z)) : Prop :=
forall r t a r', d r = Ok (a, r') -> d (r ++ t) = Ok (a, r' ++ t).

Lemma stable_read_loop f i s x : stable (Varint.read_loop f i s x).
Proof.
revert i s x. induction f as [|f IH]; intros i s x [|b r] t a r'; cbn [Varint.read_loop app];
  try done.
destruct (b <? 128); [destruct (_ && _); intros; by simplify_eq|apply IH].
Qed.

Lemma stable_uvarint : stable Varint.ReadUvarint.
Proof. apply stable_read_loop. Qed.

Lemma stable_varint : stable Varint.ReadVarint.
Proof.
intros r t a r'. unfold Varint.ReadVarint.
destruct (Varint.ReadUvarint r) as [[u r1]|] eqn:H; [|done].
intros ?; simplify_eq. by rewrite (stable_uvarint _ t _ _ H).
Qed.

Lemma stable_quality i base : stable (decode_quality i base).
Proof.
intros r t a r'. unfold decode_quality. destruct (base =? qualityOther).
- destruct (Varint.ReadUvarint r) as [[n r1]|] eqn:H; [|done].
  rewrite (stable_uvarint _ t _ _ H), !Z.gtb_ltb, length_app.
  destruct (_ <? n) eqn:Hn; [done|]. intros ?; simplify_eq. zbool.
  rewrite (proj2 (Z.ltb_ge _ _)) by lia.
  by rewrite take_app_le, drop_app_le by lia.
- destruct (qualityNames !! base); intros ?; by simplify_eq.
Qed.

Lemma stable_value i code : stable (decode_value i code).
Proof.
intros r t a r'. unfold decode_value. destruct (negb _); [|intros; by simplify_eq].
destruct (_ <? 8) eqn:Hn; [done|]. intros ?; simplify_eq. zbool.
rewrite length_app, (proj2 (Z.ltb_ge _ _)) by lia.
by rewrite take_app_le, drop_app_le by lia.
Qed.

Lemma stable_map_err {E F A} (f : E -> F) (d : list Z -> result E (A * list Z)) :
stable d -> stable (fun r => map_err f (d r)).
Proof.
intros Hd r t a r'. destruct (d r) as [[a1 r1]|] eqn:H; res_simpl; [|done].
intros ?; simplify_eq. by rewrite (Hd _ t _ _ H).
Qed.

Lemma stable_bind {E A B} (d : list Z -> result E (A * list Z))
  (k : A -> list Z -> result E (B * list Z)) :
stable d -> (forall a, stable (k a)) ->
stable (fun r => x ← d r; k x.1 x.2).
Proof.
intros Hd Hk r t b r'. destruct (d r) as [[a r1]|] eqn:H; res_simpl; [|done].
intros H'. rewrite (Hd _ t _ _ H). by apply Hk.
Qed.

Lemma stable_record i prev : stable (decode_record i prev).
Proof.
intros r t [rd pv] r'. unfold decode_record.
destruct (Varint.ReadUvarint r) as [[dp r1]|] eqn:H1; res_simpl; [|done].
rewrite (stable_uvarint _ t _ _ H1). res_simpl.
destruct (Varint.ReadUvarint r1) as [[dev r2]|] eqn:H2; res_simpl; [|done].
rewrite (stable_uvarint _ t _ _ H2). res_simpl.
destruct (Varint.ReadVarint r2) as [[delta r3]|] eqn:H3; res_simpl; [|done].
rewrite (stable_varint _ t _ _ H3). res_simpl.
destruct r3 as [|code r3]; [done|]. cbn [app].
destruct (decode_quality _ _ r3) as [[q r4]|] eqn:H4; res_simpl; [|done].
rewrite (stable_quality _ _ _ t _ _ H4). res_simpl.
destruct (decode_value _ _ r4) as [[v r5]|] eqn:H5; res_simpl; [|done].
rewrite (stable_value _ _ _ t _ _ H5). res_simpl. intros; by simplify_eq.
Qed.

Lemma stable_records n i prev : stable (decode_records n i prev).
Proof.
revert i prev. induction n as [|n IH]; intros i prev r t rds r'; cbn [decode_records].
{ intros; by simplify_eq. }
destruct (decode_record i prev r) as [[[rd pv] r1]|] eqn:H1; res_simpl; [|done].
rewrite (stable_record _ _ _ t _ _ H1). res_simpl.
destruct (decode_records n _ _ r1) as [[rds1 r2]|] eqn:H2; res_simpl; [|done].
rewrite (IH _ _ _ t _ _ H2). res_simpl. intros; by simplify_eq.
Qed.
End PrefixFacts.

(** * Properties *)

Import CodecFacts.

(** C38. A chunk written by [encodeChunk] is read back by [decodeChunk] with
    every reading in order and unchanged, except that its instant keeps
    milliseconds only: ids, the exact 64-bit value pattern (NaN payloads
    included), missing values and arbitrary quality strings all survive. *)
Theorem chunk_round_trip `{Flate} rs :
  Forall wf_reading rs -> Z.of_nat (length rs) < Int.two63 ->
  exists blob, encodeChunk rs = Ok blob /\ decodeChunk blob = Ok (map truncate rs).
Proof. apply encode_then_decode. Qed.

(** The stored-only compressor: a concrete instance of the interface. *)
#[local] Instance stored_flate : Flate :=
  {| deflate := fun raw => raw; inflate := fun z => Ok z; inflate_deflate := fun _ _ => eq_refl |}.

Definition sample_readings : list Reading :=
  [mkReading 3 7 (Some 4607182418800017408) "GOOD" 1700000000123456789;
   mkReading 3 8 None "FOO" 1600000000123456789].

Lemma chunk_round_trip_witness :
  exists blob, encodeChunk sample_readings = Ok blob /\
    decodeChunk blob = Ok (map truncate sample_readings).
Proof.
  apply (chunk_round_trip sample_readings).
  - repeat constructor; cbv; try done; discriminate.
  - reflexivity.
Defined.

(** A record list cut short anywhere is rejected: no proper prefix of the
    encoded bytes decodes, so a truncated chunk never passes for a shorter one. *)
Theorem truncated_chunk_rejected rs raw p s :
  Forall wf_reading rs -> Z.of_nat (length rs) < Int.two63 ->
  encode_raw rs = Ok raw -> raw = p ++ s -> s <> [] ->
  exists e, decode_raw p = Err e.
Proof.
  intros Hwf Hlen Henc Hps Hs.
  destruct (raw_round_trip rs Hwf Hlen) as (raw' & bs & He & Hb & Hraw & Hd & Hl).
  assert (raw' = raw) as -> by congruence. unfold Int.two63 in Hlen.
  destruct (decode_raw p) as [rds|e] eqn:Hp; [|by exists e]. exfalso.
  unfold decode_raw in Hp.
  destruct (Varint.ReadUvarint p) as [[n r1]|] eqn:H1; res_simpl in Hp; [|done].
  destruct (n >? _); [done|].
  destruct (Varint.ReadVarint r1) as [[prev r2]|] eqn:H2; res_simpl in Hp; [|done].
  destruct (decode_records (Z.to_nat n) 0 prev r2) as [[rs' rest]|] eqn:H3; res_simpl in Hp; [|done].
  apply (PrefixFacts.stable_uvarint _ s) in H1. apply (PrefixFacts.stable_varint _ s) in H2.
  apply (PrefixFacts.stable_records _ _ _ _ s) in H3.
  rewrite <- Hps, Hraw, VarintFacts.read_put_uvarint in H1 by (unfold Int.is_u64; lia).
  injection H1 as <- Hr1. rewrite <- Hr1, VarintFacts.read_put_varint in H2
    by (destruct rs; [split; cbn; lia|apply Int.i64_range]).
  injection H2 as <- Hr2. rewrite Nat2Z.id, <- Hr2, Hd in H3. simplify_eq.
  by destruct rest.
Qed.

Definition sample_raw : list Z := from_option id [] (match encode_raw sample_readings with Ok b => Some b | Err _ => None end).

Lemma truncated_chunk_rejected_witness :
  exists e, decode_raw (take 20 sample_raw) = Err e.
Proof.
  apply (truncated_chunk_rejected sample_readings sample_raw _ (drop 20 sample_raw)).
  - repeat constructor; cbv; try done; discriminate.
  - reflexivity.
  - reflexivity.
  - by rewrite take_drop.
  - vm_compute. discriminate.
Defined.

(** The encoder fails exactly when some reading has a negative id, and then
    its error names the first such reading. *)
Theorem encode_error_iff `{Flate} rs e :
  encodeChunk rs = Err e <->
  exists pre r post, rs = pre ++ r :: post /\
    Forall (fun x => 0 <= DatapointID x /\ 0 <= DeviceID x) pre /\
    (DatapointID r < 0 \/ DeviceID r < 0) /\
    e = NegativeID (DeviceID r) (DatapointID r).
Proof.
  assert (Hrec : forall prev, encode_records prev rs = Err e <->
    exists pre r post, rs = pre ++ r :: post /\
      Forall (fun x => 0 <= DatapointID x /\ 0 <= DeviceID x) pre /\
      (DatapointID r < 0 \/ DeviceID r < 0) /\ e = NegativeID (DeviceID r) (DatapointID r)).
  { induction rs as [|r rs IH]; intros prev; cbn [encode_records].
    { split; [done|]. by intros ([] & ? & ? & ? & _). }
    destruct ((DatapointID r <? 0) || (DeviceID r <? 0)) eqn:Hneg.
    - apply orb_true_iff in Hneg. rewrite !Z.ltb_lt in Hneg. split.
      + intros ?; simplify_eq. by exists [], r, rs.
      + intros ([|y pre] & r' & post & ? & Hpre & ? & ->); cbn in *; simplify_eq; [done|].
        inversion Hpre; subst. lia.
    - zbool. transitivity (encode_records (UnixMilli (At r)) rs = Err e).
      { destruct (encode_records _ rs); res_simpl; split; intros; by simplify_eq. }
      rewrite IH. split.
      + intros (pre & r' & post & -> & ? & ? & ->). exists (r :: pre), r', post.
        split_and!; try done. by constructor.
      + intros ([|y pre] & r' & post & ? & Hpre & ? & ->); cbn in *; simplify_eq; [lia|].
        inversion Hpre; subst. by exists pre, r', post. }
  rewrite <- (Hrec (first_ts rs)). unfold encodeChunk, encode_raw.
  destruct (encode_records _ rs); res_simpl; split; intros; by simplify_eq.
Qed.
