(* ===== verification/QueueDb.v ===== *)
(** The store-and-forward queue's database (queue.db) and the state of
    [queue.Store] (internal/queue/store.go): the tables and the SQL statements
    the store runs on them, transactions, and the in-memory fields.

    Every SQL statement may fail: the environment says which do, by the number
    of statements run so far.  A failed statement changes nothing, and a
    transaction that does not commit is rolled back. *)

From S2P Require Import Prelude Float64 Codec.

Local Open Scope string_scope.
Local Open Scope list_scope.
Local Open Scope Z_scope.

(** * queue.db *)

(** A row of table [chunk], and a value of table [meta]. *)
Record Row := mkRow {
  seq : Z;
  row_first : Z;
  row_last : Z;
  row_n : Z;
  row_data : list Z
}.
Inductive MetaVal := VInt (z : Z) | VText (s : string).

(** [chunk] is in primary-key order; [seq_hi] is the AUTOINCREMENT high-water
    mark of [sqlite_sequence], so a seq is never reused. *)
Record Db := mkDb {
  chunk : list Row;
  seq_hi : Z;
  meta : gmap string MetaVal
}.

#[export] Instance Row_eq_dec : EqDecision Row.
Proof. solve_decision. Defined.

Definition empty_db : Db := mkDb [] 0 ∅.

(** [INSERT INTO chunk (first_ts, last_ts, n, data) VALUES (...)]. *)
Definition insert_chunk (f l n : Z) (data : list Z) (d : Db) : Db :=
  mkDb (chunk d ++ [mkRow (seq_hi d + 1) f l n data]) (seq_hi d + 1) (meta d).

(** [DELETE FROM chunk WHERE seq <= ?] and [... WHERE seq = ?]. *)
Definition above (q : Z) (rows : list Row) : list Row := filter (fun r => q < seq r) rows.
Definition upto (q : Z) (rows : list Row) : list Row := filter (fun r => seq r <= q) rows.
Definition delete_upto (q : Z) (d : Db) : Db := mkDb (above q (chunk d)) (seq_hi d) (meta d).
Definition delete_seq (q : Z) (d : Db) : Db :=
  mkDb (filter (fun r => seq r <> q) (chunk d)) (seq_hi d) (meta d).

(** The number of rows of a list and the readings in them, as SQL's
    [COUNT( * )] and [COALESCE(SUM(n), 0)]. *)
Definition count_rows (rows : list Row) : Z := Z.of_nat (length rows).
Definition sum_n (rows : list Row) : Z := sumZ row_n rows.

(** [INSERT INTO meta ... ON CONFLICT(key) DO UPDATE SET value = value + excluded.value]. *)
Definition add_meta (key : string) (delta : Z) (d : Db) : Db :=
  mkDb (chunk d) (seq_hi d)
    (match meta d !! key with
     | Some (VInt v) => <[key := VInt (v + delta)]> (meta d)
     | Some (VText _) | None => <[key := VInt delta]> (meta d)
     end).

(** * Options, and the fields of [Store] *)

Record Options := mkOptions {
  MaxBytes : Z;
  MinFreePercent : f64;
  FlushInterval : Z;
  MaintenanceInterval : Z;
  MaxUnflushedChunks : Z;
  DiskUsage : option (nat -> result string (Z * Z))
}.

Record pendingChunk := mkPending {
  firstTs : Z;
  lastTs : Z;
  pend_n : Z;
  pend_data : list Z
}.

(** [clk] counts the calls to the outside world made so far; [rates] holds
    (instant, total) samples. *)
Record Store := mkStore {
  db : Db;
  clk : nat;
  streamID : string;
  appended : Z;
  buf : list Reading;
  unflushed : list pendingChunk;
  pendingChunks : Z;
  pendingReadings : Z;
  oldestTs : Z;
  newestTs : Z;
  dbBytes : Z;
  evicted : Z;
  dropped : Z;
  rates : list (Z * Z);
  writtenBytes : Z;
  writtenReadings : Z;
  opts : Options
}.

Definition set_db (v : Db) (s : Store) : Store :=
  mkStore v (clk s) (streamID s) (appended s) (buf s) (unflushed s) (pendingChunks s) (pendingReadings s) (oldestTs s) (newestTs s) (dbBytes s) (evicted s) (dropped s) (rates s) (writtenBytes s) (writtenReadings s) (opts s).
Definition set_clk (v : nat) (s : Store) : Store :=
  mkStore (db s) v (streamID s) (appended s) (buf s) (unflushed s) (pendingChunks s) (pendingReadings s) (oldestTs s) (newestTs s) (dbBytes s) (evicted s) (dropped s) (rates s) (writtenBytes s) (writtenReadings s) (opts s).
Definition set_streamID (v : string) (s : Store) : Store :=
  mkStore (db s) (clk s) v (appended s) (buf s) (unflushed s) (pendingChunks s) (pendingReadings s) (oldestTs s) (newestTs s) (dbBytes s) (evicted s) (dropped s) (rates s) (writtenBytes s) (writtenReadings s) (opts s).
Definition set_appended (v : Z) (s : Store) : Store :=
  mkStore (db s) (clk s) (streamID s) v (buf s) (unflushed s) (pendingChunks s) (pendingReadings s) (oldestTs s) (newestTs s) (dbBytes s) (evicted s) (dropped s) (rates s) (writtenBytes s) (writtenReadings s) (opts s).
Definition set_buf (v : list Reading) (s : Store) : Store :=
  mkStore (db s) (clk s) (streamID s) (appended s) v (unflushed s) (pendingChunks s) (pendingReadings s) (oldestTs s) (newestTs s) (dbBytes s) (evicted s) (dropped s) (rates s) (writtenBytes s) (writtenReadings s) (opts s).
Definition set_unflushed (v : list pendingChunk) (s : Store) : Store :=
  mkStore (db s) (clk s) (streamID s) (appended s) (buf s) v (pendingChunks s) (pendingReadings s) (oldestTs s) (newestTs s) (dbBytes s) (evicted s) (dropped s) (rates s) (writtenBytes s) (writtenReadings s) (opts s).
Definition set_pendingChunks (v : Z) (s : Store) : Store :=
  mkStore (db s) (clk s) (streamID s) (appended s) (buf s) (unflushed s) v (pendingReadings s) (oldestTs s) (newestTs s) (dbBytes s) (evicted s) (dropped s) (rates s) (writtenBytes s) (writtenReadings s) (opts s).
Definition set_pendingReadings (v : Z) (s : Store) : Store :=
  mkStore (db s) (clk s) (streamID s) (appended s) (buf s) (unflushed s) (pendingChunks s) v (oldestTs s) (newestTs s) (dbBytes s) (evicted s) (dropped s) (rates s) (writtenBytes s) (writtenReadings s) (opts s).
Definition set_oldestTs (v : Z) (s : Store) : Store :=
  mkStore (db s) (clk s) (streamID s) (appended s) (buf s) (unflushed s) (pendingChunks s) (pendingReadings s) v (newestTs s) (dbBytes s) (evicted s) (dropped s) (rates s) (writtenBytes s) (writtenReadings s) (opts s).
Definition set_newestTs (v : Z) (s : Store) : Store :=
  mkStore (db s) (clk s) (streamID s) (appended s) (buf s) (unflushed s) (pendingChunks s) (pendingReadings s) (oldestTs s) v (dbBytes s) (evicted s) (dropped s) (rates s) (writtenBytes s) (writtenReadings s) (opts s).
Definition set_dbBytes (v : Z) (s : Store) : Store :=
  mkStore (db s) (clk s) (streamID s) (appended s) (buf s) (unflushed s) (pendingChunks s) (pendingReadings s) (oldestTs s) (newestTs s) v (evicted s) (dropped s) (rates s) (writtenBytes s) (writtenReadings s) (opts s).
Definition set_evicted (v : Z) (s : Store) : Store :=
  mkStore (db s) (clk s) (streamID s) (appended s) (buf s) (unflushed s) (pendingChunks s) (pendingReadings s) (oldestTs s) (newestTs s) (dbBytes s) v (dropped s) (rates s) (writtenBytes s) (writtenReadings s) (opts s).
Definition set_dropped (v : Z) (s : Store) : Store :=
  mkStore (db s) (clk s) (streamID s) (appended s) (buf s) (unflushed s) (pendingChunks s) (pendingReadings s) (oldestTs s) (newestTs s) (dbBytes s) (evicted s) v (rates s) (writtenBytes s) (writtenReadings s) (opts s).
Definition set_rates (v : list (Z * Z)) (s : Store) : Store :=
  mkStore (db s) (clk s) (streamID s) (appended s) (buf s) (unflushed s) (pendingChunks s) (pendingReadings s) (oldestTs s) (newestTs s) (dbBytes s) (evicted s) (dropped s) v (writtenBytes s) (writtenReadings s) (opts s).
Definition set_writtenBytes (v : Z) (s : Store) : Store :=
  mkStore (db s) (clk s) (streamID s) (appended s) (buf s) (unflushed s) (pendingChunks s) (pendingReadings s) (oldestTs s) (newestTs s) (dbBytes s) (evicted s) (dropped s) (rates s) v (writtenReadings s) (opts s).
Definition set_writtenReadings (v : Z) (s : Store) : Store :=
  mkStore (db s) (clk s) (streamID s) (appended s) (buf s) (unflushed s) (pendingChunks s) (pendingReadings s) (oldestTs s) (newestTs s) (dbBytes s) (evicted s) (dropped s) (rates s) (writtenBytes s) v (opts s).
Definition set_opts (v : Options) (s : Store) : Store :=
  mkStore (db s) (clk s) (streamID s) (appended s) (buf s) (unflushed s) (pendingChunks s) (pendingReadings s) (oldestTs s) (newestTs s) (dbBytes s) (evicted s) (dropped s) (rates s) (writtenBytes s) (writtenReadings s) v.

(** * The environment *)

(** What the store asks of the outside world, by call number: which SQL
    statements fail, the clock; and, of code not in the repository, SQLite's
    file layout, uuid, and the CPU's float conversion outside int64. *)
Class Env := {
  sql_fault : nat -> bool;
  now : nat -> Z;
  page_count : nat -> Db -> Z;
  page_size : Z;
  new_uuid : string;
  conv_oob : f64 -> Z
}.

Inductive qerror :=
| SqlErr
| WriteChunks (e : qerror)
| StoreStreamID (e : qerror)
| ReadStreamID (e : qerror)
| InitDb (e : qerror)
| Joined (e1 e2 : qerror).

#[export] Instance qerror_eq_dec : EqDecision qerror.
Proof. solve_decision. Defined.

Abbreviation Q := (M qerror Store).

Section Sql.
Context `{Env}.

Definition tick (s : Store) : Store := set_clk (S (clk s)) s.

(** Run one statement: it fails, or computes on the database. *)
Definition sql {A} (f : Db -> A * Db) : Q A :=
fun s =>
  if sql_fault (clk s) then (Err SqlErr, tick s)
  else let '(a, d) := f (db s) in (Ok a, set_db d (tick s)).

Definition exec (f : Db -> Db) : Q unit := sql (fun d => (tt, f d)).
Definition query {A} (f : Db -> A) : Q A := sql (fun d => (f d, d)).

(** [tx := BeginTx(); defer tx.Rollback(); body; tx.Commit()].  The body
  returns whether it reached the commit: a return before it rolls back. *)
Definition transaction {A} (body : Q (bool * A)) : Q A :=
fun s0 =>
  match exec id s0 with
  | (Err e, s1) => (Err e, s1)
  | (Ok _, s1) =>
    match body s1 with
    | (Err e, s2) => (Err e, set_db (db s1) s2)
    | (Ok (false, a), s2) => (Ok a, set_db (db s1) s2)
    | (Ok (true, a), s2) =>
      match exec id s2 with
      | (Err e, s3) => (Err e, set_db (db s1) s3)
      | (Ok _, s3) => (Ok a, s3)
      end
    end
  end.

Definition addMeta (key : string) (delta : Z) : Q unit := exec (add_meta key delta).
End Sql.
