(* ===== verification/QueueStore.v ===== *)
(** The store-and-forward queue (internal/queue/store.go and capacity.go):
    every operation of [queue.Store], statement by statement.

    A function the code returns no error from is a [Store -> Store]; one that
    returns an error is a [Q A].  Sections of a Go function that hold a mutex,
    or run one transaction, are definitions of their own, so that the
    concurrent runs of file QueueSteps interleave them. *)

From stdpp Require Import pretty.
From S2P Require Import Prelude Float64 Codec QueueDb.

Local Open Scope string_scope.
Local Open Scope list_scope.
Local Open Scope Z_scope.

(** [queue.Chunk]. *)
Record Chunk := mkChunk { Seq : Z; Readings : list Reading }.

Definition defaultMaxBytes : Z := 1073741824.
Definition defaultMinFreePercent : f64 := of_Z 10.
Definition defaultFlushInterval : Z := 2000000000.
Definition defaultMaintenanceInterval : Z := 30000000000.
Definition defaultMaxUnflushedChunks : Z := 150.
Definition maxEvictChunksPerPass : Z := 20000.
Definition readBatchScanLimit : nat := 500.
Definition rateWindow : nat := 16.
Definition maxEvictPassesPerTick : nat := 5.

(** [time.Duration.Seconds]. *)
Definition duration_seconds (d : Z) : f64 :=
  fadd (of_Z (Z.quot d 1000000000)) (fdiv (of_Z (Z.rem d 1000000000)) (of_Z 1000000000)).

(** The defaults [Open] fills in. *)
Definition with_defaults (o : Options) : Options :=
  mkOptions
    (if MaxBytes o <=? 0 then defaultMaxBytes else MaxBytes o)
    (if fle (MinFreePercent o) (of_Z 0) then defaultMinFreePercent else MinFreePercent o)
    (if FlushInterval o <=? 0 then defaultFlushInterval else FlushInterval o)
    (if MaintenanceInterval o <=? 0 then defaultMaintenanceInterval else MaintenanceInterval o)
    (if MaxUnflushedChunks o <=? 0 then defaultMaxUnflushedChunks else MaxUnflushedChunks o)
    (DiskUsage o).

Section Store.
Context `{Env, Flate}.

(** * Append and Flush *)

Definition Append (r : Reading) (s : Store) : Store :=
set_appended (appended s + 1) (set_buf (buf s ++ [r]) s).

Definition min_ts (rs : list Reading) : Z :=
foldl (fun first r => Z.min first (UnixMilli (At r))) (first_ts rs) (tail rs).
Definition max_ts (rs : list Reading) : Z :=
foldl (fun last r => Z.max last (UnixMilli (At r))) (first_ts rs) (tail rs).

(** The first locked section of [Flush]: the buffer becomes a chunk. *)
Definition flush_collect (s : Store) : Store :=
match buf s with
| [] => s
| readings =>
  match encodeChunk readings with
  | Err _ => set_dropped (dropped s + Z.of_nat (length readings)) (set_buf [] s)
  | Ok data =>
    set_unflushed
      (unflushed s ++ [mkPending (min_ts readings) (max_ts readings)
                         (Z.of_nat (length readings)) data])
      (set_buf [] s)
  end
end.

Fixpoint insert_rows (batch : list pendingChunk) : Q unit :=
match batch with
| [] => mret tt
| c :: cs => exec (insert_chunk (firstTs c) (lastTs c) (pend_n c) (pend_data c));; insert_rows cs
end.

Definition insertChunks (batch : list pendingChunk) : Q unit :=
transaction (
  insert_rows batch;;
  addMeta "pending_chunks" (Z.of_nat (length batch));;
  addMeta "pending_readings" (sumZ pend_n batch);;
  mret (true, tt)).

(** The second locked section of [Flush], after a failed and a successful write. *)
Definition flush_failed (s : Store) : Store :=
let over := Z.of_nat (length (unflushed s)) - MaxUnflushedChunks (opts s) in
if over >? 0 then
  set_unflushed (drop (Z.to_nat over) (unflushed s))
    (set_dropped (dropped s + sumZ pend_n (take (Z.to_nat over) (unflushed s))) s)
else s.

Definition count_written (s : Store) (c : pendingChunk) : Store :=
let s := set_pendingChunks (pendingChunks s + 1) s in
let s := set_pendingReadings (pendingReadings s + pend_n c) s in
let s := set_writtenBytes (writtenBytes s + Z.of_nat (length (pend_data c))) s in
let s := set_writtenReadings (writtenReadings s + pend_n c) s in
let s := if oldestTs s =? 0 then set_oldestTs (firstTs c) s else s in
set_newestTs (Z.max (newestTs s) (lastTs c)) s.

Definition flush_written (batch : list pendingChunk) (s : Store) : Store :=
foldl count_written (set_unflushed (drop (length batch) (unflushed s)) s) batch.

Definition Flush : Q unit :=
fun s =>
  let s1 := flush_collect s in
  match unflushed s1 with
  | [] => (Ok tt, s1)
  | batch =>
    match insertChunks batch s1 with
    | (Ok _, s2) => (Ok tt, flush_written batch s2)
    | (Err e, s2) => (Err (WriteChunks e), flush_failed s2)
    end
  end.

Definition sampleRate (s : Store) : Store :=
let rates' := rates s ++ [(now (clk s), appended s)] in
set_rates (drop (length rates' - rateWindow) rates') (tick s).

(** One tick of [RunFlusher]: the error is logged, and retried next time. *)
Definition flusher_tick (s : Store) : Store := sampleRate (Flush s).2.

(** * Bounds *)

(** [SELECT first_ts ... ORDER BY seq ASC LIMIT 1], 0 when there is no row. *)
Definition oldest_row (d : Db) : Z := from_option row_first 0 (head (chunk d)).
Definition newest_row (d : Db) : Z := from_option row_last 0 (list.last (chunk d)).

Definition refreshBounds (s : Store) : Store :=
match query oldest_row s with
| (Err _, s1) => s1
| (Ok oldest, s1) =>
  match query newest_row s1 with
  | (Err _, s2) => s2
  | (Ok newest, s2) => set_newestTs newest (set_oldestTs oldest s2)
  end
end.

(** * Reading and acknowledging *)

(** The row loop of [ReadBatch]: stop once [maxReadings] are collected. *)
Fixpoint scan_rows (maxReadings total : Z) (rows : list Row) : list Row :=
match rows with
| [] => []
| r :: rs =>
  let total := total + row_n r in
  if maxReadings <=? total then [r] else r :: scan_rows maxReadings total rs
end.

Definition count_discarded (n : Z) (s : Store) : Store :=
set_dropped (dropped s + n)
  (set_pendingReadings (pendingReadings s - n)
    (set_pendingChunks (pendingChunks s - 1) s)).

(** The transaction of [discard]: whether the row was there to delete. *)
Definition discard_tx (q n : Z) : Q bool :=
transaction (
  k ← sql (fun d => (length (filter (fun r => seq r = q) (chunk d)), delete_seq q d));
  if (k =? 0)%nat then mret (false, false)
  else
    addMeta "pending_chunks" (-1);;
    addMeta "pending_readings" (- n);;
    mret (true, true)).

Definition discard (q n : Z) : Q unit :=
deleted ← discard_tx q n;
if (deleted : bool) then modify (count_discarded n);; modify refreshBounds
else mret tt.

Fixpoint deliver (raw : list Row) : Q (list Chunk) :=
match raw with
| [] => mret []
| r :: rs =>
  match decodeChunk (row_data r) with
  | Err _ => discard (seq r) (row_n r);; deliver rs
  | Ok readings =>
    chunks ← deliver rs;
    mret (mkChunk (seq r) readings :: chunks)
  end
end.

Definition ReadBatch (maxReadings : Z) : Q (list Chunk) :=
raw ← query (fun d => scan_rows maxReadings 0 (take readBatchScanLimit (chunk d)));
deliver raw.

Definition deleteThrough (throughSeq : Z) (countKey : string) : Q (Z * Z) :=
transaction (
  '(chunks, readings) ← query (fun d =>
     (count_rows (upto throughSeq (chunk d)), sum_n (upto throughSeq (chunk d))));
  if chunks =? 0 then mret (false, (0, 0))
  else
    exec (delete_upto throughSeq);;
    addMeta "pending_chunks" (- chunks);;
    addMeta "pending_readings" (- readings);;
    (if (countKey =? "")%string then mret tt else addMeta countKey readings);;
    mret (true, (chunks, readings))).

Definition count_removed (chunks readings : Z) (s : Store) : Store :=
set_pendingReadings (pendingReadings s - readings)
  (set_pendingChunks (pendingChunks s - chunks) s).

Definition Ack (throughSeq : Z) : Q unit :=
'(chunks, readings) ← deleteThrough throughSeq "";
modify (count_removed chunks readings);;
modify refreshBounds.

(** * Size limits (capacity.go) *)

Definition refreshSize (s : Store) : Store :=
match query (fun d => d) s with
| (Err _, s1) => s1
| (Ok d, s1) =>
  let pages := page_count (clk s) d in
  match query (fun _ => page_size) s1 with
  | (Err _, s2) => s2
  | (Ok size, s2) => set_dbBytes (Int.i64 (pages * size)) s2
  end
end.

(** [incremental_vacuum] and the WAL checkpoint change no row; their errors
  are logged. *)
Definition compact (s : Store) : Store :=
let s := (exec id s).2 in
let s := (exec id s).2 in
refreshSize s.

Definition excessBytes (s : Store) : Z * Store :=
let excess := Int.i64 (dbBytes s - MaxBytes (opts s)) in
match DiskUsage (opts s) with
| None => (excess, s)
| Some usage =>
  (match usage (clk s) with
   | Err _ => excess
   | Ok (used, total) =>
     if total >? 0 then
       let allowed := fdiv (fmul (of_Z total) (fsub (of_Z 100) (MinFreePercent (opts s)))) (of_Z 100) in
       Z.max excess (to_i64 conv_oob (fsub (of_Z used) allowed))
     else excess
   end, tick s)
end.

(** How many chunks one pass of [evictOnce] aims to evict. *)
Definition evict_target (excess chunks size : Z) : Z :=
let avg := fdiv (of_Z size) (of_Z chunks) in
let avg := if fle avg (of_Z 0) then of_Z 1 else avg in
Z.min (Z.min (Int.i64 (to_i64 conv_oob (fceil (fdiv (of_Z excess) avg)) + 1))
         maxEvictChunksPerPass) chunks.

(** [SELECT seq ... LIMIT 1 OFFSET ?]: a negative offset counts as 0. *)
Definition nth_seq (offset : Z) (d : Db) : option Z := seq <$> chunk d !! Z.to_nat offset.

Definition count_evicted (chunks readings : Z) (s : Store) : Store :=
set_evicted (evicted s + readings) (count_removed chunks readings s).

Definition evictOnce (s : Store) : bool * Store :=
let '(excess, s) := excessBytes s in
if excess <=? 0 then (false, s)
else if pendingChunks s <=? 0 then (false, s)
else
  let k := evict_target excess (pendingChunks s) (dbBytes s) in
  match query (nth_seq (k - 1)) s with
  | (Err _, s) | (Ok None, s) => (false, s)
  | (Ok (Some cut), s) =>
    match deleteThrough cut "evicted_readings" s with
    | (Err _, s) => (false, s)
    | (Ok (evChunks, evReadings), s) =>
      let s := count_evicted evChunks evReadings s in
      let s := compact (refreshBounds s) in
      (0 <? evChunks, s)
    end
  end.

Fixpoint evict_passes (n : nat) (s : Store) : Store :=
match n with
| O => s
| S k => let '(more, s) := evictOnce s in if more then evict_passes k s else s
end.

Definition Maintain (s : Store) : Store := evict_passes maxEvictPassesPerTick (compact s).

(** * Opening, statistics *)

Definition metaInt (key : string) (s : Store) : Z * Store :=
match query (fun d => meta d !! key) s with
| (Ok (Some (VInt v)), s) => (v, s)
| (_, s) => (0, s)
end.

Definition read_streamID : Q unit :=
v ← wrap ReadStreamID (query (fun d => meta d !! "stream_id"));
match v with
| Some (VText t) => modify (set_streamID t)
| Some (VInt z) => modify (set_streamID (pretty z))
| None =>
  modify (set_streamID new_uuid);;
  wrap StoreStreamID (exec (fun d =>
    mkDb (chunk d) (seq_hi d) (<["stream_id" := VText new_uuid]> (meta d))))
end.

(** The four set-up statements: two pragmas and two [CREATE ... IF NOT EXISTS]. *)
Definition setup : Q unit := wrap InitDb (exec id;; exec id;; exec id;; exec id).

Definition init : Q unit :=
setup;;
read_streamID;;
modify (fun s => let '(v, s) := metaInt "pending_chunks" s in set_pendingChunks v s);;
modify (fun s => let '(v, s) := metaInt "pending_readings" s in set_pendingReadings v s);;
modify (fun s => let '(v, s) := metaInt "evicted_readings" s in set_evicted v s);;
modify refreshBounds;;
modify refreshSize.

(** A zero [Store] on database [d], as [Open] builds it before [init]. *)
Definition fresh (d : Db) (t : nat) (o : Options) : Store :=
mkStore d t "" 0 [] [] 0 0 0 0 0 0 0 [] 0 0 o.

Definition Open (d : Db) (t : nat) (o : Options) : result qerror unit * Store :=
init (fresh d t (with_defaults o)).

Record Stats := mkStats {
st_StreamID : string;
st_PendingChunks : Z;
st_PendingReadings : Z;
st_BufferedReadings : Z;
st_OldestPending : option Z;
st_NewestPending : option Z;
st_DBBytes : Z;
st_MaxBytes : Z;
st_EvictedReadings : Z;
st_DroppedReadings : Z;
st_WriteRatePerSec : f64;
st_AvgBytesPerReading : f64
}.

(** [time.UnixMilli] of a non-zero timestamp, for the two pointer fields. *)
Definition ts_ptr (ts : Z) : option Z := if ts =? 0 then None else Some (of_UnixMilli ts).

Definition stats (s : Store) : Stats :=
let oldest := oldestTs s in
let oldest := if oldest =? 0 then from_option firstTs oldest (head (unflushed s)) else oldest in
let oldest := if oldest =? 0
              then from_option (fun r => UnixMilli (At r)) oldest (head (buf s)) else oldest in
let newest := from_option (fun r => Z.max (newestTs s) (UnixMilli (At r)))
                (newestTs s) (list.last (buf s)) in
mkStats (streamID s) (pendingChunks s) (pendingReadings s)
  (Z.of_nat (length (buf s)) + sumZ pend_n (unflushed s))
  (ts_ptr oldest) (ts_ptr newest) (dbBytes s) (MaxBytes (opts s)) (evicted s) (dropped s)
  (match rates s, list.last (rates s) with
   | (t0, n0) :: _ :: _, Some (t1, n1) =>
     let secs := duration_seconds (t1 - t0) in
     if flt (of_Z 0) secs then fdiv (of_Z (n1 - n0)) secs else of_Z 0
   | _, _ => of_Z 0
   end)
  (if writtenReadings s >? 0 then fdiv (of_Z (writtenBytes s)) (of_Z (writtenReadings s))
   else of_Z 0).

(** [RunMaintenance]: one pass at once and one at every tick. *)
Definition RunMaintenance (ticks : nat) (s : Store) : Store := Nat.iter (S ticks) Maintain s.

(** [errors.Join]: both errors, or the one there is. *)
Definition join_errors (r1 r2 : result qerror unit) : result qerror unit :=
match r1, r2 with
| Err e1, Err e2 => Err (Joined e1 e2)
| Ok _, r => r
| r, Ok _ => r
end.

(** [Close] flushes, and closes the database handle, whatever came of it. *)
Definition Close : Q unit :=
fun s =>
  let (flushErr, s) := Flush s in
  let (closeErr, s) := exec id s in
  (join_errors flushErr closeErr, s).
End Store.

(** * Storage bands *)

Inductive StorageLevel := StorageNormal | StorageWarning | StorageCritical | StorageFull.

Definition ClassifyStorageLevel (usedPercent fullPercent : f64) : StorageLevel :=
  if fge usedPercent fullPercent then StorageFull
  else if fge usedPercent (of_Z 90) then StorageCritical
  else if fge usedPercent (of_Z 70) then StorageWarning
  else StorageNormal.
