(* ===== verification/QueueFacts.v ===== *)
(** Lemmas on the store-and-forward queue: what each transaction does to the
    tables, the database invariant, and that every operation keeps it. *)

From S2P Require Import Prelude Codec QueueDb QueueStore.

Local Open Scope string_scope.
Local Open Scope list_scope.
Local Open Scope Z_scope.

(** * Frames *)

(** Only the database and the call counter differ. *)
Definition same_mem (s s' : Store) : Prop := s' = set_db (db s') (set_clk (clk s') s).

#[export] Instance same_mem_refl : Reflexive same_mem.
Proof. by intros []. Qed.
#[export] Instance same_mem_trans : Transitive same_mem.
Proof. intros s1 s2 s3 H1 H2. unfold same_mem in *. rewrite H2 at 1. by rewrite H1. Qed.

Lemma same_mem_set_db s d t : same_mem s (set_db d (set_clk t s)).
Proof. by destruct s. Qed.

#[export] Hint Resolve same_mem_set_db : gateway.

(** A call that changes no field but [db] and [clk]. *)
Definition frames {A} (m : Q A) : Prop := forall s r s', m s = (r, s') -> same_mem s s'.

(** * The invariant of queue.db *)

Definition counter (key : string) (d : Db) : Z :=
  match meta d !! key with Some (VInt v) => v | _ => 0 end.

Definition is_counter (key : string) (d : Db) : Prop :=
  match meta d !! key with Some (VText _) => False | _ => True end.

(** Rows in strictly increasing seq order, none above [hi]. *)
Definition seqs_ok (hi : Z) (rows : list Row) : Prop :=
  StronglySorted (fun a b => seq a < seq b) rows /\ Forall (fun r => seq r <= hi) rows.

Record db_ok (d : Db) : Prop := {
  ok_seqs : seqs_ok (seq_hi d) (chunk d);
  ok_counters : Forall (fun k => is_counter k d)
                  ["pending_chunks"; "pending_readings"; "evicted_readings"];
  ok_pending_chunks : counter "pending_chunks" d = count_rows (chunk d);
  ok_pending_readings : counter "pending_readings" d = sum_n (chunk d)
}.

Section Facts.
Context `{Env, Flate}.

(** ** Statements *)

Lemma sql_inv {A} (f : Db -> A * Db) s r s' :
sql f s = (r, s') ->
same_mem s s' /\
((r = Err SqlErr /\ db s' = db s) \/ (r = Ok (f (db s)).1 /\ db s' = (f (db s)).2)).
Proof.
unfold sql, tick. destruct (sql_fault _); [|destruct (f (db s)) as [a d]]; intros; simplify_eq;
  (split; [by destruct s|]); auto.
Qed.

Lemma exec_inv f s r s' :
exec f s = (r, s') ->
same_mem s s' /\ ((r = Err SqlErr /\ db s' = db s) \/ (r = Ok tt /\ db s' = f (db s))).
Proof. intros H1. by apply sql_inv in H1. Qed.

Lemma query_inv {A} (f : Db -> A) s r s' :
query f s = (r, s') ->
same_mem s s' /\ db s' = db s /\ (r = Err SqlErr \/ r = Ok (f (db s))).
Proof. intros H1. apply sql_inv in H1 as (? & [[-> ?]|[-> ?]]); auto. Qed.

Lemma transaction_inv {A} (body : Q (bool * A)) s r s' :
frames body -> transaction body s = (r, s') ->
same_mem s s' /\
((exists e, r = Err e /\ db s' = db s) \/
 (exists a s1 s2, r = Ok a /\ db s' = db s /\ db s1 = db s /\ body s1 = (Ok (false, a), s2)) \/
 (exists a s1 s2, r = Ok a /\ db s1 = db s /\ body s1 = (Ok (true, a), s2) /\ db s' = db s2)).
Proof.
intros Hf. unfold transaction.
destruct (exec id s) as [[u|e] s1] eqn:E1; apply exec_inv in E1 as (M1 & [[? D1]|[? D1]]);
  try done; [|intros; simplify_eq; eauto 7].
destruct (body s1) as [[[[] a]|e] s2] eqn:E2; pose proof (Hf _ _ _ E2) as M2.
- destruct (exec id s2) as [[u2|e2] s3] eqn:E3;
    apply exec_inv in E3 as (M3 & [[? D3]|[? D3]]); try done; intros; simplify_eq.
  + split; [by do 2 etransitivity|]. right; right. exists a, s1, s2. auto.
  + split; [|left; eexists; split; [done|by destruct s3]].
    transitivity s3; [by do 2 etransitivity|]. destruct s3; done.
- intros; simplify_eq. split.
  + transitivity s2; [by etransitivity|]. destruct s2; done.
  + right; left. exists a, s1, s2. split_and!; try done; by destruct s2.
- intros; simplify_eq. split.
  + transitivity s2; [by etransitivity|]. destruct s2; done.
  + left. exists e. split; [done|]. by destruct s2.
Qed.

(** ** Frames of the combinators *)

Lemma frames_ret {A} (a : A) : frames (mret a : Q A).
Proof. intros s r s' ?. unfold mret, M_ret in *. by simplify_eq. Qed.
Lemma frames_bind {A B} (m : Q A) (f : A -> Q B) :
frames m -> (forall a, frames (f a)) -> frames (m ≫= f).
Proof.
intros Hm Hf s r s' Hb. apply bind_inv in Hb as [(a & s1 & H1 & H2)|(e & H1 & ->)].
- etransitivity; [by eapply Hm|by eapply Hf].
- by eapply Hm.
Qed.
Lemma frames_exec f : frames (exec f).
Proof. intros s r s' H1. by apply exec_inv in H1 as [? _]. Qed.
Lemma frames_sql {A} (f : Db -> A * Db) : frames (sql f).
Proof. intros s r s' H1. by apply sql_inv in H1 as [? _]. Qed.
Lemma frames_query {A} (f : Db -> A) : frames (query f).
Proof. apply frames_sql. Qed.
Lemma frames_transaction {A} (m : Q (bool * A)) : frames m -> frames (transaction m).
Proof. intros Hm s r s' H1. by apply transaction_inv in H1 as [? _]. Qed.
Lemma frames_insert_rows b : frames (insert_rows b).
Proof. induction b; cbn; auto using frames_ret, frames_bind, frames_exec. Qed.

Create HintDb frames.
#[local] Hint Resolve frames_ret frames_bind frames_exec frames_sql frames_query
frames_transaction frames_insert_rows : frames.
#[local] Hint Extern 1 (frames (addMeta _ _)) => apply frames_exec : frames.

(** A straight-line body that returned [Ok] ran every statement. *)
Lemma exec_then {A} f (m : Q A) s a s' :
(exec f;; m) s = (Ok a, s') -> exists s1, db s1 = f (db s) /\ m s1 = (Ok a, s').
Proof.
intros Hb. apply bind_inv in Hb as [(? & s1 & H1 & H2)|(e & _ & ?)]; [|done].
apply exec_inv in H1 as (_ & [[? _]|[_ ?]]); [done|]. by exists s1.
Qed.

(** ** Transactions *)

(** The database after the committed [insertChunks]. *)
Definition insert_all (batch : list pendingChunk) (d : Db) : Db :=
foldl (fun d c => insert_chunk (firstTs c) (lastTs c) (pend_n c) (pend_data c) d) d batch.
Definition db_insert (batch : list pendingChunk) (d : Db) : Db :=
add_meta "pending_readings" (sumZ pend_n batch)
  (add_meta "pending_chunks" (Z.of_nat (length batch)) (insert_all batch d)).

Lemma insert_rows_inv batch s u s' :
insert_rows batch s = (Ok u, s') -> db s' = insert_all batch (db s).
Proof.
revert s. induction batch as [|c batch IH]; intros s; cbn [insert_rows].
{ unfold mret, M_ret. intros; by simplify_eq. }
intros Hb. apply exec_then in Hb as (s1 & D1 & Hb). apply IH in Hb.
by rewrite Hb, D1.
Qed.

Lemma insertChunks_inv batch s r s' :
insertChunks batch s = (r, s') ->
same_mem s s' /\
((exists e, r = Err e /\ db s' = db s) \/ (r = Ok tt /\ db s' = db_insert batch (db s))).
Proof.
intros Ht. apply transaction_inv in Ht as (M1 & [Ht|[Ht|Ht]]); eauto with frames.
- destruct Ht as (a & s1 & s2 & _ & _ & _ & Hb).
  apply bind_inv in Hb as [(? & s3 & _ & Hb)|(? & _ & ?)]; [|done].
  apply exec_then in Hb as (s4 & _ & Hb). apply exec_then in Hb as (s5 & _ & Hb).
  by unfold mret, M_ret in Hb.
- destruct Ht as ([] & s1 & s2 & -> & D1 & Hb & D2). split; [done|]. right. split; [done|].
  apply bind_inv in Hb as [([] & s3 & Hi & Hb)|(? & _ & ?)]; [|done].
  apply insert_rows_inv in Hi.
  apply exec_then in Hb as (s4 & D4 & Hb). apply exec_then in Hb as (s5 & D5 & Hb).
  unfold mret, M_ret in Hb. simplify_eq. unfold db_insert. congruence.
Qed.

(** The database after a committed [deleteThrough] and a committed [discard]. *)
Definition db_delete (q : Z) (key : string) (d : Db) : Db :=
let rows := upto q (chunk d) in
let d := add_meta "pending_chunks" (- count_rows rows) (delete_upto q d) in
let d := add_meta "pending_readings" (- sum_n rows) d in
if (key =? "")%string then d else add_meta key (sum_n rows) d.
Definition db_discard (q n : Z) (d : Db) : Db :=
add_meta "pending_readings" (- n) (add_meta "pending_chunks" (-1) (delete_seq q d)).

Lemma deleteThrough_inv q key s r s' :
deleteThrough q key s = (r, s') ->
same_mem s s' /\
((exists e, r = Err e /\ db s' = db s) \/
 (r = Ok (0, 0) /\ db s' = db s /\ upto q (chunk (db s)) = []) \/
 (r = Ok (count_rows (upto q (chunk (db s))), sum_n (upto q (chunk (db s)))) /\
  db s' = db_delete q key (db s))).
Proof.
intros Ht. apply transaction_inv in Ht.
2:{ apply frames_bind; [auto with frames|]. intros [chunks readings].
    destruct (chunks =? 0); [auto with frames|].
    destruct (key =? "")%string;
      repeat (apply frames_bind; [by auto with frames|intros _]); auto with frames. }
destruct Ht as (M1 & [Ht|[Ht|Ht]]); [eauto| |]; split; try done; right;
  destruct Ht as (a & s1 & s2 & -> & Ht).
- destruct Ht as (D' & D1 & Hb). left.
  apply bind_inv in Hb as [([c n] & s3 & Hq & Hb)|(? & _ & ?)]; [|done].
  apply query_inv in Hq as (_ & _ & [?|?]); simplify_eq. rewrite D1 in *.
  destruct (_ =? 0) eqn:Hz; zbool; unfold mret, M_ret in Hb.
  + simplify_eq. split_and!; try done. unfold count_rows in Hz.
    by destruct (upto q _).
  + do 3 (apply exec_then in Hb as (? & _ & Hb)).
    apply bind_inv in Hb as [([] & ? & _ & Hb)|(? & _ & ?)]; done.
- destruct Ht as (D1 & Hb & D2). right.
  apply bind_inv in Hb as [([c n] & s3 & Hq & Hb)|(? & _ & ?)]; [|done].
  apply query_inv in Hq as (_ & Dq & [?|Hr]); simplify_eq. rewrite D1 in *.
  destruct (_ =? 0) eqn:Hz; unfold mret, M_ret in Hb; [done|].
  apply exec_then in Hb as (s4 & D4 & Hb). apply exec_then in Hb as (s5 & D5 & Hb).
  apply exec_then in Hb as (s6 & D6 & Hb).
  apply bind_inv in Hb as [([] & s7 & H7 & Hb)|(? & _ & ?)]; simplify_eq.
  split; [done|]. unfold db_delete. rewrite D2.
  destruct (key =? "")%string; unfold mret, M_ret in H7.
  + simplify_eq. congruence.
  + apply exec_inv in H7 as (_ & [[? _]|[_ D7]]); [done|]. congruence.
Qed.

Lemma discard_tx_inv q n s r s' :
discard_tx q n s = (r, s') ->
same_mem s s' /\
((exists e, r = Err e /\ db s' = db s) \/
 (r = Ok false /\ db s' = db s /\ filter (fun x => seq x = q) (chunk (db s)) = []) \/
 (r = Ok true /\ db s' = db_discard q n (db s) /\
  filter (fun x => seq x = q) (chunk (db s)) <> [])).
Proof.
intros Ht. apply transaction_inv in Ht.
2:{ apply frames_bind; [auto with frames|]. intros k. destruct (k =? 0)%nat;
      repeat (apply frames_bind; [by auto with frames|intros _]); auto with frames. }
destruct Ht as (M1 & [Ht|[Ht|Ht]]); [eauto| |]; split; try done; right;
  destruct Ht as (a & s1 & s2 & -> & Ht).
- destruct Ht as (D' & D1 & Hb). left.
  apply bind_inv in Hb as [(k & s3 & Hq & Hb)|(? & _ & ?)]; [|done].
  apply sql_inv in Hq as (_ & [[? _]|[? _]]); cbn in *; simplify_eq. rewrite D1 in *.
  destruct (length _ =? 0)%nat eqn:Hz; unfold mret, M_ret in Hb.
  + simplify_eq. split_and!; try done. apply Nat.eqb_eq, nil_length_inv in Hz. done.
  + do 2 (apply exec_then in Hb as (? & _ & Hb)). done.
- destruct Ht as (D1 & Hb & D2). right.
  apply bind_inv in Hb as [(k & s3 & Hq & Hb)|(? & _ & ?)]; [|done].
  apply sql_inv in Hq as (_ & [[? _]|[? D3]]); cbn in *; simplify_eq. rewrite D1 in *.
  destruct (length _ =? 0)%nat eqn:Hz; unfold mret, M_ret in Hb; [done|].
  apply exec_then in Hb as (s4 & D4 & Hb). apply exec_then in Hb as (s5 & D5 & Hb).
  simplify_eq. split_and!; [done| |].
  + unfold db_discard. congruence.
  + intros Hn. by rewrite Hn in Hz.
Qed.

(** ** Tables and counters *)

Lemma counter_add_eq k v d : is_counter k d -> counter k (add_meta k v d) = counter k d + v.
Proof.
unfold is_counter, counter, add_meta. cbn. destruct (meta d !! k) as [[]|]; try done;
  intros _; rewrite lookup_insert_eq; lia.
Qed.
Lemma counter_add_ne k k' v d : k <> k' -> counter k (add_meta k' v d) = counter k d.
Proof.
intros Hne. unfold counter, add_meta. cbn. destruct (meta d !! k') as [[]|];
  by rewrite lookup_insert_ne.
Qed.
Lemma is_counter_add k k' v d : is_counter k d -> is_counter k (add_meta k' v d).
Proof.
unfold is_counter, add_meta. cbn. intros Hk. destruct (decide (k = k')) as [<-|Hne].
- destruct (meta d !! k) as [[]|]; by rewrite lookup_insert_eq.
- destruct (meta d !! k') as [[]|]; by rewrite lookup_insert_ne.
Qed.

Lemma sum_n_app l k : sum_n (l ++ k) = sum_n l + sum_n k.
Proof. apply sumZ_app. Qed.
Lemma count_rows_app l k : count_rows (l ++ k) = count_rows l + count_rows k.
Proof. unfold count_rows. rewrite length_app. lia. Qed.

(** In seq order, the rows up to [q] come before the rows above it. *)
Lemma upto_above hi q rows : seqs_ok hi rows -> rows = upto q rows ++ above q rows.
Proof.
intros [Hs _]. induction Hs as [|r rows Hs IH Hr]; [done|].
unfold upto, above in *. rewrite !filter_cons.
destruct (decide (seq r <= q)), (decide (q < seq r)); try lia.
- cbn. by rewrite <- IH.
- assert (Hu : filter (fun x => seq x <= q) rows = []).
  { apply filter_none. eapply Forall_impl; [exact Hr|]. cbn. lia. }
  rewrite Hu in *. cbn in *. by rewrite <- IH.
Qed.

Lemma seqs_ok_app hi l k : seqs_ok hi (l ++ k) -> seqs_ok hi l /\ seqs_ok hi k.
Proof.
intros [Hs Hf]. apply Forall_app in Hf as [? ?].
split; split; try done; [by eapply StronglySorted_app_1_l|by eapply StronglySorted_app_1_r].
Qed.

Lemma seqs_ok_filter hi (P : Row -> Prop) `{!forall x, Decision (P x)} rows :
seqs_ok hi rows -> seqs_ok hi (filter P rows).
Proof.
intros [Hs Hf]. split; [|by apply Forall_filter].
induction Hs as [|r rows Hs IH Hr]; [constructor|].
apply Forall_cons in Hf as [_ Hf]. rewrite filter_cons.
destruct (decide (P r)); [|by apply IH]. constructor; [by apply IH|by apply Forall_filter].
Qed.

(** Rows appended by [insert_all]: consecutive seqs above the high-water mark. *)
Fixpoint new_rows (hi : Z) (batch : list pendingChunk) : list Row :=
match batch with
| [] => []
| c :: cs => mkRow (hi + 1) (firstTs c) (lastTs c) (pend_n c) (pend_data c) :: new_rows (hi + 1) cs
end.

Lemma insert_all_eq batch d :
insert_all batch d =
  mkDb (chunk d ++ new_rows (seq_hi d) batch) (seq_hi d + Z.of_nat (length batch)) (meta d).
Proof.
revert d. induction batch as [|c batch IH]; intros d; cbn -[Z.of_nat].
{ destruct d as [ch h m]. cbn. rewrite app_nil_r. f_equal. lia. }
unfold insert_all in IH. rewrite IH. unfold insert_chunk. cbn -[Z.of_nat].
rewrite <- app_assoc. cbn [app]. f_equal. lia.
Qed.

Lemma new_rows_seqs hi batch :
Forall (fun r => hi < seq r <= hi + Z.of_nat (length batch)) (new_rows hi batch) /\
StronglySorted (fun a b => seq a < seq b) (new_rows hi batch).
Proof.
revert hi. induction batch as [|c batch IH]; intros hi; cbn -[Z.of_nat]; [by split; constructor|].
destruct (IH (hi + 1)) as [Hf Hs]. split; constructor; cbn -[Z.of_nat]; try done; try lia.
- eapply Forall_impl; [exact Hf|]. cbn -[Z.of_nat]. intros r ?. lia.
- eapply Forall_impl; [exact Hf|]. cbn -[Z.of_nat]. intros r ?. lia.
Qed.

Lemma sum_new_rows hi batch :
sum_n (new_rows hi batch) = sumZ pend_n batch /\
count_rows (new_rows hi batch) = Z.of_nat (length batch).
Proof.
revert hi. induction batch as [|c batch IH]; intros hi; [done|].
destruct (IH (hi + 1)) as [Hs Hc]. unfold sum_n, count_rows in *.
cbn [new_rows length] in *. rewrite !sumZ_cons. cbn [row_n]. lia.
Qed.

(** A database change that keeps the counters in step with the rows. *)
Lemma db_ok_intro d d' dc dn :
db_ok d -> seqs_ok (seq_hi d') (chunk d') ->
count_rows (chunk d') = count_rows (chunk d) + dc ->
sum_n (chunk d') = sum_n (chunk d) + dn ->
meta d' = meta d ->
db_ok (add_meta "pending_readings" dn (add_meta "pending_chunks" dc d')).
Proof.
intros [_ Hc Hpc Hpr] Hs Hcount Hsum Hmeta.
assert (Hk : forall k, counter k d' = counter k d) by (intros k; unfold counter; by rewrite Hmeta).
assert (Hi : forall k, is_counter k d -> is_counter k d')
  by (intros k; unfold is_counter; by rewrite Hmeta).
assert (Hc' : Forall (fun k => is_counter k d')
  ["pending_chunks"; "pending_readings"; "evicted_readings"])
  by (eapply Forall_impl; [exact Hc|auto]).
pose proof (Forall_inv Hc') as C1.
pose proof (Forall_inv (Forall_inv_tail Hc')) as C2.
split.
- done.
- eapply Forall_impl; [exact Hc'|]. intros k ?. by do 2 apply is_counter_add.
- rewrite counter_add_ne, counter_add_eq by done. cbn [chunk add_meta]. rewrite Hk. lia.
- rewrite counter_add_eq by by apply is_counter_add.
  rewrite counter_add_ne by done. cbn [chunk add_meta]. rewrite Hk. lia.
Qed.

Lemma db_ok_insert batch d : db_ok d -> db_ok (db_insert batch d).
Proof.
intros Hok. destruct (ok_seqs d Hok) as [Hs Hf].
destruct (new_rows_seqs (seq_hi d) batch) as [Hnf Hns].
destruct (sum_new_rows (seq_hi d) batch) as [Hsum Hcount].
unfold db_insert. rewrite insert_all_eq.
apply (db_ok_intro d); cbn [chunk seq_hi meta]; try done.
- split; [apply StronglySorted_app; split_and!; try done|].
  + intros a b Ha Hb. rewrite Forall_forall in Hf, Hnf.
    specialize (Hf _ Ha). specialize (Hnf _ Hb). cbn in *. lia.
  + apply Forall_app. split; (eapply Forall_impl; [eassumption|]); cbn -[Z.of_nat]; intros; lia.
- rewrite count_rows_app. lia.
- rewrite sum_n_app. lia.
Qed.

Lemma db_ok_other_counter k v d :
k <> "pending_chunks" -> k <> "pending_readings" -> db_ok d -> db_ok (add_meta k v d).
Proof.
intros H1 H2 [Hs Hc Hp Hr]. split; [done| | |].
- eapply Forall_impl; [exact Hc|]. intros k' ?. by apply is_counter_add.
- by rewrite counter_add_ne.
- by rewrite counter_add_ne.
Qed.

(** What [deleteThrough] may add the removed readings to. *)
Definition delete_key (k : string) : Prop := k = "" \/ k = "evicted_readings".

Lemma db_ok_delete q k d : delete_key k -> db_ok d -> db_ok (db_delete q k d).
Proof.
intros Hk Hok. pose proof (upto_above _ q _ (ok_seqs d Hok)) as Hsplit.
assert (Hd : db_ok (add_meta "pending_readings" (- sum_n (upto q (chunk d)))
              (add_meta "pending_chunks" (- count_rows (upto q (chunk d))) (delete_upto q d)))).
{ apply (db_ok_intro d); try done; cbn [chunk seq_hi delete_upto].
  - apply seqs_ok_filter, Hok.
  - rewrite Hsplit at 2. rewrite count_rows_app. lia.
  - rewrite Hsplit at 2. rewrite sum_n_app. lia. }
unfold db_delete. destruct Hk as [->| ->]; [done|]. cbn [String.eqb].
by apply db_ok_other_counter.
Qed.

Lemma filter_seq_unique hi q rows r :
seqs_ok hi rows -> r ∈ rows -> seq r = q ->
exists l k, rows = l ++ r :: k /\ filter (fun x => seq x <> q) rows = l ++ k.
Proof.
intros Hok Hr <-. apply list_elem_of_split in Hr as (l & k & ->). exists l, k.
split; [done|]. destruct Hok as [Hs _]. apply StronglySorted_app in Hs as (Hlk & Hl & Hk).
inversion Hk as [|? ? Hk' Hrk]; subst. rewrite filter_app, filter_cons_False by (by intros []).
rewrite !filter_all; [done| |].
- eapply Forall_impl; [exact Hrk|]. cbn. lia.
- apply Forall_forall. intros x Hx. assert (seq x < seq r); [|lia].
  apply Hlk; [done|]. by left.
Qed.

Lemma db_ok_discard r d : db_ok d -> r ∈ chunk d -> db_ok (db_discard (seq r) (row_n r) d).
Proof.
intros Hok Hr. destruct (filter_seq_unique _ _ _ r (ok_seqs d Hok) Hr eq_refl) as (l & k & Hl & Hf).
apply (db_ok_intro d); try done; cbn [chunk seq_hi delete_seq].
- apply seqs_ok_filter, Hok.
- rewrite Hf, Hl, !count_rows_app. unfold count_rows. cbn [length]. lia.
- rewrite Hf, Hl, !sum_n_app. unfold sum_n. rewrite sumZ_cons. lia.
Qed.

(** ** Blobs *)

(** The readings a stored blob holds. *)
Definition decoded (data : list Z) : list Reading :=
match decodeChunk data with Ok rs => rs | Err _ => [] end.
Definition blob_ok (data : list Z) (n : Z) : Prop :=
exists rs, decodeChunk data = Ok rs /\ n = Z.of_nat (length rs).
Definition row_ok (r : Row) : Prop := blob_ok (row_data r) (row_n r).
Definition pend_ok (c : pendingChunk) : Prop := blob_ok (pend_data c) (pend_n c).
Definition rows_readings (rows : list Row) : list Reading :=
mjoin (map (fun r => decoded (row_data r)) rows).
Definition pend_readings (cs : list pendingChunk) : list Reading :=
mjoin (map (fun c => decoded (pend_data c)) cs).
(** A row as the chunk [ReadBatch] delivers. *)
Definition row_chunk (r : Row) : Chunk := mkChunk (seq r) (decoded (row_data r)).

Lemma row_ok_n r : row_ok r -> row_n r = Z.of_nat (length (decoded (row_data r))).
Proof. intros (rs & Hd & ->). unfold decoded. by rewrite Hd. Qed.

Lemma rows_readings_app l k : rows_readings (l ++ k) = rows_readings l ++ rows_readings k.
Proof. unfold rows_readings. by rewrite map_app, join_app. Qed.
Lemma pend_readings_app l k : pend_readings (l ++ k) = pend_readings l ++ pend_readings k.
Proof. unfold pend_readings. by rewrite map_app, join_app. Qed.

Lemma rows_readings_cons r rows :
rows_readings (r :: rows) = decoded (row_data r) ++ rows_readings rows.
Proof. done. Qed.
Lemma pend_readings_cons c cs :
pend_readings (c :: cs) = decoded (pend_data c) ++ pend_readings cs.
Proof. done. Qed.

Lemma rows_readings_length rows :
Forall row_ok rows -> sum_n rows = Z.of_nat (length (rows_readings rows)).
Proof.
unfold sum_n. induction 1 as [|r rows Hr _ IH]; [done|].
rewrite rows_readings_cons, sumZ_cons, length_app, (row_ok_n r Hr). lia.
Qed.

Lemma pend_readings_length cs :
Forall pend_ok cs -> sumZ pend_n cs = Z.of_nat (length (pend_readings cs)).
Proof.
induction 1 as [|c cs (rs & Hd & Hn) _ IH]; [done|].
rewrite pend_readings_cons, sumZ_cons, length_app, Hn. unfold decoded at 1. rewrite Hd. lia.
Qed.

Lemma new_rows_readings hi batch : rows_readings (new_rows hi batch) = pend_readings batch.
Proof.
revert hi. induction batch as [|c batch IH]; intros hi; [done|].
cbn [new_rows]. rewrite rows_readings_cons, pend_readings_cons, IH. done.
Qed.

Lemma new_rows_ok hi batch : Forall pend_ok batch -> Forall row_ok (new_rows hi batch).
Proof.
intros Hb. revert hi. induction Hb as [|c batch Hc _ IH]; intros hi; constructor; [done|apply IH].
Qed.
End Facts.
