(* ===== verification/QueueSteps.v ===== *)
(** The queue at run time: pollers appending, the flusher, the forwarder and
    the maintenance loop, interleaved at the granularity of the code's critical
    sections and transactions (one SQLite connection, one mutex), with process
    crashes.  The main result is the reading ledger: every reading ever
    appended is either still queued, in order, or acknowledged after it reached
    the server, or evicted, or counted as dropped, or lost to a crash. *)

From S2P Require Import Prelude Codec QueueDb QueueStore QueueFacts.

Local Open Scope string_scope.
Local Open Scope list_scope.
Local Open Scope Z_scope.

(** * Program counters *)

(** [Flush]: between its locked sections and its transaction. *)
Inductive flusher :=
| FIdle
| FInsert (batch : list pendingChunk)
| FWritten (batch : list pendingChunk)
| FFailed.

(** The forwarder: [ReadBatch]'s loop, [Send], [Ack]. *)
Inductive sender :=
| RIdle
| RDeliver (raw : list Row) (acc : list Chunk)
| RDiscarded (n : Z) (raw : list Row) (acc : list Chunk)
| RSend (cs : list Chunk)
| RArrived (cs : list Chunk)
| RCount (chunks readings : Z).

(** [evictOnce]. *)
Inductive evictor :=
| EIdle
| ETarget (k : Z)
| ECut (cut : Z)
| ECount (chunks readings : Z).

(** [hist]: every reading appended, ever.  [arrived]: every chunk a message
    brought to the server.  [crashes]: process restarts without a flush. *)
Record Sys := mkSys {
  st : Store;
  fl : flusher;
  rd : sender;
  ev : evictor;
  hist : list Reading;
  arrived : list Chunk;
  crashes : nat
}.

(** The [to_seq] of a message: the seq of its last chunk. *)
Definition to_seq (cs : list Chunk) : Z := from_option Seq 0 (list.last cs).

Section Steps.
Context `{Env, Flate}.

Definition collected (s : Store) : flusher :=
match unflushed s with [] => FIdle | batch => FInsert batch end.
Definition inserted (b : list pendingChunk) (r : result qerror unit) : flusher :=
match r with Ok _ => FWritten b | Err _ => FFailed end.
Definition discarded (n : Z) (raw : list Row) (acc : list Chunk) (r : result qerror bool) : sender :=
match r with
| Ok true => RDiscarded n raw acc
| Ok false => RDeliver raw acc
| Err _ => RIdle
end.
Definition batched (acc : list Chunk) : sender :=
match acc with [] => RIdle | _ => RSend acc end.
Definition acked (r : result qerror (Z * Z)) : sender :=
match r with Ok (c, n) => RCount c n | Err _ => RIdle end.
Definition cut_at (r : result qerror (option Z)) : evictor :=
match r with Ok (Some q) => ECut q | _ => EIdle end.
Definition evicted_at (r : result qerror (Z * Z)) : evictor :=
match r with Ok (c, n) => ECount c n | Err _ => EIdle end.

(** No statement of the opening (13 at most) fails. *)
Definition quiet (t : nat) : Prop := forall i, (t <= i < t + 13)%nat -> sql_fault i = false.

Inductive step : Sys -> Sys -> Prop :=
| step_append s f r e h a c x :
  CodecFacts.wf_reading x -> Z.of_nat (length (buf s)) + 1 < Int.two63 ->
  step (mkSys s f r e h a c) (mkSys (Append x s) f r e (h ++ [x]) a c)
(* Flush *)
| step_collect s r e h a c :
  step (mkSys s FIdle r e h a c)
       (mkSys (flush_collect s) (collected (flush_collect s)) r e h a c)
| step_insert s b r e h a c res s' :
  insertChunks b s = (res, s') ->
  step (mkSys s (FInsert b) r e h a c) (mkSys s' (inserted b res) r e h a c)
| step_written s b r e h a c :
  step (mkSys s (FWritten b) r e h a c) (mkSys (flush_written b s) FIdle r e h a c)
| step_failed s r e h a c :
  step (mkSys s FFailed r e h a c) (mkSys (flush_failed s) FIdle r e h a c)
| step_sample s f r e h a c :
  step (mkSys s f r e h a c) (mkSys (sampleRate s) f r e h a c)
(* ReadBatch *)
| step_read s f e h a c m raw s' :
  query (fun d => scan_rows m 0 (take readBatchScanLimit (chunk d))) s = (Ok raw, s') ->
  step (mkSys s f RIdle e h a c) (mkSys s' f (RDeliver raw []) e h a c)
| step_row s f e h a c x raw acc rs :
  decodeChunk (row_data x) = Ok rs ->
  step (mkSys s f (RDeliver (x :: raw) acc) e h a c)
       (mkSys s f (RDeliver raw (acc ++ [mkChunk (seq x) rs])) e h a c)
| step_row_corrupt s f e h a c x raw acc er res s' :
  decodeChunk (row_data x) = Err er ->
  discard_tx (seq x) (row_n x) s = (res, s') ->
  step (mkSys s f (RDeliver (x :: raw) acc) e h a c)
       (mkSys s' f (discarded (row_n x) raw acc res) e h a c)
| step_discarded s f e h a c n raw acc :
  step (mkSys s f (RDiscarded n raw acc) e h a c)
       (mkSys (count_discarded n s) f (RDeliver raw acc) e h a c)
| step_batch s f e h a c acc :
  step (mkSys s f (RDeliver [] acc) e h a c) (mkSys s f (batched acc) e h a c)
(* Send and Ack *)
| step_arrive s f e h a c cs :
  step (mkSys s f (RSend cs) e h a c) (mkSys s f (RArrived cs) e h (a ++ cs) c)
| step_send_failed s f e h a c cs :
  step (mkSys s f (RSend cs) e h a c) (mkSys s f RIdle e h a c)
| step_ack_lost s f e h a c cs :
  step (mkSys s f (RArrived cs) e h a c) (mkSys s f RIdle e h a c)
| step_ack s f e h a c cs res s' :
  deleteThrough (to_seq cs) "" s = (res, s') ->
  step (mkSys s f (RArrived cs) e h a c) (mkSys s' f (acked res) e h a c)
| step_count s f e h a c k n :
  step (mkSys s f (RCount k n) e h a c) (mkSys (count_removed k n s) f RIdle e h a c)
(* evictOnce *)
| step_evict s f r h a c x s' :
  excessBytes s = (x, s') -> 0 < x -> 0 < pendingChunks s' ->
  step (mkSys s f r EIdle h a c)
       (mkSys s' f r (ETarget (evict_target x (pendingChunks s') (dbBytes s'))) h a c)
| step_cut s f r h a c k res s' :
  query (nth_seq (k - 1)) s = (res, s') ->
  step (mkSys s f r (ETarget k) h a c) (mkSys s' f r (cut_at res) h a c)
| step_evict_tx s f r h a c q res s' :
  deleteThrough q "evicted_readings" s = (res, s') ->
  step (mkSys s f r (ECut q) h a c) (mkSys s' f r (evicted_at res) h a c)
| step_evicted s f r h a c k n :
  step (mkSys s f r (ECount k n) h a c) (mkSys (count_evicted k n s) f r EIdle h a c)
(* Bookkeeping that touches neither readings nor counters *)
| step_bounds s f r e h a c :
  step (mkSys s f r e h a c) (mkSys (refreshBounds s) f r e h a c)
| step_compact s f r e h a c :
  step (mkSys s f r e h a c) (mkSys (compact s) f r e h a c)
(* The process dies and is started again on the same file *)
| step_crash s f r e h a c t o s' :
  Open (db s) t o = (Ok tt, s') -> quiet t ->
  step (mkSys s f r e h a c) (mkSys s' FIdle RIdle EIdle h a (S c)).

(** A gateway started on a new queue file. *)
Inductive boot : Sys -> Prop :=
| boot_new t o s :
  Open empty_db t o = (Ok tt, s) -> quiet t ->
  boot (mkSys s FIdle RIdle EIdle [] [] 0).

Definition reachable (S : Sys) : Prop := exists S0, boot S0 /\ rtc step S0 S.

(** * What a state holds *)

(** Chunks in memory that are not in the table yet. *)
Definition waiting (S : Sys) : list pendingChunk :=
match fl S with
| FWritten b => drop (length b) (unflushed (st S))
| _ => unflushed (st S)
end.

(** The readings the queue holds, oldest first. *)
Definition content (S : Sys) : list Reading :=
rows_readings (chunk (db (st S))) ++ pend_readings (waiting S)
++ map CodecFacts.truncate (buf (st S)).

Definition appended_all (S : Sys) : list Reading := map CodecFacts.truncate (hist S).

(** Rows committed or deleted, but not counted in memory yet. *)
Definition fl_chunks (f : flusher) : Z :=
match f with FWritten b => Z.of_nat (length b) | _ => 0 end.
Definition fl_readings (f : flusher) : Z :=
match f with FWritten b => sumZ pend_n b | _ => 0 end.
Definition rd_chunks (r : sender) : Z :=
match r with RCount k _ => k | RDiscarded _ _ _ => 1 | _ => 0 end.
Definition rd_readings (r : sender) : Z :=
match r with RCount _ n => n | RDiscarded n _ _ => n | _ => 0 end.
Definition ev_chunks (e : evictor) : Z := match e with ECount k _ => k | _ => 0 end.
Definition ev_readings (e : evictor) : Z := match e with ECount _ n => n | _ => 0 end.

(** Where the readings that left the queue went: acknowledged chunks, evicted,
  dropped (since the process started), and lost with earlier processes.  No
  chunk was acknowledged twice, and none that was is still stored. *)
Definition once (A : list Chunk) (d : Db) : Prop :=
NoDup (map Seq A ++ map seq (chunk d)) /\ Forall (fun c => Seq c <= seq_hi d) A.
Record ledger (S : Sys) (A : list Chunk) (E D L : list Reading) : Prop := {
led_all : appended_all S ≡ₚ mjoin (map Readings A) ++ E ++ D ++ L ++ content S;
led_order : content S `sublist_of` appended_all S;
led_acked : A ⊆ arrived S;
led_evicted : Z.of_nat (length E) = counter "evicted_readings" (db (st S)) /\
              evicted (st S) + ev_readings (ev S) = Z.of_nat (length E);
led_dropped : dropped (st S) = Z.of_nat (length D);
led_lost : crashes S = 0%nat -> L = [];
led_once : once A (db (st S))
}.

(** The chunks a message in flight will acknowledge cover the table up to
  their last seq. *)
Definition covers (d : Db) (q : Z) (raw : list Row) (cs : list Chunk) : Prop :=
q <= seq_hi d /\
(forall x, x ∈ chunk d -> seq x <= q -> row_chunk x ∈ cs \/ x ∈ raw) /\
Forall (fun c => Seq c <= q) cs /\ Forall (fun x => seq x <= q) raw.

Definition sender_ok (d : Db) (a : list Chunk) (r : sender) : Prop :=
match r with
| RIdle | RCount _ _ => True
| RDeliver raw acc => Forall row_ok raw /\ exists q, covers d q raw acc
| RDiscarded _ _ _ => False
| RSend cs => cs <> [] /\ exists q, covers d q [] cs
| RArrived cs => cs <> [] /\ cs ⊆ a /\ exists q, covers d q [] cs
end.

Record Inv (S : Sys) : Prop := {
i_db : db_ok (db (st S));
i_rows : Forall row_ok (chunk (db (st S)));
i_pend : Forall pend_ok (unflushed (st S));
i_buf : Forall CodecFacts.wf_reading (buf (st S));
i_buf_len : Z.of_nat (length (buf (st S))) < Int.two63;
i_batch : match fl S with
          | FInsert b | FWritten b => unflushed (st S) = b
          | _ => True
          end;
i_chunks : pendingChunks (st S) + fl_chunks (fl S) - rd_chunks (rd S) - ev_chunks (ev S)
           = count_rows (chunk (db (st S)));
i_readings : pendingReadings (st S) + fl_readings (fl S) - rd_readings (rd S)
             - ev_readings (ev S) = sum_n (chunk (db (st S)));
i_sender : sender_ok (db (st S)) (arrived S) (rd S);
i_ledger : exists A E D L, ledger S A E D L
}.
End Steps.
