(* ===== verification/QueueInvariant.v ===== *)
(** The invariant of the running queue, and its preservation by every step. *)

From stdpp Require Import pretty.
From S2P Require Import Prelude Codec QueueDb QueueStore QueueFacts QueueSteps.

Local Open Scope string_scope.
Local Open Scope list_scope.
Local Open Scope Z_scope.

(** Compute the fields and counts of a concrete [Sys], and nothing else. *)
Ltac sys :=
  cbn [st fl rd ev hist arrived crashes fl_chunks fl_readings rd_chunks rd_readings
       ev_chunks ev_readings] in *.

Section Invariant.
Context `{Env, Flate}.

(** * Opening a queue file *)

Lemma query_quiet {A} (f : Db -> A) s :
sql_fault (clk s) = false -> query f s = (Ok (f (db s)), set_db (db s) (tick s)).
Proof. intros Hq. unfold query, sql. by rewrite Hq. Qed.
Lemma exec_quiet f s :
sql_fault (clk s) = false -> exec f s = (Ok tt, set_db (f (db s)) (tick s)).
Proof. intros Hq. unfold exec, sql. by rewrite Hq. Qed.

(** The set-up leaves the tables alone, apart from a missing stream id. *)
Definition same_tables (d d' : Db) : Prop :=
chunk d' = chunk d /\ seq_hi d' = seq_hi d /\
forall k, k <> "stream_id" -> meta d' !! k = meta d !! k.

Lemma same_tables_ok d d' : same_tables d d' -> db_ok d -> db_ok d'.
Proof.
intros (Hc & Hh & Hm) [H1 H2 H3 H4].
assert (Hk : forall k, k <> "stream_id" ->
  counter k d' = counter k d /\ (is_counter k d -> is_counter k d')).
{ intros k Hne. unfold counter, is_counter. by rewrite Hm. }
split; rewrite ?Hc, ?Hh; [done| | |].
- repeat (apply Forall_cons in H2 as [? H2]; apply Forall_cons; split; [by apply Hk|]). done.
- by rewrite (proj1 (Hk "pending_chunks" ltac:(done))).
- by rewrite (proj1 (Hk "pending_readings" ltac:(done))).
Qed.

Lemma same_tables_counter d d' k :
same_tables d d' -> k <> "stream_id" -> counter k d' = counter k d.
Proof. intros (_ & _ & Hm) Hk. unfold counter. by rewrite Hm. Qed.

Lemma metaInt_quiet k s :
sql_fault (clk s) = false ->
metaInt k s = (match meta (db s) !! k with Some (VInt v) => v | _ => 0 end,
               set_db (db s) (tick s)).
Proof. intros Hq. unfold metaInt. rewrite query_quiet by done. by destruct (meta (db s) !! k) as [[]|]. Qed.

(** Neither refresh touches the tables, the buffers or the counters. *)
Definition key (s : Store) :=
(db s, buf s, unflushed s, pendingChunks s, pendingReadings s, (evicted s, dropped s)).

Lemma key_same_mem s s' : same_mem s s' -> db s' = db s -> key s' = key s.
Proof. intros Hm Hd. unfold key. rewrite Hd. rewrite Hm. by destruct s. Qed.

Lemma key_refreshBounds s : key (refreshBounds s) = key s.
Proof.
unfold refreshBounds. destruct (query oldest_row s) as [[o|] s1] eqn:E1;
  apply query_inv in E1 as (M1 & D1 & _); [|by apply key_same_mem].
destruct (query newest_row s1) as [[n|] s2] eqn:E2; apply query_inv in E2 as (M2 & D2 & _);
  rewrite <- (key_same_mem _ _ M1 D1), <- (key_same_mem _ _ M2 D2); by destruct s2.
Qed.

Lemma key_refreshSize s : key (refreshSize s) = key s.
Proof.
unfold refreshSize. destruct (query _ s) as [[d|] s1] eqn:E1;
  apply query_inv in E1 as (M1 & D1 & _); [|by apply key_same_mem].
destruct (query _ s1) as [[n|] s2] eqn:E2; apply query_inv in E2 as (M2 & D2 & _);
  rewrite <- (key_same_mem _ _ M1 D1), <- (key_same_mem _ _ M2 D2); by destruct s2.
Qed.

Lemma key_exec_id s : key (exec id s).2 = key s.
Proof.
destruct (exec id s) as [r s1] eqn:E. apply exec_inv in E as (Hm & [[_ D]|[_ D]]);
  by apply key_same_mem.
Qed.

Lemma key_compact s : key (compact s) = key s.
Proof. unfold compact. by rewrite key_refreshSize, !key_exec_id. Qed.

Lemma key_sampleRate s : key (sampleRate s) = key s.
Proof. by destruct s. Qed.

Lemma key_excessBytes s x s' : excessBytes s = (x, s') -> key s' = key s.
Proof.
unfold excessBytes. destruct (DiskUsage (opts s)); intros [= <- <-]; by destruct s.
Qed.

(** ** Opening *)

(** An opened store: the tables it was given, counters read, empty memory. *)
Definition opened (d : Db) (s : Store) : Prop :=
same_tables d (db s) /\ buf s = [] /\ unflushed s = [] /\
pendingChunks s = counter "pending_chunks" d /\
pendingReadings s = counter "pending_readings" d /\
evicted s = counter "evicted_readings" d /\ dropped s = 0.

Lemma setup_ok d t o :
quiet t ->
setup (fresh d t o) = (Ok tt, fresh d (t + 4)%nat o).
Proof.
intros Hq. unfold setup, wrap.
assert (Hx : forall i, (i < 13)%nat -> exec id (fresh d (t + i)%nat o) = (Ok tt, fresh d (t + S i)%nat o)).
{ intros i Hi. rewrite exec_quiet; [|apply Hq; cbn; lia]. unfold fresh, tick, set_db, set_clk.
  cbn. by rewrite Nat.add_succ_r. }
replace (fresh d t o) with (fresh d (t + 0)%nat o) by by rewrite Nat.add_0_r.
rewrite (bind_ok _ _ _ _ _ (Hx 0%nat ltac:(lia))), (bind_ok _ _ _ _ _ (Hx 1%nat ltac:(lia))),
  (bind_ok _ _ _ _ _ (Hx 2%nat ltac:(lia))).
by rewrite (Hx 3%nat ltac:(lia)).
Qed.

Lemma read_streamID_ok d t o r s' :
quiet t -> read_streamID (fresh d (t + 4)%nat o) = (r, s') ->
exists id n d', (n <= 2)%nat /\ same_tables d d' /\ r = Ok tt /\
  s' = set_streamID id (fresh d' (t + 4 + n)%nat o).
Proof.
intros Hq. unfold read_streamID, wrap, modify, mbind, M_bind.
rewrite query_quiet by (apply Hq; cbn; lia). cbn [map_err fresh db].
destruct (meta d !! "stream_id") as [[v|v]|] eqn:E.
- intros; simplify_eq. exists (pretty v), 1%nat, d. cbn. rewrite Nat.add_1_r. by split_and!; [lia|..].
- intros; simplify_eq. exists v, 1%nat, d. cbn. rewrite Nat.add_1_r. by split_and!; [lia|..].
- cbv beta iota. rewrite exec_quiet by (apply Hq; cbn; lia). cbn. intros; simplify_eq.
  eexists new_uuid, 2%nat, _. split; [lia|]. split; [|split; [done|]].
  2: by rewrite (Nat.add_comm _ 2).
  split; [done|]. split; [done|]. intros k Hk. cbn. by rewrite lookup_insert_ne.
Qed.

Lemma opened_key d s s' : opened d s -> key s' = key s -> opened d s'.
Proof.
unfold opened. intros Ho Hk. injection Hk as H1 H2 H3 H4 H5 H6 H7.
by rewrite H1, H2, H3, H4, H5, H6, H7.
Qed.

Lemma bind_modify {B} f (k : unit -> Q B) s : (modify f ≫= k) s = k tt (f s).
Proof. done. Qed.

Lemma open_inv d t o r s :
quiet t -> Open d t o = (r, s) -> r = Ok tt /\ opened d s.
Proof.
intros Hq. unfold Open, init.
rewrite (bind_ok _ _ _ _ _ (setup_ok d t (with_defaults o) Hq)).
destruct (read_streamID (fresh d (t + 4)%nat (with_defaults o))) as [r1 s1] eqn:E1. pose proof E1 as E2.
apply read_streamID_ok in E1 as (id & n & d1 & Hn & Hs & -> & ->); [|done].
rewrite (bind_ok _ _ _ _ _ E2).
do 3 (rewrite bind_modify, metaInt_quiet by (apply Hq; cbn; lia); cbv beta iota).
unfold modify. intros Ho. injection Ho as <- <-. split; [done|].
eapply opened_key; [|by rewrite key_refreshSize, key_refreshBounds].
split_and!; try done; by apply (same_tables_counter _ _ _ Hs).
Qed.

(** ** Steps that leave readings and counters alone *)

Lemma key_eq s s' :
key s' = key s ->
db s' = db s /\ buf s' = buf s /\ unflushed s' = unflushed s /\
pendingChunks s' = pendingChunks s /\ pendingReadings s' = pendingReadings s /\
evicted s' = evicted s /\ dropped s' = dropped s.
Proof. unfold key. intros Hk. by injection Hk. Qed.

Lemma content_key s s' f r e h a c :
key s' = key s -> content (mkSys s' f r e h a c) = content (mkSys s f r e h a c).
Proof.
intros (D & B & U & _)%key_eq. unfold content, waiting. cbn. by rewrite D, B, U.
Qed.

Lemma ledger_key s s' f r e h a c A E D L :
key s' = key s ->
ledger (mkSys s f r e h a c) A E D L -> ledger (mkSys s' f r e h a c) A E D L.
Proof.
intros Hk [L1 L2 L3 L4 L5 L6 L7]. pose proof (content_key s s' f r e h a c Hk) as Hc.
apply key_eq in Hk as (D' & _ & _ & _ & _ & E' & X').
split; rewrite ?Hc; try done; cbn in *; by rewrite ?D', ?E', ?X'.
Qed.

Lemma inv_key s s' f r e h a c :
key s' = key s -> Inv (mkSys s f r e h a c) -> Inv (mkSys s' f r e h a c).
Proof.
intros Hk [I1 I2 I3 I4 I5 I6 I7 I8 I9 (A & E & D & L & I10)].
pose proof (ledger_key s s' _ _ _ _ _ _ _ _ _ _ Hk I10) as I10'.
apply key_eq in Hk as (D' & B' & U' & P' & R' & E' & X').
split; cbn in *; rewrite ?D', ?B', ?U', ?P', ?R'; eauto.
Qed.

(** ** Acknowledged chunks *)

Lemma once_same A d d' : chunk d' = chunk d -> seq_hi d' = seq_hi d -> once A d -> once A d'.
Proof. unfold once. by intros -> ->. Qed.

Lemma ascending_NoDup (l : list Row) : StronglySorted (fun a b => seq a < seq b) l -> NoDup (map seq l).
Proof.
induction 1 as [|x l _ IH Hx]; [constructor|]. cbn [map]. apply NoDup_cons. split; [|done].
intros (y & Hs & Hy)%list_elem_of_fmap. rewrite Forall_forall in Hx. specialize (Hx y Hy). cbn in Hx. lia.
Qed.

(** New rows come above every acknowledged one. *)
Lemma once_insert A d d' new :
chunk d' = chunk d ++ new -> db_ok d' -> seq_hi d <= seq_hi d' ->
Forall (fun x => seq_hi d < seq x) new -> once A d -> once A d'.
Proof.
intros Hc Hok Hhi Hnew [Hn Hf]. split; [|eapply Forall_impl; [exact Hf|]; cbn; lia].
apply NoDup_app in Hn as (Ha & Hd & _). apply NoDup_app. split; [done|].
split; [|by apply ascending_NoDup, ok_seqs]. rewrite Hc, map_app.
intros q Hq [Hr|Hr]%elem_of_app; [by eapply Hd|].
apply list_elem_of_fmap in Hq as (c & -> & Hq). apply list_elem_of_fmap in Hr as (x & Hs & Hr).
rewrite Forall_forall in Hf. rewrite Forall_forall in Hnew. specialize (Hf c Hq). specialize (Hnew x Hr). cbn in *. lia.
Qed.

Lemma once_evict A d d' q :
chunk d' = above q (chunk d) -> seq_hi d <= seq_hi d' -> once A d -> once A d'.
Proof.
intros Hc Hhi [Hn Hf]. split; [|eapply Forall_impl; [exact Hf|]; cbn; lia]. rewrite Hc.
apply NoDup_app in Hn as (Ha & Hd & Hr). apply NoDup_app. split; [done|]. split.
- intros k Hk (x & -> & [_ Hx]%list_elem_of_filter)%list_elem_of_fmap.
  eapply Hd; [exact Hk|]. by apply list_elem_of_fmap_2.
- unfold above. eapply sublist_NoDup; [exact Hr|]. apply (fmap_sublist seq), sublist_filter.
Qed.

Lemma once_ack A d d' q :
db_ok d -> chunk d' = above q (chunk d) -> seq_hi d <= seq_hi d' -> once A d ->
once (A ++ map row_chunk (upto q (chunk d))) d'.
Proof.
intros Hok Hc Hhi [Hn Hf]. split.
- rewrite Hc, map_app, map_map, <- app_assoc. cbn [row_chunk Seq]. rewrite <- map_app.
  by rewrite <- (upto_above _ q _ (ok_seqs _ Hok)).
- apply Forall_app. split; [eapply Forall_impl; [exact Hf|]; cbn; lia|].
  apply Forall_forall. intros c (x & -> & [_ Hx]%list_elem_of_filter)%list_elem_of_fmap.
  destruct (ok_seqs _ Hok) as [_ Hh]. rewrite Forall_forall in Hh. specialize (Hh x Hx). cbn in *. lia.
Qed.

(** ** Appending and flushing *)

Lemma inv_append s f r e h a c x :
CodecFacts.wf_reading x -> Z.of_nat (length (buf s)) + 1 < Int.two63 ->
Inv (mkSys s f r e h a c) -> Inv (mkSys (Append x s) f r e (h ++ [x]) a c).
Proof.
intros Hx Hl [I1 I2 I3 I4 I5 I6 I7 I8 I9 (A & E & D & L & [L1 L2 L3 L4 L5 L6 L7])].
split; try done.
- cbn. apply Forall_app. by split; [|constructor].
- cbn. rewrite length_app. cbn. lia.
- exists A, E, D, L.
  assert (Hc : content (mkSys (Append x s) f r e (h ++ [x]) a c) =
               content (mkSys s f r e h a c) ++ [CodecFacts.truncate x]).
  { unfold content, waiting. cbn. by rewrite map_app, !app_assoc. }
  assert (Ha : appended_all (mkSys (Append x s) f r e (h ++ [x]) a c) =
               appended_all (mkSys s f r e h a c) ++ [CodecFacts.truncate x])
    by (unfold appended_all; cbn; by rewrite map_app).
  split; try done; rewrite Hc, Ha.
  + by rewrite L1, !app_assoc.
  + by apply sublist_app.
Qed.

Lemma flush_collect_pend s :
Forall CodecFacts.wf_reading (buf s) -> Z.of_nat (length (buf s)) < Int.two63 ->
flush_collect s = s /\ buf s = [] \/
exists c, flush_collect s = set_unflushed (unflushed s ++ [c]) (set_buf [] s) /\
  pend_ok c /\ decoded (pend_data c) = map CodecFacts.truncate (buf s).
Proof.
intros Hwf Hl. destruct (CodecFacts.encode_then_decode _ Hwf Hl) as (blob & He & Hd).
unfold flush_collect. destruct (buf s) as [|x b] eqn:Hb; [by left|right].
rewrite He. eexists. split; [done|]. split.
- exists (map CodecFacts.truncate (x :: b)). split; [done|]. cbn [pend_n]. by rewrite length_map.
- unfold decoded. cbn [pend_data]. by rewrite Hd.
Qed.

Lemma inv_collect s r e h a c :
Inv (mkSys s FIdle r e h a c) ->
Inv (mkSys (flush_collect s) (collected (flush_collect s)) r e h a c).
Proof.
intros [I1 I2 I3 I4 I5 I6 I7 I8 I9 (A & E & D & L & [L1 L2 L3 L4 L5 L6 L7])]. cbn in *.
assert (Hfl : forall s1, fl_chunks (collected s1) = 0 /\ fl_readings (collected s1) = 0)
  by (intros s1; unfold collected; by destruct (unflushed s1)).
assert (Hb : forall s1, match collected s1 with
  | FInsert b | FWritten b => unflushed s1 = b | _ => True end)
  by (intros s1; unfold collected; by destruct (unflushed s1)).
assert (Hw : forall s1, waiting (mkSys s1 (collected s1) r e h a c) = unflushed s1)
  by (intros s1; unfold waiting, collected; cbn; by destruct (unflushed s1)).
assert (Hc : content (mkSys (flush_collect s) (collected (flush_collect s)) r e h a c) =
             content (mkSys s FIdle r e h a c) /\
             Forall pend_ok (unflushed (flush_collect s)) /\ key (flush_collect s) =
             (db s, [], unflushed (flush_collect s), pendingChunks s, pendingReadings s,
               (evicted s, dropped s))).
{ unfold content. rewrite Hw. unfold waiting. cbn [st fl].
  destruct (flush_collect_pend s I4 I5) as [[-> Hn]|(p & -> & Hp & Hd)].
  - split_and!; try done. unfold key. by rewrite Hn.
  - split_and!; [|cbn|done].
    + cbn [db buf unflushed set_unflushed set_buf map].
      rewrite pend_readings_app, pend_readings_cons, Hd. by rewrite !app_nil_r.
    + apply Forall_app. by repeat constructor. }
destruct Hc as (Hc & Hp & Hk).
unfold key in Hk. injection Hk as K1 K2 K3 K4 K5 K6.
split; cbn -[collected]; rewrite ?K1, ?K2, ?K3, ?K4, ?(proj1 (Hfl _)), ?(proj2 (Hfl _)); try done.
- apply Hb.
- exists A, E, D, L. split; try rewrite Hc; try done; cbn; by rewrite ?K1, ?K5, ?K6.
Qed.

(** The sender's obligations survive any change that adds rows only above the
  high-water mark. *)
Definition grows (d d' : Db) : Prop :=
seq_hi d <= seq_hi d' /\ forall x, x ∈ chunk d' -> seq x <= seq_hi d -> x ∈ chunk d.

Lemma covers_grows d d' q raw cs : grows d d' -> covers d q raw cs -> covers d' q raw cs.
Proof.
intros [Hh Hin] (Hq & Hc & ? & ?). split_and!; [lia| |done..].
intros x Hx Hs. apply Hc; [|done]. apply Hin; [done|lia].
Qed.

Lemma sender_grows d d' a a' r :
grows d d' -> a ⊆ a' -> sender_ok d a r -> sender_ok d' a' r.
Proof.
intros Hg Ha. unfold sender_ok. destruct r; try done.
- intros (? & q & ?). split; [done|]. exists q. by eapply covers_grows.
- intros (? & q & ?). split; [done|]. exists q. by eapply covers_grows.
- intros (? & ? & q & ?). split; [done|]. split; [by etransitivity|].
  exists q. by eapply covers_grows.
Qed.

Lemma same_mem_eq s s' :
same_mem s s' ->
buf s' = buf s /\ unflushed s' = unflushed s /\
pendingChunks s' = pendingChunks s /\ pendingReadings s' = pendingReadings s /\
evicted s' = evicted s /\ dropped s' = dropped s.
Proof. intros ->. done. Qed.

Lemma same_mem_key s s' : same_mem s s' -> db s' = db s -> key s' = key s.
Proof. intros (B & U & P & R & E & X)%same_mem_eq Hd. unfold key. congruence. Qed.

Lemma db_insert_grows b d : grows d (db_insert b d).
Proof.
unfold db_insert, grows. rewrite insert_all_eq. cbn [seq_hi chunk add_meta]. split; [lia|].
intros x [Hx|Hx]%elem_of_app Hs; [done|].
destruct (new_rows_seqs (seq_hi d) b) as [Hn _]. rewrite Forall_forall in Hn.
specialize (Hn _ Hx). cbn in Hn. lia.
Qed.

Lemma db_insert_rows b d :
chunk (db_insert b d) = chunk d ++ new_rows (seq_hi d) b /\
counter "evicted_readings" (db_insert b d) = counter "evicted_readings" d.
Proof.
unfold db_insert. rewrite !counter_add_ne by done. rewrite insert_all_eq. by split.
Qed.

Lemma once_db_insert A b d : db_ok d -> once A d -> once A (db_insert b d).
Proof.
intros Hok. destruct (new_rows_seqs (seq_hi d) b) as [Hnew _].
apply (once_insert A d (db_insert b d) (new_rows (seq_hi d) b)); [by apply db_insert_rows| |apply db_insert_grows|].
- by apply db_ok_insert.
- eapply Forall_impl; [exact Hnew|]. cbn. lia.
Qed.

Lemma inv_insert s b r e h a c res s' :
insertChunks b s = (res, s') -> Inv (mkSys s (FInsert b) r e h a c) ->
Inv (mkSys s' (inserted b res) r e h a c).
Proof.
intros (Hm & Hs)%insertChunks_inv [I1 I2 I3 I4 I5 I6 I7 I8 I9 (A & E & D & L & I10)].
destruct Hs as [(er & -> & Hd)|[-> Hd]]; cbn [inserted] in *.
{ apply (inv_key s); [by apply same_mem_key|]. cbn in *.
  split; try done. exists A, E, D, L. by destruct I10; split. }
apply same_mem_eq in Hm as (B & U & P & R & V & X).
destruct (db_insert_rows b (db s)) as [Hrows Hev].
destruct (sum_new_rows (seq_hi (db s)) b) as [Hsum Hcount].
destruct I10 as [L1 L2 L3 L4 L5 L6 L7]. sys. subst b.
assert (Hc : content (mkSys s' (FWritten (unflushed s)) r e h a c) =
             content (mkSys s (FInsert (unflushed s)) r e h a c)).
{ unfold content, waiting. cbn [st fl]. rewrite Hd, Hrows, B, U, drop_all.
  by rewrite rows_readings_app, new_rows_readings, <- !app_assoc. }
split; sys;
  rewrite ?Hd, ?B, ?U, ?P, ?R, ?Hrows; try done.
- by apply db_ok_insert.
- apply Forall_app. split; [done|by apply new_rows_ok].
- rewrite count_rows_app. lia.
- rewrite sum_n_app. lia.
- eapply sender_grows; [apply db_insert_grows|reflexivity|done].
- exists A, E, D, L. split; rewrite ?Hc; try done; sys; try by rewrite ?Hd, ?Hev, ?V, ?X.
  rewrite Hd. by apply once_db_insert.
Qed.

Lemma flush_written_eq b s :
pendingChunks (flush_written b s) = pendingChunks s + Z.of_nat (length b) /\
pendingReadings (flush_written b s) = pendingReadings s + sumZ pend_n b /\
db (flush_written b s) = db s /\ buf (flush_written b s) = buf s /\
unflushed (flush_written b s) = drop (length b) (unflushed s) /\
evicted (flush_written b s) = evicted s /\ dropped (flush_written b s) = dropped s.
Proof.
unfold flush_written.
assert (Hg : forall k s1, let s2 := foldl count_written s1 k in
  pendingChunks s2 = pendingChunks s1 + Z.of_nat (length k) /\
  pendingReadings s2 = pendingReadings s1 + sumZ pend_n k /\
  db s2 = db s1 /\ buf s2 = buf s1 /\ unflushed s2 = unflushed s1 /\
  evicted s2 = evicted s1 /\ dropped s2 = dropped s1).
{ induction k as [|p k IH]; intros s1; cbn [foldl].
  - unfold sumZ. cbn. split_and!; try done; lia.
  - destruct (IH (count_written s1 p)) as (H1 & H2 & H3 & H4 & H5 & H6 & H7).
    cbv zeta. rewrite H1, H2, H3, H4, H5, H6, H7, sumZ_cons. unfold count_written.
    destruct (oldestTs _ =? 0); cbn -[Z.of_nat]; split_and!; try done; lia. }
destruct (Hg b (set_unflushed (drop (length b) (unflushed s)) s)) as (H1 & H2 & H3 & H4 & H5 & H6 & H7).
split_and!; done.
Qed.

Lemma inv_written s b r e h a c :
Inv (mkSys s (FWritten b) r e h a c) -> Inv (mkSys (flush_written b s) FIdle r e h a c).
Proof.
intros [I1 I2 I3 I4 I5 I6 I7 I8 I9 (A & E & D & L & [L1 L2 L3 L4 L5 L6 L7])]. cbn in *.
destruct (flush_written_eq b s) as (P & R & Hd & B & U & V & X).
assert (Hc : content (mkSys (flush_written b s) FIdle r e h a c) =
             content (mkSys s (FWritten b) r e h a c)).
{ unfold content, waiting. cbn [st fl]. by rewrite Hd, B, U. }
split; sys;
  rewrite ?Hd, ?B, ?U, ?P, ?R; try done; [by apply Forall_drop|lia|lia|].
exists A, E, D, L. split; rewrite ?Hc; try done; cbn [st ev]; by rewrite ?Hd, ?V, ?X.
Qed.

Lemma flush_failed_eq s :
exists k, flush_failed s = set_unflushed (drop k (unflushed s))
  (set_dropped (dropped s + sumZ pend_n (take k (unflushed s))) s).
Proof.
unfold flush_failed. destruct (_ >? 0); [by eexists|]. exists 0%nat.
rewrite take_0, drop_0. unfold sumZ. cbn [foldr]. rewrite Z.add_0_r. by destruct s.
Qed.

(** Moving [X] out of the content into one of the other four accounts. *)
Lemma content_dropped (A E D L C X Y : list Reading) H1 :
H1 ≡ₚ A ++ E ++ D ++ L ++ C -> C ≡ₚ X ++ Y -> H1 ≡ₚ A ++ E ++ (D ++ X) ++ L ++ Y.
Proof. intros -> ->. solve_Permutation. Qed.
Lemma content_acked (A E D L C X Y : list Reading) H1 :
H1 ≡ₚ A ++ E ++ D ++ L ++ C -> C ≡ₚ X ++ Y -> H1 ≡ₚ (A ++ X) ++ E ++ D ++ L ++ Y.
Proof. intros -> ->. solve_Permutation. Qed.
Lemma content_evicted (A E D L C X Y : list Reading) H1 :
H1 ≡ₚ A ++ E ++ D ++ L ++ C -> C ≡ₚ X ++ Y -> H1 ≡ₚ A ++ (E ++ X) ++ D ++ L ++ Y.
Proof. intros -> ->. solve_Permutation. Qed.
Lemma content_lost (A E D L C X Y : list Reading) H1 :
H1 ≡ₚ A ++ E ++ D ++ L ++ C -> C ≡ₚ X ++ Y -> H1 ≡ₚ A ++ E ++ [] ++ (L ++ D ++ X) ++ Y.
Proof. intros -> ->. solve_Permutation. Qed.

Lemma inv_failed s r e h a c :
Inv (mkSys s FFailed r e h a c) -> Inv (mkSys (flush_failed s) FIdle r e h a c).
Proof.
intros [I1 I2 I3 I4 I5 I6 I7 I8 I9 (A & E & D & L & [L1 L2 L3 L4 L5 L6 L7])]. sys.
destruct (flush_failed_eq s) as [k ->].
assert (Hc : content (mkSys s FFailed r e h a c) =
  rows_readings (chunk (db s)) ++ (pend_readings (take k (unflushed s)) ++
    pend_readings (drop k (unflushed s))) ++ map CodecFacts.truncate (buf s)).
{ unfold content, waiting. sys. by rewrite <- pend_readings_app, take_drop. }
split; try done; [by apply Forall_drop|].
exists A, E, (D ++ pend_readings (take k (unflushed s))), L. split; try done.
- eapply content_dropped; [done|]. rewrite Hc. unfold content, waiting. cbn [st fl].
  solve_Permutation.
- etransitivity; [|done]. rewrite Hc. unfold content, waiting. cbn [st fl].
  apply sublist_app; [done|]. apply sublist_app; [|done]. by apply sublist_inserts_l.
- sys. rewrite length_app, Nat2Z.inj_add, <- pend_readings_length, <- L5 by by apply Forall_take.
  done.
Qed.

(** ** Sending *)

Lemma scan_rows_prefix m t rows : scan_rows m t rows `prefix_of` rows.
Proof.
revert t. induction rows as [|x rows IH]; intros t; cbn [scan_rows]; [done|].
destruct (m <=? _); [by eexists|]. apply prefix_cons, IH.
Qed.

Lemma scan_rows_nil m t rows : scan_rows m t rows = [] -> rows = [].
Proof. destruct rows; cbn [scan_rows]; [done|]. by destruct (m <=? _). Qed.

Lemma prefix_covers raw d :
db_ok d -> raw `prefix_of` chunk d -> (raw = [] -> chunk d = []) ->
exists q, covers d q raw [].
Proof.
intros [[Hs Hf] _ _ _] [rest Hr] Hn. destruct raw as [|y raw _] using rev_ind.
{ exists (seq_hi d). specialize (Hn eq_refl). unfold covers. rewrite Hn. split_and!; try done.
  intros x Hx. by apply elem_of_nil in Hx. }
clear Hn. exists (seq y). rewrite Hr in Hs, Hf. rewrite Forall_forall in Hf.
apply StronglySorted_app in Hs as (Hlt & Hs & _).
apply StronglySorted_app in Hs as (Hlt' & _ & _).
split_and!; [apply Hf; set_solver| |done|].
- rewrite Hr. intros x [Hx|Hx]%elem_of_app Hle; [by right|].
  specialize (Hlt y x ltac:(set_solver) Hx). cbn in Hlt. lia.
- apply Forall_app. split; [|by repeat constructor].
  apply Forall_forall. intros x Hx. specialize (Hlt' x y Hx ltac:(set_solver)). cbn in Hlt'. lia.
Qed.

Lemma read_rows m d :
let raw := scan_rows m 0 (take readBatchScanLimit (chunk d)) in
raw `prefix_of` chunk d /\ (raw = [] -> chunk d = []).
Proof.
cbv zeta. split.
- etransitivity; [apply scan_rows_prefix|apply prefix_take].
- intros Hn%scan_rows_nil. by destruct (chunk d).
Qed.

Lemma inv_read s f e h a c m raw s' :
query (fun d => scan_rows m 0 (take readBatchScanLimit (chunk d))) s = (Ok raw, s') ->
Inv (mkSys s f RIdle e h a c) -> Inv (mkSys s' f (RDeliver raw []) e h a c).
Proof.
intros (Hm & Hd & Hr)%query_inv Hi. destruct Hr as [Hr|Hr]; [done|]. injection Hr as ->.
apply (inv_key s); [by apply same_mem_key|].
destruct (read_rows m (db s)) as [Hp Hn].
destruct Hi as [I1 I2 I3 I4 I5 I6 I7 I8 I9 (A & E & D & L & I10)]. split; try done; sys.
- split; [|by apply prefix_covers]. destruct Hp as [rest Hp]. rewrite Hp in I2.
  by apply Forall_app in I2 as [? _].
- exists A, E, D, L. by destruct I10; split.
Qed.

(** A change of the sender alone. *)
Lemma inv_sender s f r r' e h a a' c :
Inv (mkSys s f r e h a c) ->
a ⊆ a' -> rd_chunks r' = rd_chunks r -> rd_readings r' = rd_readings r ->
sender_ok (db s) a' r' -> Inv (mkSys s f r' e h a' c).
Proof.
intros [I1 I2 I3 I4 I5 I6 I7 I8 I9 (A & E & D & L & [L1 L2 L3 L4 L5 L6 L7])] Ha Hc Hr Hs.
split; sys; rewrite ?Hc, ?Hr; try done.
exists A, E, D, L. split; try done; sys. by etransitivity.
Qed.

Lemma sender_row s f e h a c x raw acc rs :
decodeChunk (row_data x) = Ok rs ->
Inv (mkSys s f (RDeliver (x :: raw) acc) e h a c) ->
Inv (mkSys s f (RDeliver raw (acc ++ [mkChunk (seq x) rs])) e h a c).
Proof.
intros Hx Hi. eapply inv_sender; [exact Hi|reflexivity|done|done|].
destruct (i_sender _ Hi) as (Hok & q & Hq & Hcov & Hacc & Hraw). sys.
apply Forall_cons in Hok as [_ ?], Hraw as [? ?]. split; [done|].
exists q. split_and!; try done; [|by apply Forall_app; repeat constructor].
intros y Hy Hs. destruct (Hcov y Hy Hs) as [Hin|Hin]; [left; set_solver|].
apply elem_of_cons in Hin as [->|?]; [|by right]. left. apply elem_of_app. right.
unfold row_chunk, decoded. rewrite Hx. by apply list_elem_of_singleton.
Qed.

Lemma sender_batch s f e h a c acc :
Inv (mkSys s f (RDeliver [] acc) e h a c) -> Inv (mkSys s f (batched acc) e h a c).
Proof.
intros Hi. eapply inv_sender; [exact Hi|reflexivity|by destruct acc..|]. 
destruct (i_sender _ Hi) as (_ & Hq). sys. by destruct acc.
Qed.

Lemma sender_arrive s f e h a c cs :
Inv (mkSys s f (RSend cs) e h a c) -> Inv (mkSys s f (RArrived cs) e h (a ++ cs) c).
Proof.
intros Hi. eapply inv_sender; [exact Hi|set_solver|done|done|].
destruct (i_sender _ Hi) as (Hn & Hcov). sys. split; [done|]. split; [|done]. clear. set_solver.
Qed.

(** ** Deleting *)

Lemma db_delete_rows q k d :
chunk (db_delete q k d) = above q (chunk d) /\ seq_hi (db_delete q k d) = seq_hi d.
Proof. unfold db_delete. by destruct (k =? "")%string. Qed.

Lemma db_delete_grows q k d : grows d (db_delete q k d).
Proof.
unfold grows. destruct (db_delete_rows q k d) as [-> ->]. split; [done|].
intros x Hx _. by apply list_elem_of_filter in Hx as [_ ?].
Qed.

Lemma db_delete_evicted q k d :
delete_key k -> db_ok d ->
counter "evicted_readings" (db_delete q k d) =
counter "evicted_readings" d + (if (k =? "")%string then 0 else sum_n (upto q (chunk d))).
Proof.
intros Hk [_ Hc _ _]. do 2 apply Forall_inv_tail in Hc. apply Forall_inv in Hc.
unfold db_delete. destruct Hk as [->| ->]; cbn [String.eqb Ascii.eqb Bool.eqb].
- rewrite !counter_add_ne by done. by rewrite Z.add_0_r.
- rewrite counter_add_eq by (by do 2 apply is_counter_add).
  by rewrite !counter_add_ne by done.
Qed.

(** What a committed deletion moves out of the content. *)
Lemma content_delete q s s' f r e h a c r' e' a' :
db_ok (db s) -> chunk (db s') = above q (chunk (db s)) ->
buf s' = buf s -> unflushed s' = unflushed s ->
content (mkSys s f r e h a c) =
  rows_readings (upto q (chunk (db s))) ++ content (mkSys s' f r' e' h a' c).
Proof.
intros Hok Hd Hb Hu. unfold content, waiting. cbn [st fl]. rewrite Hd, Hb, Hu.
rewrite (upto_above _ q _ (ok_seqs _ Hok)) at 1.
by rewrite rows_readings_app, <- !app_assoc.
Qed.

Lemma upto_empty q d : db_ok d -> upto q (chunk d) = [] -> above q (chunk d) = chunk d.
Proof. intros Hok He. pose proof (upto_above _ q _ (ok_seqs _ Hok)) as Hs. by rewrite He in Hs. Qed.

(** [deleteThrough] in one form: nothing committed, or the rows up to [q] gone. *)
Lemma deleteThrough_cases q k s r s' :
delete_key k -> db_ok (db s) -> deleteThrough q k s = (r, s') ->
(exists er, r = Err er /\ key s' = key s) \/
(same_mem s s' /\ db_ok (db s') /\ chunk (db s') = above q (chunk (db s)) /\
 grows (db s) (db s') /\
 r = Ok (count_rows (upto q (chunk (db s))), sum_n (upto q (chunk (db s)))) /\
 counter "evicted_readings" (db s') = counter "evicted_readings" (db s) +
   (if (k =? "")%string then 0 else sum_n (upto q (chunk (db s))))).
Proof.
intros Hk Hok (Hm & [(er & -> & Hd)|[(-> & Hd & He)|(-> & Hd)]])%deleteThrough_inv.
- left. exists er. split; [done|]. by apply same_mem_key.
- right. rewrite Hd, (upto_empty q) by done. split_and!; try done; rewrite He; [done|].
  destruct (k =? "")%string; cbn; lia.
- right. rewrite Hd. split_and!; try done.
  + by apply db_ok_delete.
  + apply db_delete_rows.
  + apply db_delete_grows.
  + by apply db_delete_evicted.
Qed.

Lemma count_above q d : db_ok d ->
count_rows (above q (chunk d)) = count_rows (chunk d) - count_rows (upto q (chunk d)) /\
sum_n (above q (chunk d)) = sum_n (chunk d) - sum_n (upto q (chunk d)).
Proof.
intros Hok. pose proof (upto_above _ q _ (ok_seqs _ Hok)) as Hs.
apply (f_equal count_rows) in Hs as Hc. apply (f_equal sum_n) in Hs.
rewrite count_rows_app in Hc. rewrite sum_n_app in Hs. lia.
Qed.

Lemma readings_row_chunks rows : mjoin (map Readings (map row_chunk rows)) = rows_readings rows.
Proof. unfold rows_readings. by rewrite map_map. Qed.

(** A message's chunks include every row its acknowledgement deletes. *)
Lemma acked_rows d cs :
cs <> [] -> (exists q, covers d q [] cs) -> map row_chunk (upto (to_seq cs) (chunk d)) ⊆ cs.
Proof.
intros Hn (q & _ & Hcov & Hle & _) c Hc.
apply list_elem_of_fmap in Hc as (x & -> & Hx). apply list_elem_of_filter in Hx as [Hs Hx].
assert (Hq : to_seq cs <= q).
{ unfold to_seq. destruct cs as [|y cs _] using rev_ind; [done|].
  rewrite last_snoc. cbn. apply Forall_app in Hle as [_ Hle]. by apply Forall_inv in Hle. }
destruct (Hcov x Hx ltac:(lia)) as [?|Hx']; [done|]. by apply elem_of_nil in Hx'.
Qed.

Lemma inv_ack s f e h a c cs res s' :
deleteThrough (to_seq cs) "" s = (res, s') ->
Inv (mkSys s f (RArrived cs) e h a c) -> Inv (mkSys s' f (acked res) e h a c).
Proof.
intros Hdel Hi. pose proof (i_db _ Hi) as Hok. sys.
apply deleteThrough_cases in Hdel as [(er & -> & Hk)|Hdel]; [| |by left|done].
{ apply (inv_key s); [done|]. eapply inv_sender; [exact Hi|reflexivity|done..]. }
destruct Hdel as (Hm & Hok' & Hrows & Hg & -> & Hev). cbn [String.eqb] in Hev.
destruct (i_sender _ Hi) as (Hn & Ha & Hcov). sys.
pose proof (acked_rows _ _ Hn Hcov) as Hsub.
destruct (count_above (to_seq cs) _ Hok) as [Hcount Hsum].
apply same_mem_eq in Hm as (B & U & P & R & V & X).
pose proof (content_delete (to_seq cs) s s' f (RArrived cs) e h a c
              (acked (Ok (count_rows (upto (to_seq cs) (chunk (db s))),
                          sum_n (upto (to_seq cs) (chunk (db s)))))) e a Hok Hrows B U) as Hc.
destruct Hi as [I1 I2 I3 I4 I5 I6 I7 I8 I9 (A & E & D & L & [L1 L2 L3 L4 L5 L6 L7])].
sys. cbn [acked] in *.
split; sys; rewrite ?B, ?U, ?P, ?R, ?Hrows; try done; try lia; [by apply Forall_filter|].
exists (A ++ map row_chunk (upto (to_seq cs) (chunk (db s)))), E, D, L. split; sys.
- rewrite map_app, join_app, readings_row_chunks.
  eapply content_acked; [done|]. by rewrite Hc.
- etransitivity; [|done]. rewrite Hc. by apply sublist_inserts_l.
- clear - L3 Ha Hsub. set_solver.
- by rewrite Hev, V, Z.add_0_r.
- by rewrite X.
- done.
- eapply once_ack; [exact Hok|exact Hrows|apply Hg|exact L7].
Qed.

Lemma inv_count s f e h a c k n :
Inv (mkSys s f (RCount k n) e h a c) -> Inv (mkSys (count_removed k n s) f RIdle e h a c).
Proof.
intros [I1 I2 I3 I4 I5 I6 I7 I8 I9 (A & E & D & L & [L1 L2 L3 L4 L5 L6 L7])].
sys. split; try done; sys; cbn [pendingChunks pendingReadings count_removed set_pendingReadings
  set_pendingChunks db]; try lia. exists A, E, D, L. by split.
Qed.

(** ** Evicting *)

(** A change of the evictor alone, between states that count nothing. *)
Lemma inv_evictor s f r e e' h a c :
Inv (mkSys s f r e h a c) ->
ev_chunks e' = ev_chunks e -> ev_readings e' = ev_readings e ->
Inv (mkSys s f r e' h a c).
Proof.
intros [I1 I2 I3 I4 I5 I6 I7 I8 I9 (A & E & D & L & [L1 L2 L3 L4 L5 L6 L7])] Hc Hr.
split; sys; rewrite ?Hc, ?Hr; try done.
exists A, E, D, L. split; try done; sys; by rewrite Hr.
Qed.

Lemma inv_evict_tx s f r h a c q res s' :
deleteThrough q "evicted_readings" s = (res, s') ->
Inv (mkSys s f r (ECut q) h a c) -> Inv (mkSys s' f r (evicted_at res) h a c).
Proof.
intros Hdel Hi. pose proof (i_db _ Hi) as Hok. sys.
apply deleteThrough_cases in Hdel as [(er & -> & Hk)|Hdel]; [| |by right|done].
{ apply (inv_key s); [done|]. by eapply inv_evictor. }
destruct Hdel as (Hm & Hok' & Hrows & Hg & -> & Hev). cbn [String.eqb Ascii.eqb Bool.eqb] in Hev.
destruct (count_above q _ Hok) as [Hcount Hsum].
apply same_mem_eq in Hm as (B & U & P & R & V & X).
pose proof (content_delete q s s' f r (ECut q) h a c r
              (evicted_at (Ok (count_rows (upto q (chunk (db s))),
                               sum_n (upto q (chunk (db s)))))) a Hok Hrows B U) as Hc.
destruct Hi as [I1 I2 I3 I4 I5 I6 I7 I8 I9 (A & E & D & L & [L1 L2 L3 [L4 L4'] L5 L6 L7])].
sys. cbn [evicted_at] in *.
assert (Hlen : sum_n (upto q (chunk (db s))) =
               Z.of_nat (length (rows_readings (upto q (chunk (db s)))))).
{ by apply rows_readings_length, Forall_filter. }
split; sys; rewrite ?B, ?U, ?P, ?R, ?Hrows; try done; try lia;
  [by apply Forall_filter|by eapply (sender_grows (db s)); [|reflexivity|]|].
exists A, (E ++ rows_readings (upto q (chunk (db s)))), D, L. split; sys; try done.
- eapply content_evicted; [done|]. by rewrite Hc.
- etransitivity; [|done]. rewrite Hc. by apply sublist_inserts_l.
- rewrite Hev, V, length_app, Nat2Z.inj_add. lia.
- by rewrite X.
- by eapply once_evict; [|apply Hg|].
Qed.

Lemma inv_evicted s f r h a c k n :
Inv (mkSys s f r (ECount k n) h a c) -> Inv (mkSys (count_evicted k n s) f r EIdle h a c).
Proof.
intros [I1 I2 I3 I4 I5 I6 I7 I8 I9 (A & E & D & L & [L1 L2 L3 [L4 L4'] L5 L6 L7])].
sys. split; try done; sys; cbn [pendingChunks pendingReadings count_removed set_pendingReadings
  set_pendingChunks set_evicted count_evicted db]; try lia.
exists A, E, D, L. split; try done; sys. split; [done|]. cbn. lia.
Qed.

(** ** Starting and crashing *)

Lemma opened_inv d s h a n A E D L :
db_ok d -> Forall row_ok (chunk d) -> opened d s ->
ledger (mkSys s FIdle RIdle EIdle h a n) A E D L ->
Inv (mkSys s FIdle RIdle EIdle h a n).
Proof.
intros Hok Hrows (Hs & B & U & P & R & V & X) Hl.
pose proof (same_tables_ok _ _ Hs Hok) as Hok'. destruct Hs as (Hc & Hh & _).
split; sys; rewrite ?Hc, ?B, ?U, ?P, ?R; try done.
- rewrite (ok_pending_chunks _ Hok). lia.
- rewrite (ok_pending_readings _ Hok). lia.
- eauto.
Qed.

Lemma inv_crash s f r e h a c t o s' :
Open (db s) t o = (Ok tt, s') -> quiet t ->
Inv (mkSys s f r e h a c) -> Inv (mkSys s' FIdle RIdle EIdle h a (S c)).
Proof.
intros Ho Hq [I1 I2 I3 I4 I5 I6 I7 I8 I9 (A & E & D & L & [L1 L2 L3 [L4 L4'] L5 L6 L7])]. sys.
apply open_inv in Ho as [_ Ho]; [|done].
set (lost := pend_readings (waiting (mkSys s f r e h a c)) ++ map CodecFacts.truncate (buf s)).
apply (opened_inv (db s) _ _ _ _ A E [] (L ++ D ++ lost)); try done.
destruct Ho as (Hs & B & U & P & R & V & X).
assert (Hc : content (mkSys s' FIdle RIdle EIdle h a (S c)) = rows_readings (chunk (db s))).
{ unfold content, waiting. sys. rewrite B, U, (proj1 Hs). cbn. by rewrite app_nil_r. }
split; sys; rewrite ?Hc, ?V, ?X, ?(same_tables_counter _ _ _ Hs) by done; try done.
- eapply content_lost; [done|]. unfold content. sys. fold lost. solve_Permutation.
- etransitivity; [|done]. unfold content. sys. by apply sublist_inserts_r.
- split; [done|]. lia.
- by eapply once_same; [apply Hs..|].
Qed.

Lemma inv_boot S : boot S -> Inv S.
Proof.
intros [t o s Ho Hq]. apply open_inv in Ho as [_ Ho]; [|done].
apply (opened_inv empty_db _ _ _ _ [] [] [] []); try done.
- by repeat constructor.
- destruct Ho as (Hs & B & U & P & R & V & X).
  assert (Hc : content (mkSys s FIdle RIdle EIdle [] [] 0) = []).
  { unfold content, waiting. sys. by rewrite B, U, (proj1 Hs). }
  split; sys; rewrite ?Hc, ?V, ?X, ?(same_tables_counter _ _ _ Hs) by done; try done.
  by eapply once_same; [apply Hs..|split; constructor].
Qed.

Lemma inv_step S S' : step S S' -> Inv S -> Inv S'.
Proof.
intros Hstep Hi. destruct Hstep.
- by apply inv_append.
- by apply inv_collect.
- by eapply inv_insert.
- by apply inv_written.
- by apply inv_failed.
- by eapply inv_key; [apply key_sampleRate|].
- by eapply inv_read.
- by eapply sender_row.
- destruct (i_sender _ Hi) as (Hok & _). apply Forall_inv in Hok as (rs & Hd & _). congruence.
- by destruct (i_sender _ Hi).
- by apply sender_batch.
- by apply sender_arrive.
- by eapply inv_sender.
- by eapply inv_sender.
- by eapply inv_ack.
- by apply inv_count.
- eapply inv_evictor; [by eapply inv_key; [eapply key_excessBytes|]|done..].
- apply query_inv in H1 as (Hm & Hd & Hr).
  eapply inv_evictor; [by eapply inv_key; [apply same_mem_key|]| |];
    by destruct res as [[]|].
- by eapply inv_evict_tx.
- by apply inv_evicted.
- by eapply inv_key; [apply key_refreshBounds|].
- by eapply inv_key; [apply key_compact|].
- by eapply inv_crash.
Qed.

Lemma reachable_inv S : reachable S -> Inv S.
Proof.
intros (S0 & Hb & Hs). apply inv_boot in Hb. induction Hs; [done|]. by eauto using inv_step.
Qed.
End Invariant.
