(* ===== verification/QueueProps.v ===== *)
(** What the store-and-forward queue promises: nothing is lost silently, the
    counters are exact, and what each operation returns. *)

From S2P Require Import Prelude Float64 Codec QueueDb QueueStore QueueFacts QueueSteps QueueInvariant.

Local Open Scope string_scope.
Local Open Scope list_scope.
Local Open Scope Z_scope.

Section Operations.
Context `{Env, Flate}.

(** Every statement from call [t] on succeeds. *)
Definition no_fault (t : nat) : Prop := forall i, (t <= i)%nat -> sql_fault i = false.

(** ** Flush *)

(** What a flush that cannot write keeps, and what it throws away. *)
Record flush_kept (s s' : Store) (batch : list pendingChunk) : Prop := {
fk_db : db s' = db s;
fk_buf : buf s' = [];
fk_split : exists lost, batch = lost ++ unflushed s' /\
  dropped s' = dropped s + sumZ pend_n lost;
fk_bound : 0 <= MaxUnflushedChunks (opts s) ->
  Z.of_nat (length (unflushed s')) <= MaxUnflushedChunks (opts s)
}.

Lemma flush_failed_kept s s1 s2 :
db s1 = db s -> buf s1 = [] -> dropped s1 = dropped s -> opts s1 = opts s ->
same_mem s1 s2 -> db s2 = db s1 -> flush_kept s (flush_failed s2) (unflushed s1).
Proof.
intros Hd Hb Hx Ho Hm Hd2.
assert (Ho2 : opts s2 = opts s1) by by rewrite Hm.
destruct (same_mem_eq _ _ Hm) as (B & U & _ & _ & _ & X).
unfold flush_failed. rewrite Ho2, Ho, U.
destruct (_ >? 0) eqn:Hover; rewrite Z.gtb_ltb in Hover; zbool.
- split; cbn [db buf unflushed dropped set_unflushed set_dropped]; try congruence.
  + exists (take (Z.to_nat (Z.of_nat (length (unflushed s1)) - MaxUnflushedChunks (opts s)))
              (unflushed s1)).
    rewrite take_drop. split; [done|congruence].
  + intros Hmax. rewrite length_drop. lia.
- split; try congruence.
  + exists []. rewrite U. split; [done|]. unfold sumZ. cbn. lia.
  + intros _. rewrite U. lia.
Qed.

(** ** Operations without faults *)

(** When no statement fails, the call returns no error. *)
Definition live {A} (m : Q A) : Prop :=
forall s, no_fault (clk s) -> exists a s', m s = (Ok a, s') /\ (clk s <= clk s')%nat.

Lemma no_fault_le t t' : no_fault t -> (t <= t')%nat -> no_fault t'.
Proof. intros Hn Ht i Hi. apply Hn. lia. Qed.

Lemma live_ret {A} (a : A) : live (mret a : Q A).
Proof. intros s _. by exists a, s. Qed.
Lemma live_sql {A} (f : Db -> A * Db) : live (sql f).
Proof.
intros s Hn. unfold sql. rewrite Hn by done. destruct (f (db s)) as [a d].
eexists _, _. split; [done|]. cbn. lia.
Qed.
Lemma live_exec f : live (exec f).
Proof. apply live_sql. Qed.
Lemma live_query {A} (f : Db -> A) : live (query f).
Proof. apply live_sql. Qed.
Lemma live_bind {A B} (m : Q A) (f : A -> Q B) :
live m -> (forall a, live (f a)) -> live (m ≫= f).
Proof.
intros Hm Hf s Hn. destruct (Hm s Hn) as (a & s1 & H1 & Hc1).
destruct (Hf a s1) as (b & s2 & H2 & Hc2); [by eapply no_fault_le|].
exists b, s2. rewrite (bind_ok _ _ _ _ _ H1). split; [done|lia].
Qed.
Lemma live_transaction {A} (m : Q (bool * A)) : live m -> live (transaction m).
Proof.
intros Hm s Hn. unfold transaction.
destruct (live_exec id s Hn) as (u & s1 & -> & C1).
destruct (Hm s1) as ([[] a] & s2 & -> & C2); [by eapply no_fault_le| |].
- destruct (live_exec id s2) as (v & s3 & -> & C3); [by eapply no_fault_le, Nat.le_trans|].
  exists a, s3. split; [done|lia].
- eexists a, _. split; [done|]. cbn. lia.
Qed.
Lemma live_insert_rows b : live (insert_rows b).
Proof. induction b; cbn; auto using live_ret, live_bind, live_exec. Qed.
Lemma live_insertChunks b : live (insertChunks b).
Proof.
apply live_transaction, live_bind; [apply live_insert_rows|intros _].
do 2 (apply live_bind; [apply live_exec|intros _]). apply live_ret.
Qed.

Lemma live_deleteThrough q k : live (deleteThrough q k).
Proof.
apply live_transaction, live_bind; [apply live_query|intros [c n]].
destruct (c =? 0); [apply live_ret|].
do 3 (apply live_bind; [apply live_exec|intros _]).
apply live_bind; [destruct (k =? "")%string; [apply live_ret|apply live_exec]|intros _].
apply live_ret.
Qed.

Lemma flush_collect_eq s :
clk (flush_collect s) = clk s /\ db (flush_collect s) = db s /\
opts (flush_collect s) = opts s /\ pendingChunks (flush_collect s) = pendingChunks s /\
pendingReadings (flush_collect s) = pendingReadings s /\ buf (flush_collect s) = [].
Proof.
unfold flush_collect. destruct (buf s) as [|x b] eqn:E; [by rewrite E|].
by destruct (encodeChunk (x :: b)).
Qed.

Lemma clk_flush_written b s : clk (flush_written b s) = clk s.
Proof.
unfold flush_written. assert (Hg : forall k s1, clk (foldl count_written s1 k) = clk s1).
{ intros k. induction k as [|p k IH]; intros s1; [done|]. cbn [foldl]. rewrite IH. unfold count_written.
  by destruct (oldestTs _ =? 0). }
by rewrite Hg.
Qed.

Lemma live_Flush : live Flush.
Proof.
intros s. destruct (flush_collect_eq s) as [<- _]. intros Hn.
unfold Flush. destruct (unflushed (flush_collect s)) as [|c b] eqn:E; [by exists tt, (flush_collect s)|].
destruct (live_insertChunks (c :: b) _ Hn) as ([] & s2 & -> & Hc).
exists tt, (flush_written (c :: b) s2). split; [done|]. by rewrite clk_flush_written.
Qed.

Lemma close_no_fault s r s' :
no_fault (clk s) -> Close s = (r, s') -> r = Ok tt /\ exists s1, Flush s = (Ok tt, s1) /\ s' = tick s1.
Proof.
intros Hn. unfold Close. destruct (live_Flush s Hn) as ([] & s1 & -> & Hc).
unfold exec, sql. rewrite Hn by done. intros [= <- <-]. split; [done|]. exists s1. by destruct s1.
Qed.

(** The readings of the batch a flush writes: the backlog, then the buffer. *)
Lemma flush_collect_readings s :
Forall CodecFacts.wf_reading (buf s) -> Z.of_nat (length (buf s)) < Int.two63 ->
dropped (flush_collect s) = dropped s /\
pend_readings (unflushed (flush_collect s)) =
  pend_readings (unflushed s) ++ map CodecFacts.truncate (buf s).
Proof.
intros Hwf Hl. destruct (flush_collect_pend s Hwf Hl) as [[-> Hb]|(c & -> & _ & Hd)].
- rewrite Hb. cbn [map]. by rewrite app_nil_r.
- split; [done|]. cbn [unflushed set_unflushed].
  rewrite pend_readings_app, pend_readings_cons, Hd. unfold pend_readings at 2. cbn.
  by rewrite app_nil_r.
Qed.

(** What a successful flush does, given the readings it had to write. *)
Record flush_written_to (s s' : Store) (rs : list Reading) : Prop := {
fw_mem : buf s' = [] /\ unflushed s' = [] /\ dropped s' = dropped s;
fw_rows : exists rows, chunk (db s') = chunk (db s) ++ rows /\ rows_readings rows = rs /\
  pendingChunks s' = pendingChunks s + count_rows rows /\
  pendingReadings s' = pendingReadings s + sum_n rows;
fw_ok : db_ok (db s) -> db_ok (db s')
}.

Lemma flush_ok s s1 b s2 :
db s1 = db s -> buf s1 = [] -> dropped s1 = dropped s -> unflushed s1 = b ->
pendingChunks s1 = pendingChunks s -> pendingReadings s1 = pendingReadings s ->
same_mem s1 s2 -> db s2 = db_insert b (db s1) ->
flush_written_to s (flush_written b s2) (pend_readings b).
Proof.
intros Hd Hb Hx Hu Hp Hr Hm Hd2.
destruct (same_mem_eq _ _ Hm) as (B & U & P & R & _ & X).
destruct (flush_written_eq b s2) as (P' & R' & D' & B' & U' & _ & X').
destruct (db_insert_rows b (db s)) as [Hrows _].
destruct (sum_new_rows (seq_hi (db s)) b) as [Hsum Hcount].
split.
- rewrite B', U', X', B, U, X, Hu, drop_all. by rewrite Hb, Hx.
- exists (new_rows (seq_hi (db s)) b). rewrite D', Hd2, Hd, Hrows, new_rows_readings.
  split_and!; try done; lia.
- intros Hok. rewrite D', Hd2, Hd. by apply db_ok_insert.
Qed.

Lemma flush_nothing s s1 :
db s1 = db s -> buf s1 = [] -> dropped s1 = dropped s -> unflushed s1 = [] ->
pendingChunks s1 = pendingChunks s -> pendingReadings s1 = pendingReadings s ->
flush_written_to s s1 [].
Proof.
intros Hd Hb Hx Hu Hp Hr. split; [done| |by rewrite Hd].
exists []. rewrite app_nil_r, Hd. unfold sum_n, count_rows, sumZ. cbn. split_and!; try done; lia.
Qed.

(** ** ReadBatch *)

(** A row [ReadBatch] can decode. *)
Definition readable (r : Row) : bool :=
match decodeChunk (row_data r) with Ok _ => true | Err _ => false end.

Lemma live_discard_tx q n : live (discard_tx q n).
Proof.
apply live_transaction, live_bind; [apply live_sql|intros k].
destruct (k =? 0)%nat; [apply live_ret|].
do 2 (apply live_bind; [apply live_exec|intros _]). apply live_ret.
Qed.

Lemma clk_refreshBounds s : (clk s <= clk (refreshBounds s))%nat.
Proof.
unfold refreshBounds, query, sql, tick.
destruct (sql_fault (clk s)); cbn; [lia|]. destruct (sql_fault _); cbn; lia.
Qed.

(** What one call removed from the queue as unreadable. *)
Record discarded_rows (s s' : Store) (bad : list Row) : Prop := {
dr_rows : chunk (db s') = filter (fun x => seq x ∉ map seq bad) (chunk (db s));
dr_ok : db_ok (db s');
dr_mem : buf s' = buf s /\ unflushed s' = unflushed s;
dr_counts : pendingChunks s' = pendingChunks s - count_rows bad /\
            pendingReadings s' = pendingReadings s - sum_n bad /\
            dropped s' = dropped s + sum_n bad /\ evicted s' = evicted s
}.

Lemma discard_ok r s :
db_ok (db s) -> r ∈ chunk (db s) -> no_fault (clk s) ->
exists s', discard (seq r) (row_n r) s = (Ok tt, s') /\ (clk s <= clk s')%nat /\
  discarded_rows s s' [r].
Proof.
intros Hok Hr Hn. destruct (live_discard_tx (seq r) (row_n r) s Hn) as (del & s1 & E & C).
unfold discard. rewrite (bind_ok _ _ _ _ _ E).
apply discard_tx_inv in E as (Hm & [(e & ? & _)|[(_ & _ & Hno)|(Hdel & Hd & _)]]); [done| |].
{ exfalso. assert (Hin : r ∈ filter (fun x => seq x = seq r) (chunk (db s)))
    by by apply list_elem_of_filter. rewrite Hno in Hin. by apply elem_of_nil in Hin. }
injection Hdel as ->. rewrite bind_modify. unfold modify.
eexists. split; [done|].
pose proof (clk_refreshBounds (count_discarded (row_n r) s1)) as C2. cbn [clk count_discarded
  set_dropped set_pendingReadings set_pendingChunks] in C2. split; [lia|].
pose proof (key_refreshBounds (count_discarded (row_n r) s1)) as (D & B & U & P & R & V & X)%key_eq.
apply same_mem_eq in Hm as (B1 & U1 & P1 & R1 & V1 & X1).
split; rewrite ?D, ?B, ?U, ?P, ?R, ?V, ?X; cbn [db buf unflushed pendingChunks pendingReadings
  dropped evicted count_discarded set_dropped set_pendingReadings set_pendingChunks].
- rewrite Hd. unfold db_discard. cbn [chunk add_meta delete_seq]. apply list_filter_iff.
  intros x. cbn. rewrite not_elem_of_cons. split; [|by intros [? _]].
  split; [done|apply not_elem_of_nil].
- rewrite Hd. by apply db_ok_discard.
- done.
- unfold count_rows, sum_n, sumZ. cbn. split_and!; lia.
Qed.

Lemma discarded_rows_nil s : db_ok (db s) -> discarded_rows s s [].
Proof.
intros Hok. split; [|done|done|unfold count_rows, sum_n, sumZ; cbn; lia].
rewrite filter_all; [done|]. apply Forall_forall. intros x _. apply not_elem_of_nil.
Qed.

Lemma discarded_rows_cons s s1 s2 r bad :
discarded_rows s s1 [r] -> discarded_rows s1 s2 bad -> discarded_rows s s2 (r :: bad).
Proof.
intros [R1 O1 [B1 U1] (P1 & N1 & D1 & E1)] [R2 O2 [B2 U2] (P2 & N2 & D2 & E2)].
split; [|done|by rewrite B2, B1, U2, U1|].
- rewrite R2, R1, list_filter_filter. apply list_filter_iff. intros x. cbn.
  rewrite !not_elem_of_cons. pose proof (not_elem_of_nil (seq x)). tauto.
- unfold count_rows, sum_n, sumZ in *. cbn [length foldr] in *. lia.
Qed.

Lemma deliver_ok raw s :
db_ok (db s) -> StronglySorted (fun a b => seq a < seq b) raw -> raw ⊆ chunk (db s) ->
no_fault (clk s) ->
exists s', deliver raw s = (Ok (map row_chunk (filter (fun r => readable r) raw)), s') /\
  discarded_rows s s' (filter (fun r => negb (readable r)) raw).
Proof.
revert s. induction raw as [|r raw IH]; intros s Hok Hs Hin Hn; cbn [deliver].
{ exists s. split; [done|by apply discarded_rows_nil]. }
apply StronglySorted_inv in Hs as [Hs Hr].
destruct (decodeChunk (row_data r)) as [rs|e] eqn:Hd.
- assert (Hread : readable r = true) by (unfold readable; by rewrite Hd).
  rewrite filter_cons_True, (filter_cons_False (fun r => negb (readable r)))
    by (rewrite Hread; by try intros []).
  destruct (IH s) as (s' & E & Hdis); [done|done|set_solver|done|].
  exists s'. rewrite (bind_ok _ _ _ _ _ E). split; [|done]. cbn [map].
  unfold row_chunk at 2, decoded. by rewrite Hd.
- assert (Hread : readable r = false) by (unfold readable; by rewrite Hd).
  rewrite filter_cons_False, (filter_cons_True (fun r => negb (readable r)))
    by (rewrite Hread; by try intros []).
  destruct (discard_ok r s) as (s1 & E1 & C1 & Hd1); [done|set_solver|done|].
  destruct (IH s1) as (s2 & E2 & Hd2); [apply Hd1|done| |by eapply no_fault_le|].
  + intros x Hx. rewrite (dr_rows _ _ _ Hd1). apply list_elem_of_filter. split; [|set_solver].
    rewrite Forall_forall in Hr. specialize (Hr x Hx). cbn in Hr |- *.
    rewrite list_elem_of_singleton. lia.
  + exists s2. rewrite (bind_ok _ _ _ _ _ E1), E2. split; [done|]. by eapply discarded_rows_cons.
Qed.

(** Where [ReadBatch] stops: once [m] readings are collected, and no earlier
  unless the rows or the scan limit run out. *)
Record batch_rows (m : Z) (rows raw : list Row) : Prop := {
br_prefix : raw `prefix_of` rows;
br_some : rows <> [] -> raw <> [];
br_limit : (length raw <= readBatchScanLimit)%nat;
br_minimal : forall init x, raw = init ++ [x] -> init = [] \/ sum_n init < m;
br_enough : raw = rows \/ length raw = readBatchScanLimit \/ m <= sum_n raw
}.

Lemma scan_rows_minimal m t rows init x k :
scan_rows m t rows = init ++ x :: k -> init = [] \/ t + sum_n init < m.
Proof.
revert t init. induction rows as [|r rows IH]; intros t init; cbn [scan_rows];
  [by destruct init|].
destruct (m <=? _) eqn:Hm; zbool; destruct init as [|y init]; auto; cbn [app]; intros Heq.
- by destruct init.
- injection Heq as <- Heq. destruct (IH _ _ Heq) as [->|Hlt]; right; unfold sum_n;
    rewrite sumZ_cons; unfold sum_n, sumZ in *; cbn in *; lia.
Qed.

Lemma scan_rows_enough m t rows :
scan_rows m t rows = rows \/ m <= t + sum_n (scan_rows m t rows).
Proof.
revert t. induction rows as [|r rows IH]; intros t; cbn [scan_rows]; [by left|].
destruct (m <=? _) eqn:Hm; zbool.
- right. unfold sum_n, sumZ. cbn. lia.
- destruct (IH (t + row_n r)) as [->|Hle]; [by left|right].
  unfold sum_n in *. rewrite sumZ_cons. lia.
Qed.

Lemma scan_batch_rows m rows :
batch_rows m rows (scan_rows m 0 (take readBatchScanLimit rows)).
Proof.
pose proof (scan_rows_prefix m 0 (take readBatchScanLimit rows)) as Hp.
pose proof (prefix_length _ _ Hp) as Hlen. rewrite length_take in Hlen.
split.
- etransitivity; [exact Hp|apply prefix_take].
- intros Hne Hn%scan_rows_nil. by destruct rows.
- lia.
- intros init x Hx. destruct (scan_rows_minimal _ _ _ _ _ _ Hx); auto.
- destruct (scan_rows_enough m 0 (take readBatchScanLimit rows)) as [->|?]; [|auto].
  rewrite length_take. destruct (decide (length rows <= readBatchScanLimit)%nat).
  + left. by rewrite take_ge.
  + right; left. lia.
Qed.

(** ** Eviction *)

(** The [k] oldest rows are gone and accounted for as evicted. *)
Record evicted_first (k : nat) (s s' : Store) : Prop := {
ef_rows : chunk (db s') = drop k (chunk (db s));
ef_ok : db_ok (db s');
ef_mem : buf s' = buf s /\ unflushed s' = unflushed s /\ dropped s' = dropped s;
ef_counts : pendingChunks s' = pendingChunks s - count_rows (take k (chunk (db s))) /\
            pendingReadings s' = pendingReadings s - sum_n (take k (chunk (db s))) /\
            evicted s' = evicted s + sum_n (take k (chunk (db s))) /\
            counter "evicted_readings" (db s') =
              counter "evicted_readings" (db s) + sum_n (take k (chunk (db s)))
}.

Lemma evicted_first_key k s s1 s2 : key s2 = key s1 -> evicted_first k s s1 -> evicted_first k s s2.
Proof.
intros (D & B & U & P & R & V & X)%key_eq [E1 E2 E3 E4].
split; by rewrite ?D, ?B, ?U, ?P, ?R, ?V, ?X.
Qed.

Lemma evicted_first_0 s s' : db_ok (db s) -> key s' = key s -> evicted_first 0 s s'.
Proof.
intros Hok Hk. eapply evicted_first_key; [exact Hk|].
split; rewrite ?take_0, ?drop_0; try done. unfold count_rows, sum_n, sumZ. cbn. lia.
Qed.

Lemma evicted_first_trans k k' s s1 s2 :
evicted_first k s s1 -> evicted_first k' s1 s2 ->
exists n, (n <= k + k')%nat /\ evicted_first n s s2.
Proof.
intros [R1 O1 (B1 & U1 & D1) (P1 & N1 & E1 & C1)] [R2 O2 (B2 & U2 & D2) (P2 & N2 & E2 & C2)].
exists (k + k')%nat. split; [done|].
assert (Ht : take (k + k') (chunk (db s)) = take k (chunk (db s)) ++ take k' (chunk (db s1)))
  by by rewrite R1, take_take_drop.
split; [by rewrite R2, R1, drop_drop|done|split_and!; congruence|].
rewrite Ht, count_rows_app, sum_n_app. lia.
Qed.

Lemma upto_nth hi rows i r :
seqs_ok hi rows -> rows !! i = Some r ->
upto (seq r) rows = take (S i) rows /\ above (seq r) rows = drop (S i) rows.
Proof.
intros Hs Hi. pose proof (upto_above _ (seq r) _ Hs) as Hsplit.
assert (Hu : upto (seq r) rows = take (S i) rows).
{ destruct Hs as [Hs _]. rewrite <- (take_drop (S i) rows) at 1. unfold upto.
  rewrite <- (take_drop_middle _ _ _ Hi) in Hs.
  apply StronglySorted_app in Hs as (Hlt & _ & Hs). apply StronglySorted_inv in Hs as [_ Hs].
  rewrite filter_app, filter_all, filter_none; [by rewrite app_nil_r| |].
  - eapply Forall_impl; [exact Hs|]. cbn. lia.
  - apply Forall_forall. intros x Hx. rewrite (take_S_r _ _ _ Hi) in Hx.
    apply elem_of_app in Hx as [Hx|Hx]; [|apply list_elem_of_singleton in Hx as ->; lia].
    specialize (Hlt x r Hx ltac:(left)). cbn in Hlt. lia. }
split; [done|]. rewrite Hu in Hsplit. rewrite <- (take_drop (S i) rows) in Hsplit at 1.
by apply app_inv_head in Hsplit.
Qed.

(** The rows one pass removes when it removes any. *)
Definition pass_size (s : Store) : nat :=
S (Z.to_nat (evict_target (excessBytes s).1 (pendingChunks s) (dbBytes s) - 1)).

Lemma evict_target_le x c d : evict_target x c d <= maxEvictChunksPerPass /\ evict_target x c d <= c.
Proof. unfold evict_target. lia. Qed.

Lemma excessBytes_eq s x s1 :
excessBytes s = (x, s1) ->
key s1 = key s /\ dbBytes s1 = dbBytes s /\ (clk s <= clk s1)%nat.
Proof.
intros He. split; [by eapply key_excessBytes|]. revert He.
unfold excessBytes. destruct (DiskUsage (opts s)); intros [= <- <-]; cbn; lia.
Qed.

Lemma evictOnce_cases s more s' :
db_ok (db s) -> evictOnce s = (more, s') ->
(evicted_first 0 s s' /\ more = false) \/
(0 < (excessBytes s).1 /\ evicted_first (pass_size s) s s' /\ more = true).
Proof.
intros Hok. unfold evictOnce, pass_size. destruct (excessBytes s) as [x s1] eqn:Ex.
apply excessBytes_eq in Ex as (K1 & B1 & _). cbn [fst].
destruct (x <=? 0) eqn:Hx; [intros [= <- <-]; left; split; [by apply evicted_first_0|done]|].
destruct (pendingChunks s1 <=? 0); [intros [= <- <-]; left; split; [by apply evicted_first_0|done]|].
rewrite B1. assert (HP1 : pendingChunks s1 = pendingChunks s) by by apply key_eq in K1 as (? & ? & ? & ? & _).
rewrite HP1. destruct (query _ s1) as [r s2] eqn:Eq.
apply query_inv in Eq as (Hm2 & Hd2 & Hr).
assert (K2 : key s2 = key s) by (rewrite <- K1; by apply same_mem_key).
pose proof (evicted_first_0 s s2 Hok K2) as H0s.
destruct r as [[cut|]|]; [|intros [= <- <-]; by left|intros [= <- <-]; by left].
destruct Hr as [?|Hr]; [done|]. injection Hr as Hr.
destruct (deleteThrough cut _ s2) as [r3 s3] eqn:Edel.
pose proof (key_eq _ _ K2) as (D2 & B2 & U2 & P2 & R2 & V2 & X2).
apply deleteThrough_cases in Edel as [(er & -> & K3)|Hdel]; [| |by right|by rewrite D2].
{ intros [= <- <-]. left. split; [|done]. apply evicted_first_0; [done|congruence]. }
destruct Hdel as (Hm & Hok' & Hrows & _ & -> & Hev). cbn [String.eqb Ascii.eqb Bool.eqb] in Hev.
intros [= <- <-]. right. zbool. split; [done|].
destruct (key_eq _ _ K1) as (D1 & _). symmetry in Hr. unfold nth_seq in Hr. rewrite D1 in Hr.
apply fmap_Some in Hr as (r & Hr & ->).
destruct (upto_nth _ _ _ _ (ok_seqs _ Hok) Hr) as [Hu Ha]. rewrite D2, Hu in *.
apply same_mem_eq in Hm as (B & U & P & R & V & X).
split; [|apply Z.ltb_lt; unfold count_rows; rewrite length_take;
  apply lookup_lt_Some in Hr; lia].
eapply evicted_first_key; [by rewrite key_compact, key_refreshBounds|].
split; cbn [db buf unflushed dropped evicted pendingChunks pendingReadings count_evicted
  count_removed set_evicted set_pendingChunks set_pendingReadings].
- by rewrite Hrows, Ha.
- done.
- split_and!; congruence.
- split_and!; congruence.
Qed.

Lemma evict_passes_first n s :
db_ok (db s) ->
exists k, (k <= n * Z.to_nat maxEvictChunksPerPass)%nat /\ evicted_first k s (evict_passes n s).
Proof.
revert s. induction n as [|n IH]; intros s Hok; cbn [evict_passes].
{ exists 0%nat. split; [lia|by apply evicted_first_0]. }
destruct (evictOnce s) as [more s1] eqn:E.
apply evictOnce_cases in E as [[H1 ->]|(_ & H1 & ->)]; [| |done].
{ exists 0%nat. split; [lia|done]. }
destruct (IH s1) as (k & Hk & H2); [apply H1|].
destruct (evicted_first_trans _ _ _ _ _ H1 H2) as (m & Hm & H3).
exists m. split; [|done]. unfold pass_size in Hm.
pose proof (evict_target_le (excessBytes s).1 (pendingChunks s) (dbBytes s)) as [Ht _].
unfold maxEvictChunksPerPass in *. lia.
Qed.
End Operations.

(** One flush, by outcome. *)
Lemma flush_spec `{Env, Flate} s r s' :
  Forall CodecFacts.wf_reading (buf s) -> Z.of_nat (length (buf s)) < Int.two63 ->
  Flush s = (r, s') ->
  let memory := pend_readings (unflushed s) ++ map CodecFacts.truncate (buf s) in
  (no_fault (clk s) -> r = Ok tt) /\
  match r with
  | Ok _ => flush_written_to s s' memory
  | Err e => (exists e', e = WriteChunks e') /\
      exists batch, pend_readings batch = memory /\ flush_kept s s' batch
  end.
Proof.
  intros Hwf Hl HF memory. destruct (flush_collect_eq s) as (C & D & O & P & R & B).
  destruct (flush_collect_readings s Hwf Hl) as [X Hmem]. fold memory in Hmem.
  split; [intros Hn; destruct (live_Flush s Hn) as ([] & s2 & ? & _); congruence|].
  unfold Flush in HF. destruct (unflushed (flush_collect s)) as [|c b] eqn:U.
  { injection HF as <- <-. rewrite <- Hmem. by apply flush_nothing. }
  destruct (insertChunks (c :: b) (flush_collect s)) as [[u|e] s2] eqn:Hins;
    apply insertChunks_inv in Hins as (Hm & [(e' & ? & Hd)|[? Hd]]); try done;
    injection HF as <- <-.
  - rewrite <- Hmem. by eapply flush_ok.
  - split; [by eexists|]. exists (c :: b). split; [done|]. rewrite <- U.
    by eapply flush_failed_kept.
Qed.


(** C30. [ReadBatch] delivers the oldest rows whole, in order: it stops at the row
    that reaches [maxReadings] (or at the scan limit), so it returns at least
    one row whenever there is one and exceeds the limit by at most one chunk;
    rows it cannot decode are not delivered but deleted from the file, and
    exactly their readings are counted as dropped and taken off the pending
    counters. *)
Theorem read_batch_outcome `{Env, Flate} m s :
  db_ok (db s) -> no_fault (clk s) ->
  exists raw s', batch_rows m (chunk (db s)) raw /\
    ReadBatch m s = (Ok (map row_chunk (filter (fun r => readable r) raw)), s') /\
    discarded_rows s s' (filter (fun r => negb (readable r)) raw).
Proof.
  intros Hok Hn. set (raw := scan_rows m 0 (take readBatchScanLimit (chunk (db s)))).
  pose proof (scan_batch_rows m (chunk (db s))) as Hraw. fold raw in Hraw.
  unfold ReadBatch.
  rewrite (bind_ok _ _ _ _ _ (query_quiet _ _ (Hn _ (Nat.le_refl _)))). fold raw.
  destruct (br_prefix _ _ _ Hraw) as [rest Hrest].
  destruct (deliver_ok raw (set_db (db s) (tick s))) as (s' & E & Hd).
  - done.
  - destruct (ok_seqs _ Hok) as [Hs _]. rewrite Hrest in Hs.
    by eapply StronglySorted_app_1_l.
  - cbn [db set_db]. rewrite Hrest. set_solver.
  - intros i Hi. apply Hn. cbn in Hi. lia.
  - exists raw, s'. split; [done|]. split; [done|]. by destruct Hd; split.
Qed.

(** Maintenance evicts only from the old end: whatever fails along the way,
    [Maintain] removes the oldest rows of the queue, at most five passes of
    20,000 chunks, keeps the rest in order, and counts every removed reading as
    evicted, in memory and in the file, taking it off the pending counters. *)
Theorem maintain_evicts_oldest `{Env} s :
  db_ok (db s) ->
  exists k, Z.of_nat k <= 100000 /\ evicted_first k s (Maintain s).
Proof.
  intros Hok. unfold Maintain. pose proof (key_compact s) as Hk.
  destruct (evict_passes_first maxEvictPassesPerTick (compact s)) as (k & Hle & Hev).
  { by destruct (key_eq _ _ Hk) as [-> _]. }
  exists k. split; [unfold maxEvictPassesPerTick, maxEvictChunksPerPass in Hle; lia|].
  apply key_eq in Hk as (D & B & U & P & R & V & X).
  destruct Hev as [E1 E2 E3 E4]. split; by rewrite <- ?D, <- ?B, <- ?U, <- ?P, <- ?R, <- ?V, <- ?X.
Qed.

(** Over its limit the queue makes room: when storage is exceeded, rows are
    pending and no statement fails, one pass of [evictOnce] removes the computed
    number of oldest rows, at least one and at most 20,000, and asks for another
    pass; when storage is not exceeded it removes nothing and asks for none. *)
Theorem evict_once_progress `{Env} s more s' :
  db_ok (db s) -> no_fault (clk s) -> pendingChunks s = count_rows (chunk (db s)) ->
  chunk (db s) <> [] -> evictOnce s = (more, s') ->
  if 0 <? (excessBytes s).1
  then more = true /\ evicted_first (pass_size s) s s' /\
       Z.of_nat (pass_size s) <= maxEvictChunksPerPass /\ (pass_size s <= length (chunk (db s)))%nat
  else more = false /\ evicted_first 0 s s'.
Proof.
  intros Hok Hn Hpc Hne HE.
  pose proof (evict_target_le (excessBytes s).1 (pendingChunks s) (dbBytes s)) as [Ht Ht'].
  assert (Hpos : (0 < length (chunk (db s)))%nat) by (destruct (chunk (db s)); cbn; [done|lia]).
  pose proof (evictOnce_cases _ _ _ Hok HE) as [[H0 ->]|(Hx & H0 & ->)]; destruct (0 <? _) eqn:Hlt; zbool;
    try (split; done); try lia.
  - exfalso. unfold evictOnce in HE. destruct (excessBytes s) as [x s1] eqn:Ex. cbn [fst] in *.
    apply excessBytes_eq in Ex as (K1 & B1 & C1).
    apply key_eq in K1 as (D1 & _ & _ & P1 & _). unfold count_rows in Hpc.
    rewrite (proj2 (Z.leb_gt x 0)), P1, (proj2 (Z.leb_gt (pendingChunks s) 0)), B1 in HE by lia.
    rewrite query_quiet in HE by (apply Hn; lia). unfold nth_seq in HE. rewrite D1 in HE.
    set (i := Z.to_nat (evict_target x (pendingChunks s) (dbBytes s) - 1)) in *.
    destruct (lookup_lt_is_Some_2 (chunk (db s)) i) as [r Hr]; [unfold i; lia|].
    rewrite Hr in HE. cbn [fmap option_fmap option_map] in HE.
    destruct (live_deleteThrough (seq r) "evicted_readings" (set_db (db s) (tick s1))) as (v & s3 & E3 & _).
    { intros j Hj. apply Hn. cbn in Hj. lia. }
    rewrite E3 in HE. apply deleteThrough_cases in E3 as [(? & ? & _)|E3]; [done| |by right|done].
    destruct E3 as (_ & _ & _ & _ & Ev & _). cbn [db set_db] in Ev. destruct v as [a b].
    injection Ev as -> ->. destruct (upto_nth _ _ _ _ (ok_seqs _ Hok) Hr) as [Hu _].
    rewrite Hu in HE. injection HE as HE _. zbool. unfold count_rows in HE. rewrite length_take in HE. lia.
  - split_and!; try done; unfold pass_size; unfold maxEvictChunksPerPass, count_rows in *; lia.
Qed.

(** C5. The reading ledger.  In every state reachable by any interleaving of
    appends, flushes, reads, sends, acknowledgements, evictions, SQL faults and
    crashes, the readings ever appended (to the millisecond) are, exactly and
    with multiplicity: those in chunks that were acknowledged, all of which had
    reached the server; those evicted, as many as the file's counter says; those
    dropped, as many as the process counts; those lost by crashes, none if the
    process never died; and those the queue still holds, oldest first. *)
Theorem reading_ledger `{Env, Flate} S :
  reachable S -> exists A E D L, ledger S A E D L.
Proof. intros Hr. by destruct (reachable_inv S Hr). Qed.


(** * Witnesses *)

(** No statement fails; a page a row, and one for the schema. *)
#[local] Instance sample_env : Env :=
  {| sql_fault := fun _ => false; now := fun t => Z.of_nat t * 1000000000;
     page_count := fun _ d => 1 + count_rows (chunk d); page_size := 4096;
     new_uuid := "stream"; conv_oob := fun _ => -9223372036854775808 |}.
#[local] Existing Instance stored_flate.

Definition sample_opts : Options := mkOptions 4096 (of_Z 10) 0 0 2 None.

(** Two flushed chunks of two readings, and one more reading in the buffer. *)
Definition sample_store : Store :=
  let s := (Open empty_db 0 sample_opts).2 in
  let put s := foldl (fun s r => Append r s) s sample_readings in
  Append (mkReading 3 9 None "GOOD" 0) (Flush (put (Flush (put s)).2)).2.

Lemma sample_wf : Forall CodecFacts.wf_reading (buf sample_store).
Proof. vm_compute. repeat constructor; cbv; try done; discriminate. Qed.

Lemma sample_db_ok : db_ok (db sample_store).
Proof.
  split.
  - split; vm_compute; repeat constructor; discriminate.
  - repeat (apply Forall_cons; split; [vm_compute; exact I|]); by apply Forall_nil.
  - vm_compute. reflexivity.
  - vm_compute. reflexivity.
Qed.


Lemma read_batch_outcome_witness :
  exists raw s', batch_rows 3 (chunk (db sample_store)) raw /\
    ReadBatch 3 sample_store = (Ok (map row_chunk (filter (fun r => readable r) raw)), s') /\
    discarded_rows sample_store s' (filter (fun r => negb (readable r)) raw).
Proof. apply (read_batch_outcome 3 sample_store); [exact sample_db_ok|done]. Defined.

Lemma maintain_evicts_oldest_witness :
  exists k, Z.of_nat k <= 100000 /\ evicted_first k sample_store (Maintain sample_store).
Proof. apply (maintain_evicts_oldest sample_store). exact sample_db_ok. Defined.

(** With sizes read, 3 pages against a limit of one. *)
Definition sample_full : Store := refreshSize sample_store.

Lemma sample_quiet t : no_fault t.
Proof. done. Qed.

Lemma sample_full_ok :
  db_ok (db sample_full) /\ pendingChunks sample_full = count_rows (chunk (db sample_full)) /\
  chunk (db sample_full) <> [] /\ (0 <? (excessBytes sample_full).1) = true.
Proof.
  split; [|split; [|split]]; [|vm_compute; reflexivity|vm_compute; discriminate|vm_compute; reflexivity].
  destruct (key_eq _ _ (key_refreshSize sample_store)) as [Hd _]. unfold sample_full.
  rewrite Hd. exact sample_db_ok.
Qed.

Lemma evict_once_progress_witness :
  if 0 <? (excessBytes sample_full).1
  then (evictOnce sample_full).1 = true /\
       evicted_first (pass_size sample_full) sample_full (evictOnce sample_full).2 /\
       Z.of_nat (pass_size sample_full) <= maxEvictChunksPerPass /\
       (pass_size sample_full <= length (chunk (db sample_full)))%nat
  else (evictOnce sample_full).1 = false /\ evicted_first 0 sample_full (evictOnce sample_full).2.
Proof.
  destruct sample_full_ok as (H1 & H2 & H3 & _).
  apply (evict_once_progress sample_full _ _ H1 (sample_quiet _) H2 H3).
  apply surjective_pairing.
Defined.

(** One reading's life: appended, flushed, read, sent and acknowledged. *)
Definition run0 : Store := (Open empty_db 0 sample_opts).2.
Definition run1 : Store := Append (mkReading 3 9 None "GOOD" 0) run0.
Definition run2 : Store := flush_collect run1.
Definition run3 : Store := (insertChunks (unflushed run2) run2).2.
Definition run4 : Store := flush_written (unflushed run2) run3.
Definition run_row : Row := from_option id (mkRow 0 0 0 0 []) (head (chunk (db run4))).
Definition run5 : Store := tick run4.
Definition run_chunk : Chunk := mkChunk (seq run_row) (decoded (row_data run_row)).
Definition run6 : Store := (deleteThrough (seq run_row) "" run5).2.
Definition run7 : Store := count_removed 1 1 run6.
Definition run_end : Sys :=
  mkSys run7 FIdle RIdle EIdle [mkReading 3 9 None "GOOD" 0] [run_chunk] 0.

Lemma run_reachable : reachable run_end.
Proof.
  exists (mkSys run0 FIdle RIdle EIdle [] [] 0). split.
  { eapply (boot_new 0 sample_opts); [vm_compute; reflexivity|done]. }
  eapply rtc_l; [apply (step_append run0 _ _ _ _ _ _ (mkReading 3 9 None "GOOD" 0))|].
  { repeat constructor; cbv; try done; discriminate. }
  { vm_compute. reflexivity. }
  eapply rtc_l; [apply (step_collect run1)|].
  replace (collected (flush_collect run1)) with (FInsert (unflushed run2)) by (vm_compute; reflexivity).
  eapply rtc_l; [apply (step_insert run2 _ _ _ _ _ _ (Ok tt) run3); vm_compute; reflexivity|].
  eapply rtc_l; [apply (step_written run3)|]. fold run4.
  eapply rtc_l; [apply (step_read run4 _ _ _ _ _ 10 [run_row] run5); vm_compute; reflexivity|].
  eapply rtc_l; [apply (step_row run5 _ _ _ _ _ _ _ _ (Readings run_chunk)); vm_compute; reflexivity|].
  eapply rtc_l; [apply step_batch|].
  eapply rtc_l; [apply step_arrive|].
  eapply rtc_l; [apply (step_ack run5 _ _ _ _ _ _ (Ok (1, 1)) run6); vm_compute; reflexivity|].
  eapply rtc_l; [apply step_count|].
  apply rtc_refl.
Qed.

Lemma reading_ledger_witness : exists A E D L, ledger run_end A E D L.
Proof. apply (reading_ledger run_end). exact run_reachable. Defined.

