(* ===== verification/QueueSeqs.v ===== *)
(** The queue's sequence numbers over its life: the readings' ledger of file
    QueueSteps, told by chunk.  Every seq the file ever gave out belongs to a
    chunk that was acknowledged, one that was evicted, or a row still there. *)

From S2P Require Import Prelude.
From S2P Require Import Codec.
From S2P Require Import QueueDb.
From S2P Require Import QueueStore.
From S2P Require Import QueueFacts.
From S2P Require Import QueueSteps.
From S2P Require Import QueueInvariant.
From S2P Require Import QueueProps.

Local Open Scope string_scope.
Local Open Scope list_scope.
Local Open Scope Z_scope.

Section Seqs.
Context `{Env, Flate}.

(** * What a step makes of the rows *)

(** Rows go only to an acknowledgement ([a]: the chunks that reached the
    server) or to an eviction, from the old end. *)
Inductive row_move (a : list Chunk) (d d' : Db) : Prop :=
| rm_keep : chunk d' = chunk d -> seq_hi d' = seq_hi d ->
  counter "evicted_readings" d' = counter "evicted_readings" d -> row_move a d d'
| rm_insert b : d' = db_insert b d -> row_move a d d'
| rm_ack q : d' = db_delete q "" d -> map row_chunk (upto q (chunk d)) ⊆ a -> row_move a d d'
| rm_evict q : d' = db_delete q "evicted_readings" d -> row_move a d d'.

Lemma rm_same a d : row_move a d d.
Proof. by apply rm_keep. Qed.

Lemma rm_eq a d d' : d' = d -> row_move a d d'.
Proof. intros ->. apply rm_same. Qed.

Lemma step_moves_rows S S' : Inv S -> step S S' -> row_move (arrived S') (db (st S)) (db (st S')).
Proof.
intros Hi. destruct 1; sys; try apply rm_same.
- pose proof (QueueProps.flush_collect_eq s) as (_ & Hd & _). by apply rm_eq.
- apply insertChunks_inv in H1 as (_ & [(er & _ & Hd)|[_ Hd]]); [by apply rm_eq|by eapply rm_insert].
- pose proof (flush_written_eq b s) as (_ & _ & Hd & _). by apply rm_eq.
- destruct (flush_failed_eq s) as [k ->]. by apply rm_eq.
- apply query_inv in H1 as (_ & Hd & _). by apply rm_eq.
- destruct (i_sender _ Hi) as (Hok & _). apply Forall_inv in Hok as (rs & Hd & _). congruence.
- destruct (i_sender _ Hi) as (Hn & Ha & Hcov). pose proof (acked_rows _ _ Hn Hcov) as Hsub. sys.
  apply deleteThrough_inv in H1 as (_ & [(er & _ & Hd)|[(_ & Hd & _)|[_ Hd]]]); [by apply rm_eq..|].
  eapply rm_ack; [exact Hd|by etransitivity].
- pose proof (key_excessBytes _ _ _ H1) as (Hd & _)%key_eq. by apply rm_eq.
- apply query_inv in H1 as (_ & Hd & _). by apply rm_eq.
- apply deleteThrough_inv in H1 as (_ & [(er & _ & Hd)|[(_ & Hd & _)|[_ Hd]]]); [by apply rm_eq..|].
  by eapply rm_evict.
- pose proof (key_refreshBounds s) as (Hd & _)%key_eq. by apply rm_eq.
- pose proof (key_compact s) as (Hd & _)%key_eq. by apply rm_eq.
- destruct (open_inv _ _ _ _ _ H2 H1) as (_ & (Hc & Hh & Hm) & _). apply rm_keep; [done|done|].
  unfold counter. by rewrite Hm.
Qed.

Lemma step_arrived S S' : step S S' -> arrived S ⊆ arrived S'.
Proof. destruct 1; sys; try done. set_solver. Qed.

(** * The ledger *)

(** [A] was acknowledged, [V] was evicted: with the rows, every seq up to the
    file's mark, each once. *)
Record seq_ledger (S : Sys) (A V : list Chunk) : Prop := {
sl_hi : 0 <= seq_hi (db (st S));
sl_seqs : map Seq A ++ map Seq V ++ map seq (chunk (db (st S))) ≡ₚ seqZ 1 (seq_hi (db (st S)));
sl_acked : A ⊆ arrived S;
sl_evicted : Z.of_nat (length (mjoin (map Readings V))) = counter "evicted_readings" (db (st S))
}.

Lemma map_seq_chunks rows : map Seq (map row_chunk rows) = map seq rows.
Proof. by rewrite map_map. Qed.

Lemma new_rows_seqZ hi b : map seq (new_rows hi b) = seqZ (hi + 1) (Z.of_nat (length b)).
Proof.
revert hi. induction b as [|c b IH]; intros hi; [done|]. cbn [new_rows map length seq].
rewrite IH, (seqZ_cons (hi + 1)) by lia. f_equal; f_equal; lia.
Qed.

Lemma split_seqs q d : db_ok d -> map seq (chunk d) = map seq (upto q (chunk d)) ++ map seq (above q (chunk d)).
Proof. intros Hok. by rewrite <- map_app, <- (upto_above _ q _ (ok_seqs _ Hok)). Qed.

Lemma seq_ledger_move S S' A V :
Inv S -> arrived S ⊆ arrived S' -> row_move (arrived S') (db (st S)) (db (st S')) ->
seq_ledger S A V -> exists A' V', seq_ledger S' A' V' /\ A ⊆ A' /\ V ⊆ V'.
Proof.
intros Hi Ha Hmove [Hh Hs Hak Hev]. pose proof (i_db _ Hi) as Hok.
destruct Hmove as [Hc Hhi Hce|b Hd|q Hd Hq|q Hd].
- exists A, V. split; [|done]. split; rewrite ?Hc, ?Hhi, ?Hce; [done|done|set_solver|done].
- exists A, V. split; [|done]. destruct (db_insert_rows b (db (st S))) as [Hr Hce].
  assert (Hhi : seq_hi (db_insert b (db (st S))) = seq_hi (db (st S)) + Z.of_nat (length b))
    by (unfold db_insert; by rewrite insert_all_eq).
  split; rewrite ?Hd, ?Hr, ?Hhi, ?Hce; [lia| |set_solver|done].
  rewrite map_app, new_rows_seqZ, !app_assoc, <- (app_assoc (map Seq A)), Hs.
  rewrite (seqZ_app _ (seq_hi _)) by lia. by rewrite (Z.add_comm 1).
- exists (A ++ map row_chunk (upto q (chunk (db (st S))))), V.
  destruct (db_delete_rows q "" (db (st S))) as [Hr Hhi].
  split; [|set_solver]. split; rewrite ?Hd, ?Hr, ?Hhi; [done| |set_solver|].
  + rewrite <- Hs, (split_seqs q _ Hok), map_app, map_seq_chunks. solve_Permutation.
  + rewrite db_delete_evicted by (by first [left|done]). cbn [String.eqb]. lia.
- exists A, (V ++ map row_chunk (upto q (chunk (db (st S))))).
  destruct (db_delete_rows q "evicted_readings" (db (st S))) as [Hr Hhi].
  split; [|set_solver]. split; rewrite ?Hd, ?Hr, ?Hhi; [done| |set_solver|].
  + rewrite <- Hs, (split_seqs q _ Hok), map_app, map_seq_chunks. solve_Permutation.
  + rewrite db_delete_evicted by (by first [right|done]). cbn [String.eqb Ascii.eqb Bool.eqb].
    rewrite map_app, join_app, length_app, readings_row_chunks, Nat2Z.inj_add, Hev.
    rewrite <- rows_readings_length; [done|]. apply Forall_filter, (i_rows _ Hi).
Qed.

Lemma seq_ledger_step S S' A V :
Inv S -> step S S' -> seq_ledger S A V -> exists A' V', seq_ledger S' A' V' /\ A ⊆ A' /\ V ⊆ V'.
Proof. intros Hi Hs. apply seq_ledger_move; [done|by apply step_arrived|by apply step_moves_rows]. Qed.

Lemma seq_ledger_boot S : boot S -> seq_ledger S [] [].
Proof.
intros [t o s Ho Hq]. destruct (open_inv _ _ _ _ _ Hq Ho) as (_ & (Hc & Hh & Hm) & _).
split; cbn [st arrived]; rewrite ?Hc, ?Hh; [done|done|set_solver|].
unfold counter. by rewrite Hm.
Qed.
End Seqs.
