(* ===== verification/Wire.v ===== *)
(** The wire contract between the gateway and the server
    (internal/forwarder/wire.go): messages, acknowledgements, and the
    conversion of queue chunks to a message. *)

From S2P Require Import Prelude GoTime Codec QueueStore.

Local Open Scope string_scope.
Local Open Scope list_scope.
Local Open Scope Z_scope.

Record WireReading := mkWireReading {
  wr_DeviceID : Z;
  wr_DatapointID : Z;
  wr_Timestamp : string;
  wr_Value : option Z;
  wr_Quality : string
}.
Record WireChunk := mkWireChunk { wc_Seq : Z; wc_Readings : list WireReading }.
Record Message := mkMessage {
  m_GatewayID : string;
  m_StreamID : string;
  m_FromSeq : Z;
  m_ToSeq : Z;
  m_Chunks : list WireChunk
}.
Record AckMsg := mkAck { a_StreamID : string; a_ToSeq : Z; a_Error : string }.

#[export] Instance WireReading_eq_dec : EqDecision WireReading.
Proof. solve_decision. Defined.
#[export] Instance WireChunk_eq_dec : EqDecision WireChunk.
Proof. solve_decision. Defined.
#[export] Instance Message_eq_dec : EqDecision Message.
Proof. solve_decision. Defined.

(** [r.At.UTC().Format(wireTimeLayout)]. *)
Definition wire_time (t : Z) : string := String.string_of_list_ascii (format_wire t).

Definition wire_reading (r : Reading) : WireReading :=
  mkWireReading (DeviceID r) (DatapointID r) (wire_time (At r)) (Value r) (Quality r).
Definition wire_chunk (c : Chunk) : WireChunk := mkWireChunk (Seq c) (map wire_reading (Readings c)).

(** [chunks] is not empty: the code indexes its first and last element. *)
Definition buildMessage (gatewayID streamID : string) (chunks : list Chunk) : Message :=
  mkMessage gatewayID streamID
    (from_option Seq 0 (head chunks)) (from_option Seq 0 (list.last chunks))
    (map wire_chunk chunks).

Definition ReadingCount (m : Message) : Z :=
  sumZ (fun c => Z.of_nat (length (wc_Readings c))) (m_Chunks m).

(** * Encoding *)

(** [encoding/json] cannot encode a float that is not finite; of everything
    else a message holds, the server decodes what the gateway encoded. *)
Definition finite (bits : Z) : bool := negb (Z.land (Z.shiftr bits 52) 2047 =? 2047).
Definition float_text (bits : Z) : string :=
  if negb (Z.land bits (2 ^ 52 - 1) =? 0) then "NaN"
  else if Z.testbit bits 63 then "-Inf" else "+Inf".

Definition message_values (m : Message) : list Z :=
  mjoin (map (fun c => omap wr_Value (wc_Readings c)) (m_Chunks m)).

(** [json.Marshal(msg)]: the error names the first such value. *)
Definition marshal (m : Message) : result string Message :=
  match filter (fun b => negb (finite b)) (message_values m) with
  | [] => Ok m
  | b :: _ => Err ("json: unsupported value: " +:+ float_text b)
  end.

Lemma marshal_ok m b : marshal m = Ok b -> b = m.
Proof. unfold marshal. destruct (filter _ _); [by intros [=]|done]. Qed.

(** * Reading a timestamp back *)

(** [time.Parse(time.RFC3339Nano, s)], for the readings of a message. *)
Definition parse_time (s : string) : option Z := parse_rfc3339 (String.list_ascii_of_string s).

Lemma parse_wire_time t :
  0 <= year_of t <= 9999 -> parse_time (wire_time t) = Some (of_UnixMilli (t / 1000000)).
Proof.
  intros Hy. unfold parse_time, wire_time. rewrite String.list_ascii_of_string_of_list_ascii.
  by rewrite parse_format.
Qed.
