(* ===== verification/Forwarder.v ===== *)
(** The forwarder (internal/forwarder): back-off, the connectivity status, one
    dispatch and the sending loop, over the interface the queue promises it
    (class [Source]) and the interface of a transport (class [Adapter]). *)

From S2P Require Import Prelude GoTime Codec QueueStore Wire.

Local Open Scope string_scope.
Local Open Scope list_scope.
Local Open Scope Z_scope.

(** * Back-off (backoff.go) *)

Definition maxBackoff : Z := 60 * second.

Definition BackoffDuration (retryCount : Z) : Z :=
  let retryCount := if retryCount <? 1 then 1 else retryCount in
  let shift := retryCount - 1 in
  if shift >? 6 then maxBackoff
  else
    let d := Int.i64 (Z.shiftl 1 shift) * second in
    if d >? maxBackoff then maxBackoff else d.

(** * Connectivity status (status.go) *)

Record Status := mkStatus {
  Connected : bool;
  LastError : string;
  LastSuccessAt : option Z;
  LastAttemptAt : option Z
}.

Definition recordSuccess (now : Z) (s : Status) : Status := mkStatus true "" (Some now) (Some now).
Definition recordFailure (now : Z) (err : string) (s : Status) : Status :=
  mkStatus false err (LastSuccessAt s) (Some now).

(** * The forwarder (forwarder.go) *)

(** The operations of the queue the forwarder uses ([forwarder.Source]). *)
Class SourceOps (E St : Type) := {
  src_StreamID : St -> string;
  src_ReadBatch : Z -> M E St (list Chunk);
  src_Ack : Z -> M E St unit
}.

(** A transport ([forwarder.Adapter]): [W] is the world it acts on. *)
Class Adapter (W : Type) := {
  Send : Message -> W -> result string unit * W;
  time_now : W -> Z
}.

Record Config := mkConfig {
  cfg_GatewayID : string;
  MaxReadingsPerMessage : Z;
  PollInterval : Z
}.

(** The defaults [New] fills in. *)
Definition new_config (c : Config) : Config :=
  mkConfig (cfg_GatewayID c)
    (if MaxReadingsPerMessage c <=? 0 then 2000 else MaxReadingsPerMessage c)
    (if PollInterval c <=? 0 then second else PollInterval c).

(** The forwarder at work: its source, the world, its status, and [failures],
    the local variable of [Run]. *)
Record Fwd (St W : Type) := mkFwd {
  src : St;
  world : W;
  f_cfg : Config;
  status : Status;
  failures : Z
}.
Arguments mkFwd {St W}.
Arguments src {St W}.
Arguments world {St W}.
Arguments f_cfg {St W}.
Arguments status {St W}.
Arguments failures {St W}.

Section Forwarder.
Context {E St W : Type} `{SourceOps E St, Adapter W}.

Definition set_src (s : St) (f : Fwd St W) : Fwd St W := mkFwd s (world f) (f_cfg f) (status f) (failures f).
Definition set_world (w : W) (f : Fwd St W) : Fwd St W := mkFwd (src f) w (f_cfg f) (status f) (failures f).
Definition set_status (t : Status) (f : Fwd St W) : Fwd St W := mkFwd (src f) (world f) (f_cfg f) t (failures f).
Definition set_failures (n : Z) (f : Fwd St W) : Fwd St W := mkFwd (src f) (world f) (f_cfg f) (status f) n.

Definition dispatchOnce (f : Fwd St W) : result (E + string) bool * Fwd St W :=
match src_ReadBatch (MaxReadingsPerMessage (f_cfg f)) (src f) with
| (Err e, s) => (Err (inl e), set_src s f)
| (Ok [], s) => (Ok false, set_src s f)
| (Ok chunks, s) =>
  let msg := buildMessage (cfg_GatewayID (f_cfg f)) (src_StreamID s) chunks in
  match Send msg (world f) with
  | (Err e, w) =>
    (Err (inr e), set_status (recordFailure (time_now w) e (status f)) (set_world w (set_src s f)))
  | (Ok _, w) =>
    let f := set_status (recordSuccess (time_now w) (status f)) (set_world w f) in
    match src_Ack (m_ToSeq msg) s with
    | (Err e, s) => (Err (inl e), set_src s f)
    | (Ok _, s) => (Ok true, set_src s f)
    end
  end
end.

(** One turn of [Run]'s loop: the new state and how long to wait. *)
Definition run_turn (f : Fwd St W) : Z * Fwd St W :=
match dispatchOnce f with
| (Err _, f) =>
  let n := failures f + 1 in (BackoffDuration n, set_failures n f)
| (Ok true, f) => (0, set_failures 0 f)
| (Ok false, f) => (PollInterval (f_cfg f), set_failures 0 f)
end.

(** [Run] until its context is cancelled, after [n] turns: the waits, and the
  final state. *)
Fixpoint Run (n : nat) (f : Fwd St W) : list Z * Fwd St W :=
match n with
| O => ([], f)
| S k => let '(w, f) := run_turn f in let '(ws, f) := Run k f in (w :: ws, f)
end.
End Forwarder.

(** * What the queue promises the forwarder *)

(** [held]: the chunks it can deliver, oldest first.  [backlog] bounds the
    work left; [healthy]: no operation fails from here on. *)
Class SourceSpec (E St : Type) `{SourceOps E St} := {
  src_ok : St -> Prop;
  healthy : St -> Prop;
  held : St -> list Chunk;
  backlog : St -> nat;
  held_sorted s : src_ok s -> StronglySorted (fun a b => Seq a < Seq b) (held s);
  read_spec m s r s' :
    src_ok s -> src_ReadBatch m s = (r, s') ->
    src_ok s' /\ held s' = held s /\ src_StreamID s' = src_StreamID s /\
    forall cs, r = Ok cs -> cs `prefix_of` held s;
  ack_spec q s r s' :
    src_ok s -> src_Ack q s = (r, s') ->
    src_ok s' /\ src_StreamID s' = src_StreamID s /\
    (held s' = held s /\ (exists e, r = Err e) \/ held s' = filter (fun c => q < Seq c) (held s));
  healthy_ok s : healthy s -> src_ok s;
  read_live m s :
    healthy s -> exists cs s', src_ReadBatch m s = (Ok cs, s') /\ healthy s' /\
      (cs = [] -> held s = [] \/ (backlog s' < backlog s)%nat) /\ (backlog s' <= backlog s)%nat;
  ack_live q s :
    healthy s -> exists s', src_Ack q s = (Ok tt, s') /\ healthy s' /\
      ((exists c, c ∈ held s /\ Seq c <= q) -> (backlog s' < backlog s)%nat);
  backlog_0 s : healthy s -> backlog s = 0%nat -> held s = []
}.

(** What a transport promises: a message it reports sent has been received. *)
Class AdapterSpec (W : Type) `{Adapter W} := {
  received : W -> list Message;
  received_grows m w r w' : Send m w = (r, w') -> received w ⊆ received w';
  sent_received m w w' : Send m w = (Ok tt, w') -> m ∈ received w'
}.

Section Delivery.
Context {E St W : Type} `{SourceSpec E St, AdapterSpec W}.

(** The server holds chunk [c] of this gateway. *)
Definition delivered (w : W) (c : Chunk) : Prop :=
exists m, m ∈ received w /\ wire_chunk c ∈ m_Chunks m.

(** Acknowledging up to the last chunk of a prefix removes that prefix. *)
Lemma ack_prefix (cs rest : list Chunk) c :
StronglySorted (fun a b => Seq a < Seq b) (cs ++ [c] ++ rest) ->
filter (fun x => Seq c < Seq x) (cs ++ [c] ++ rest) = rest.
Proof.
intros Hs. apply StronglySorted_app in Hs as (Hlt & _ & Hs). cbn [app] in *.
apply StronglySorted_inv in Hs as [_ Hr]. rewrite filter_app, filter_none, filter_cons_False by
  (try lia; apply Forall_forall; intros x Hx; specialize (Hlt x c Hx ltac:(left)); cbn in Hlt; lia).
by apply filter_all.
Qed.

(** One dispatch: what it removed from the queue, the server has. *)
Lemma dispatch_delivers f r f' :
src_ok (src f) -> dispatchOnce f = (r, f') ->
src_ok (src f') /\ received (world f) ⊆ received (world f') /\
exists gone, held (src f) = gone ++ held (src f') /\ Forall (delivered (world f')) gone.
Proof.
intros Hok. unfold dispatchOnce.
destruct (src_ReadBatch _ (src f)) as [[cs|e] s1] eqn:Er;
  apply read_spec in Er as (Hok1 & Hh1 & _ & Hp); try done.
2:{ intros [= <- <-]. cbn. split; [done|]. split; [done|]. exists []. by rewrite Hh1. }
specialize (Hp cs eq_refl). destruct cs as [|c0 cs0].
{ intros [= <- <-]. cbn. split; [done|]. split; [done|]. exists []. by rewrite Hh1. }
remember (c0 :: cs0) as cs eqn:Ecs. assert (Hne : cs <> []) by by rewrite Ecs.
destruct (Send _ (world f)) as [[[]|e] w] eqn:Es; pose proof (received_grows _ _ _ _ Es) as Hg.
2:{ intros [= <- <-]. cbn. split; [done|]. split; [done|]. exists []. by rewrite Hh1. }
apply sent_received in Es.
destruct (src_Ack _ s1) as [r2 s2] eqn:Ea.
apply ack_spec in Ea as (Hok2 & _ & Hh2); [|done].
assert (Hres : src_ok s2 /\ received (world f) ⊆ received w /\
  exists gone, held (src f) = gone ++ held s2 /\ Forall (delivered w) gone).
2:{ destruct r2; intros [= <- <-]; cbn; exact Hres. }
split; [done|]. split; [done|].
destruct Hh2 as [[Hh2 _]|Hh2]; [exists []; by rewrite Hh2, Hh1|].
destruct Hp as [rest Hp]. exists cs. split.
- rewrite Hh2, Hh1, Hp. f_equal. destruct cs as [|c cs _] using rev_ind; [done|].
  unfold buildMessage. cbn [m_ToSeq]. rewrite last_snoc. cbn. rewrite <- !app_assoc. symmetry.
  apply ack_prefix. rewrite app_assoc, <- Hp. by apply held_sorted.
- apply Forall_forall. intros c Hc. eexists. split; [exact Es|].
  unfold buildMessage. cbn [m_Chunks]. by apply list_elem_of_fmap_2.
Qed.

Lemma turn_delivers f w f' :
src_ok (src f) -> run_turn f = (w, f') ->
src_ok (src f') /\ received (world f) ⊆ received (world f') /\
exists gone, held (src f) = gone ++ held (src f') /\ Forall (delivered (world f')) gone.
Proof.
intros Hok. unfold run_turn. destruct (dispatchOnce f) as [r f1] eqn:Ed.
apply dispatch_delivers in Ed; [|done]. destruct r as [[]|]; intros [= <- <-]; exact Ed.
Qed.

Lemma delivered_grows w w' c : received w ⊆ received w' -> delivered w c -> delivered w' c.
Proof. intros Hs (m & Hm & Hc). exists m. split; [by apply Hs|done]. Qed.
End Delivery.

(** ** Back-off *)

Lemma backoff_eq n : BackoffDuration n = second * Z.min 60 (2 ^ (Z.max n 1 - 1)).
Proof.
  unfold BackoffDuration, maxBackoff. set (k := if n <? 1 then 1 else n).
  replace (Z.max n 1) with k by (unfold k; destruct (n <? 1) eqn:?; zbool; lia).
  assert (Hk : 1 <= k) by (unfold k; destruct (n <? 1) eqn:?; zbool; lia). clearbody k.
  rewrite Z.gtb_ltb. destruct (6 <? k - 1) eqn:Hs; zbool.
  - assert (2 ^ 6 <= 2 ^ (k - 1)) by (apply Z.pow_le_mono_r; lia). cbn in *. lia.
  - apply (all_range 7 1 (fun k =>
      (if Int.i64 (Z.shiftl 1 (k - 1)) * second >? 60 * second then 60 * second
       else Int.i64 (Z.shiftl 1 (k - 1)) * second) = second * Z.min 60 (2 ^ (k - 1))));
      [by vm_compute|lia].
Qed.

Section Schedule.
Context {E St W : Type} `{SourceOps E St, Adapter W}.

Lemma run_S n (f : Fwd St W) :
Run (S n) f = ((run_turn f).1 :: (Run n (run_turn f).2).1, (Run n (run_turn f).2).2).
Proof. cbn [Run]. destruct (run_turn f) as [w f1]. cbn. by destruct (Run n f1). Qed.

(** A dispatch leaves [Run]'s count and the configuration alone. *)
Lemma dispatch_frame (f : Fwd St W) :
failures (dispatchOnce f).2 = failures f /\ f_cfg (dispatchOnce f).2 = f_cfg f.
Proof.
unfold dispatchOnce. destruct (src_ReadBatch _ _) as [[[|c cs]|e] s1]; [done| |done].
destruct (Send _ _) as [[[]|e] w]; [|done]. by destruct (src_Ack _ _) as [[[]|e] s2].
Qed.

(** A run of failing turns waits longer each time. *)
Lemma run_outage n (f : Fwd St W) :
(forall i, (i < n)%nat -> exists e, (dispatchOnce (Run i f).2).1 = Err e) ->
(Run n f).1 = map (fun i => BackoffDuration (failures f + Z.of_nat i)) (seq 1 n).
Proof.
revert f. induction n as [|n IH]; intros f Hf; [done|].
destruct (Hf 0%nat) as [e He]; [lia|]. cbn [Run snd] in He.
assert (Ht : (run_turn f).1 = BackoffDuration (failures f + 1) /\
             failures (run_turn f).2 = failures f + 1).
{ unfold run_turn. destruct (dispatch_frame f) as [Hfr _]. rewrite <- Hfr.
  destruct (dispatchOnce f) as [r f3]. cbn [fst] in He. subst r. by split. }
destruct Ht as [Hw Hfail]. rewrite run_S. cbn [fst]. rewrite Hw, IH, Hfail.
- cbn [seq map]. f_equal. rewrite <- (seq_shift n 1), map_map. apply map_ext. intros i. f_equal. lia.
- intros i Hi. destruct (Hf (S i)) as [e' He']; [lia|]. exists e'. by rewrite run_S in He'.
Qed.

End Schedule.

Section Run.
Context {E St W : Type} `{SourceSpec E St, AdapterSpec W}.

Lemma run_delivers n (f : Fwd St W) :
src_ok (src f) ->
src_ok (src (Run n f).2) /\ received (world f) ⊆ received (world (Run n f).2) /\
exists gone, held (src f) = gone ++ held (src (Run n f).2) /\
  Forall (delivered (world (Run n f).2)) gone.
Proof.
revert f. induction n as [|n IH]; intros f Hok.
{ split; [done|]. split; [done|]. by exists []. }
rewrite run_S. cbn [snd]. destruct (run_turn f) as [w f1] eqn:Et.
apply turn_delivers in Et as (Hok1 & Hg1 & g1 & Hh1 & Hd1); [|done]. cbn [snd].
destruct (IH f1 Hok1) as (Hok2 & Hg2 & g2 & Hh2 & Hd2).
split; [done|]. split; [by etransitivity|]. exists (g1 ++ g2). split.
- by rewrite Hh1, Hh2, app_assoc.
- apply Forall_app. split; [|done]. eapply Forall_impl; [exact Hd1|].
  intros c. by apply delivered_grows.
Qed.

(** What a turn leaves alone. *)
Lemma turn_frame (f : Fwd St W) :
src_ok (src f) ->
src_ok (src (run_turn f).2) /\ held (src (run_turn f).2) ⊆ held (src f) /\
src_StreamID (src (run_turn f).2) = src_StreamID (src f) /\ f_cfg (run_turn f).2 = f_cfg f.
Proof.
intros Hok. pose proof (turn_delivers f _ _ Hok (surjective_pairing _)) as (Hok1 & _ & gone & Hg & _).
split; [done|]. split; [rewrite Hg; apply list_subseteq_app_r; done|].
clear Hok1 Hg. unfold run_turn. destruct (dispatch_frame f) as [_ Hcfg].
assert (Hd : src_StreamID (src (dispatchOnce f).2) = src_StreamID (src f)).
2:{ by destruct (dispatchOnce f) as [[[]|] f1]. }
unfold dispatchOnce. destruct (src_ReadBatch _ (src f)) as [[[|c0 cs0]|e] s1] eqn:Er;
  apply read_spec in Er as (Hok1 & Hh1 & Hid1 & Hp); try done.
destruct (Send _ (world f)) as [[[]|e] w]; [|done].
destruct (src_Ack _ s1) as [[[]|e] s2] eqn:Ea; apply ack_spec in Ea as (_ & Hid2 & _); try done;
  cbn; by rewrite Hid2, Hid1.
Qed.

(** The messages of a run hold chunks of the queue in order, under the
  gateway's and the queue's names: an invariant of the world that such
  messages keep holds throughout. *)
Lemma turn_world (P : W -> Prop) (f : Fwd St W) :
src_ok (src f) ->
(forall cs w, StronglySorted (fun a b => Seq a < Seq b) cs -> cs ⊆ held (src f) -> P w ->
   P (Send (buildMessage (cfg_GatewayID (f_cfg f)) (src_StreamID (src f)) cs) w).2) ->
P (world f) -> P (world (run_turn f).2).
Proof.
intros Hok HP Hw. unfold run_turn. assert (Hd : P (world (dispatchOnce f).2)).
2:{ by destruct (dispatchOnce f) as [[[]|] f1]. }
unfold dispatchOnce.
destruct (src_ReadBatch _ (src f)) as [[[|c0 cs0]|e] s1] eqn:Er;
  apply read_spec in Er as (Hok1 & Hh1 & Hid1 & Hp); try done.
destruct (Hp _ eq_refl) as [k Hk]. pose proof (held_sorted _ Hok) as Hs. rewrite Hk in Hs.
apply StronglySorted_app_1_l in Hs. rewrite Hid1.
assert (Hcs : c0 :: cs0 ⊆ held (src f)) by (rewrite Hk; apply list_subseteq_app_l; done).
specialize (HP (c0 :: cs0) (world f) Hs Hcs Hw).
destruct (Send _ (world f)) as [[[]|e] w]; [|done].
by destruct (src_Ack _ s1) as [[[]|e] s2].
Qed.

Lemma run_world (P : W -> Prop) n (f : Fwd St W) :
src_ok (src f) ->
(forall cs w, StronglySorted (fun a b => Seq a < Seq b) cs -> cs ⊆ held (src f) -> P w ->
   P (Send (buildMessage (cfg_GatewayID (f_cfg f)) (src_StreamID (src f)) cs) w).2) ->
P (world f) -> P (world (Run n f).2).
Proof.
revert f. induction n as [|n IH]; intros f Hok HP Hw; [done|]. rewrite run_S. cbn [snd].
destruct (turn_frame f Hok) as (Hok1 & Hsub & Hid & Hcfg). apply IH; [done| |by apply turn_world].
rewrite Hid, Hcfg. intros cs w Hs Hcs. apply HP; [done|]. by etransitivity.
Qed.

(** The transport gets messages of the queue's chunks through, and goes on
  doing so. *)
Definition working (P : W -> Prop) (gid sid : string) (chunks : list Chunk) : Prop :=
forall cs w, cs ⊆ chunks -> P w -> exists w', Send (buildMessage gid sid cs) w = (Ok tt, w') /\ P w'.

(** A turn on a healthy source and a working transport shrinks the backlog. *)
Lemma turn_progress (P : W -> Prop) (f : Fwd St W) :
working P (cfg_GatewayID (f_cfg f)) (src_StreamID (src f)) (held (src f)) ->
healthy (src f) -> P (world f) ->
healthy (src (run_turn f).2) /\ P (world (run_turn f).2) /\
(held (src f) = [] /\ held (src (run_turn f).2) = [] \/
 (backlog (src (run_turn f).2) < backlog (src f))%nat).
Proof.
intros Hsend Hh HP. unfold run_turn, dispatchOnce.
destruct (read_live (MaxReadingsPerMessage (f_cfg f)) (src f) Hh) as (cs & s1 & Er & Hh1 & Hnil & Hle).
rewrite Er. apply read_spec in Er as (_ & Hheld & Hid & Hp); [|by apply healthy_ok].
specialize (Hp cs eq_refl). destruct cs as [|c0 cs0].
{ cbn. split; [done|]. split; [done|]. rewrite Hheld. destruct (Hnil eq_refl); [left|right]; done. }
remember (c0 :: cs0) as cs eqn:Ecs. rewrite Hid.
destruct (Hsend cs (world f)) as (w & -> & Hw); [|done|].
{ destruct Hp as [k ->]. by apply list_subseteq_app_l. }
destruct (ack_live (m_ToSeq (buildMessage (cfg_GatewayID (f_cfg f)) (src_StreamID (src f)) cs)) s1 Hh1)
  as (s2 & -> & Hh2 & Hdec).
cbn. split; [done|]. split; [done|]. right. eapply Nat.lt_le_trans; [|exact Hle]. apply Hdec.
destruct cs as [|c cs _] using rev_ind; [done|]. exists c. unfold buildMessage. cbn [m_ToSeq].
rewrite last_snoc. cbn. split; [|lia]. rewrite Hheld. destruct Hp as [rest ->].
clear. set_solver.
Qed.

Lemma run_drains (P : W -> Prop) n (f : Fwd St W) :
working P (cfg_GatewayID (f_cfg f)) (src_StreamID (src f)) (held (src f)) ->
healthy (src f) -> P (world f) -> (backlog (src f) <= n)%nat -> held (src (Run n f).2) = [].
Proof.
revert f. induction n as [|n IH]; intros f Hsend Hh HP Hb.
{ cbn. apply backlog_0; [done|lia]. }
rewrite run_S. cbn [snd]. destruct (turn_progress P f Hsend Hh HP) as (Hh1 & HP1 & [[_ He]|Hlt]).
- destruct (run_delivers n (run_turn f).2) as (_ & _ & g & Hg & _); [by apply healthy_ok|].
  rewrite He in Hg. symmetry in Hg. by apply app_nil in Hg as [_ ?].
- destruct (turn_frame f) as (_ & Hsub & Hid & Hcfg); [by apply healthy_ok|].
  apply IH; [|done|done|lia]. rewrite Hid, Hcfg. intros cs w Hcs. apply Hsend. by etransitivity.
Qed.
End Run.

(** * Properties *)

(** At-least-once: whatever fails and whenever [Run] is cancelled, the
    chunks the forwarder has removed from the queue are an initial segment of
    what the queue held, and every one of them has been received by the server
    in some message; the rest is still queued, in order. *)
Theorem forwarder_at_least_once {E St W} `{SourceSpec E St, AdapterSpec W} n (f : Fwd St W) :
  src_ok (src f) ->
  exists gone, held (src f) = gone ++ held (src (Run n f).2) /\
    Forall (delivered (world (Run n f).2)) gone.
Proof. intros Hok. by destruct (run_delivers n f Hok) as (_ & _ & ?). Qed.

(** C27. The backlog drains: with a source whose operations succeed and a
    transport that gets the queue's messages through, a number of turns no
    larger than the backlog leaves nothing to deliver, and everything the queue
    held has been received. *)
Theorem forwarder_drains {E St W} `{SourceSpec E St, AdapterSpec W} (P : W -> Prop) n (f : Fwd St W) :
  working P (cfg_GatewayID (f_cfg f)) (src_StreamID (src f)) (held (src f)) ->
  healthy (src f) -> P (world f) -> (backlog (src f) <= n)%nat ->
  held (src (Run n f).2) = [] /\ Forall (delivered (world (Run n f).2)) (held (src f)).
Proof.
  intros Hs Hh HP Hb. pose proof (run_drains P n f Hs Hh HP Hb) as He. split; [done|].
  destruct (run_delivers n f) as (_ & _ & g & -> & Hd); [by apply healthy_ok|].
  by rewrite He, app_nil_r.
Qed.

(** Outage schedule: [n] failing turns in a row, starting from a success,
    wait 1, 2, 4, 8, 16, 32 and then 60 seconds each time, without overflow
    however long the outage lasts; the first acknowledged message resets the
    count and is followed by the next at once. *)
Theorem outage_schedule {E St W} `{SourceOps E St, Adapter W} n (f : Fwd St W) :
  failures f = 0 ->
  (forall i, (i < n)%nat -> exists e, (dispatchOnce (Run i f).2).1 = Err e) ->
  (Run n f).1 = map (fun i => second * Z.min 60 (2 ^ Z.of_nat i)) (seq 0 n) /\
  forall g, (dispatchOnce g).1 = Ok true -> (run_turn g).1 = 0 /\ failures (run_turn g).2 = 0.
Proof.
  intros Hf Hn. split.
  - rewrite run_outage, Hf by done. rewrite <- seq_shift, map_map. apply map_ext. intros i.
    rewrite backoff_eq. repeat f_equal. lia.
  - intros g Hg. unfold run_turn. destruct (dispatchOnce g) as [r g']. cbn [fst] in Hg. by subst r.
Qed.
