(* ===== verification/QueueSource.v ===== *)
(** The queue implements what the forwarder relies on: [queue.Store] as an
    instance of [SourceOps], and the laws of [SourceSpec] proved for it. *)

From S2P Require Import Prelude Float64 GoTime Codec QueueDb QueueStore QueueFacts QueueInvariant.
From S2P Require Import QueueProps Wire Forwarder.

Local Open Scope string_scope.
Local Open Scope list_scope.
Local Open Scope Z_scope.

#[export] Instance queue_source `{Env, Flate} : SourceOps qerror Store :=
  {| src_StreamID := streamID; src_ReadBatch := ReadBatch; src_Ack := Ack |}.

Section Source.
Context `{Env, Flate}.

(** The chunks the forwarder can still be given. *)
Definition deliverable (s : Store) : list Chunk :=
map row_chunk (filter (fun r => readable r) (chunk (db s))).

Lemma sorted_map_row_chunk rows :
StronglySorted (fun a b => seq a < seq b) rows ->
StronglySorted (fun a b => Seq a < Seq b) (map row_chunk rows).
Proof.
induction 1 as [|r rows Hs IH Hr]; [constructor|]. constructor; [done|].
apply Forall_forall. intros c Hc. apply list_elem_of_fmap in Hc as (x & -> & Hx).
rewrite Forall_forall in Hr. by apply Hr.
Qed.

Lemma deliverable_sorted s :
db_ok (db s) -> StronglySorted (fun a b => Seq a < Seq b) (deliverable s).
Proof. intros [Hok _ _ _]. apply sorted_map_row_chunk, (seqs_ok_filter _ _ _ Hok). Qed.

Lemma prefix_filter (P : Row -> Prop) `{!forall x, Decision (P x)} l k :
l `prefix_of` k -> filter P l `prefix_of` filter P k.
Proof. intros [r ->]. rewrite filter_app. by eexists. Qed.

(** A faulty discard changes nothing; a committed one removes an unreadable row. *)
Lemma discard_safe r s res s' :
db_ok (db s) -> r ∈ chunk (db s) -> readable r = false ->
discard (seq r) (row_n r) s = (res, s') ->
db_ok (db s') /\ deliverable s' = deliverable s /\
(length (chunk (db s')) <= length (chunk (db s)))%nat /\
forall x, x ∈ chunk (db s) -> seq x <> seq r -> x ∈ chunk (db s').
Proof.
intros Hok Hr Hread Hd. unfold discard in Hd. step_inv Hd.
- rename x into del, x0 into s1. apply discard_tx_inv in H1 as (_ & Hc).
  assert (Hdb : db s' = db s1).
  { destruct del; [|by unfold mret, M_ret in Hd; simplify_eq].
    rewrite bind_modify in Hd. unfold modify in Hd. injection Hd as _ <-.
    pose proof (key_refreshBounds (count_discarded (row_n r) s1)) as (-> & _)%key_eq. done. }
  destruct Hc as [(e & ? & _)|[(_ & Hs & _)|(_ & Hs & _)]]; [done| |].
  { unfold deliverable. rewrite Hdb, Hs. split_and!; auto. }
  unfold deliverable. rewrite Hdb, Hs.
  destruct (filter_seq_unique _ _ _ r (ok_seqs _ Hok) Hr eq_refl) as (l & k & Hl & Hf).
  split; [by apply db_ok_discard|]. unfold db_discard. cbn [chunk add_meta delete_seq].
  split; [|split].
  + f_equal. rewrite Hf, Hl, !filter_app, filter_cons_False; [done|]. rewrite Hread. by intros [].
  + rewrite Hf, Hl, !length_app. cbn. lia.
  + intros x Hx Hne. by apply list_elem_of_filter.
- apply discard_tx_inv in H1 as (_ & [(e' & _ & Hs)|[(? & _)|(? & _)]]); try done.
  unfold deliverable. rewrite Hs. split_and!; auto.
Qed.

Lemma deliver_safe raw s res s' :
db_ok (db s) -> StronglySorted (fun a b => seq a < seq b) raw -> raw ⊆ chunk (db s) ->
deliver raw s = (res, s') ->
db_ok (db s') /\ deliverable s' = deliverable s /\
(length (chunk (db s')) <= length (chunk (db s)))%nat /\
forall cs, res = Ok cs -> cs = map row_chunk (filter (fun r => readable r) raw).
Proof.
revert s res s'. induction raw as [|r raw IH]; intros s res s' Hok Hs Hin Hd; cbn [deliver] in Hd.
{ unfold mret, M_ret in Hd. simplify_eq. split_and!; auto. by intros cs [= <-]. }
apply StronglySorted_inv in Hs as [Hs Hr]. assert (Hr1 : r ∈ chunk (db s)) by (apply Hin; left).
assert (Hin' : raw ⊆ chunk (db s)) by (intros y Hy; apply Hin; by right).
destruct (decodeChunk (row_data r)) as [rs|e] eqn:Hdec.
- assert (Hread : readable r = true) by (unfold readable; by rewrite Hdec).
  rewrite filter_cons_True by by rewrite Hread. step_inv Hd.
  + rename x into cs0, x0 into s1. destruct (IH _ _ _ Hok Hs Hin' H1) as (? & ? & ? & Hcs).
    unfold mret, M_ret in Hd. simplify_eq. split_and!; auto.
    intros cs [= <-]. rewrite (Hcs _ eq_refl). cbn [map]. unfold row_chunk at 2, decoded.
    by rewrite Hdec.
  + destruct (IH _ _ _ Hok Hs Hin' H1) as (? & ? & ? & _). subst. split_and!; auto. by intros.
- assert (Hread : readable r = false) by (unfold readable; by rewrite Hdec).
  rewrite filter_cons_False by (rewrite Hread; by intros []). step_inv Hd.
  + apply discard_safe in H1 as (Hok1 & Hdl & Hlen & Hin1); [|done..].
    assert (Hin2 : raw ⊆ chunk (db x0)).
    { intros y Hy. apply Hin1; [by apply Hin'|]. rewrite Forall_forall in Hr.
      specialize (Hr y Hy). cbn in Hr. lia. }
    destruct (IH _ _ _ Hok1 Hs Hin2 Hd) as (? & Hdl' & Hlen' & ?).
    split_and!; [done|congruence|lia|done].
  + apply discard_safe in H1 as (Hok1 & Hdl & Hlen & Hin1); [|done..].
    subst. split_and!; auto. by intros.
Qed.

Lemma read_safe m s res s' :
db_ok (db s) -> ReadBatch m s = (res, s') ->
db_ok (db s') /\ deliverable s' = deliverable s /\
(length (chunk (db s')) <= length (chunk (db s)))%nat /\
forall cs, res = Ok cs -> cs `prefix_of` deliverable s.
Proof.
intros Hok Hr. unfold ReadBatch in Hr. step_inv Hr.
2:{ apply query_inv in H1 as (_ & Hd & _). subst. unfold deliverable. rewrite Hd.
    split_and!; auto. by intros. }
apply query_inv in H1 as (_ & Hd & [?|Hx]); [done|]. injection Hx as ->.
rename x0 into s1. destruct (read_rows m (db s)) as [Hp _].
pose proof Hp as [rest Hrest]. pose proof (ok_seqs _ Hok) as [Hsort _].
rewrite Hrest in Hsort. apply StronglySorted_app_1_l in Hsort.
assert (Hsub : scan_rows m 0 (take readBatchScanLimit (chunk (db s))) ⊆ chunk (db s1)).
{ rewrite Hd. rewrite Hrest at 2. set_solver. }
apply deliver_safe in Hr as (Hok' & Hdl & Hlen & Hcs); [|by rewrite Hd|done|done].
split; [done|]. rewrite Hd in Hlen. split; [|split; [done|]].
- rewrite Hdl. unfold deliverable. by rewrite Hd.
- intros cs Hc. rewrite (Hcs cs Hc). unfold deliverable.
  apply (prefix_filter (fun r => readable r)) in Hp as [k ->]. rewrite map_app. by eexists.
Qed.

Lemma deliverable_above q rows :
map row_chunk (filter (fun r => readable r) (above q rows)) =
filter (fun c => q < Seq c) (map row_chunk (filter (fun r => readable r) rows)).
Proof.
induction rows as [|r rows IH]; [done|]. unfold above in *. rewrite !filter_cons.
destruct (decide (q < seq r)) as [Hq|Hq]; destruct (decide (readable r)) as [Hr|Hr]; cbn [map].
- rewrite filter_cons, decide_True by done. rewrite (filter_cons_True (fun c => q < Seq c)) by done.
  cbn [map]. by rewrite IH.
- by rewrite filter_cons, decide_False by done.
- by rewrite (filter_cons_False (fun c => q < Seq c)) by done.
- done.
Qed.

Lemma ack_safe q s res s' :
db_ok (db s) -> Ack q s = (res, s') ->
db_ok (db s') /\
((deliverable s' = deliverable s /\ exists e, res = Err e) \/
 (res = Ok tt /\ chunk (db s') = above q (chunk (db s)))).
Proof.
intros Hok Ha. unfold Ack in Ha. step_inv Ha.
- destruct x as [c n]. apply deleteThrough_cases in H1 as [(e & ? & _)|Hdel]; [done| |by left|done].
  destruct Hdel as (_ & Hok1 & Hrows & _). rewrite !bind_modify in Ha. unfold modify in Ha.
  injection Ha as <- <-. 
  pose proof (key_refreshBounds (count_removed c n x0)) as (Hd & _)%key_eq.
  rewrite Hd. split; [done|]. by right.
- apply deleteThrough_cases in H1 as [(e & _ & Hk)|Hdel]; [| |by left|done].
  + apply key_eq in Hk as (Hd & _). rewrite Hd. split; [done|]. left.
    unfold deliverable. rewrite Hd. eauto.
  + by destruct Hdel as (_ & _ & _ & _ & ? & _).
Qed.

(** ** The stream id never changes *)

Definition keeps_stream {A} (m : Q A) : Prop :=
forall s r s', m s = (r, s') -> streamID s' = streamID s.

Lemma keeps_frames {A} (m : Q A) : frames m -> keeps_stream m.
Proof. intros Hf s r s' Hm. apply Hf in Hm. by rewrite Hm. Qed.
Lemma keeps_bind {A B} (m : Q A) (f : A -> Q B) :
keeps_stream m -> (forall a, keeps_stream (f a)) -> keeps_stream (m ≫= f).
Proof.
intros Hm Hf s r s' Hb. apply bind_inv in Hb as [(a & s1 & H1 & H2)|(e & H1 & _)].
- rewrite (Hf _ _ _ _ H2). by eapply Hm.
- by eapply Hm.
Qed.
Lemma keeps_ret {A} (a : A) : keeps_stream (mret a : Q A).
Proof. apply keeps_frames, frames_ret. Qed.
Lemma keeps_modify f : (forall s, streamID (f s) = streamID s) -> keeps_stream (modify f : Q unit).
Proof. intros Hf s r s' Hm. unfold modify in Hm. injection Hm as _ <-. apply Hf. Qed.

Lemma streamID_refreshBounds s : streamID (refreshBounds s) = streamID s.
Proof.
unfold refreshBounds. destruct (query oldest_row s) as [[o|] s1] eqn:E1;
  apply (keeps_frames _ (frames_query _)) in E1; [|done].
destruct (query newest_row s1) as [[n|] s2] eqn:E2;
  apply (keeps_frames _ (frames_query _)) in E2; cbn; congruence.
Qed.

Lemma streamID_refreshSize s : streamID (refreshSize s) = streamID s.
Proof.
unfold refreshSize. destruct (query _ s) as [[d|] s1] eqn:E1;
  apply (keeps_frames _ (frames_query _)) in E1; [|done].
destruct (query _ s1) as [[n|] s2] eqn:E2;
  apply (keeps_frames _ (frames_query _)) in E2; cbn; congruence.
Qed.

Lemma streamID_exec f s : streamID (exec f s).2 = streamID s.
Proof. destruct (exec f s) as [r s1] eqn:E. by apply (keeps_frames _ (frames_exec _)) in E. Qed.

Lemma streamID_compact s : streamID (compact s) = streamID s.
Proof. unfold compact. by rewrite streamID_refreshSize, !streamID_exec. Qed.

Lemma streamID_flush_written b s : streamID (flush_written b s) = streamID s.
Proof.
unfold flush_written. assert (Hg : forall k s1, streamID (foldl count_written s1 k) = streamID s1).
{ intros k. induction k as [|p k IH]; intros s1; [done|]. cbn [foldl]. rewrite IH. unfold count_written.
  by destruct (oldestTs _ =? 0). }
by rewrite Hg.
Qed.

Lemma streamID_flush_collect s : streamID (flush_collect s) = streamID s.
Proof. unfold flush_collect. destruct (buf s); [done|]. by destruct (encodeChunk _). Qed.

Lemma keeps_insertChunks b : keeps_stream (insertChunks b).
Proof. intros s r s' (Hm & _)%insertChunks_inv. by rewrite Hm. Qed.

Lemma streamID_Flush s : streamID (Flush s).2 = streamID s.
Proof.
unfold Flush. rewrite <- (streamID_flush_collect s). destruct (unflushed _) as [|c b]; [done|].
destruct (insertChunks _ _) as [[[]|e] s2] eqn:E; apply keeps_insertChunks in E; cbn [snd].
- by rewrite streamID_flush_written, E.
- destruct (flush_failed_eq s2) as [k ->]. exact E.
Qed.

Lemma keeps_discard_tx q n : keeps_stream (discard_tx q n).
Proof. intros s r s' (Hm & _)%discard_tx_inv. by rewrite Hm. Qed.
Lemma keeps_deleteThrough q k : keeps_stream (deleteThrough q k).
Proof. intros s r s' (Hm & _)%deleteThrough_inv. by rewrite Hm. Qed.

Lemma keeps_discard q n : keeps_stream (discard q n).
Proof.
apply keeps_bind; [apply keeps_discard_tx|]. intros []; [|apply keeps_ret].
apply keeps_bind; [by apply keeps_modify|intros _]. apply keeps_modify, streamID_refreshBounds.
Qed.
Lemma keeps_ReadBatch m : keeps_stream (ReadBatch m).
Proof.
apply keeps_bind; [apply keeps_frames, frames_query|]. intros raw.
induction raw as [|r raw IH]; cbn [deliver]; [apply keeps_ret|].
destruct (decodeChunk _); (apply keeps_bind; [|intros]); auto using keeps_discard, keeps_ret.
Qed.
Lemma keeps_Ack q : keeps_stream (Ack q).
Proof.
apply keeps_bind; [apply keeps_deleteThrough|intros [c n]].
apply keeps_bind; [by apply keeps_modify|intros _]. apply keeps_modify, streamID_refreshBounds.
Qed.

Lemma live_run {A} (m : Q A) s r s' :
live m -> no_fault (clk s) -> m s = (r, s') -> (exists a, r = Ok a) /\ no_fault (clk s').
Proof.
intros Hl Hn Hm. destruct (Hl s Hn) as (a & s2 & E & C). rewrite E in Hm. injection Hm as <- <-.
split; [eauto|by eapply no_fault_le].
Qed.

Lemma live_refreshBounds : live (modify refreshBounds : Q unit).
Proof. intros s Hn. eexists _, _. split; [done|]. apply clk_refreshBounds. Qed.
Lemma live_modify_mem f : (forall s, clk (f s) = clk s) -> live (modify f : Q unit).
Proof. intros Hf s Hn. eexists _, _. split; [done|]. by rewrite Hf. Qed.

Lemma live_discard q n : live (discard q n).
Proof.
apply live_bind; [apply live_discard_tx|]. intros []; [|apply live_ret].
apply live_bind; [by apply live_modify_mem|intros _]. apply live_refreshBounds.
Qed.
Lemma live_deliver raw : live (deliver raw).
Proof.
induction raw as [|r raw IH]; cbn [deliver]; [apply live_ret|].
destruct (decodeChunk _); (apply live_bind; [|intros]); auto using live_discard, live_ret.
Qed.
Lemma live_ReadBatch m : live (ReadBatch m).
Proof. apply live_bind; [apply live_query|intros raw; apply live_deliver]. Qed.
Lemma live_Ack q : live (Ack q).
Proof.
apply live_bind; [apply live_deleteThrough|intros [c n]].
apply live_bind; [by apply live_modify_mem|intros _]. apply live_refreshBounds.
Qed.

Lemma deliverable_nil rows : filter (fun r => readable r) rows = [] -> map row_chunk (filter (fun r => readable r) rows) = [].
Proof. by intros ->. Qed.

(** A batch that delivers nothing discarded its rows, or there were none. *)
Lemma empty_batch m s s' :
db_ok (db s) -> no_fault (clk s) -> ReadBatch m s = (Ok [], s') ->
deliverable s = [] \/ (length (chunk (db s')) < length (chunk (db s)))%nat.
Proof.
intros Hok Hn Hr. unfold ReadBatch in Hr.
rewrite (bind_ok _ _ _ _ _ (query_quiet _ _ (Hn _ (Nat.le_refl _)))) in Hr.
set (raw := scan_rows m 0 (take readBatchScanLimit (chunk (db s)))) in *.
destruct (read_rows m (db s)) as [[rest Hp] Hnil]. fold raw in Hp, Hnil.
destruct raw as [|r raw'] eqn:Eraw.
{ left. unfold deliverable. by rewrite (Hnil eq_refl). }
rewrite <- Eraw in *. right.
destruct (deliver_ok raw (set_db (db s) (tick s))) as (s2 & E2 & Hd).
- done.
- pose proof (ok_seqs _ Hok) as [Hs _]. rewrite Hp in Hs. by eapply StronglySorted_app_1_l.
- cbn [db set_db]. intros x Hx. rewrite Hp. apply elem_of_app. by left.
- intros i Hi. apply Hn. cbn in Hi. lia.
- rewrite E2 in Hr. injection Hr as Hempty ->. apply fmap_nil_inv in Hempty.
  assert (Hbad : r ∈ filter (fun r => negb (readable r)) raw).
  { apply list_elem_of_filter. split; [|rewrite Eraw; left].
    destruct (readable r) eqn:Hread; [|done]. exfalso.
    assert (Hin : r ∈ filter (fun r => readable r) raw)
      by (apply list_elem_of_filter; split; [by rewrite Hread|rewrite Eraw; left]).
    rewrite Hempty in Hin. by apply elem_of_nil in Hin. }
  rewrite (dr_rows _ _ _ Hd). cbn [db set_db].
  apply (length_filter_lt _ _ r).
  + rewrite Hp, Eraw. left.
  + intros Hno. apply Hno. by apply list_elem_of_fmap_2.
Qed.

#[export] Program Instance queue_source_spec : SourceSpec qerror Store := {|
src_ok s := db_ok (db s);
healthy s := db_ok (db s) /\ no_fault (clk s);
held := deliverable;
backlog s := length (chunk (db s))
|}.
Next Obligation. intros s Hok. by apply deliverable_sorted. Qed.
Next Obligation.
intros m s r s' Hok Hr. pose proof (keeps_ReadBatch m _ _ _ Hr) as Hst.
by apply read_safe in Hr as (? & ? & _ & ?).
Qed.
Next Obligation.
intros q s r s' Hok Ha. pose proof (keeps_Ack q _ _ _ Ha) as Hst.
apply ack_safe in Ha as (? & [[? ?]|[_ Hrows]]); [by auto| |done].
split; [done|]. split; [done|]. right. unfold deliverable. by rewrite Hrows, deliverable_above.
Qed.
Next Obligation. by intros s [? _]. Qed.
Next Obligation.
intros m s [Hok Hn]. destruct (ReadBatch m s) as [r s'] eqn:E.
destruct (live_run _ _ _ _ (live_ReadBatch m) Hn E) as [[cs ->] Hn'].
pose proof (read_safe _ _ _ _ Hok E) as (Hok' & _ & Hlen & _).
exists cs, s'. split_and!; try done. intros ->. by eapply empty_batch.
Qed.
Next Obligation.
intros q s [Hok Hn]. destruct (Ack q s) as [r s'] eqn:E.
destruct (live_run _ _ _ _ (live_Ack q) Hn E) as [[[] ->] Hn'].
destruct (ack_safe _ _ _ _ Hok E) as (Hok' & [[_ [e ?]]|[_ Hrows]]); [done|].
exists s'. split_and!; try done. intros (c & Hc & Hq).
apply list_elem_of_fmap in Hc as (x & -> & Hx). apply list_elem_of_filter in Hx as [_ Hx].
rewrite Hrows. apply (length_filter_lt _ _ x); [done|]. cbn in *. lia.
Qed.
Next Obligation.
intros s _ Hl. apply nil_length_inv in Hl. unfold deliverable. by rewrite Hl.
Qed.
End Source.

(** * Witnesses: the forwarder on the queue *)

(** A transport that delivers at once; the world is what the server received. *)
#[local] Instance perfect : Adapter (list Message) :=
  {| Send := fun m w => (Ok tt, w ++ [m]); time_now := fun w => Z.of_nat (length w) |}.
#[local] Program Instance perfect_spec : AdapterSpec (list Message) := {| received := id |}.
Next Obligation. intros m w r w' [= <- <-]. cbn. set_solver. Qed.
Next Obligation. intros m w w' [= <-]. cbn. set_solver. Qed.

#[local] Existing Instance sample_env.
#[local] Existing Instance stored_flate.

Definition sample_fwd : Fwd Store (list Message) :=
  mkFwd sample_store [] (new_config (mkConfig "GW" 0 0)) (mkStatus false "" None None) 0.

Lemma forwarder_at_least_once_witness :
  exists gone, held (src sample_fwd) = gone ++ held (src (Run 3 sample_fwd).2) /\
    Forall (delivered (world (Run 3 sample_fwd).2)) gone.
Proof. apply (forwarder_at_least_once 3 sample_fwd). exact sample_db_ok. Defined.

Lemma forwarder_drains_witness :
  held (src (Run 2 sample_fwd).2) = [] /\
  Forall (delivered (world (Run 2 sample_fwd).2)) (held (src sample_fwd)).
Proof.
  apply (forwarder_drains (fun _ => True) 2 sample_fwd).
  - intros cs w _ _. by eexists.
  - split; [exact sample_db_ok|exact (sample_quiet _)].
  - exact I.
  - apply Nat.leb_le. vm_compute. reflexivity.
Defined.

(** A transport that is down. *)
#[local] Instance down : Adapter Z :=
  {| Send := fun m w => (Err "mqtt: not connected", w + second); time_now := fun w => w |}.

Definition sample_outage : Fwd Store Z :=
  mkFwd sample_store 0 (new_config (mkConfig "GW" 0 0)) (mkStatus false "" None None) 0.

Lemma outage_schedule_witness :
  (Run 3 sample_outage).1 = map (fun i => second * Z.min 60 (2 ^ Z.of_nat i)) (List.seq 0 3) /\
  forall g : Fwd Store Z, (dispatchOnce g).1 = Ok true -> (run_turn g).1 = 0 /\ failures (run_turn g).2 = 0.
Proof.
  apply (outage_schedule 3 sample_outage).
  - reflexivity.
  - intros i Hi. assert (Hc : i = 0%nat \/ i = 1%nat \/ i = 2%nat) by lia.
    exists (inr "mqtt: not connected"). destruct Hc as [->|[->| ->]]; vm_compute; reflexivity.
Defined.
