(* ===== verification/MqttAdapter.v ===== *)
(** The MQTT transport (internal/forwarder/mqttadapter.go): matching
    acknowledgements to the message [Send] waits for, and the reconnect
    watchdog.

    The MQTT client library is outside: what it does is a sequence of events.
    An event is handled before the next one happens, so an acknowledgement and
    a deadline that race are two different sequences. *)

From S2P Require Import Prelude GoTime Wire.
From stdpp Require Import gmap pretty.

Local Open Scope string_scope.
Local Open Scope list_scope.
Local Open Scope Z_scope.

Record MQTTConfig := mkMQTTConfig {
  BrokerURL : string;
  WatchdogInterval : Z;
  ReconnectStuckAfter : Z
}.

Definition defaultWatchdogInterval : Z := 15 * second.
Definition defaultReconnectStuckAfter : Z := 45 * second.

(** The maps hold references to channels of capacity one; [chans] is the
    store of channels.  [disconnectedAt]: [None] is Go's zero time. *)
Record MQTTAdapter := mkAdapter {
  cfg : MQTTConfig;
  pending : gmap Z nat;
  pendingStream : gmap Z string;
  disconnectedAt : option Z;
  chans : gmap nat (option AckMsg);
  next_chan : nat
}.

Definition set_pending (p : gmap Z nat) (ps : gmap Z string) (a : MQTTAdapter) : MQTTAdapter :=
  mkAdapter (cfg a) p ps (disconnectedAt a) (chans a) (next_chan a).
Definition set_disconnectedAt (t : option Z) (a : MQTTAdapter) : MQTTAdapter :=
  mkAdapter (cfg a) (pending a) (pendingStream a) t (chans a) (next_chan a).
Definition set_chans (c : gmap nat (option AckMsg)) (n : nat) (a : MQTTAdapter) : MQTTAdapter :=
  mkAdapter (cfg a) (pending a) (pendingStream a) (disconnectedAt a) c n.

Definition NewMQTTAdapter (c : MQTTConfig) (now : Z) : MQTTAdapter :=
  mkAdapter
    (mkMQTTConfig (BrokerURL c)
      (if WatchdogInterval c <=? 0 then defaultWatchdogInterval else WatchdogInterval c)
      (if ReconnectStuckAfter c <=? 0 then defaultReconnectStuckAfter else ReconnectStuckAfter c))
    ∅ ∅ (Some now) ∅ 0.

(** * Acknowledgements *)

(** [handleAck]; the payload is what [json.Unmarshal] makes of it. *)
Definition handleAck (payload : option AckMsg) (a : MQTTAdapter) : MQTTAdapter :=
  match payload with
  | None => a
  | Some ack =>
    let stream := from_option id "" (pendingStream a !! a_ToSeq ack) in
    match pending a !! a_ToSeq ack with
    | None => a
    | Some ch =>
      if negb (a_StreamID ack =? "")%string && negb (a_StreamID ack =? stream)%string then a
      else
        match chans a !! ch with
        | Some None => set_chans (<[ch := Some ack]> (chans a)) (next_chan a) a
        | _ => a
        end
    end
  end.

(** What happens while [Send] runs. *)
Inductive event :=
| AckArrives (payload : option AckMsg)
| PublishDone (err : option string)
| PublishTimeout (after : string)
| AckTimeout
| CtxDone (err : string).

Definition seq_range (m : Message) : string := pretty (m_FromSeq m) +:+ "-" +:+ pretty (m_ToSeq m).

(** [waitToken] until the publish is done; then the [select] on the channel. *)
Fixpoint wait_ack (m : Message) (ch : nat) (evs : list event) (a : MQTTAdapter) :
    option (result string unit) * MQTTAdapter :=
  match chans a !! ch with
  | Some (Some ack) =>
    (Some (if (a_Error ack =? "")%string then Ok tt
           else Err ("server rejected seq " +:+ seq_range m +:+ ": " +:+ a_Error ack)), a)
  | _ =>
    match evs with
    | [] => (None, a)
    | AckArrives p :: evs => wait_ack m ch evs (handleAck p a)
    | CtxDone e :: _ => (Some (Err e), a)
    | AckTimeout :: _ => (Some (Err ("mqtt: timed out waiting for ack of seq " +:+ seq_range m)), a)
    | _ :: evs => wait_ack m ch evs a
    end
  end.

Fixpoint wait_publish (m : Message) (ch : nat) (evs : list event) (a : MQTTAdapter) :
    option (result string unit) * MQTTAdapter :=
  match evs with
  | [] => (None, a)
  | PublishDone None :: evs => wait_ack m ch evs a
  | PublishDone (Some e) :: _ | CtxDone e :: _ => (Some (Err ("mqtt publish: " +:+ e)), a)
  | PublishTimeout after :: _ => (Some (Err ("mqtt publish: timed out after " +:+ after)), a)
  | AckArrives p :: evs => wait_publish m ch evs (handleAck p a)
  | AckTimeout :: evs => wait_publish m ch evs a
  end.

(** Register the channel, publish, wait; the deferred function unregisters.
    [None]: the events ran out before [Send] returned. *)
Definition Send (connected : bool) (m : Message) (evs : list event) (a : MQTTAdapter) :
    option (result string unit) * MQTTAdapter :=
  if negb connected then (Some (Err ("mqtt: not connected to " +:+ BrokerURL (cfg a))), a)
  else match marshal m with
  | Err e => (Some (Err ("marshal message: " +:+ e)), a)
  | Ok _ =>
    let ch := next_chan a in
    let a := set_chans (<[ch := None]> (chans a)) (S ch) a in
    let a := set_pending (<[m_ToSeq m := ch]> (pending a))
               (<[m_ToSeq m := m_StreamID m]> (pendingStream a)) a in
    match wait_publish m ch evs a with
    | (Some r, a) =>
      (Some r, set_pending (delete (m_ToSeq m) (pending a)) (delete (m_ToSeq m) (pendingStream a)) a)
    | (None, a) => (None, a)
    end
  end.

(** * Connection state and watchdog *)

Definition onConnect (a : MQTTAdapter) : MQTTAdapter := set_disconnectedAt None a.
Definition onConnectionLost (now : Z) (a : MQTTAdapter) : MQTTAdapter := set_disconnectedAt (Some now) a.

(** [subscribeWithRetry]: whether an attempt succeeded, and the seconds slept;
    [ok i] is the outcome of attempt [i]. *)
Fixpoint subscribe_attempts (ok : Z -> bool) (n : nat) (attempt : Z) : bool * list Z :=
  match n with
  | O => (false, [])
  | S k =>
    if ok attempt then (true, [])
    else let '(r, ws) := subscribe_attempts ok k (attempt + 1) in (r, attempt * second :: ws)
  end.
Definition subscribeWithRetry (ok : Z -> bool) : bool * list Z := subscribe_attempts ok 3 1.

Definition isPahoAlreadyReconnectingErr (contains : string -> string -> bool) (err : option string) : bool :=
  match err with
  | Some e => contains e "status can only transition to connecting from disconnected"
  | None => false
  end.

(** [checkAndForceReconnect]: whether it called [Connect].  [open] and
    [open_after] are the client's answers before and after, [now] the clock at
    the check, [later] at the end. *)
Definition checkAndForceReconnect (now later : Z) (open open_after : bool) (a : MQTTAdapter) :
    bool * MQTTAdapter :=
  if open then (false, a)
  else
    match disconnectedAt a with
    | None => (false, a)
    | Some since =>
      if time_sub now since <? ReconnectStuckAfter (cfg a) then (false, a)
      else (true, if open_after then a else set_disconnectedAt (Some later) a)
    end.

(** What the watchdog and the client's callbacks do, one at a time. *)
Inductive conn_event :=
| Tick (now later : Z) (open open_after : bool)
| ConnectedEv
| LostEv (now : Z).

Definition conn_step (e : conn_event) (a : MQTTAdapter) : bool * MQTTAdapter :=
  match e with
  | Tick now later open open_after => checkAndForceReconnect now later open open_after a
  | ConnectedEv => (false, onConnect a)
  | LostEv now => (false, onConnectionLost now a)
  end.

Fixpoint conn_run (es : list conn_event) (a : MQTTAdapter) : MQTTAdapter :=
  match es with [] => a | e :: es => conn_run es (conn_step e a).2 end.

(** * Facts *)

(** An acknowledgement for message [m]: its [to_seq], and its stream or none. *)
Definition acks (m : Message) (ack : AckMsg) : Prop :=
  a_ToSeq ack = m_ToSeq m /\ (a_StreamID ack = "" \/ a_StreamID ack = m_StreamID m).
#[export] Instance acks_dec m ack : Decision (acks m ack).
Proof. unfold acks. apply _. Defined.

(** The channel of [m] is registered under its [to_seq], and only there. *)
Definition waiting_for (m : Message) (ch : nat) (a : MQTTAdapter) : Prop :=
  pending a !! m_ToSeq m = Some ch /\ pendingStream a !! m_ToSeq m = Some (m_StreamID m) /\
  forall k, k <> m_ToSeq m -> pending a !! k <> Some ch.

(** The first acknowledgement for [m] among [evs]. *)
Fixpoint first_ack (m : Message) (evs : list event) : option AckMsg :=
  match evs with
  | [] => None
  | AckArrives (Some ack) :: evs => if decide (acks m ack) then Some ack else first_ack m evs
  | _ :: evs => first_ack m evs
  end.

Lemma handleAck_frame p a :
  pending (handleAck p a) = pending a /\ pendingStream (handleAck p a) = pendingStream a /\
  disconnectedAt (handleAck p a) = disconnectedAt a /\ cfg (handleAck p a) = cfg a /\
  next_chan (handleAck p a) = next_chan a.
Proof.
  unfold handleAck. destruct p as [ack|]; [|done]. destruct (pending a !! _) as [ch|]; [|done].
  destruct (_ && _); [done|]. by destruct (chans a !! ch) as [[]|].
Qed.

Lemma waiting_handleAck m ch p a : waiting_for m ch a -> waiting_for m ch (handleAck p a).
Proof. unfold waiting_for. by destruct (handleAck_frame p a) as (-> & -> & _). Qed.

(** What one arrival makes of the channel's content: the first
    acknowledgement for [m] fills it, everything else leaves it. *)
Definition filled (m : Message) (p : option AckMsg) (c : option AckMsg) : option AckMsg :=
  match c, p with
  | None, Some ack => if decide (acks m ack) then Some ack else None
  | _, _ => c
  end.

Lemma filled_other m ack c : ~ acks m ack -> filled m (Some ack) c = c.
Proof. intros Hno. destruct c; cbn; [done|]. by rewrite decide_False. Qed.

Lemma handleAck_chan m ch p a c :
  waiting_for m ch a -> chans a !! ch = Some c ->
  chans (handleAck p a) !! ch = Some (filled m p c).
Proof.
  intros (Hp & Hs & Hu) Hc. unfold handleAck. destruct p as [ack|]; [|by destruct c].
  destruct (decide (a_ToSeq ack = m_ToSeq m)) as [Heq|Hne].
  - rewrite Heq, Hp, Hs. cbn [from_option id].
    destruct (String.eqb_spec (a_StreamID ack) "") as [He|He];
      destruct (String.eqb_spec (a_StreamID ack) (m_StreamID m)) as [Hm|Hm]; cbn [negb andb];
      try (rewrite filled_other by (unfold acks; naive_solver); done);
      rewrite Hc; destruct c as [x|]; cbn [chans set_chans filled]; try done;
      rewrite lookup_insert_eq, decide_True by (unfold acks; auto); done.
  - rewrite filled_other by (unfold acks; naive_solver).
    destruct (pending a !! a_ToSeq ack) as [ch'|] eqn:Hp'; [|done].
    destruct (_ && _); [done|].
    assert (Hch : ch' <> ch) by (intros ->; by eapply Hu).
    destruct (chans a !! ch') as [[]|]; try done.
    cbn [chans set_chans]. by rewrite lookup_insert_ne.
Qed.

(** The verdict of an acknowledgement. *)
Definition verdict (m : Message) (ack : AckMsg) : result string unit :=
  if (a_Error ack =? "")%string then Ok tt
  else Err ("server rejected seq " +:+ seq_range m +:+ ": " +:+ a_Error ack).

Definition first_of (m : Message) (c : option AckMsg) (evs : list event) : option AckMsg :=
  match c with Some x => Some x | None => first_ack m evs end.

(** The events that make [Send] give up. *)
Definition failing (e : event) : bool :=
  match e with
  | PublishDone (Some _) | PublishTimeout _ | AckTimeout | CtxDone _ => true
  | _ => false
  end.

(** What a [Send] that returned [r] saw of [evs], with [c] already received. *)
Definition send_saw (m : Message) (c : option AckMsg) (evs : list event) (r : result string unit) : Prop :=
  exists pre post, evs = pre ++ post /\
    ((exists ack, first_of m c pre = Some ack /\ r = verdict m ack) \/
     (exists ev e, head post = Some ev /\ failing ev = true /\ r = Err e)).

Lemma first_of_arrives m p c evs :
  first_of m (filled m p c) evs = first_of m c (AckArrives p :: evs).
Proof. destruct c as [x|]; [done|]. destruct p as [ack|]; [|done]. cbn. by case_decide. Qed.

Lemma send_saw_cons m c ev evs r :
  (forall pre, first_of m c (ev :: pre) = first_of m c pre) ->
  send_saw m c evs r -> send_saw m c (ev :: evs) r.
Proof.
  intros Hf (pre & post & -> & [(ack & Ha & ->)|(ev' & e & Hh & Hfl & ->)]).
  - exists (ev :: pre), post. split; [done|]. left. exists ack. by rewrite Hf.
  - exists (ev :: pre), post. split; [done|]. right. by exists ev', e.
Qed.

Lemma send_saw_arrives m c p evs r :
  send_saw m (filled m p c) evs r -> send_saw m c (AckArrives p :: evs) r.
Proof.
  intros (pre & post & -> & [(ack & Ha & ->)|(ev' & e & Hh & Hfl & ->)]).
  - exists (AckArrives p :: pre), post. split; [done|]. left. exists ack. by rewrite <- first_of_arrives.
  - exists (AckArrives p :: pre), post. split; [done|]. right. by exists ev', e.
Qed.

Lemma send_saw_failing m c ev evs e : failing ev = true -> send_saw m c (ev :: evs) (Err e).
Proof. intros Hf. exists [], (ev :: evs). split; [done|]. right. by exists ev, e. Qed.

(** The adapter fields [Send] restores. *)
Definition same_maps (a a' : MQTTAdapter) : Prop :=
  pending a' = pending a /\ pendingStream a' = pendingStream a /\ disconnectedAt a' = disconnectedAt a.

Lemma same_maps_handleAck p a a' : same_maps (handleAck p a) a' -> same_maps a a'.
Proof. unfold same_maps. by destruct (handleAck_frame p a) as (-> & -> & -> & _). Qed.

Lemma wait_ack_saw m ch evs a c r a' :
  waiting_for m ch a -> chans a !! ch = Some c -> wait_ack m ch evs a = (Some r, a') ->
  send_saw m c evs r /\ same_maps a a'.
Proof.
  revert a c. induction evs as [|ev evs IH]; intros a c Hw Hc; cbn [wait_ack]; rewrite Hc;
    (destruct c as [ack|]; [intros [= <- <-]; split; [|done]; eexists [], _; split; [done|];
      left; by exists ack|]); [done|].
  destruct ev as [p|[e|]|after| |e].
  - intros Hr. apply IH with (c := filled m p None) in Hr as [Hs Hm];
      [|by apply waiting_handleAck|by apply handleAck_chan].
    split; [by apply send_saw_arrives|by apply same_maps_handleAck in Hm].
  - intros Hr. eapply IH in Hr as [Hs Hm]; [|done..]. split; [by apply send_saw_cons|done].
  - intros Hr. eapply IH in Hr as [Hs Hm]; [|done..]. split; [by apply send_saw_cons|done].
  - intros Hr. eapply IH in Hr as [Hs Hm]; [|done..]. split; [by apply send_saw_cons|done].
  - intros [= <- <-]. split; [by apply send_saw_failing|done].
  - intros [= <- <-]. split; [by apply send_saw_failing|done].
Qed.

Lemma wait_publish_saw m ch evs a c r a' :
  waiting_for m ch a -> chans a !! ch = Some c -> wait_publish m ch evs a = (Some r, a') ->
  send_saw m c evs r /\ (r = Ok tt -> PublishDone None ∈ evs) /\ same_maps a a'.
Proof.
  revert a c. induction evs as [|ev evs IH]; intros a c Hw Hc; cbn [wait_publish]; [done|].
  destruct ev as [p|[e|]|after| |e].
  - intros Hr. apply IH with (c := filled m p c) in Hr as (Hs & Hp & Hm);
      [|by apply waiting_handleAck|by apply handleAck_chan].
    split; [by apply send_saw_arrives|]. split; [intros Ho; right; by apply Hp|].
    by apply same_maps_handleAck in Hm.
  - intros [= <- <-]. split; [by apply send_saw_failing|done].
  - intros Hr. eapply wait_ack_saw in Hr as [Hs Hm]; [|done..].
    split; [by apply send_saw_cons; [destruct c|]|]. split; [left|done].
  - intros [= <- <-]. split; [by apply send_saw_failing|done].
  - intros Hr. eapply IH in Hr as (Hs & Hp & Hm); [|done..].
    split; [by apply send_saw_cons; [destruct c|]|]. split; [right; by apply Hp|done].
  - intros [= <- <-]. split; [by apply send_saw_failing|done].
Qed.

(** With nothing failing, a publish and an acknowledgement end the wait. *)
Lemma wait_ack_returns m ch evs a c ack :
  waiting_for m ch a -> chans a !! ch = Some c -> forallb (fun e => negb (failing e)) evs = true ->
  first_of m c evs = Some ack ->
  exists a', wait_ack m ch evs a = (Some (verdict m ack), a').
Proof.
  revert a c. induction evs as [|ev evs IH]; intros a c Hw Hc Hf Ha; cbn [wait_ack]; rewrite Hc;
    (destruct c as [x|]; [cbn in Ha; simplify_eq; by eexists|]); [done|].
  cbn [forallb] in Hf. apply andb_true_iff in Hf as [Hev Hf].
  destruct ev as [p|[e|]|after| |e]; try done.
  - eapply (IH _ (filled m p None)); [by apply waiting_handleAck|by apply handleAck_chan|done|].
    by rewrite first_of_arrives.
  - by eapply IH.
Qed.

Lemma wait_publish_returns m ch evs a c ack :
  waiting_for m ch a -> chans a !! ch = Some c -> forallb (fun e => negb (failing e)) evs = true ->
  PublishDone None ∈ evs -> first_of m c evs = Some ack ->
  exists a', wait_publish m ch evs a = (Some (verdict m ack), a').
Proof.
  revert a c. induction evs as [|ev evs IH]; intros a c Hw Hc Hf Hin Ha; cbn [wait_publish];
    [by apply elem_of_nil in Hin|].
  cbn [forallb] in Hf. apply andb_true_iff in Hf as [Hev Hf].
  apply elem_of_cons in Hin. destruct ev as [p|[e|]|after| |e]; try done.
  - destruct Hin as [?|Hin]; [done|].
    eapply (IH _ (filled m p c)); [by apply waiting_handleAck|by apply handleAck_chan|done|done|].
    by rewrite first_of_arrives.
  - by eapply wait_ack_returns.
Qed.

(** Channel numbers in use are below the next one. *)
Definition adapter_ok (a : MQTTAdapter) : Prop :=
  forall k ch, pending a !! k = Some ch -> (ch < next_chan a)%nat.

(** The state in which [Send] starts to wait. *)
Definition registered (m : Message) (a : MQTTAdapter) : MQTTAdapter :=
  let ch := next_chan a in
  let a := set_chans (<[ch := None]> (chans a)) (S ch) a in
  set_pending (<[m_ToSeq m := ch]> (pending a)) (<[m_ToSeq m := m_StreamID m]> (pendingStream a)) a.

Lemma registered_waiting m a :
  adapter_ok a -> waiting_for m (next_chan a) (registered m a) /\
  chans (registered m a) !! next_chan a = Some None.
Proof.
  intros Hok. unfold waiting_for, registered. cbn. rewrite !lookup_insert_eq. split_and!; try done.
  intros k Hk. rewrite lookup_insert_ne by done. intros Hp. apply Hok in Hp. lia.
Qed.

Lemma Send_saw m evs a r a' :
  adapter_ok a -> pending a !! m_ToSeq m = None -> pendingStream a !! m_ToSeq m = None ->
  marshal m = Ok m -> Send true m evs a = (Some r, a') ->
  send_saw m None evs r /\ (r = Ok tt -> PublishDone None ∈ evs) /\ same_maps a a'.
Proof.
  intros Hok Hp Hps Hm. destruct (registered_waiting m a Hok) as [Hw Hc].
  unfold Send. cbn [negb]. rewrite Hm. fold (registered m a). intros Hs.
  destruct (wait_publish m _ evs _) as [[r1|] a1] eqn:E; [|done].
  injection Hs as <- <-. eapply wait_publish_saw in E as (Hsaw & Hpub & M1 & M2 & M3); [|done..].
  split; [done|]. split; [done|]. unfold same_maps. cbn. rewrite M1, M2, M3. cbn.
  by rewrite !delete_insert_id by done.
Qed.

(** A success was acknowledged. *)
Lemma first_ack_in m evs ack : first_ack m evs = Some ack -> AckArrives (Some ack) ∈ evs /\ acks m ack.
Proof.
  induction evs as [|ev evs IH]; cbn; [done|].
  destruct ev as [[x|]|e|t| |e]; try (intros (? & ?)%IH; split; [by right|done]).
  destruct (decide (acks m x)) as [Hx|Hx]; [|intros (? & ?)%IH; split; [by right|done]].
  intros [= ->]. split; [left|done].
Qed.

Lemma Send_acked m evs connected a r a' :
  pending a = ∅ -> pendingStream a = ∅ -> Send connected m evs a = (Some r, a') ->
  same_maps a a' /\
  (r = Ok tt -> exists ack, AckArrives (Some ack) ∈ evs /\ acks m ack /\ a_Error ack = "").
Proof.
  intros Hp Hps Hs. destruct connected; [|by injection Hs as <- <-].
  destruct (marshal m) as [b|e] eqn:Hm; [|unfold Send in Hs; rewrite Hm in Hs; by injection Hs as <- <-].
  pose proof (marshal_ok _ _ Hm) as ->.
  apply Send_saw in Hs as (Hsaw & _ & Hmaps); try done; [|by intros k ch; rewrite Hp| |];
    [|by rewrite ?Hp, ?Hps..].
  split; [done|]. intros ->. destruct Hsaw as (pre & post & -> & [(ack & Hf & Hv)|(? & ? & _ & _ & ?)]); [|done].
  apply first_ack_in in Hf as [Hin Ha]. exists ack. split; [apply elem_of_app; by left|]. split; [done|].
  unfold verdict in Hv. by destruct (String.eqb_spec (a_Error ack) "").
Qed.

(** C39. What [Send] reports is true: it returns success only after the publish
    completed and the first acknowledgement for this message (its [to_seq], and
    its stream or none) carried no error; it returns an error only because that
    acknowledgement carried one or because a failure event (publish error or
    time-out, acknowledgement time-out, cancellation) came first; on return
    nothing is left registered.  Conversely, with no failure event, a publish
    and an acknowledgement it always returns that acknowledgement's verdict.
    Late, foreign and malformed acknowledgements change nothing. *)
Theorem send_outcome m evs a :
  adapter_ok a -> pending a !! m_ToSeq m = None -> pendingStream a !! m_ToSeq m = None ->
  marshal m = Ok m ->
  (forall r a', Send true m evs a = (Some r, a') ->
    send_saw m None evs r /\ (r = Ok tt -> PublishDone None ∈ evs) /\ same_maps a a') /\
  (forall ack, forallb (fun e => negb (failing e)) evs = true -> PublishDone None ∈ evs ->
    first_ack m evs = Some ack ->
    exists a', Send true m evs a = (Some (verdict m ack), a')).
Proof.
  intros Hok Hp Hps Hm. split; [intros r a' Hs; by eapply Send_saw|].
  destruct (registered_waiting m a Hok) as [Hw Hc].
  unfold Send. cbn [negb]. rewrite Hm. fold (registered m a).
  intros ack Hf Hin Ha.
  destruct (wait_publish_returns m _ evs (registered m a) None ack Hw Hc Hf Hin Ha) as [a' Hr].
  rewrite Hr. by eexists.
Qed.

(** ** Watchdog *)

Definition not_before (t : Z) (e : conn_event) : Prop :=
  match e with
  | Tick now later _ _ => t <= now /\ t <= later
  | ConnectedEv => True
  | LostEv now => t <= now
  end.

(** Not known to be down since before [t]. *)
Definition down_after (t : Z) (a : MQTTAdapter) : Prop :=
  from_option (fun since => t <= since) True (disconnectedAt a).

Lemma conn_step_cfg e a : cfg (conn_step e a).2 = cfg a.
Proof.
  destruct e as [now later o oa| |now]; try done. cbn. unfold checkAndForceReconnect.
  destruct o; [done|]. destruct (disconnectedAt a); [|done]. destruct (_ <? _); [done|]. by destruct oa.
Qed.

Lemma down_after_step t e a : not_before t e -> down_after t a -> down_after t (conn_step e a).2.
Proof.
  intros He Hd. destruct e as [now later o oa| |now]; [|done|exact He].
  cbn [conn_step]. unfold checkAndForceReconnect. destruct o; [exact Hd|].
  destruct (disconnectedAt a) as [s|] eqn:E; [|exact Hd].
  destruct (_ <? _); [exact Hd|]. destruct oa; [exact Hd|apply He].
Qed.

Lemma down_after_run t es a :
  Forall (not_before t) es -> down_after t a ->
  down_after t (conn_run es a) /\ cfg (conn_run es a) = cfg a.
Proof.
  intros Hes. revert a. induction Hes as [|e es He _ IH]; intros a Ha; [done|]. cbn [conn_run].
  destruct (IH (conn_step e a).2) as [Hd Hc]; [by apply down_after_step|].
  split; [done|]. by rewrite Hc, conn_step_cfg.
Qed.

(** The moments after which the watchdog must be patient: construction, a lost
    connection, a forced attempt that left the client down. *)
Inductive fresh_outage (t : Z) : MQTTAdapter -> Prop :=
| outage_new c : fresh_outage t (NewMQTTAdapter c t)
| outage_lost a : fresh_outage t (onConnectionLost t a)
| outage_forced now a : (conn_step (Tick now t false false) a).1 = true ->
    fresh_outage t (conn_step (Tick now t false false) a).2.

Lemma fresh_outage_down t a : fresh_outage t a -> down_after t a.
Proof.
  intros [c|b|now b Hforced]; [cbn; lia|cbn; lia|]. revert Hforced.
  cbn [conn_step]. unfold checkAndForceReconnect.
  destruct (disconnectedAt b) as [s|]; [|done]. destruct (_ <? _); [done|]. intros _. cbn. lia.
Qed.

(** The watchdog gives the client's own reconnection its time: after the
    adapter was created, lost its connection, or was left down by a forced
    attempt at [t], nothing that happens makes the watchdog force a connection
    before [t + ReconnectStuckAfter]; and it never forces one on an open
    client. *)
Theorem watchdog_patience t a es now later opened after :
  fresh_outage t a -> Forall (not_before t) es ->
  0 < ReconnectStuckAfter (cfg a) < Int.two63 ->
  (conn_step (Tick now later opened after) (conn_run es a)).1 = true ->
  opened = false /\ t + ReconnectStuckAfter (cfg a) <= now.
Proof.
  intros Hf Hes Hr. apply fresh_outage_down in Hf. destruct (down_after_run t es a Hes Hf) as [Hd Hc].
  cbn. unfold checkAndForceReconnect. destruct opened; [done|]. unfold down_after in Hd.
  destruct (disconnectedAt (conn_run es a)) as [s|]; [|done]. cbn in Hd. rewrite Hc.
  destruct (_ <? _) eqn:Hlt; [done|]. zbool. intros _. split; [done|].
  unfold time_sub, Int.two63 in *. lia.
Qed.

(** * Witnesses *)

Definition sample_adapter : MQTTAdapter := NewMQTTAdapter (mkMQTTConfig "tcp://broker:1883" 0 0) 1000.
Definition sample_message : Message := mkMessage "GW" "stream" 4 5 [].
Definition sample_events : list event :=
  [AckArrives (Some (mkAck "" 3 "")); PublishDone None; AckArrives (Some (mkAck "other" 5 ""));
   AckArrives None; AckArrives (Some (mkAck "stream" 5 ""))].

Lemma send_outcome_witness :
  exists a', Send true sample_message sample_events sample_adapter = (Some (Ok tt), a') /\
    same_maps sample_adapter a'.
Proof.
  destruct (send_outcome sample_message sample_events sample_adapter) as [H1 H2]; try done.
  destruct (H2 (mkAck "stream" 5 "")) as [a' Ha]; [reflexivity|right; left|reflexivity|].
  exists a'. split; [exact Ha|]. by apply H1 in Ha as (_ & _ & ?).
Defined.

Definition forced_tick : conn_event := Tick 46000000001000 46000000001000 false false.

Lemma watchdog_patience_witness :
  1000 + ReconnectStuckAfter (cfg sample_adapter) <= 46000000001000.
Proof.
  apply (watchdog_patience 1000 sample_adapter [Tick 5000 5000 false false] 46000000001000
           46000000001000 false false).
  - apply outage_new.
  - repeat constructor; cbn; lia.
  - split; reflexivity.
  - reflexivity.
Defined.
