(* ===== verification/Transports.v ===== *)
(** The transports as the forwarder sees them: the HTTP adapter
    (internal/forwarder/httpadapter.go) and the MQTT adapter, as instances of
    [Adapter]; what both owe to [json.Marshal], and what follows for a queue
    whose oldest chunk holds a value JSON cannot carry. *)

From S2P Require Import Prelude Float64 GoTime Codec QueueDb QueueStore QueueFacts QueueProps.
From S2P Require Import Wire Forwarder MqttAdapter QueueSource.

Local Open Scope string_scope.
Local Open Scope list_scope.
Local Open Scope Z_scope.

(** * HTTP *)

(** The network: a POST of a body to a URL yields a status code and its text,
    or an error. *)
Class HttpWorld (W : Type) := {
  post : string -> Message -> W -> result string (Z * string) * W;
  http_now : W -> Z
}.

Record HTTPAdapter := mkHTTPAdapter { url : string }.

Definition http_Send `{HttpWorld W} (a : HTTPAdapter) (m : Message) (w : W) :
    result string unit * W :=
  match marshal m with
  | Err e => (Err ("marshal message: " +:+ e), w)
  | Ok body =>
    match post (url a) body w with
    | (Err e, w) => (Err e, w)
    | (Ok (code, text), w) =>
      if (code <? 200) || (300 <=? code) then (Err ("server returned " +:+ text), w) else (Ok tt, w)
    end
  end.

#[export] Instance http_adapter `{HttpWorld W} (a : HTTPAdapter) : Adapter W :=
  {| Forwarder.Send := http_Send a; time_now := http_now |}.

(** * MQTT *)

(** The broker: whether the client is connected, and what happens while a
    message is being sent; [Send] returns at the latest at its time-out. *)
Class MqttWorld (W : Type) := {
  mqtt_connected : W -> bool;
  mqtt_events : Message -> W -> list event * W;
  mqtt_now : W -> Z;
  mqtt_publish_timeout : string
}.

Definition mqtt_Send `{MqttWorld W} (m : Message) (w : MQTTAdapter * W) :
    result string unit * (MQTTAdapter * W) :=
  let '(a, v) := w in
  let '(evs, v') := mqtt_events m v in
  match MqttAdapter.Send (mqtt_connected v) m (evs ++ [AckTimeout; PublishTimeout mqtt_publish_timeout]) a with
  | (Some r, a) => (r, (a, v'))
  | (None, a) => (Err "", (a, v'))
  end.

#[export] Instance mqtt_adapter `{MqttWorld W} : Adapter (MQTTAdapter * W) :=
  {| Forwarder.Send := mqtt_Send; time_now := fun w => mqtt_now w.2 |}.

(** The time-outs at the end make [Send] return. *)
Lemma wait_ack_timeout after m ch evs a :
  (wait_ack m ch (evs ++ [AckTimeout; PublishTimeout after]) a).1 <> None.
Proof.
  revert a. induction evs as [|ev evs IH]; intros a; cbn [app wait_ack];
    (destruct (chans a !! ch) as [[ack|]|]; [done| |]); try done;
    by destruct ev as [p|[e|]|t| |e].
Qed.

Lemma wait_publish_timeout after m ch evs a :
  (wait_publish m ch (evs ++ [AckTimeout; PublishTimeout after]) a).1 <> None.
Proof.
  revert a. induction evs as [|ev evs IH]; intros a; cbn [app wait_publish]; [done|].
  destruct ev as [p|[e|]|t| |e]; try done. apply wait_ack_timeout.
Qed.

Lemma mqtt_Send_returns after connected m evs a :
  (MqttAdapter.Send connected m (evs ++ [AckTimeout; PublishTimeout after]) a).1 <> None.
Proof.
  unfold MqttAdapter.Send. destruct (negb connected); [done|]. destruct (marshal m); [|done].
  pose proof (wait_publish_timeout after m (next_chan a) evs (registered m a)) as Hw. unfold registered in Hw.
  by destruct (wait_publish _ _ _ _) as [[r|] a'].
Qed.

(** * Values JSON cannot carry *)

(** A transport that gives up on a message [json.Marshal] rejects. *)
Class Marshals (W : Type) `{Adapter W} := {
  refuses m w e : marshal m = Err e -> exists e' w', Forwarder.Send m w = (Err e', w')
}.

#[export] Instance http_marshals `{HttpWorld W} a : Marshals W (H := http_adapter a).
Proof. constructor. intros m w e Hm. cbn. unfold http_Send. rewrite Hm. by eexists _, _. Qed.

#[export] Instance mqtt_marshals `{MqttWorld W} : Marshals (MQTTAdapter * W).
Proof.
  constructor. intros m [a v] e Hm. cbn. destruct (mqtt_events m v) as [evs v'].
  unfold MqttAdapter.Send. rewrite Hm. destruct (negb _); by eexists _, _.
Qed.

(** A chunk with a value that is NaN or infinite. *)
Definition unsendable (c : Chunk) : Prop :=
  exists r b, r ∈ Readings c /\ Value r = Some b /\ finite b = false.

Lemma marshal_unsendable gid sid c cs :
  unsendable c -> c ∈ cs -> exists e, marshal (buildMessage gid sid cs) = Err e.
Proof.
  intros (r & b & Hr & Hv & Hb) Hc. unfold marshal.
  assert (Hin : b ∈ filter (fun b => negb (finite b)) (message_values (buildMessage gid sid cs))).
  { apply list_elem_of_filter. split; [by rewrite Hb|]. unfold message_values, buildMessage.
    cbn [m_Chunks]. apply list_elem_of_join.
    exists (omap wr_Value (wc_Readings (wire_chunk c))). split.
    - cbn [wire_chunk wc_Readings]. apply list_elem_of_omap. exists (wire_reading r).
      split; [by apply list_elem_of_fmap_2|done].
    - rewrite map_map. by apply (list_elem_of_fmap_2 (fun c => omap wr_Value (wc_Readings (wire_chunk c)))). }
  destruct (filter _ _) as [|x xs]; [by apply elem_of_nil in Hin|]. by eexists.
Qed.

Section Blocked.
Context {E St W : Type} `{SourceSpec E St, Marshals W}.

Lemma turn_blocked c rest (f : Fwd St W) :
src_ok (src f) -> held (src f) = c :: rest -> unsendable c ->
src_ok (src (run_turn f).2) /\ held (src (run_turn f).2) = held (src f).
Proof.
intros Hok Hh Hc. unfold run_turn, dispatchOnce.
destruct (src_ReadBatch _ (src f)) as [[cs|e] s1] eqn:Er;
  apply read_spec in Er as (Hok1 & Hh1 & _ & Hp); try done.
destruct cs as [|c0 cs0]; [done|]. destruct (Hp _ eq_refl) as [k Hk].
rewrite Hh in Hk. injection Hk as <- _.
destruct (marshal_unsendable (cfg_GatewayID (f_cfg f)) (src_StreamID s1) c (c :: cs0) Hc) as [e He];
  [left|].
destruct (refuses _ (world f) e He) as (e' & w' & ->). done.
Qed.

Lemma run_blocked c rest n (f : Fwd St W) :
src_ok (src f) -> held (src f) = c :: rest -> unsendable c ->
held (src (Run n f).2) = held (src f).
Proof.
revert f. induction n as [|n IH]; intros f Hok Hh Hc; [done|]. rewrite run_S. cbn [snd].
destruct (turn_blocked c rest f Hok Hh Hc) as [Hok1 Hh1]. rewrite IH; [done|done| |done].
by rewrite Hh1.
Qed.
End Blocked.

(** C28. Head-of-line blocking: once the oldest queued chunk holds a NaN or an
    infinity, no number of turns of the sending loop removes anything from the
    queue, over HTTP or MQTT, however healthy the server: JSON cannot carry the
    value, every send of that chunk fails before it leaves the gateway, and
    only eviction gets rid of it. *)
Theorem non_finite_value_blocks {E St W} `{SourceSpec E St, Marshals W} c rest n (f : Fwd St W) :
  src_ok (src f) -> held (src f) = c :: rest -> unsendable c ->
  held (src (Run n f).2) = held (src f).
Proof. apply run_blocked. Qed.

(** * Witnesses *)

#[local] Existing Instance sample_env.
#[local] Existing Instance stored_flate.

(** A server that answers every POST with 200. *)
#[local] Instance answering : HttpWorld (list Message) :=
  {| post := fun _ m w => (Ok (200, "200 OK"), w ++ [m]); http_now := fun w => Z.of_nat (length w) |}.

(** A FLOAT32 register holding a quiet NaN. *)
Definition nan_reading : Reading := mkReading 3 9 (Some 9221120237041090560) "GOOD" 0.
Definition nan_store : Store := (Flush (Append nan_reading (Open empty_db 0 sample_opts).2)).2.

#[local] Instance nan_adapter : Adapter (list Message) := http_adapter (mkHTTPAdapter "http://server/ingest").
Definition nan_fwd : Fwd Store (list Message) :=
  mkFwd nan_store [] (new_config (mkConfig "GW" 0 0)) (mkStatus false "" None None) 0.

Lemma nan_db_ok : db_ok (db nan_store).
Proof.
  split.
  - split; vm_compute; repeat constructor; discriminate.
  - repeat (apply Forall_cons; split; [vm_compute; exact I|]); by apply Forall_nil.
  - vm_compute. reflexivity.
  - vm_compute. reflexivity.
Qed.

Lemma non_finite_value_blocks_witness :
  held (src (Run 5 nan_fwd).2) = held (src nan_fwd).
Proof.
  apply (non_finite_value_blocks (mkChunk 1 [nan_reading]) [] 5 nan_fwd).
  - exact nan_db_ok.
  - vm_compute. reflexivity.
  - exists nan_reading, 9221120237041090560. split; [left|split; reflexivity].
Defined.
