(* ===== verification/ServerStore.v ===== *)
(** The reference server's store (cmd/server-demo/store.go): de-duplicating
    ingestion of messages, gaps, and per-gateway and per-datapoint state. *)

From S2P Require Import Prelude Codec Wire.

Local Open Scope string_scope.
Local Open Scope list_scope.
Local Open Scope Z_scope.

Definition maxReceived : nat := 10000.

Record reading := mkReceived {
  rd_GatewayID : string;
  rd_StreamID : string;
  rd_Seq : Z;
  rd_Wire : WireReading
}.

Abbreviation chunkKey := (string * string * Z)%type.
Abbreviation streamKey := (string * string)%type.
Abbreviation dpKey := (string * Z * Z)%type.

Record gap := mkGap {
  gp_GatewayID : string;
  gp_StreamID : string;
  gp_FromSeq : Z;
  gp_ToSeq : Z;
  gp_At : Z
}.

Record gatewayStats := mkGateway {
  gw_ID : string;
  gw_LastSeen : Z;
  gw_Messages : Z;
  gw_Readings : Z;
  gw_DuplicateChunks : Z;
  gw_Gaps : Z;
  gw_MissingChunks : Z;
  gw_Rejected : Z;
  gw_LastError : string;
  gw_Streams : gmap string Z
}.

Record datapointSeen := mkSeen {
  ds_GatewayID : string;
  ds_DeviceID : Z;
  ds_DatapointID : Z;
  ds_LastTS : string;
  ds_LastValue : option Z;
  ds_LastQuality : string
}.

(** What [writeChunks] put in the database, oldest first: a parameter of the
    server, so its contents are recorded as the calls that succeeded. *)
Record stored_chunk := mkStored { sc_key : chunkKey; sc_readings : list WireReading }.

(** [out] says whether there is a database; [written] is what it holds;
    [calls] counts the calls to it and to the clock. *)
Record store := mkStore {
  out : bool;
  written : list stored_chunk;
  calls : nat;
  seen : gset chunkKey;
  lastSeq : gmap streamKey Z;
  received : list reading;
  gateways : gmap string gatewayStats;
  datapoints : gmap dpKey datapointSeen;
  gaps : list gap
}.

Definition newStore (out : bool) : store := mkStore out [] 0 ∅ ∅ [] ∅ ∅ [].

(** The database and the clock, by call number.  An error has a text. *)
Class ServerEnv := {
  writeChunks_err : nat -> option string;
  writeChunks_text n : writeChunks_err n <> Some "";
  writeGap_err : nat -> option string;
  server_now : nat -> Z
}.

Definition set_calls (n : nat) (s : store) : store :=
  mkStore (out s) (written s) n (seen s) (lastSeq s) (received s) (gateways s) (datapoints s) (gaps s).
Definition set_written (w : list stored_chunk) (s : store) : store :=
  mkStore (out s) w (calls s) (seen s) (lastSeq s) (received s) (gateways s) (datapoints s) (gaps s).
Definition set_seen (x : gset chunkKey) (s : store) : store :=
  mkStore (out s) (written s) (calls s) x (lastSeq s) (received s) (gateways s) (datapoints s) (gaps s).
Definition set_lastSeq (x : gmap streamKey Z) (s : store) : store :=
  mkStore (out s) (written s) (calls s) (seen s) x (received s) (gateways s) (datapoints s) (gaps s).
Definition set_received (x : list reading) (s : store) : store :=
  mkStore (out s) (written s) (calls s) (seen s) (lastSeq s) x (gateways s) (datapoints s) (gaps s).
Definition set_gateways (x : gmap string gatewayStats) (s : store) : store :=
  mkStore (out s) (written s) (calls s) (seen s) (lastSeq s) (received s) x (datapoints s) (gaps s).
Definition set_datapoints (x : gmap dpKey datapointSeen) (s : store) : store :=
  mkStore (out s) (written s) (calls s) (seen s) (lastSeq s) (received s) (gateways s) x (gaps s).
Definition set_gaps (x : list gap) (s : store) : store :=
  mkStore (out s) (written s) (calls s) (seen s) (lastSeq s) (received s) (gateways s) (datapoints s) x.

(** [gw] returns a pointer into the map, so changes to it are changes there. *)
Definition gw (id : string) (s : store) : gatewayStats :=
  default (mkGateway id 0 0 0 0 0 0 0 "" ∅) (gateways s !! id).
Definition update_gw (id : string) (f : gatewayStats -> gatewayStats) (s : store) : store :=
  set_gateways (<[id := f (gw id s)]> (gateways s)) s.

Section Store.
Context `{ServerEnv}.

Definition server_tick (s : store) : store := set_calls (S (calls s)) s.

Definition noteMessage (gatewayID : string) (s : store) : store :=
let now := server_now (calls s) in
update_gw gatewayID (fun g =>
  mkGateway (gw_ID g) now (gw_Messages g + 1) (gw_Readings g) (gw_DuplicateChunks g) (gw_Gaps g)
    (gw_MissingChunks g) (gw_Rejected g) (gw_LastError g) (gw_Streams g)) (server_tick s).

Definition reject (reason : string) (g : gatewayStats) : gatewayStats :=
mkGateway (gw_ID g) (gw_LastSeen g) (gw_Messages g) (gw_Readings g) (gw_DuplicateChunks g) (gw_Gaps g)
  (gw_MissingChunks g) (gw_Rejected g + 1) reason (gw_Streams g).
Definition noteRejected (gatewayID reason : string) (s : store) : store :=
update_gw gatewayID (reject reason) s.

Definition add_duplicates (n : Z) (g : gatewayStats) : gatewayStats :=
mkGateway (gw_ID g) (gw_LastSeen g) (gw_Messages g) (gw_Readings g) (gw_DuplicateChunks g + n)
  (gw_Gaps g) (gw_MissingChunks g) (gw_Rejected g) (gw_LastError g) (gw_Streams g).
Definition count_gap (missing : Z) (g : gatewayStats) : gatewayStats :=
mkGateway (gw_ID g) (gw_LastSeen g) (gw_Messages g) (gw_Readings g) (gw_DuplicateChunks g)
  (gw_Gaps g + 1) (gw_MissingChunks g + missing) (gw_Rejected g) (gw_LastError g) (gw_Streams g).
Definition set_stream (stream : string) (q : Z) (g : gatewayStats) : gatewayStats :=
mkGateway (gw_ID g) (gw_LastSeen g) (gw_Messages g) (gw_Readings g) (gw_DuplicateChunks g)
  (gw_Gaps g) (gw_MissingChunks g) (gw_Rejected g) (gw_LastError g) (<[stream := q]> (gw_Streams g)).
Definition add_readings (n : Z) (g : gatewayStats) : gatewayStats :=
mkGateway (gw_ID g) (gw_LastSeen g) (gw_Messages g) (gw_Readings g + n) (gw_DuplicateChunks g)
  (gw_Gaps g) (gw_MissingChunks g) (gw_Rejected g) "" (gw_Streams g).

Definition chunk_key (m : Message) (c : WireChunk) : chunkKey := (m_GatewayID m, m_StreamID m, wc_Seq c).

(** The gap check of [ingest] for one fresh chunk. *)
Definition note_gap (m : Message) (q : Z) (s : store) : store :=
match lastSeq s !! (m_GatewayID m, m_StreamID m) with
| Some last =>
  if q >? last + 1 then
    let gp := mkGap (m_GatewayID m) (m_StreamID m) (last + 1) (q - 1) (server_now (calls s)) in
    let s := update_gw (m_GatewayID m) (count_gap (gp_ToSeq gp - gp_FromSeq gp + 1)) (server_tick s) in
    let s := set_gaps (take 100 (gp :: gaps s)) s in
    if out s then server_tick s else s
  else s
| None => s
end.

Definition note_seq (m : Message) (q : Z) (s : store) : store :=
let sk := (m_GatewayID m, m_StreamID m) in
if q >? default 0 (lastSeq s !! sk) then
  update_gw (m_GatewayID m) (set_stream (m_StreamID m) q) (set_lastSeq (<[sk := q]> (lastSeq s)) s)
else s.

Definition note_reading (m : Message) (q : Z) (s : store) (r : WireReading) : store :=
let s := set_received (received s ++ [mkReceived (m_GatewayID m) (m_StreamID m) q r]) s in
let k := (m_GatewayID m, wr_DeviceID r, wr_DatapointID r) in
let d := default (mkSeen (m_GatewayID m) (wr_DeviceID r) (wr_DatapointID r) "" None "")
           (datapoints s !! k) in
set_datapoints
  (<[k := if String.leb (ds_LastTS d) (wr_Timestamp r)
          then mkSeen (ds_GatewayID d) (ds_DeviceID d) (ds_DatapointID d)
                 (wr_Timestamp r) (wr_Value r) (wr_Quality r)
          else d]> (datapoints s)) s.

Definition store_chunk (m : Message) (s : store) (c : WireChunk) : store :=
let s := set_seen ({[chunk_key m c]} ∪ seen s) s in
let s := note_seq m (wc_Seq c) (note_gap m (wc_Seq c) s) in
foldl (note_reading m (wc_Seq c)) s (wc_Readings c).

(** The chunks not seen before this message. *)
Definition fresh_chunks (m : Message) (s : store) : list WireChunk :=
filter (fun c => chunk_key m c ∉ seen s) (m_Chunks m).

Definition count_readings (cs : list WireChunk) : Z :=
sumZ (fun c => Z.of_nat (length (wc_Readings c))) cs.

(** [writeChunks] on the fresh chunks, when there is a database and something
  to write. *)
Definition write_out (m : Message) (fresh : list WireChunk) (s : store) : option string * store :=
if out s && negb (bool_decide (fresh = [])) then
  match writeChunks_err (calls s) with
  | Some e => (Some e, server_tick s)
  | None =>
    (None, set_written (written s ++ map (fun c => mkStored (chunk_key m c) (wc_Readings c)) fresh)
             (server_tick s))
  end
else (None, s).

Definition ingest (m : Message) (s : store) : (Z * Z * option string) * store :=
let fresh := fresh_chunks m s in
let dups := Z.of_nat (length (m_Chunks m)) - Z.of_nat (length fresh) in
let s := update_gw (m_GatewayID m) (add_duplicates dups) s in
match write_out m fresh s with
| (Some e, s) => ((0, dups, Some e), update_gw (m_GatewayID m) (reject e) s)
| (None, s) =>
  let s := foldl (store_chunk m) s fresh in
  let accepted := count_readings fresh in
  let s := update_gw (m_GatewayID m) (add_readings accepted) s in
  let s := set_received (drop (length (received s) - maxReceived) (received s)) s in
  ((accepted, dups, None), s)
end.

(** [all]: a copy of the recent readings. *)
Definition all_received (s : store) : list reading := received s.
End Store.

(** * Facts *)

Section Facts.
Context `{ServerEnv}.

(** Everything but the counters of the gateways, the clock and the database. *)
Definition memory (s : store) :=
(seen s, lastSeq s, received s, datapoints s, gaps s).

Lemma note_gap_frame m q s :
out (note_gap m q s) = out s /\ written (note_gap m q s) = written s /\
seen (note_gap m q s) = seen s /\ lastSeq (note_gap m q s) = lastSeq s /\
received (note_gap m q s) = received s.
Proof.
unfold note_gap. destruct (lastSeq s !! _) as [last|]; [|done]. destruct (_ >? _); [|done].
cbn -[take]. destruct (out s) eqn:Eo; cbn; by rewrite ?Eo.
Qed.

Lemma note_seq_frame m q s :
out (note_seq m q s) = out s /\ written (note_seq m q s) = written s /\
seen (note_seq m q s) = seen s /\ received (note_seq m q s) = received s /\
gaps (note_seq m q s) = gaps s.
Proof. unfold note_seq. by destruct (_ >? _). Qed.

Lemma note_readings_frame m q rs s :
let s' := foldl (note_reading m q) s rs in
out s' = out s /\ written s' = written s /\ seen s' = seen s /\ lastSeq s' = lastSeq s /\
gaps s' = gaps s /\ gateways s' = gateways s /\
received s' = received s ++ map (mkReceived (m_GatewayID m) (m_StreamID m) q) rs.
Proof.
revert s. induction rs as [|r rs IH]; intros s; cbn [foldl map].
{ by rewrite app_nil_r. }
destruct (IH (note_reading m q s r)) as (-> & -> & -> & -> & -> & -> & ->).
cbn. by rewrite <- app_assoc.
Qed.

Lemma store_chunk_frame m s c :
out (store_chunk m s c) = out s /\ written (store_chunk m s c) = written s /\
seen (store_chunk m s c) = {[chunk_key m c]} ∪ seen s.
Proof.
unfold store_chunk.
destruct (note_readings_frame m (wc_Seq c) (wc_Readings c)
  (note_seq m (wc_Seq c) (note_gap m (wc_Seq c) (set_seen ({[chunk_key m c]} ∪ seen s) s))))
  as (-> & -> & -> & _).
destruct (note_seq_frame m (wc_Seq c) (note_gap m (wc_Seq c) (set_seen ({[chunk_key m c]} ∪ seen s) s)))
  as (-> & -> & -> & _).
by destruct (note_gap_frame m (wc_Seq c) (set_seen ({[chunk_key m c]} ∪ seen s) s)) as (-> & -> & -> & _).
Qed.

Lemma store_chunks_frame m cs s :
let s' := foldl (store_chunk m) s cs in
out s' = out s /\ written s' = written s /\
seen s' = list_to_set (map (chunk_key m) cs) ∪ seen s.
Proof.
revert s. induction cs as [|c cs IH]; intros s; cbn [foldl map list_to_set].
{ split_and!; try done. cbn. by rewrite union_empty_l_L. }
destruct (IH (store_chunk m s c)) as (-> & -> & ->).
destruct (store_chunk_frame m s c) as (-> & -> & ->). split_and!; try done. set_solver.
Qed.

(** ** The two outcomes of [ingest] *)

Lemma write_out_frame m cs s e s' :
write_out m cs s = (e, s') ->
out s' = out s /\ memory s' = memory s /\ gateways s' = gateways s /\
written s' = written s ++
  (if out s then match e with
                 | None => map (fun c => mkStored (chunk_key m c) (wc_Readings c)) cs
                 | Some _ => []
                 end else []).
Proof.
unfold write_out. destruct (out s) eqn:Eo; cbn [andb]; [|intros [= <- <-]; by rewrite Eo, app_nil_r].
destruct (bool_decide (cs = [])) eqn:Hn; cbn [negb].
- apply bool_decide_eq_true in Hn as ->. intros [= <- <-]. by rewrite Eo, app_nil_r.
- destruct (writeChunks_err (calls s)); intros [= <- <-]; cbn; rewrite Eo, ?app_nil_r; done.
Qed.

Lemma ingest_error m s a d e s' :
ingest m s = ((a, d, Some e), s') ->
a = 0 /\ memory s' = memory s /\ written s' = written s /\ out s' = out s /\ e <> "".
Proof.
unfold ingest. destruct (write_out m _ _) as [[e1|] s1] eqn:E; [|done].
assert (He : e1 <> "").
{ unfold write_out in E. destruct (_ && _); [|done].
  destruct (writeChunks_err _) eqn:Ew; [|done]. injection E as <- _. intros ->.
  by eapply writeChunks_text. }
apply write_out_frame in E as (Ho & Hm & _ & Hw). intros [= <- <- <- <-].
cbn. rewrite Hw, Ho. cbn [out set_gateways update_gw]. split_and!; try done.
destruct (out s); by rewrite app_nil_r.
Qed.

Lemma ingest_ok m s a d s' :
ingest m s = ((a, d, None), s') ->
a = count_readings (fresh_chunks m s) /\
d = Z.of_nat (length (m_Chunks m)) - Z.of_nat (length (fresh_chunks m s)) /\
out s' = out s /\
seen s' = list_to_set (map (chunk_key m) (fresh_chunks m s)) ∪ seen s /\
written s' = written s ++
  (if out s then map (fun c => mkStored (chunk_key m c) (wc_Readings c)) (fresh_chunks m s) else []).
Proof.
unfold ingest. destruct (write_out m _ _) as [[e1|] s1] eqn:E; [done|].
apply write_out_frame in E as (Ho & Hm & _ & Hw). intros [= <- <- <-].
destruct (store_chunks_frame m (fresh_chunks m s) s1) as (F1 & F2 & F3).
cbn [out written seen set_received set_gateways update_gw]. rewrite F1, F2, F3, Ho, Hw.
unfold memory in Hm. injection Hm as -> _ _ _ _. done.
Qed.

(** After a successful [ingest] every chunk of the message has been seen. *)
Lemma ingest_all_seen m s a d s' c :
ingest m s = ((a, d, None), s') -> c ∈ m_Chunks m -> chunk_key m c ∈ seen s'.
Proof.
intros (_ & _ & _ & -> & _)%ingest_ok Hc. apply elem_of_union.
destruct (decide (chunk_key m c ∈ seen s)) as [?|Hn]; [by right|]. left.
apply elem_of_list_to_set. apply (list_elem_of_fmap_2 (chunk_key m)).
by apply list_elem_of_filter.
Qed.

Lemma fresh_nil m s : (forall c, c ∈ m_Chunks m -> chunk_key m c ∈ seen s) -> fresh_chunks m s = [].
Proof.
intros Hs. unfold fresh_chunks. apply filter_none. apply Forall_forall. intros c Hc Hn.
by apply Hn, Hs.
Qed.

(** ** The database holds each chunk once *)

Record store_ok (s : store) : Prop := {
so_seen : out s = true -> forall k, k ∈ seen s <-> k ∈ map sc_key (written s);
so_once : NoDup (map sc_key (written s))
}.

(** The seqs of a message are distinct, as the gateway builds it. *)
Definition distinct_seqs (m : Message) : Prop := NoDup (map wc_Seq (m_Chunks m)).

Lemma fresh_keys_NoDup m s : distinct_seqs m -> NoDup (map (chunk_key m) (fresh_chunks m s)).
Proof.
unfold distinct_seqs, fresh_chunks. induction (m_Chunks m) as [|c cs IH]; [constructor|].
cbn [map]. intros [Hc Hn]%NoDup_cons. rewrite filter_cons. destruct (decide _); [|by apply IH].
cbn [map]. apply NoDup_cons. split; [|by apply IH]. intros Hin. apply Hc.
apply list_elem_of_fmap in Hin as (x & Hx & Hin). apply list_elem_of_filter in Hin as [_ Hin].
injection Hx as ->. by apply list_elem_of_fmap_2.
Qed.

Lemma store_ok_ingest m s r s' :
distinct_seqs m -> store_ok s -> ingest m s = (r, s') -> store_ok s'.
Proof.
intros Hd [Hs Hn] Hi. destruct r as [[a d] [e|]].
- apply ingest_error in Hi as (_ & Hm & Hw & Ho & _). unfold memory in Hm. injection Hm as Hm _ _ _ _.
  split; by rewrite ?Ho, ?Hm, ?Hw.
- apply ingest_ok in Hi as (_ & _ & Ho & Hseen & Hw). split.
  + intros Ho' k. rewrite Ho in Ho'. rewrite Hseen, Hw, Ho', map_app, map_map.
    rewrite elem_of_app, elem_of_union, elem_of_list_to_set, (Hs Ho' k). cbn [sc_key].
    change (map (fun x => chunk_key m x)) with (map (chunk_key m)). tauto.
  + rewrite Hw. destruct (out s) eqn:Ho'; [|by rewrite app_nil_r].
    rewrite map_app, map_map. cbn [sc_key]. apply NoDup_app. split_and!; [done| |by apply fresh_keys_NoDup].
    intros k Hk Hf. apply Hs in Hk; [|done]. apply list_elem_of_fmap in Hf as (c & -> & Hc).
    by apply list_elem_of_filter in Hc as [? _].
Qed.

Lemma store_ok_new o : store_ok (newStore o).
Proof. split; [|constructor]. intros _ k. cbn. split; intros Hk; [set_solver|by apply elem_of_nil in Hk]. Qed.
End Facts.

Section Gaps.
Context `{ServerEnv}.

Lemma gw_update id f s : gw id (update_gw id f s) = f (gw id s).
Proof. unfold gw, update_gw. cbn. by rewrite lookup_insert_eq. Qed.

(** One chunk above the last seq of its stream. *)
Lemma store_chunk_next m s c last :
lastSeq s !! (m_GatewayID m, m_StreamID m) = Some last -> last < wc_Seq c ->
lastSeq (store_chunk m s c) !! (m_GatewayID m, m_StreamID m) = Some (wc_Seq c) /\
gw_MissingChunks (gw (m_GatewayID m) (store_chunk m s c)) =
  gw_MissingChunks (gw (m_GatewayID m) s) + (wc_Seq c - last - 1).
Proof.
intros Hl Hq. unfold store_chunk. set (s1 := set_seen _ s).
destruct (note_readings_frame m (wc_Seq c) (wc_Readings c)
  (note_seq m (wc_Seq c) (note_gap m (wc_Seq c) s1))) as (_ & _ & _ & HL & _ & HG & _).
unfold gw at 1. rewrite HL, HG.
destruct (note_gap_frame m (wc_Seq c) s1) as (_ & _ & _ & HL1 & _).
unfold note_seq. rewrite HL1. change (lastSeq s1) with (lastSeq s). rewrite Hl. cbn [default from_option id].
rewrite Z.gtb_ltb, (proj2 (Z.ltb_lt _ _)) by done. cbn [lastSeq update_gw set_gateways set_lastSeq gateways].
rewrite !lookup_insert_eq. split; [done|]. cbn [from_option id set_stream gw_MissingChunks].
unfold note_gap. change (lastSeq s1) with (lastSeq s). rewrite Hl, Z.gtb_ltb.
destruct (last + 1 <? wc_Seq c) eqn:Hgap; zbool.
- unfold gw. cbn -[take]. destruct (out s); cbn -[take]; rewrite lookup_insert_eq; cbn; change (gw (m_GatewayID m) (server_tick s1)) with (gw (m_GatewayID m) s); unfold gw; lia.
- unfold gw. cbn. lia.
Qed.

Lemma store_chunks_next m cs s last :
lastSeq s !! (m_GatewayID m, m_StreamID m) = Some last ->
StronglySorted Z.lt (last :: map wc_Seq cs) ->
exists q, list.last (last :: map wc_Seq cs) = Some q /\
  lastSeq (foldl (store_chunk m) s cs) !! (m_GatewayID m, m_StreamID m) = Some q /\
  gw_MissingChunks (gw (m_GatewayID m) (foldl (store_chunk m) s cs)) =
    gw_MissingChunks (gw (m_GatewayID m) s) + (q - last - Z.of_nat (length cs)).
Proof.
revert s last. induction cs as [|c cs IH]; intros s last Hl Hs; cbn [foldl map].
{ exists last. split_and!; try done. cbn. lia. }
cbn [map] in Hs. apply StronglySorted_inv in Hs as [Hs Hf]. apply Forall_inv in Hf.
destruct (store_chunk_next m s c last Hl Hf) as [Hl1 Hm1].
destruct (IH (store_chunk m s c) (wc_Seq c) Hl1 Hs) as (q & Hq & Hlq & Hmq).
exists q. split; [done|]. split; [done|]. rewrite Hmq, Hm1. cbn [length]. lia.
Qed.
End Gaps.

(** * Properties *)

(** De-duplication: delivering a stored message again stores nothing: every
    chunk is reported a duplicate, no reading is accepted, the error is nil even
    if the database is down, and the memory of the server, its gaps and its
    database are what they were. *)
Theorem ingest_idempotent `{ServerEnv} m s a d s1 :
  ingest m s = ((a, d, None), s1) ->
  (ingest m s1).1 = (0, Z.of_nat (length (m_Chunks m)), None) /\
  memory (ingest m s1).2 = memory s1 /\ written (ingest m s1).2 = written s1.
Proof.
  intros Hi.
  assert (Hrec : (length (received s1) <= maxReceived)%nat).
  { unfold ingest in Hi. destruct (write_out _ _ _) as [[]]; [done|]. injection Hi as _ _ <-.
    cbn [received set_received]. rewrite length_drop. lia. }
  assert (Hf : fresh_chunks m s1 = [])
    by (apply fresh_nil; intros c Hc; by eapply ingest_all_seen).
  unfold ingest. rewrite Hf. unfold write_out. rewrite bool_decide_true, andb_false_r by done.
  cbn [foldl length]. split; [cbn; repeat f_equal; lia|]. split; [|done].
  unfold memory. cbn [received set_received set_gateways update_gw seen lastSeq datapoints gaps].
  by rewrite (proj2 (Nat.sub_0_le _ _)), drop_0.
Qed.

(** All or nothing, and once: ingesting any message keeps the database and
    the memory of seen chunks in step, each chunk stored once; on an error
    nothing at all was stored or remembered, and on success every chunk of the
    message is. *)
Theorem ingest_exactly_once `{ServerEnv} m s a d e s' :
  distinct_seqs m -> store_ok s -> ingest m s = ((a, d, e), s') ->
  store_ok s' /\
  match e with
  | Some _ => a = 0 /\ memory s' = memory s /\ written s' = written s
  | None => forall c, c ∈ m_Chunks m -> chunk_key m c ∈ seen s' /\
              (out s = true -> chunk_key m c ∈ map sc_key (written s'))
  end.
Proof.
  intros Hd Hok Hi. pose proof (store_ok_ingest _ _ _ _ Hd Hok Hi) as Hok'. split; [done|].
  destruct e as [e|].
  - apply ingest_error in Hi as (? & ? & ? & _). done.
  - intros c Hc. pose proof (ingest_all_seen _ _ _ _ _ _ Hi Hc) as Hs. split; [done|]. intros Ho.
    apply (so_seen _ Hok'); [|done]. apply ingest_ok in Hi as (_ & _ & -> & _). done.
Qed.

(** Gap accounting: when new chunks of a stream arrive in seq order above
    the last one stored, the chunks reported missing are exactly the seqs
    skipped: last new seq minus last old seq minus the chunks received. *)
Theorem gaps_count_missing `{ServerEnv} m s a d s' last :
  ingest m s = ((a, d, None), s') ->
  lastSeq s !! (m_GatewayID m, m_StreamID m) = Some last ->
  StronglySorted Z.lt (last :: map wc_Seq (m_Chunks m)) ->
  Forall (fun c => chunk_key m c ∉ seen s) (m_Chunks m) ->
  exists q, list.last (last :: map wc_Seq (m_Chunks m)) = Some q /\
    lastSeq s' !! (m_GatewayID m, m_StreamID m) = Some q /\
    gw_MissingChunks (gw (m_GatewayID m) s') =
      gw_MissingChunks (gw (m_GatewayID m) s) + (q - last - Z.of_nat (length (m_Chunks m))).
Proof.
  intros Hi Hl Hs Hnew. assert (Hf : fresh_chunks m s = m_Chunks m) by by apply filter_all.
  unfold ingest in Hi. rewrite Hf in Hi.
  destruct (write_out m (m_Chunks m) _) as [[e|] s1] eqn:Ew; [done|].
  apply write_out_frame in Ew as (_ & Hm & Hg & _). unfold memory in Hm. injection Hm as _ Hls _ _ _.
  injection Hi as _ _ <-.
  destruct (store_chunks_next m (m_Chunks m) s1 last) as (q & Hq & Hlq & Hmq); [by rewrite Hls|done|].
  exists q. split; [done|]. cbn [lastSeq set_received update_gw set_gateways]. split; [done|].
  unfold gw at 1. cbn [gateways set_received update_gw set_gateways]. rewrite lookup_insert_eq.
  cbn [default from_option id add_readings gw_MissingChunks]. rewrite Hmq. f_equal.
  unfold gw at 1. rewrite Hg. cbn [gateways update_gw set_gateways]. by rewrite lookup_insert_eq.
Qed.

(** * Witnesses *)

#[local] Program Instance sample_server : ServerEnv :=
  {| writeChunks_err := fun _ => None; writeGap_err := fun _ => None;
     server_now := fun n => Z.of_nat n |}.
Next Obligation. done. Qed.

Definition wire_sample (q : Z) : WireChunk :=
  mkWireChunk q [mkWireReading 1 2 "2026-01-01T00:00:00.000Z" (Some 0) "GOOD"].
Definition msg_sample (qs : list Z) : Message := mkMessage "GW" "s" 0 0 (map wire_sample qs).
Definition store_sample : store := (ingest (msg_sample [1; 2]) (newStore true)).2.

Lemma store_sample_ok : store_ok store_sample.
Proof.
  apply (store_ok_ingest (msg_sample [1; 2]) (newStore true) (ingest (msg_sample [1; 2]) (newStore true)).1).
  - vm_compute. apply (bool_decide_unpack _). vm_compute. exact I.
  - apply store_ok_new.
  - apply surjective_pairing.
Qed.

Lemma ingest_idempotent_witness :
  (ingest (msg_sample [1; 2]) store_sample).1 = (0, 2, None) /\
  memory (ingest (msg_sample [1; 2]) store_sample).2 = memory store_sample /\
  written (ingest (msg_sample [1; 2]) store_sample).2 = written store_sample.
Proof.
  apply (ingest_idempotent (msg_sample [1; 2]) (newStore true) 2 0). vm_compute. reflexivity.
Defined.

Lemma ingest_exactly_once_witness :
  store_ok (ingest (msg_sample [2; 5]) store_sample).2.
Proof.
  apply (ingest_exactly_once (msg_sample [2; 5]) store_sample 1 1 None _).
  - apply (bool_decide_unpack _). vm_compute. exact I.
  - exact store_sample_ok.
  - vm_compute. reflexivity.
Defined.

Lemma gaps_count_missing_witness :
  gw_MissingChunks (gw "GW" (ingest (msg_sample [4; 7]) store_sample).2) = 0 + (7 - 2 - 2).
Proof.
  destruct (gaps_count_missing (msg_sample [4; 7]) store_sample 2 0 (ingest (msg_sample [4; 7]) store_sample).2 2)
    as (q & Hq & _ & Hm).
  - vm_compute. reflexivity.
  - vm_compute. reflexivity.
  - repeat constructor.
  - apply (bool_decide_unpack _). vm_compute. exact I.
  - injection Hq as <-. exact Hm.
Defined.
