(* ===== verification/ServerSettings.v ===== *)
(** The reference server's settings (cmd/server-demo/settings.go): validation,
    normalisation, and the store that keeps the current settings and their
    file in step. *)

From S2P Require Import Prelude GoStrings.

Local Open Scope string_scope.
Local Open Scope list_scope.
Local Open Scope Z_scope.

Definition faultNone : string := "none".
Definition faultDropAck : string := "drop_ack".
Definition faultErrorAck : string := "error_ack".
Definition faultIgnore : string := "ignore".

Record FaultSettings := mkFault { Mode : string; AckDelayMs : Z }.
Record GatewayEntry := mkEntry { ge_ID : string; ge_Name : string }.
Record DatapointName := mkName {
  dn_GatewayID : string;
  dn_DeviceID : Z;
  dn_DatapointID : Z;
  dn_Name : string;
  dn_Unit : string
}.
Record MQTTSettings := mkMQTT { BrokerURL : string; DataTopic : string }.
Record InfluxSettings := mkInflux { Bucket : string; RetentionDays : Z }.

Record Settings := mkSettings {
  Fault : FaultSettings;
  RejectUnknownGateways : bool;
  Gateways : list GatewayEntry;
  Datapoints : list DatapointName;
  MQTT : MQTTSettings;
  Influx : InfluxSettings
}.

(** [url.Parse]: scheme and host, or an error; and the file system. *)
Class SettingsEnv := {
  url_parse : string -> option (string * string);
  save_err : Settings -> option string
}.

Section Settings.
Context `{SettingsEnv}.

(** The two checks on the list of gateways, in order, with [seen] so far. *)
Fixpoint validate_gateways (seen : gset string) (gs : list GatewayEntry) : result string unit :=
match gs with
| [] => Ok tt
| g :: gs =>
  if (TrimSpace (ge_ID g) =? "")%string then Err "every gateway needs an id"
  else if decide (ge_ID g ∈ seen) then Err ("gateway " +:+ ge_ID g +:+ " is listed twice")
  else validate_gateways ({[ge_ID g]} ∪ seen) gs
end.

Definition known_mode (m : string) : bool :=
bool_decide (m ∈ [faultNone; faultDropAck; faultErrorAck; faultIgnore]).

Definition broker_ok (u : string) : bool :=
match url_parse u with
| None => false
| Some (scheme, host) => negb (host =? "")%string && negb (scheme =? "")%string
end.

Definition validate (s : Settings) : result string unit :=
if negb (known_mode (Mode (Fault s))) then
  Err "fault.mode must be one of none, drop_ack, error_ack, ignore"
else if (AckDelayMs (Fault s) <? 0) || (AckDelayMs (Fault s) >? 120000) then
  Err "fault.ack_delay_ms must be 0-120000"
else
  validate_gateways ∅ (Gateways s) ≫= fun _ =>
  if negb (BrokerURL (MQTT s) =? "")%string && negb (broker_ok (BrokerURL (MQTT s))) then
    Err ("mqtt.broker_url " +:+ BrokerURL (MQTT s) +:+ " is not a URL like tcp://host:1883")
  else if negb (HasSuffix (DataTopic (MQTT s)) "/data") then
    Err "mqtt.data_topic must end in /data (e.g. gateway/+/data)"
  else if (TrimSpace (Bucket (Influx s)) =? "")%string || HasPrefix (Bucket (Influx s)) "_" then
    Err "influx.bucket must be set and must not start with _"
  else if RetentionDays (Influx s) <? 0 then
    Err "influx.retention_days must be 0 (forever) or more"
  else Ok tt.

Definition trim_entry (g : GatewayEntry) : GatewayEntry :=
mkEntry (TrimSpace (ge_ID g)) (TrimSpace (ge_Name g)).
Definition trim_name (d : DatapointName) : DatapointName :=
mkName (dn_GatewayID d) (dn_DeviceID d) (dn_DatapointID d) (TrimSpace (dn_Name d)) (TrimSpace (dn_Unit d)).
Definition named (d : DatapointName) : Prop := dn_Name d <> "" \/ dn_Unit d <> "".
#[export] Instance named_dec d : Decision (named d).
Proof. unfold named. apply _. Defined.

Definition normalize (s : Settings) : Settings :=
let mode := TrimSpace (Mode (Fault s)) in
mkSettings
  (mkFault (if (mode =? "")%string then faultNone else mode) (AckDelayMs (Fault s)))
  (RejectUnknownGateways s)
  (map trim_entry (Gateways s))
  (filter named (map trim_name (Datapoints s)))
  (mkMQTT (TrimSpace (BrokerURL (MQTT s))) (TrimSpace (DataTopic (MQTT s))))
  (mkInflux (TrimSpace (Bucket (Influx s))) (RetentionDays (Influx s))).

(** The store: where the settings are saved ([""]: memory only), the current
  ones, and what the file holds. *)
Record settingsStore := mkSettingsStore { path : string; cur : Settings; file : option Settings }.

Definition save (s : Settings) (st : settingsStore) : result string unit * settingsStore :=
if (path st =? "")%string then (Ok tt, st)
else
  match save_err s with
  | Some e => (Err e, st)
  | None => (Ok tt, mkSettingsStore (path st) (cur st) (Some s))
  end.

Definition set (s : Settings) (st : settingsStore) : result string Settings * settingsStore :=
let s := normalize s in
match validate s with
| Err e => (Err e, st)
| Ok _ =>
  match save s st with
  | (Err e, st) => (Err e, st)
  | (Ok _, st) => (Ok s, mkSettingsStore (path st) s (file st))
  end
end.

(** What reading the file yields. *)
Inductive file_read := NotExist | ReadErr (e : string) | ParseErr (e : string) | Content (s : Settings).

Definition loadSettings (p : string) (defaults : Settings) (f : file_read) : result string settingsStore :=
let st := mkSettingsStore p defaults None in
if (p =? "")%string then Ok st
else
  match f with
  | NotExist => match save defaults st with (Ok _, st) => Ok st | (Err e, _) => Err e end
  | ReadErr e => Err e
  | ParseErr e => Err ("parse " +:+ p +:+ ": " +:+ e)
  | Content s =>
    let s := normalize s in
    match validate s with
    | Err e => Err (p +:+ ": " +:+ e)
    | Ok _ => Ok (mkSettingsStore p s (Some s))
    end
  end.

Definition gatewayName (id : string) (s : Settings) : option string :=
ge_Name <$> head (filter (fun g => ge_ID g = id) (Gateways s)).

(** * Facts *)

Lemma normalize_idem s : normalize (normalize s) = normalize s.
Proof.
unfold normalize. cbn [Fault Mode AckDelayMs RejectUnknownGateways Gateways Datapoints MQTT BrokerURL
  DataTopic Influx Bucket RetentionDays]. rewrite !TrimSpace_idem. f_equal.
- f_equal. destruct (String.eqb_spec (TrimSpace (Mode (Fault s))) "") as [_|Hn]; [vm_compute; reflexivity|].
  rewrite TrimSpace_idem. by destruct (String.eqb_spec (TrimSpace (Mode (Fault s))) "").
- rewrite map_map. apply map_ext. intros g. unfold trim_entry. cbn [ge_ID ge_Name]. by rewrite !TrimSpace_idem.
- induction (Datapoints s) as [|d ds IH]; [done|]. cbn [map].
  rewrite (filter_cons named (trim_name d)). destruct (decide (named (trim_name d))) as [Hn|]; [|done].
  assert (Ht : trim_name (trim_name d) = trim_name d)
    by (unfold trim_name; cbn [dn_GatewayID dn_DeviceID dn_DatapointID dn_Name dn_Unit]; by rewrite !TrimSpace_idem).
  cbn [map]. rewrite Ht, filter_cons, decide_True by done. by rewrite IH.
Qed.

Lemma validate_gateways_NoDup seen gs :
validate_gateways seen gs = Ok tt ->
NoDup (map ge_ID gs) /\ Forall (fun g => ge_ID g ∉ seen /\ TrimSpace (ge_ID g) <> "") gs.
Proof.
revert seen. induction gs as [|g gs IH]; intros seen; cbn [validate_gateways map]; [by repeat constructor|].
destruct (String.eqb_spec (TrimSpace (ge_ID g)) "") as [|Hne]; [done|].
destruct (decide (ge_ID g ∈ seen)) as [|Hs]; [done|]. intros [Hn Hf]%IH. split.
- apply NoDup_cons. split; [|done]. intros Hin. apply list_elem_of_fmap in Hin as (x & Hx & Hin).
  rewrite Forall_forall in Hf. destruct (Hf x Hin) as [Hno _]. apply Hno. rewrite Hx. set_solver.
- constructor; [done|]. eapply Forall_impl; [exact Hf|]. cbn. set_solver.
Qed.

(** What validated settings are known to satisfy. *)
Record settings_ok (s : Settings) : Prop := {
sk_mode : known_mode (Mode (Fault s)) = true;
sk_delay : 0 <= AckDelayMs (Fault s) <= 120000;
sk_gateways : NoDup (map ge_ID (Gateways s));
sk_ids : Forall (fun g => TrimSpace (ge_ID g) <> "") (Gateways s);
sk_broker : BrokerURL (MQTT s) = "" \/ broker_ok (BrokerURL (MQTT s)) = true;
sk_topic : HasSuffix (DataTopic (MQTT s)) "/data" = true;
sk_bucket : TrimSpace (Bucket (Influx s)) <> "" /\ HasPrefix (Bucket (Influx s)) "_" = false;
sk_retention : 0 <= RetentionDays (Influx s)
}.

Lemma validate_ok s : validate s = Ok tt -> settings_ok s.
Proof.
unfold validate. rewrite Z.gtb_ltb.
destruct (known_mode _) eqn:Em; cbn [negb]; [|done].
destruct ((AckDelayMs (Fault s) <? 0) || (120000 <? AckDelayMs (Fault s))) eqn:Ed; [done|]. destruct (validate_gateways ∅ (Gateways s)) as [[]|] eqn:Eg; [|done].
cbn [mbind result_bind]. destruct (negb _ && negb _) eqn:Eb; [done|].
destruct (HasSuffix _ _) eqn:Et; cbn [negb]; [|done].
destruct ((TrimSpace (Bucket (Influx s)) =? "")%string || HasPrefix (Bucket (Influx s)) "_") eqn:Ek; [done|].
destruct (RetentionDays (Influx s) <? 0) eqn:Er; [done|]. intros _.
  apply orb_false_iff in Ed as [Ed1 Ed2], Ek as [Ek1 Ek2]. zbool.
apply validate_gateways_NoDup in Eg as [Hn Hf].
split; try done; try lia.
- eapply Forall_impl; [exact Hf|]. by intros g [_ ?].
- apply andb_false_iff in Eb as [Eb|Eb]; apply negb_false_iff in Eb; [left|by right].
  by apply String.eqb_eq in Eb.
- split; [|exact Ek2]. by apply String.eqb_neq in Ek1.
Qed.
End Settings.

(** Saving settings: [set] either rejects them and changes nothing, or makes
    the normalised settings current and, when there is a path, writes exactly
    them to the file; what becomes current passes every check (known fault mode,
    delay in range, gateways with distinct non-blank ids, a usable broker URL
    and topic, a bucket), and normalising it again changes nothing. *)
Theorem set_settings `{SettingsEnv} s st r st' :
  set s st = (r, st') ->
  path st' = path st /\
  match r with
  | Err _ => cur st' = cur st /\ file st' = file st
  | Ok s' => s' = normalize s /\ cur st' = s' /\ normalize s' = s' /\ settings_ok s' /\
             (path st <> "" -> file st' = Some s')
  end.
Proof.
  unfold set. destruct (validate (normalize s)) as [[]|e] eqn:Ev; [|by intros [= <- <-]].
  apply validate_ok in Ev. unfold save.
  destruct (String.eqb_spec (path st) "") as [Hp|Hp].
  - intros [= <- <-]. split; [done|]. split_and!; try done. apply normalize_idem.
  - destruct (save_err (normalize s)); intros [= <- <-]; [done|].
    split; [done|]. split_and!; try done. apply normalize_idem.
Qed.

#[local] Instance sample_settings_env : SettingsEnv :=
  {| url_parse := fun _ => Some ("tcp", "host"); save_err := fun _ => None |}.
Definition sample_settings : Settings :=
  mkSettings (mkFault " none " 0) false [mkEntry " GW1 " "one"] [mkName "GW1" 1 2 " " ""]
    (mkMQTT "tcp://host:1883" "gateway/+/data") (mkInflux "gateway" 30).

Lemma set_settings_witness :
  settings_ok (normalize sample_settings).
Proof.
  destruct (set_settings sample_settings (mkSettingsStore "/data/settings.json" sample_settings None)
    (Ok (normalize sample_settings))
    (mkSettingsStore "/data/settings.json" (normalize sample_settings) (Some (normalize sample_settings))))
    as (_ & _ & _ & _ & Hok & _); [vm_compute; reflexivity|exact Hok].
Defined.
