(* ===== verification/Server.v ===== *)
(** The reference server's message handling (cmd/server-demo/server.go, mqtt.go):
    the gateway registry and the simulated faults, and the two transports. *)

From stdpp Require Import pretty.
From S2P Require Import Prelude GoStrings Codec Wire ServerStore ServerSettings.

Local Open Scope string_scope.
Local Open Scope list_scope.
Local Open Scope Z_scope.

Record server := mkServer { settings : Settings; sstore : store }.

Definition set_store (s : store) (sv : server) : server := mkServer (settings sv) s.

(** [result]: what [process] decided for one message. *)
Record verdict := mkVerdict {
  reply : bool;
  v_err : string;
  status : Z;
  accepted : Z;
  dups : Z
}.

Definition StatusOK : Z := 200.
Definition StatusForbidden : Z := 403.
Definition StatusServiceUnavailable : Z := 503.

(** [logResult]'s line. *)
Definition logResult (transport : string) (m : Message) (r : verdict) : string :=
  let head := transport +:+ " ingest: gateway=" +:+ m_GatewayID m +:+ " seq=" +:+ pretty (m_FromSeq m) +:+ "-" +:+
              pretty (m_ToSeq m) in
  let counts := " readings=" +:+ pretty (ReadingCount m) +:+ " accepted=" +:+ pretty (accepted r) +:+
                " duplicate_chunks=" +:+ pretty (dups r) in
  if negb (v_err r =? "")%string then head +:+ " rejected: " +:+ v_err r
  else if negb (reply r) then head +:+ counts +:+ " (no ack: fault mode)"
  else head +:+ counts.

Section Server.
Context `{ServerEnv}.

Definition process (m : Message) (sv : server) : verdict * server :=
let set := settings sv in
let sv := set_store (noteMessage (m_GatewayID m) (sstore sv)) sv in
if (Mode (Fault set) =? faultIgnore)%string then
  (mkVerdict false "" 0 0 0,
   set_store (noteRejected (m_GatewayID m) "simulated: message ignored" (sstore sv)) sv)
else if bool_decide (gatewayName (m_GatewayID m) set = None) && RejectUnknownGateways set then
  (mkVerdict true ("gateway " +:+ m_GatewayID m +:+ " is not registered on this server") StatusForbidden 0 0,
   set_store (noteRejected (m_GatewayID m) "gateway not registered" (sstore sv)) sv)
else if (Mode (Fault set) =? faultErrorAck)%string then
  (mkVerdict true "simulated server error" StatusServiceUnavailable 0 0,
   set_store (noteRejected (m_GatewayID m) "simulated: error ack" (sstore sv)) sv)
else
  let '((a, d, err), s) := ingest m (sstore sv) in
  let sv := set_store s sv in
  match err with
  | Some e => (mkVerdict true e StatusServiceUnavailable 0 d, sv)
  | None =>
    if (Mode (Fault set) =? faultDropAck)%string then (mkVerdict false "" 0 a d, sv)
    else (mkVerdict true "" StatusOK a d, sv)
  end.

(** [handleMQTT]; the payload is what [json.Unmarshal] makes of it. *)
Definition handleMQTT (payload : option Message) (sv : server) : option AckMsg * server :=
match payload with
| None => (None, sv)
| Some m =>
  let '(r, sv) := process m sv in
  (if reply r then Some (mkAck (m_StreamID m) (m_ToSeq m) (v_err r)) else None, sv)
end.

(** The acknowledgement's topic (mqtt.go). *)
Definition ack_topic (topic : string) : string := TrimSuffix topic "/data" +:+ "/ack".

(** What an HTTP client sees: a response, or a connection closed without one. *)
Inductive http_reply := Response (code : Z) (text : string) | Closed.

(** [handleIngest], on a connection that can be hijacked. *)
Definition handleIngest (body : result string Message) (sv : server) : http_reply * server :=
match body with
| Err e => (Response 400 ("invalid JSON: " +:+ e), sv)
| Ok m =>
  let '(r, sv) := process m sv in
  (if negb (reply r) then Closed
   else if negb (v_err r =? "")%string then Response (status r) (v_err r)
   else Response StatusOK "OK", sv)
end.

(** * Facts *)

(** Every chunk of [m] is stored. *)
Definition has_message (m : Message) (s : store) : Prop :=
forall c, c ∈ m_Chunks m -> chunk_key m c ∈ seen s.

Lemma noteMessage_frame id s :
memory (noteMessage id s) = memory s /\ written (noteMessage id s) = written s /\
out (noteMessage id s) = out s.
Proof. done. Qed.

Lemma memory_seen s s' : memory s' = memory s -> seen s' = seen s.
Proof. unfold memory. intros Hm. by injection Hm. Qed.

(** Stored: accepted and remembered; otherwise nothing changed. *)
Lemma process_cases m sv r sv' :
process m sv = (r, sv') ->
settings sv' = settings sv /\ out (sstore sv') = out (sstore sv) /\
((memory (sstore sv') = memory (sstore sv) /\ written (sstore sv') = written (sstore sv) /\
  (reply r = false \/ v_err r <> "" /\ 300 <= status r)) \/
 (has_message m (sstore sv') /\ v_err r = "" /\
  written (sstore sv') = written (sstore sv) ++
    (if out (sstore sv) then map (fun c => mkStored (chunk_key m c) (wc_Readings c))
                               (fresh_chunks m (sstore sv)) else []) /\
  seen (sstore sv') = list_to_set (map (chunk_key m) (fresh_chunks m (sstore sv))) ∪ seen (sstore sv) /\
  (reply r = true <-> Mode (Fault (settings sv)) <> faultDropAck))).
Proof.
unfold process.
destruct (_ =? faultIgnore)%string; [intros [= <- <-]; split_and!; try done; left; by auto|].
destruct (_ && _); [intros [= <- <-]; split_and!; try done; left; split_and!; try done; right; by split|].
destruct (_ =? faultErrorAck)%string; [intros [= <- <-]; split_and!; try done; left; split_and!; try done; right; by split|].
cbn [sstore set_store]. set (s0 := noteMessage (m_GatewayID m) (sstore sv)).
destruct (ingest m s0) as [[[a d] [e|]] s] eqn:Ei.
- apply ingest_error in Ei as (_ & Hm & Hw & Ho & He). intros [= <- <-]. cbn.
  split_and!; try done. left. split_and!; try done. right. by split.
- pose proof Ei as Ei2. apply ingest_ok in Ei as (_ & _ & Ho & Hs & Hw).
  assert (Hall : has_message m s) by (intros c Hc; by eapply ingest_all_seen).
  destruct (String.eqb_spec (Mode (Fault (settings sv))) faultDropAck) as [Hd|Hd];
    intros [= <- <-]; cbn; (split; [done|]); (split; [done|]); right; split_and!; done.
Qed.

Lemma process_ok m sv r sv' :
distinct_seqs m -> store_ok (sstore sv) -> process m sv = (r, sv') -> store_ok (sstore sv').
Proof.
intros Hd Hok. unfold process. pose proof (noteMessage_frame (m_GatewayID m) (sstore sv)) as (Hm & Hw & Ho).
assert (Hok0 : store_ok (noteMessage (m_GatewayID m) (sstore sv))).
{ destruct Hok as [H1 H2]. split; rewrite ?Ho, ?Hw, ?(memory_seen _ _ Hm); done. }
assert (Hrej : forall reason, store_ok (noteRejected (m_GatewayID m) reason
                               (noteMessage (m_GatewayID m) (sstore sv))))
  by (intros reason; destruct Hok0 as [H1 H2]; by split).
destruct (_ =? faultIgnore)%string; [intros [= <- <-]; apply Hrej|].
destruct (_ && _); [intros [= <- <-]; apply Hrej|].
destruct (_ =? faultErrorAck)%string; [intros [= <- <-]; apply Hrej|].
cbn [sstore set_store]. destruct (ingest m _) as [[[a d] e] s] eqn:Ei.
apply store_ok_ingest in Ei; [|done..].
destruct e; [by intros [= <- <-]|]. by destruct (_ =? faultDropAck)%string; intros [= <- <-].
Qed.
End Server.

(** * Properties *)

(** An acknowledgement means stored: the server acknowledges a message
    without an error, over MQTT or with a 2xx over HTTP, only when every chunk
    of it is stored, and the acknowledgement names that message; with an error,
    or without a reply in any mode but [drop_ack], nothing was stored or
    remembered. *)
Theorem ack_means_stored `{ServerEnv} m sv :
  let '(ack, sv1) := handleMQTT (Some m) sv in
  let '(resp, sv2) := handleIngest (Ok m) sv in
  let unchanged := memory (sstore sv1) = memory (sstore sv) /\ written (sstore sv1) = written (sstore sv) in
  sv2 = sv1 /\
  match ack with
  | Some a => a_StreamID a = m_StreamID m /\ a_ToSeq a = m_ToSeq m /\
      (a_Error a = "" -> has_message m (sstore sv1)) /\ (a_Error a <> "" -> unchanged)
  | None => Mode (Fault (settings sv)) = faultDropAck /\ has_message m (sstore sv1) \/ unchanged
  end /\
  match resp with
  | Response code _ => (200 <= code < 300 -> has_message m (sstore sv1)) /\
                       (300 <= code -> unchanged)
  | Closed => Mode (Fault (settings sv)) = faultDropAck /\ has_message m (sstore sv1) \/ unchanged
  end.
Proof.
  unfold handleMQTT, handleIngest. destruct (process m sv) as [r sv'] eqn:Ep.
  apply process_cases in Ep as (_ & _ & [(Hm & Hw & Hr)|(Hall & He & _ & _ & Hr)]).
  - destruct Hr as [Hr|[Hne Hst]]; [by rewrite Hr; cbn; auto|].
    destruct (reply r); cbn [negb]; [|by auto].
    rewrite (proj2 (String.eqb_neq _ _) Hne). cbn [negb a_Error a_StreamID a_ToSeq].
    split_and!; try done; auto; intros; lia.
  - rewrite He. destruct (reply r) eqn:Hrep; cbn; [by split_and!|].
    assert (Hd : Mode (Fault (settings sv)) = faultDropAck).
    { destruct (decide (Mode (Fault (settings sv)) = faultDropAck)) as [|Hd]; [done|].
      by apply Hr in Hd. }
    by auto.
Qed.
