(* ===== verification/Pipeline.v ===== *)
(** End to end: the gateway's queue, the forwarder and the HTTP transport
    against the reference server, over a network that loses requests and
    responses.  Whatever is lost, each chunk the gateway lets go of is in the
    server's database exactly once, with its readings. *)

From S2P Require Import Prelude Float64 GoTime Codec QueueDb QueueStore QueueFacts QueueProps.
From S2P Require Import Wire Forwarder MqttAdapter QueueSource Transports ServerStore ServerSettings Server.

Local Open Scope string_scope.
Local Open Scope list_scope.
Local Open Scope Z_scope.

(** What the network does with one request, by number. *)
Inductive fate := Delivered | RequestLost | ResponseLost.
Class Network := { net : nat -> fate; net_now : nat -> Z }.

(** The far end; [log] records the messages the server stored. *)
Record World := mkWorld { srv : server; requests : nat; log : list Message }.

Section Pipeline.
Context `{ServerEnv, Network}.

(** One POST to the server's /ingest. *)
Definition post_ingest (m : Message) (w : World) : result string (Z * string) * World :=
match net (requests w) with
| RequestLost => (Err "connection refused", mkWorld (srv w) (S (requests w)) (log w))
| f =>
  let '(resp, sv) := handleIngest (Ok m) (srv w) in
  let stored := bool_decide (Forall (fun c => chunk_key m c ∈ seen (sstore sv)) (m_Chunks m)) in
  let w := mkWorld sv (S (requests w)) (if stored then log w ++ [m] else log w) in
  match f, resp with
  | ResponseLost, _ | _, Closed => (Err "EOF", w)
  | _, Response code text => (Ok (code, text), w)
  end
end.

#[export] Instance server_world : HttpWorld World :=
{| post := fun _ m w => post_ingest m w; http_now := fun w => net_now (requests w) |}.

Definition gateway_adapter : HTTPAdapter := mkHTTPAdapter "http://server:9000/ingest".
#[export] Instance pipeline_adapter : Adapter World := http_adapter gateway_adapter.

(** ** A message reported sent was stored *)

Lemma handleIngest_stored m sv resp sv' :
handleIngest (Ok m) sv = (resp, sv') ->
(exists code text, resp = Response code text /\ 200 <= code < 300) -> has_message m (sstore sv').
Proof.
unfold handleIngest. destruct (process m sv) as [r sv1] eqn:Ep.
apply process_cases in Ep as (_ & _ & [(_ & _ & Hr)|(Hall & _)]); [|by intros [= _ <-]].
intros [= <- _] (code & text & Hresp & Hcode). exfalso.
destruct (reply r) eqn:Erep; cbn [negb] in Hresp; [|done].
destruct Hr as [?|[Hne Hst]]; [done|]. rewrite (proj2 (String.eqb_neq _ _) Hne) in Hresp. cbn in Hresp.
injection Hresp as <- _. lia.
Qed.

Lemma has_message_Forall m s :
has_message m s <-> Forall (fun c => chunk_key m c ∈ seen s) (m_Chunks m).
Proof. unfold has_message. by rewrite Forall_forall. Qed.

Lemma post_received m w r w' :
post_ingest m w = (r, w') ->
log w ⊆ log w' /\
forall code text, r = Ok (code, text) -> 200 <= code < 300 -> m ∈ log w'.
Proof.
unfold post_ingest. destruct (net (requests w)); [| |];
  try (intros [= <- <-]; split; [done|by intros]);
  destruct (handleIngest (Ok m) (srv w)) as [resp sv] eqn:Eh.
- set (l := if bool_decide _ then _ else _).
  assert (Hl : log w ⊆ l) by (unfold l; destruct (bool_decide _); set_solver).
  destruct resp as [code text|]; intros [= <- <-]; (split; [done|]); [|by intros].
  intros code' text' [= <- <-] Hcode. cbn [log]. unfold l. rewrite bool_decide_true; [set_solver|].
  apply has_message_Forall. eapply handleIngest_stored; [exact Eh|eauto].
- set (l := if bool_decide _ then _ else _). intros [= <- <-]. split; [|by intros].
  cbn [log]. unfold l. destruct (bool_decide _); set_solver.
Qed.

#[export] Program Instance pipeline_spec : AdapterSpec World := {| Forwarder.received := log |}.
Next Obligation.
intros m w r w'. cbn. unfold http_Send. destruct (marshal m) as [b|e] eqn:Em; [|by intros [= <- <-]].
unfold post. cbn. destruct (post_ingest b w) as [[[code text]|e] w1] eqn:Ep;
  apply post_received in Ep as [Hl _]; [destruct (_ || _)|]; by intros [= <- <-].
Qed.
Next Obligation.
intros m w w'. cbn. unfold http_Send. destruct (marshal m) as [b|e] eqn:Em; [|done].
apply marshal_ok in Em as ->.
unfold post. cbn. destruct (post_ingest m w) as [[[code text]|e] w1] eqn:Ep; [|done].
apply post_received in Ep as [_ Hin]. destruct ((code <? 200) || (300 <=? code)) eqn:Ec; [done|].
apply orb_false_iff in Ec as [E1 E2]. zbool. intros [= <-]. eapply Hin; [done|lia].
Qed.

(** ** What the server holds of a gateway *)

Definition chunk_of (gid sid : string) (c : Chunk) : stored_chunk :=
mkStored (gid, sid, Seq c) (map wire_reading (Readings c)).

(** The database is consistent, everything logged is in it, and what it holds
  of stream [(gid, sid)] are chunks of [all], as they are. *)
Record world_ok (gid sid : string) (all : list Chunk) (w : World) : Prop := {
wo_store : store_ok (sstore (srv w));
wo_out : out (sstore (srv w)) = true;
wo_log : Forall (fun m => has_message m (sstore (srv w))) (log w);
wo_ids : Forall (fun m => m_GatewayID m = gid /\ m_StreamID m = sid) (log w);
wo_own : forall x, x ∈ written (sstore (srv w)) -> (sc_key x).1 = (gid, sid) ->
  exists c, c ∈ all /\ x = chunk_of gid sid c
}.

Lemma build_distinct gid sid cs :
StronglySorted (fun a b => Seq a < Seq b) cs -> distinct_seqs (buildMessage gid sid cs).
Proof.
unfold distinct_seqs, buildMessage. cbn [m_Chunks]. rewrite map_map. cbn [wire_chunk wc_Seq].
induction 1 as [|c cs _ IH Hc]; [constructor|]. cbn [map]. apply NoDup_cons. split; [|done].
intros Hin. apply list_elem_of_fmap in Hin as (x & Hx & Hin). rewrite Forall_forall in Hc.
specialize (Hc x Hin). cbn in Hc. lia.
Qed.

Lemma process_grows m sv r sv' :
process m sv = (r, sv') -> seen (sstore sv) ⊆ seen (sstore sv').
Proof.
intros (_ & _ & [(Hm & _)|(_ & _ & _ & -> & _)])%process_cases; [|set_solver].
by rewrite (memory_seen _ _ Hm).
Qed.

Lemma process_own gid sid all cs sv r sv' :
cs ⊆ all -> process (buildMessage gid sid cs) sv = (r, sv') ->
(forall x, x ∈ written (sstore sv) -> (sc_key x).1 = (gid, sid) ->
   exists c, c ∈ all /\ x = chunk_of gid sid c) ->
(forall x, x ∈ written (sstore sv') -> (sc_key x).1 = (gid, sid) ->
   exists c, c ∈ all /\ x = chunk_of gid sid c).
Proof.
intros Hcs (_ & _ & [(_ & -> & _)|(_ & _ & -> & _)])%process_cases Hown x; [by apply Hown|].
intros [Hx|Hx]%elem_of_app Hk; [by apply Hown|]. destruct (out (sstore sv)); [|by apply elem_of_nil in Hx].
apply list_elem_of_fmap in Hx as (wc & -> & Hwc). apply list_elem_of_filter in Hwc as [_ Hwc].
cbn [buildMessage m_Chunks] in Hwc. apply list_elem_of_fmap in Hwc as (c & -> & Hc).
exists c. split; [by apply Hcs|done].
Qed.

Lemma world_ok_post gid sid all cs w :
StronglySorted (fun a b => Seq a < Seq b) cs -> cs ⊆ all -> world_ok gid sid all w ->
world_ok gid sid all (post_ingest (buildMessage gid sid cs) w).2.
Proof.
intros Hs Hcs [W1 W2 W3 W5 W4]. unfold post_ingest. set (m := buildMessage gid sid cs).
destruct (net (requests w)) eqn:Hf; [|by split|].
all: unfold handleIngest; destruct (process m (srv w)) as [r sv] eqn:Ep;
  pose proof (process_grows _ _ _ _ Ep) as Hg;
  pose proof (process_own gid sid all cs _ _ _ Hcs Ep W4) as Hown;
  pose proof (process_cases _ _ _ _ Ep) as (_ & Ho & _);
  apply process_ok in Ep as Hok; [|by apply build_distinct|done];
  set (l := if bool_decide _ then _ else _);
  assert (Hl : Forall (fun m => has_message m (sstore sv)) l)
    by (unfold l; destruct (bool_decide _) eqn:Hb;
        [apply bool_decide_eq_true in Hb; apply Forall_app; split; [|constructor; [by apply has_message_Forall|constructor]]|];
        (eapply Forall_impl; [exact W3|]); intros m0 Hm0 c Hc; by apply Hg, Hm0).
all: assert (Hw : world_ok gid sid all (mkWorld sv (S (requests w)) l)) by (split; [exact Hok|cbn; congruence|exact Hl| |exact Hown]; cbn [log]; unfold l;
      destruct (bool_decide _); [apply Forall_app; split; [exact W5|by repeat constructor]|exact W5]).
all: try exact Hw; repeat case_match; simplify_eq; exact Hw.
Qed.

Lemma world_ok_send gid sid all cs w :
StronglySorted (fun a b => Seq a < Seq b) cs -> cs ⊆ all -> world_ok gid sid all w ->
world_ok gid sid all (Forwarder.Send (buildMessage gid sid cs) w).2.
Proof.
intros Hs Hcs Hw. cbn. unfold http_Send. destruct (marshal _) as [b|e] eqn:Em; [|done].
apply marshal_ok in Em as ->.
pose proof (world_ok_post gid sid all cs w Hs Hcs Hw) as Hp. unfold post. cbn.
destruct (post_ingest _ w) as [[[code text]|e] w1]; [|done]. by destruct (_ || _).
Qed.

(** A stored key of the stream is a stored chunk. *)
Lemma key_stored gid sid all w c :
world_ok gid sid all w -> StronglySorted (fun a b => Seq a < Seq b) all -> c ∈ all ->
(gid, sid, Seq c) ∈ seen (sstore (srv w)) -> chunk_of gid sid c ∈ written (sstore (srv w)).
Proof.
intros [W1 W2 W3 _ W4] Hs Hc Hk. apply (so_seen _ W1 W2) in Hk.
apply list_elem_of_fmap in Hk as (x & Hx & Hin).
destruct (W4 x Hin) as (c' & Hc' & ->); [by rewrite <- Hx|].
injection Hx as Hseq. assert (c' = c) as ->; [|done].
apply list_elem_of_split in Hc as (l & k & ->). apply StronglySorted_app in Hs as (Hl & _ & Hk).
apply StronglySorted_inv in Hk as [_ Hk]. rewrite Forall_forall in Hk.
apply elem_of_app in Hc' as [Hc'|[->|Hc']%elem_of_cons]; [|done|].
- specialize (Hl c' c Hc' ltac:(left)). cbn in Hl. lia.
- specialize (Hk c' Hc'). cbn in Hk. lia.
Qed.
End Pipeline.

Section Runs.
Context `{Env, Flate, ServerEnv, Network}.

(** A run against the server, over any network. *)
Lemma run_once n (f : Fwd Store World) gid sid :
db_ok (db (src f)) -> cfg_GatewayID (f_cfg f) = gid -> streamID (src f) = sid ->
world_ok gid sid (deliverable (src f)) (world f) ->
let f' := (Run n f).2 in
world_ok gid sid (deliverable (src f)) (world f') /\
exists gone, deliverable (src f) = gone ++ deliverable (src f') /\
  Forall (fun c => chunk_of gid sid c ∈ written (sstore (srv (world f')))) gone.
Proof.
  intros Hok Hgid Hsid Hw f'.
  assert (Hw' : world_ok gid sid (deliverable (src f)) (world f')).
  { apply (run_world (world_ok gid sid (deliverable (src f))) n f); [exact Hok| |done].
    rewrite Hgid. change (src_StreamID (src f)) with (streamID (src f)). rewrite Hsid.
    intros cs w Hs Hcs. by apply world_ok_send. }
  split; [exact Hw'|]. pose proof (run_delivers n f) as Hrun. destruct (Hrun Hok) as (_ & _ & gone & Hg & Hd). fold f' in Hg, Hd.
  exists gone. split; [done|]. apply Forall_forall. intros c Hc. rewrite Forall_forall in Hd.
  destruct (Hd c Hc) as (m & Hm & Hmc). cbn in Hm.
  pose proof (wo_log _ _ _ _ Hw') as Hlog. pose proof (wo_ids _ _ _ _ Hw') as Hids.
  rewrite Forall_forall in Hlog, Hids. destruct (Hids m Hm) as [Eg Es].
  apply (key_stored gid sid (deliverable (src f))); [done|by apply deliverable_sorted| |].
  - change (held (src f)) with (deliverable (src f)) in Hg. rewrite Hg. apply elem_of_app. by left.
  - specialize (Hlog m Hm (wire_chunk c) Hmc). unfold chunk_key in Hlog. by rewrite Eg, Es in Hlog.
Qed.
End Runs.

(** C1. Exactly once, end to end: a gateway sends its queue to a server with a
    database over a network that may lose any request or response, with any SQL
    faults on the gateway, any database failures on the server, any simulated
    fault mode, and for any number of turns.  Every chunk the gateway has let go
    of is in the server's database with exactly the readings that were queued;
    no chunk is in the database twice; and what the gateway still holds is the
    rest of its queue, in order. *)
Theorem exactly_once_delivery `{Env, Flate, ServerEnv, Network} n (f : Fwd Store World) gid sid :
  db_ok (db (src f)) -> cfg_GatewayID (f_cfg f) = gid -> streamID (src f) = sid ->
  world_ok gid sid (deliverable (src f)) (world f) ->
  let f' := (Run n f).2 in
  NoDup (map sc_key (written (sstore (srv (world f'))))) /\
  exists gone, deliverable (src f) = gone ++ deliverable (src f') /\
    Forall (fun c => chunk_of gid sid c ∈ written (sstore (srv (world f')))) gone.
Proof.
  intros Hok Hgid Hsid Hw f'. destruct (run_once n f gid sid Hok Hgid Hsid Hw) as [Hw' Hgone].
  split; [apply Hw'|exact Hgone].
Qed.

(** * Witness *)

#[local] Existing Instance sample_env.
#[local] Existing Instance stored_flate.
#[local] Existing Instance sample_server.

(** The first request and the second response are lost. *)
#[local] Instance sample_network : Network :=
  {| net := fun n => match n with 0%nat => RequestLost | 1%nat => ResponseLost | _ => Delivered end;
     net_now := fun n => Z.of_nat n |}.

Definition sample_world : World :=
  mkWorld (mkServer (normalize sample_settings) (newStore true)) 0 [].
Definition sample_gateway : Fwd Store World :=
  mkFwd sample_store sample_world (new_config (mkConfig "GW1" 2 0)) (mkStatus false "" None None) 0.

Lemma exactly_once_delivery_witness :
  NoDup (map sc_key (written (sstore (srv (world (Run 5 sample_gateway).2))))) /\
  exists gone, deliverable sample_store = gone ++ deliverable (src (Run 5 sample_gateway).2) /\
    Forall (fun c => chunk_of "GW1" "stream" c ∈ written (sstore (srv (world (Run 5 sample_gateway).2)))) gone.
Proof.
  apply (exactly_once_delivery 5 sample_gateway "GW1" "stream").
  - exact sample_db_ok.
  - reflexivity.
  - vm_compute. reflexivity.
  - split; [apply store_ok_new|done|constructor|constructor|].
    intros x Hx. by apply elem_of_nil in Hx.
Defined.

(** It is not vacuous: after five turns everything has been delivered. *)
Example sample_delivered :
  deliverable (src (Run 5 sample_gateway).2) = [] /\
  length (written (sstore (srv (world (Run 5 sample_gateway).2)))) = 2%nat.
Proof. vm_compute. by split. Qed.
