(* ===== verification/Modbus.v ===== *)
(** The Modbus package (internal/modbus): data types, byte orders and register
    decoding, the classification of errors, and reads with retries. *)

From Stdlib Require Import Ascii.
From S2P Require Import Prelude GoStrings Float64.

Local Open Scope string_scope.
Local Open Scope list_scope.
Local Open Scope Z_scope.

(** * Decoding (decode.go) *)

Definition Int16 : string := "INT16".
Definition UInt16 : string := "UINT16".
Definition Int32 : string := "INT32".
Definition UInt32 : string := "UINT32".
Definition Float32 : string := "FLOAT32".
Definition DtFloat64 : string := "FLOAT64".

Inductive modbus_error :=
| UnknownDataType (d : string)
| OrderWidth (order : string) (width : Z)
| OrderCharacter (c : ascii) (order : string)
| RawLength (want : Z) (d : string) (got : Z).

Definition ByteWidth (d : string) : result modbus_error Z :=
  if bool_decide (d ∈ [Int16; UInt16]) then Ok 2
  else if bool_decide (d ∈ [Int32; UInt32; Float32]) then Ok 4
  else if bool_decide (d = DtFloat64) then Ok 8
  else Err (UnknownDataType d).

Definition RegisterCount (d : string) : result modbus_error Z :=
  width ← ByteWidth d; mret (Int.u16 (width / 2)).

(** The loop of [reorder]: the byte named by each letter, in turn. *)
Fixpoint reorder_loop (raw : list Z) (order : string) (cs : list ascii) : result modbus_error (list Z) :=
  match cs with
  | [] => Ok []
  | c :: cs =>
    let pos := Z.of_N (N_of_ascii c) - 65 in
    match (if pos <? 0 then None else raw !! Z.to_nat pos) with
    | None => Err (OrderCharacter c order)
    | Some b => out ← reorder_loop raw order cs; mret (b :: out)
    end
  end.

Definition reorder (raw : list Z) (order : string) : result modbus_error (list Z) :=
  if (order =? "")%string then Ok raw
  else if bool_decide (length (bytes_of order) <> length raw) then
    Err (OrderWidth order (Z.of_nat (length raw)))
  else reorder_loop raw order (bytes_of order).

(** [be]: the bytes as a big-endian uint64. *)
Definition be (bs : list Z) : Z := foldl (fun v x => Int.u64 (Z.lor (Int.u64 (Z.shiftl v 8)) x)) 0 bs.

(** The value of ordered bytes of a known type. *)
Definition interpret (d : string) (ordered : list Z) : result modbus_error f64 :=
  let v := be ordered in
  if bool_decide (d = Int16) then Ok (of_Z (Int.i16 v))
  else if bool_decide (d = UInt16) then Ok (of_Z (Int.u16 v))
  else if bool_decide (d = Int32) then Ok (of_Z (Int.i32 v))
  else if bool_decide (d = UInt32) then Ok (of_Z (Int.u32 v))
  else if bool_decide (d = Float32) then Ok (of_bits32 (Int.u32 v))
  else if bool_decide (d = DtFloat64) then Ok (of_bits v)
  else Err (UnknownDataType d).

Definition Decode (raw : list Z) (d byteOrder : string) : result modbus_error f64 :=
  width ← ByteWidth d;
  if bool_decide (Z.of_nat (length raw) <> width) then Err (RawLength width d (Z.of_nat (length raw)))
  else ordered ← reorder raw byteOrder; interpret d ordered.

(** On a target that does not fuse the multiplication with the addition. *)
Definition ApplyScale (raw scale offset : f64) : f64 := fadd (fmul raw scale) offset.

(** * Errors (quality.go) *)

Definition Good : string := "GOOD".
Definition Timeout : string := "TIMEOUT".
Definition CRCError : string := "CRC_ERROR".
Definition DeviceOffline : string := "DEVICE_OFFLINE".
Definition Invalid : string := "INVALID".

(** What the classification asks of an error: a [net.Error] that timed out, a
    closed connection or a DNS error in its chain, and its text. *)
Record goerror := mkError {
  is_timeout : bool;
  is_closed : bool;
  is_dns : bool;
  text : string
}.

Definition offline_texts : list string :=
  ["connection refused"; "actively refused"; "no route to host"; "host unreachable";
   "network unreachable"; "broken pipe"; "connection reset"; "forcibly closed";
   "device or resource busy"; "no such device"; "cannot find the file specified"].

Definition QualityFromError (err : option goerror) : string :=
  match err with
  | None => Good
  | Some e =>
    if is_timeout e then Timeout
    else if is_closed e then DeviceOffline
    else if is_dns e then DeviceOffline
    else
      let msg := ToLower (text e) in
      if Contains msg "crc" then CRCError
      else if existsb (Contains msg) offline_texts then DeviceOffline
      else Invalid
  end.

(** * The client (client.go, tcp.go) *)

(** The Modbus library's four read requests. *)
Class Goburrow (C : Type) := {
  ReadCoils : Z -> Z -> C -> result goerror (list Z) * C;
  ReadDiscreteInputs : Z -> Z -> C -> result goerror (list Z) * C;
  ReadHoldingRegisters : Z -> Z -> C -> result goerror (list Z) * C;
  ReadInputRegisters : Z -> Z -> C -> result goerror (list Z) * C
}.

Definition FuncReadCoils : Z := 1.
Definition FuncReadDiscreteInputs : Z := 2.
Definition FuncReadHoldingRegisters : Z := 3.
Definition FuncReadInputRegisters : Z := 4.

Definition unsupported_function : goerror := mkError false false false "modbus: unsupported function code".

Definition readFunc `{Goburrow C} (fc address quantity : Z) (c : C) : result goerror (list Z) * C :=
  if fc =? FuncReadCoils then ReadCoils address quantity c
  else if fc =? FuncReadDiscreteInputs then ReadDiscreteInputs address quantity c
  else if fc =? FuncReadHoldingRegisters then ReadHoldingRegisters address quantity c
  else if fc =? FuncReadInputRegisters then ReadInputRegisters address quantity c
  else (Err unsupported_function, c).

(** [Client], and the context's error at a moment of the world [C]. *)
Class Client (C : Type) := {
  Connect : C -> result goerror unit * C;
  CloseConn : C -> C;
  SetUnitID : Z -> C -> C;
  Read : Z -> Z -> Z -> C -> result goerror (list Z) * C;
  ctx_err : C -> option goerror
}.

(** The loop of [ReadWithRetry], with [n] attempts left: the bytes, the number
    of attempts and the error. *)
Fixpoint retry_loop `{Client C} (fc address quantity : Z) (n : nat) (attempt : Z)
    (attempts : Z) (lastErr : option goerror) (c : C) : (list Z * Z * option goerror) * C :=
  match n with
  | O => (([], attempts, lastErr), c)
  | S n =>
    let attempts := attempt + 1 in
    let '(conn, c) := if 0 <? attempt then Connect (CloseConn c) else (@Ok goerror unit tt, c) in
    match conn with
    | Err e => retry_loop fc address quantity n (attempt + 1) attempts (Some e) c
    | Ok _ =>
      match Read fc address quantity c with
      | (Ok raw, c) => ((raw, attempts, None), c)
      | (Err e, c) =>
        match ctx_err c with
        | Some ce => (([], attempts, Some ce), c)
        | None => retry_loop fc address quantity n (attempt + 1) attempts (Some e) c
        end
      end
    end
  end.

Definition ReadWithRetry `{Client C} (fc address quantity maxRetries : Z) (c : C) :
    (list Z * Z * option goerror) * C :=
  retry_loop fc address quantity (Z.to_nat (maxRetries + 1)) 0 0 None c.

(** * Facts *)

Lemma quality_bad e : QualityFromError (Some e) <> Good.
Proof.
  unfold QualityFromError. repeat case_match; done.
Qed.

Lemma width_cases d w :
  ByteWidth d = Ok w ->
  (w = 2 /\ (d = Int16 \/ d = UInt16)) \/
  (w = 4 /\ (d = Int32 \/ d = UInt32 \/ d = Float32)) \/ (w = 8 /\ d = DtFloat64).
Proof.
  unfold ByteWidth. destruct (bool_decide (d ∈ [Int16; UInt16])) eqn:E1.
  { apply bool_decide_eq_true in E1. intros [= <-]. set_solver. }
  destruct (bool_decide (d ∈ [Int32; UInt32; Float32])) eqn:E2.
  { apply bool_decide_eq_true in E2. intros [= <-]. set_solver. }
  destruct (bool_decide (d = DtFloat64)) eqn:E3; [|done].
  apply bool_decide_eq_true in E3. intros [= <-]. by auto.
Qed.

Lemma register_count d q :
  RegisterCount d = Ok q -> exists w, ByteWidth d = Ok w /\ w = 2 * q /\ 1 <= q <= 4.
Proof.
  unfold RegisterCount. destruct (ByteWidth d) as [w|] eqn:E; res_simpl; [|done].
  intros [= <-]. exists w. split; [done|].
  destruct (width_cases _ _ E) as [[-> _]|[[-> _]|[-> _]]]; by vm_compute.
Qed.

(** A permutation order moves each byte to its slot. *)
Lemma reorder_length raw order out :
  reorder raw order = Ok out -> length out = length raw.
Proof.
  unfold reorder. destruct (order =? "")%string; [by intros [= <-]|].
  destruct (bool_decide _) eqn:El; [done|]. apply bool_decide_eq_false in El. apply dec_stable in El.
  rewrite <- El. clear El. revert out. generalize (bytes_of order) as cs.
  induction cs as [|c cs IH]; intros out; cbn [reorder_loop]; [by intros [= <-]|].
  case_match; [|done]. destruct (reorder_loop raw order cs) as [o|]; res_simpl; [|done].
  intros [= <-]. cbn. by rewrite (IH o).
Qed.

Lemma retry_attempts `{Client C} fc a q n attempt attempts last c raw k err c' :
  retry_loop fc a q n attempt attempts last c = ((raw, k, err), c') ->
  attempts <= attempt + 1 ->
  (n = O /\ k = attempts /\ err = last /\ raw = []) \/
  (attempt + 1 <= k <= attempt + Z.of_nat n /\
   match err with
   | None => exists c0 c1, Read fc a q c0 = (Ok raw, c1) /\ c' = c1
   | Some e => raw = []
   end).
Proof.
  revert attempt attempts last c. induction n as [|n IH]; intros attempt attempts last c; cbn [retry_loop].
  { intros [= <- <- <- <-] _. by left. }
  intros Hr _. right.
  destruct (if 0 <? attempt then Connect (CloseConn c) else (@Ok goerror unit tt, c)) as [[[]|e] c1].
  - destruct (Read fc a q c1) as [[raw1|e] c2] eqn:Er.
    + injection Hr as <- <- <- <-. split; [lia|]. by exists c1, c2.
    + destruct (ctx_err c2) as [ce|]; [injection Hr as <- <- <- <-; split; [lia|done]|].
      apply IH in Hr as [(-> & -> & -> & ->)|[Hk He]]; [| |lia]; (split; [lia|done]).
  - apply IH in Hr as [(-> & -> & -> & ->)|[Hk He]]; [| |lia]; (split; [lia|done]).
Qed.

(** * Properties *)

(** Retries are bounded and honest: with a non-negative limit,
    [ReadWithRetry] makes between one and [maxRetries + 1] attempts; without an
    error its bytes are those of the last request, which succeeded, and with an
    error it returns no bytes. *)
Theorem read_with_retry_outcome `{Client C} fc a q maxRetries c raw k err c' :
  0 <= maxRetries -> ReadWithRetry fc a q maxRetries c = ((raw, k, err), c') ->
  1 <= k <= maxRetries + 1 /\
  match err with
  | None => exists c0, Read fc a q c0 = (Ok raw, c')
  | Some e => raw = [] /\ QualityFromError err <> Good
  end.
Proof.
  intros Hm Hr. apply retry_attempts in Hr as [(Hn & _)|[Hk He]]; [lia| |lia].
  split; [lia|]. destruct err as [e|].
  - split; [done|apply quality_bad].
  - destruct He as (c0 & c1 & Hc0 & ->). by exists c0.
Qed.

(** A client that fails once, then answers. *)
#[local] Instance flaky : Client nat :=
  {| Connect := fun c => (Ok tt, c); CloseConn := fun c => c; SetUnitID := fun _ c => c;
     Read := fun _ _ _ c =>
       (match c with O => Err (mkError true false false "timeout") | _ => Ok [0; 7] end, S c);
     ctx_err := fun _ => None |}.

Lemma read_with_retry_outcome_witness :
  1 <= 2 <= 3 /\ exists c0, Read 3 0 1 c0 = (Ok [0; 7], 2%nat).
Proof. apply (read_with_retry_outcome 3 0 1 2 0%nat [0; 7] 2 None 2%nat); [lia|reflexivity]. Defined.
