(* ===== verification/Inventory.v ===== *)
(** The gateway's configuration (internal/connection, internal/device and
    internal/datapoint): the three models with their validation, the tables of
    gateway.db they are stored in (migrations/), and the repositories,
    statement by statement.

    A statement may fail, by its number, and a failed one changes nothing.
    Tables are in primary-key order, as [ORDER BY id] returns them. *)

From S2P Require Import Prelude Float64 GoStrings.
From Corelib Require Import SpecFloat.
From S2P Require Import Modbus.

Local Open Scope string_scope.
Local Open Scope list_scope.
Local Open Scope Z_scope.

(** * The models *)

Definition RTU : string := "RTU".
Definition TCP : string := "TCP".

Record Connection := mkConnection {
  c_ID : Z;
  c_Name : string;
  Protocol : string;
  Interface : string;
  IPAddress : string;
  Port : Z;
  TimeoutMs : Z;
  c_Retry : Z;
  c_Enabled : bool;
  NextDeviceDelayMs : Z;
  BaudRate : Z;
  DataBits : Z;
  Parity : string;
  StopBits : Z
}.

Record Device := mkDevice {
  d_ID : Z;
  d_Name : string;
  ConnectionID : Z;
  SlaveID : Z;
  d_Enabled : bool
}.

Record DataPoint := mkDataPoint {
  dp_ID : Z;
  dp_DeviceID : Z;
  TagName : string;
  FunctionCode : Z;
  RegisterAddress : Z;
  DataType : string;
  ByteOrder : string;
  WordOrder : string;
  Scale : f64;
  Offset : f64;
  Unit : string;
  dp_Enabled : bool
}.

#[export] Instance Connection_eq_dec : EqDecision Connection.
Proof. solve_decision. Defined.
#[export] Instance Device_eq_dec : EqDecision Device.
Proof. solve_decision. Defined.
#[export] Instance f64_eq_dec : EqDecision f64.
Proof. solve_decision. Defined.
#[export] Instance DataPoint_eq_dec : EqDecision DataPoint.
Proof. solve_decision. Defined.

(** * Validation *)

Inductive invalid :=
| Required (message : string)
| DataTypeInvalid (e : modbus_error).

Definition require (ok : bool) (message : string) : result invalid unit :=
  if ok then Ok tt else Err (Required message).

Definition validate_connection (c : Connection) : result invalid unit :=
  require (negb (c_Name c =? "")%string) "name is required";;
  (if (Protocol c =? TCP)%string then
     require (negb (IPAddress c =? "")%string) "ip_address is required for TCP connections";;
     require (negb ((Port c <=? 0) || (65535 <? Port c))) "port must be between 1 and 65535"
   else if (Protocol c =? RTU)%string then
     require (negb (Interface c =? "")%string) "interface is required for RTU connections";;
     require (negb (BaudRate c <=? 0)) "baud_rate must be positive";;
     require (bool_decide (Parity c ∈ ["N"; "E"; "O"])) "parity must be one of N, E, O"
   else Err (Required "protocol must be RTU or TCP"));;
  require (negb (TimeoutMs c <=? 0)) "timeout_ms must be positive";;
  require (negb (c_Retry c <? 0)) "retry must not be negative";;
  require (negb (NextDeviceDelayMs c <? 0)) "next_device_delay_ms must not be negative".

Definition validate_device (d : Device) : result invalid unit :=
  require (negb (d_Name d =? "")%string) "name is required";;
  require (negb (ConnectionID d <=? 0)) "connection_id is required";;
  require (negb ((SlaveID d <? 1) || (247 <? SlaveID d))) "slave_id must be between 1 and 247".

Definition validate_datapoint (dp : DataPoint) : result invalid unit :=
  require (negb (TagName dp =? "")%string) "tag_name is required";;
  require (bool_decide (FunctionCode dp ∈ [1; 2; 3; 4])) "function_code must be one of 1, 2, 3, 4";;
  map_err DataTypeInvalid (ByteWidth (DataType dp));;
  require (negb (feq (Scale dp) (of_Z 0))) "scale must not be zero".

(** * gateway.db *)

(** The rows, with the columns that may be NULL; [updated_at] and
    [created_at] are never read. *)
Record ConnRow := mkConnRow {
  cr_id : Z;
  cr_name : string;
  cr_protocol : string;
  cr_interface : option string;
  cr_ip_address : option string;
  cr_port : option Z;
  cr_timeout_ms : Z;
  cr_retry : Z;
  cr_enabled : Z;
  cr_next_device_delay_ms : Z;
  cr_baud_rate : Z;
  cr_data_bits : Z;
  cr_parity : string;
  cr_stop_bits : Z
}.

Record DevRow := mkDevRow {
  dr_id : Z;
  dr_name : string;
  dr_connection_id : Z;
  dr_slave_id : option Z;
  dr_enabled : Z
}.

Record DpRow := mkDpRow {
  pr_id : Z;
  pr_device_id : Z;
  pr_tag_name : string;
  pr_function_code : Z;
  pr_register_address : Z;
  pr_data_type : string;
  pr_byte_order : string;
  pr_word_order : string;
  pr_scale : f64;
  pr_offset : f64;
  pr_unit : option string;
  pr_enabled : Z
}.

(** [hi_connection] and [hi_datapoint] are the AUTOINCREMENT marks; table
    [device] has none since migration 0004. *)
Record Tables := mkTables {
  t_connection : list ConnRow;
  hi_connection : Z;
  t_device : list DevRow;
  t_datapoint : list DpRow;
  hi_datapoint : Z
}.

Definition empty_tables : Tables := mkTables [] 0 [] [] 0.

(** The repositories' state: the tables and the number of statements run. *)
Record Inv := mkInv { tables : Tables; stmts : nat }.

Inductive repo_error :=
| RepoSql
| Constraint
| ScanRange
| ConnectionNotFound
| DeviceNotFound
| DatapointNotFound
| ErrInUse.

#[export] Instance repo_error_eq_dec : EqDecision repo_error.
Proof. solve_decision. Defined.

Class InvEnv := { inv_fault : nat -> bool }.

Definition nullable (s : string) : option string := if (s =? "")%string then None else Some s.
Definition null_string (v : option string) : string := default "" v.
Definition boolToInt (b : bool) : Z := if b then 1 else 0.



(** The tables' constraints: [CHECK (protocol IN ...)], the foreign keys, and
    [NOT NULL] columns (SQLite stores a NaN as NULL). *)
Definition connection_ok (c : Connection) : bool := bool_decide (Protocol c ∈ [RTU; TCP]).
Definition device_ok (t : Tables) (d : Device) : bool :=
  existsb (fun r => cr_id r =? ConnectionID d) (t_connection t).
Definition parent_device (t : Tables) (id : Z) : bool := existsb (fun r => dr_id r =? id) (t_device t).
Definition datapoint_ok (dp : DataPoint) : bool := negb (bool_decide (Scale dp = S754_nan) || bool_decide (Offset dp = S754_nan)).

(** What [INSERT] and [UPDATE] write, and what [Scan] reads back. *)
Definition conn_row (id : Z) (c : Connection) : ConnRow :=
  mkConnRow id (c_Name c) (Protocol c) (nullable (Interface c)) (nullable (IPAddress c)) (Some (Port c))
    (TimeoutMs c) (c_Retry c) (boolToInt (c_Enabled c)) (NextDeviceDelayMs c) (BaudRate c) (DataBits c)
    (Parity c) (StopBits c).

Definition scanConnection (r : ConnRow) : result repo_error Connection :=
  Ok (mkConnection (cr_id r) (cr_name r) (cr_protocol r) (null_string (cr_interface r))
        (null_string (cr_ip_address r)) (default 0 (cr_port r)) (cr_timeout_ms r) (cr_retry r)
        (negb (cr_enabled r =? 0)) (cr_next_device_delay_ms r) (cr_baud_rate r) (cr_data_bits r)
        (cr_parity r) (cr_stop_bits r)).

Definition dev_row (id : Z) (d : Device) : DevRow :=
  mkDevRow id (d_Name d) (ConnectionID d) (Some (SlaveID d)) (boolToInt (d_Enabled d)).

Definition scanDevice (r : DevRow) : result repo_error Device :=
  Ok (mkDevice (dr_id r) (dr_name r) (dr_connection_id r) (default 0 (dr_slave_id r))
        (negb (dr_enabled r =? 0))).

Definition dp_row (id device : Z) (dp : DataPoint) : DpRow :=
  mkDpRow id device (TagName dp) (FunctionCode dp) (RegisterAddress dp) (DataType dp) (ByteOrder dp)
    (WordOrder dp) (Scale dp) (Offset dp) (nullable (Unit dp)) (boolToInt (dp_Enabled dp)).

(** [Scan] into a uint8 and a uint16 fails on a value out of range. *)
Definition scanDataPoint (r : DpRow) : result repo_error DataPoint :=
  if (0 <=? pr_function_code r) && (pr_function_code r <? 256) &&
     (0 <=? pr_register_address r) && (pr_register_address r <? 65536) then
    Ok (mkDataPoint (pr_id r) (pr_device_id r) (pr_tag_name r) (pr_function_code r)
          (pr_register_address r) (pr_data_type r) (pr_byte_order r) (pr_word_order r) (pr_scale r)
          (pr_offset r) (null_string (pr_unit r)) (negb (pr_enabled r =? 0)))
  else Err ScanRange.

Definition set_connections (rows : list ConnRow) (hi : Z) (t : Tables) : Tables :=
  mkTables rows hi (t_device t) (t_datapoint t) (hi_datapoint t).
Definition set_devices (rows : list DevRow) (t : Tables) : Tables :=
  mkTables (t_connection t) (hi_connection t) rows (t_datapoint t) (hi_datapoint t).
Definition set_datapoints (rows : list DpRow) (hi : Z) (t : Tables) : Tables :=
  mkTables (t_connection t) (hi_connection t) (t_device t) rows hi.

(** [UPDATE ... WHERE id = ?]. *)
Definition update_row {R} (key : R -> Z) (id : Z) (r' : R -> R) (rows : list R) : list R :=
  map (fun r => if key r =? id then r' r else r) rows.
Definition delete_row {R} (key : R -> Z) (id : Z) (rows : list R) : list R :=
  filter (fun r => key r <> id) rows.
Definition affected {R} (key : R -> Z) (id : Z) (rows : list R) : list R :=
  filter (fun r => key r = id) rows.

Section Repositories.
Context `{InvEnv}.

Abbreviation R := (M repo_error Inv).

(** Run one statement on the tables: a fault, a violated constraint, or its
    result. *)
Definition statement {A} (f : Tables -> result repo_error (A * Tables)) : R A :=
fun s =>
  let s1 := mkInv (tables s) (S (stmts s)) in
  if inv_fault (stmts s) then (Err RepoSql, s1)
  else match f (tables s) with
       | Ok (a, t) => (Ok a, mkInv t (S (stmts s)))
       | Err e => (Err e, s1)
       end.

Definition select {A} (f : Tables -> A) : R A := statement (fun t => Ok (f t, t)).
Definition lift {A} (r : result repo_error A) : R A := fun s => (r, s).

(** [checkRowsAffected]. *)
Definition checkRowsAffected {A} (notFound : repo_error) (rows : list A) : R unit :=
match rows with [] => fail notFound | _ => mret tt end.

(** [QueryRowContext(...).Scan(...)]: [sql.ErrNoRows] becomes [ErrNotFound]. *)
Definition get_one {A B} (notFound : repo_error) (scan : A -> result repo_error B) (rows : list A) : R B :=
match rows with [] => fail notFound | r :: _ => lift (scan r) end.

(** ** Connections *)

Fixpoint scan_all {A B} (scan : A -> result repo_error B) (rows : list A) : result repo_error (list B) :=
match rows with
| [] => Ok []
| r :: rows => x ← scan r; xs ← scan_all scan rows; mret (x :: xs)
end.

(** [query]: the rows one after the other; the first that does not scan ends it. *)
Definition connection_query (f : Tables -> list ConnRow) : R (list Connection) :=
rows ← select f; lift (scan_all scanConnection rows).
Definition connection_List : R (list Connection) := connection_query t_connection.
Definition connection_ListEnabled : R (list Connection) :=
connection_query (fun t => filter (fun r => cr_enabled r = 1) (t_connection t)).
Definition connection_Get (id : Z) : R Connection :=
rows ← select (fun t => affected cr_id id (t_connection t));
get_one ConnectionNotFound scanConnection rows.

Definition connection_Create (c : Connection) : R Z :=
statement (fun t =>
  if connection_ok c then
    let id := hi_connection t + 1 in
    Ok (id, set_connections (t_connection t ++ [conn_row id c]) id t)
  else Err Constraint).

Definition connection_Update (id : Z) (c : Connection) : R unit :=
rows ← statement (fun t =>
  let rows := affected cr_id id (t_connection t) in
  if bool_decide (rows <> []) && negb (connection_ok c) then Err Constraint
  else Ok (rows, set_connections (update_row cr_id id (fun _ => conn_row id c) (t_connection t))
                   (hi_connection t) t));
checkRowsAffected ConnectionNotFound rows.

Definition devices_on (id : Z) (t : Tables) : list DevRow :=
filter (fun r => dr_connection_id r = id) (t_device t).

Definition connection_Delete (id : Z) : R unit :=
inUse ← select (fun t => Z.of_nat (length (devices_on id t)));
if 0 <? inUse then fail ErrInUse
else
  rows ← statement (fun t =>
    let rows := affected cr_id id (t_connection t) in
    if bool_decide (rows <> []) && bool_decide (devices_on id t <> []) then Err Constraint
    else Ok (rows, set_connections (delete_row cr_id id (t_connection t)) (hi_connection t) t));
  checkRowsAffected ConnectionNotFound rows.

(** ** Devices *)

Definition device_query (f : Tables -> list DevRow) : R (list Device) :=
rows ← select f; lift (scan_all scanDevice rows).
Definition device_List : R (list Device) := device_query t_device.
Definition device_ListEnabled : R (list Device) :=
device_query (fun t => filter (fun r => dr_enabled r = 1) (t_device t)).
Definition device_Count : R (Z * Z) :=
select (fun t => (Z.of_nat (length (t_device t)),
                  Z.of_nat (length (filter (fun r => dr_enabled r = 1) (t_device t))))).
Definition device_Get (id : Z) : R Device :=
rows ← select (fun t => affected dr_id id (t_device t));
get_one DeviceNotFound scanDevice rows.

(** An [INTEGER PRIMARY KEY] without AUTOINCREMENT: one past the largest id. *)
Definition max_id (rows : list DevRow) : Z := foldr Z.max 0 (map dr_id rows).

Definition device_Create (d : Device) : R Z :=
statement (fun t =>
  if device_ok t d then
    let id := max_id (t_device t) + 1 in
    Ok (id, set_devices (t_device t ++ [dev_row id d]) t)
  else Err Constraint).

Definition device_Update (id : Z) (d : Device) : R unit :=
rows ← statement (fun t =>
  let rows := affected dr_id id (t_device t) in
  if bool_decide (rows <> []) && negb (device_ok t d) then Err Constraint
  else Ok (rows, set_devices (update_row dr_id id (fun _ => dev_row id d) (t_device t)) t));
checkRowsAffected DeviceNotFound rows.

(** The foreign key of [datapoint] is [ON DELETE CASCADE]. *)
Definition device_Delete (id : Z) : R unit :=
rows ← statement (fun t =>
  Ok (affected dr_id id (t_device t),
      set_datapoints (filter (fun r => pr_device_id r <> id) (t_datapoint t)) (hi_datapoint t)
        (set_devices (delete_row dr_id id (t_device t)) t)));
checkRowsAffected DeviceNotFound rows.

(** ** Data points *)

Definition datapoint_query (f : Tables -> list DpRow) : R (list DataPoint) :=
rows ← select f; lift (scan_all scanDataPoint rows).
Definition datapoint_ListByDevice (device : Z) : R (list DataPoint) :=
datapoint_query (fun t => filter (fun r => pr_device_id r = device) (t_datapoint t)).
Definition datapoint_ListEnabledByDevice (device : Z) : R (list DataPoint) :=
datapoint_query (fun t => filter (fun r => pr_device_id r = device /\ pr_enabled r = 1) (t_datapoint t)).
Definition datapoint_CountAll : R Z := select (fun t => Z.of_nat (length (t_datapoint t))).
Definition datapoint_Get (id : Z) : R DataPoint :=
rows ← select (fun t => affected pr_id id (t_datapoint t));
get_one DatapointNotFound scanDataPoint rows.

Definition datapoint_Create (dp : DataPoint) : R Z :=
statement (fun t =>
  if parent_device t (dp_DeviceID dp) && datapoint_ok dp then
    let id := hi_datapoint t + 1 in
    Ok (id, set_datapoints (t_datapoint t ++ [dp_row id (dp_DeviceID dp) dp]) id t)
  else Err Constraint).

Definition datapoint_Update (id : Z) (dp : DataPoint) : R unit :=
rows ← statement (fun t =>
  let rows := affected pr_id id (t_datapoint t) in
  if bool_decide (rows <> []) && negb (datapoint_ok dp) then Err Constraint
  else Ok (rows, set_datapoints
                   (update_row pr_id id (fun r => dp_row id (pr_device_id r) dp) (t_datapoint t))
                   (hi_datapoint t) t));
checkRowsAffected DatapointNotFound rows.

Definition datapoint_Delete (id : Z) : R unit :=
rows ← statement (fun t =>
  Ok (affected pr_id id (t_datapoint t),
      set_datapoints (delete_row pr_id id (t_datapoint t)) (hi_datapoint t) t));
checkRowsAffected DatapointNotFound rows.
End Repositories.
