(* ===== verification/BlockPlan.v ===== *)
(** Planning of block reads (internal/acquisition/blockplan.go): a device's
    data points grouped into Modbus requests, in uint16 arithmetic. *)

From S2P Require Import Prelude Float64.
From S2P Require Import Modbus.
From S2P Require Import Inventory.

Local Open Scope string_scope.
Local Open Scope list_scope.
Local Open Scope Z_scope.

Definition maxRegistersPerBlock : Z := 125.
Definition maxGapRegisters : Z := 8.

Record readBlock := mkBlock {
  functionCode : Z;
  startAddress : Z;
  quantity : Z;
  points : list DataPoint
}.

Definition by_address (p q : DataPoint) : Prop := RegisterAddress p <= RegisterAddress q.
#[export] Instance by_address_dec : RelDecision by_address.
Proof. intros p q. unfold by_address. apply _. Defined.
#[export] Instance by_address_total : Total by_address.
Proof. intros p q. unfold by_address. lia. Qed.
#[export] Instance by_address_trans : Transitive by_address.
Proof. intros p q r. unfold by_address. lia. Qed.

(** What Go leaves open: the order in which a map is ranged over, and the
    order [sort.Slice] gives to points of the same address. *)
Class GoOrder := {
  range_keys : list Z -> list Z;
  range_keys_perm : forall l, range_keys l ≡ₚ l;
  sort_points : list DataPoint -> list DataPoint;
  sort_points_perm : forall l, sort_points l ≡ₚ l;
  sort_points_sorted : forall l, Sorted by_address (sort_points l)
}.

(** The order of first use, and a stable sort. *)
#[export] Program Instance stable_order : GoOrder :=
  {| range_keys := id; sort_points := merge_sort by_address |}.
Next Obligation. done. Qed.
Next Obligation. apply merge_sort_Permutation. Qed.
Next Obligation. apply (Sorted_merge_sort by_address). Qed.

Definition block_end (b : readBlock) : Z := Int.u16 (startAddress b + quantity b).

(** The two tests of the merge: close enough to the pending block, and the
    extended block within the protocol's limit. *)
Definition mergeable (b : readBlock) (dp : DataPoint) (dpEnd : Z) : bool :=
  (RegisterAddress dp <=? Int.u16 (block_end b + maxGapRegisters)) &&
  (Int.u16 (dpEnd - startAddress b) <=? maxRegistersPerBlock).

Definition extend (b : readBlock) (dp : DataPoint) (dpEnd : Z) : readBlock :=
  mkBlock (functionCode b) (startAddress b)
    (if block_end b <? dpEnd then Int.u16 (dpEnd - startAddress b) else quantity b)
    (points b ++ [dp]).

Fixpoint plan_group (fc : Z) (pending : option readBlock) (group : list DataPoint) : list readBlock :=
  match group with
  | [] => match pending with Some b => [b] | None => [] end
  | dp :: group =>
    match RegisterCount (DataType dp) with
    | Err _ => plan_group fc pending group
    | Ok qty =>
      let dpEnd := Int.u16 (RegisterAddress dp + qty) in
      let fresh := mkBlock fc (RegisterAddress dp) qty [dp] in
      match pending with
      | Some b =>
        if mergeable b dp dpEnd then plan_group fc (Some (extend b dp dpEnd)) group
        else b :: plan_group fc (Some fresh) group
      | None => plan_group fc (Some fresh) group
      end
    end
  end.

(** FC1 and FC2: one block per data point. *)
Definition single_block (fc : Z) (dp : DataPoint) : option readBlock :=
  match RegisterCount (DataType dp) with
  | Err _ => None
  | Ok qty => Some (mkBlock fc (RegisterAddress dp) qty [dp])
  end.

Definition group_of (fc : Z) (dps : list DataPoint) : list DataPoint :=
  filter (fun dp => FunctionCode dp = fc) dps.

Section Plan.
Context `{GoOrder}.

Definition plan_fc (fc : Z) (group : list DataPoint) : list readBlock :=
if (fc =? FuncReadCoils) || (fc =? FuncReadDiscreteInputs) then omap (single_block fc) group
else plan_group fc None (sort_points group).

Definition planBlockReads (dps : list DataPoint) : list readBlock :=
concat (map (fun fc => plan_fc fc (group_of fc dps))
          (range_keys (remove_dups (map FunctionCode dps)))).
End Plan.

(** * Facts *)

(** A data type the decoder knows, and the registers of a point. *)
Definition known (dp : DataPoint) : Prop := is_Some (match RegisterCount (DataType dp) with Ok q => Some q | Err _ => None end).
#[export] Instance known_dec dp : Decision (known dp).
Proof. unfold known. apply _. Defined.
Definition registers (dp : DataPoint) : Z :=
  match RegisterCount (DataType dp) with Ok q => q | Err _ => 0 end.

(** The point lies below register 65535. *)
Definition addressable (dp : DataPoint) : Prop :=
  0 <= RegisterAddress dp /\ RegisterAddress dp + registers dp <= 65535.

Definition covers (b : readBlock) (dp : DataPoint) : Prop :=
  startAddress b <= RegisterAddress dp /\
  RegisterAddress dp + registers dp <= startAddress b + quantity b.

(** What the planner promises of a block of function code [fc]. *)
Record block_ok (fc : Z) (b : readBlock) : Prop := {
  ok_fc : functionCode b = fc;
  ok_start : 0 <= startAddress b;
  ok_quantity : 1 <= quantity b <= maxRegistersPerBlock;
  ok_end : startAddress b + quantity b <= 65535;
  ok_nonempty : points b <> [];
  ok_points : Forall (fun dp => known dp /\ covers b dp) (points b)
}.

Lemma count_inv dp q : RegisterCount (DataType dp) = Ok q -> registers dp = q /\ known dp /\ 1 <= q <= 4.
Proof.
  intros E. unfold registers, known. rewrite E. split_and!; [done|by eexists|..];
    destruct (register_count _ _ E) as (w & _ & _ & ?); lia.
Qed.

Lemma count_err dp e : RegisterCount (DataType dp) = Err e -> ~ known dp.
Proof. intros E [q Hq]. by rewrite E in Hq. Qed.

Lemma fresh_ok fc dp q :
  RegisterCount (DataType dp) = Ok q -> addressable dp -> block_ok fc (mkBlock fc (RegisterAddress dp) q [dp]).
Proof.
  intros E [Ha Hb]. destruct (count_inv _ _ E) as (Hr & Hk & Hq). rewrite Hr in Hb.
  constructor; cbn [functionCode startAddress quantity points];
    [done|lia|unfold maxRegistersPerBlock; lia|lia|done|].
  constructor; [|done]. split; [done|]. unfold covers. cbn [startAddress quantity]. lia.
Qed.

Lemma extend_ok fc b dp q :
  block_ok fc b -> RegisterCount (DataType dp) = Ok q -> addressable dp ->
  startAddress b <= RegisterAddress dp ->
  mergeable b dp (Int.u16 (RegisterAddress dp + q)) = true ->
  block_ok fc (extend b dp (Int.u16 (RegisterAddress dp + q))).
Proof.
  intros [Hf Hs Hq He Hn Hp] E [Ha Hb] Hle Hm. destruct (count_inv _ _ E) as (Hr & Hk & Hq4). rewrite Hr in Hb.
  unfold mergeable in Hm. zbool. unfold extend, block_end in *.
  rewrite (Int.u16_id (RegisterAddress dp + q)), (Int.u16_id (startAddress b + quantity b)) in *
    by (unfold Int.is_u16, maxRegistersPerBlock in *; lia).
  rewrite (Int.u16_id (RegisterAddress dp + q - _)) in * by (unfold Int.is_u16; lia).
  assert (Hgrow : quantity b <= (if startAddress b + quantity b <? RegisterAddress dp + q
                    then RegisterAddress dp + q - startAddress b else quantity b) /\
                  RegisterAddress dp + q <= startAddress b +
                    (if startAddress b + quantity b <? RegisterAddress dp + q
                     then RegisterAddress dp + q - startAddress b else quantity b)).
  { destruct (startAddress b + quantity b <? RegisterAddress dp + q) eqn:El; zbool; lia. }
  constructor; cbn [functionCode startAddress quantity points]; [done|done|..].
  - destruct (startAddress b + quantity b <? RegisterAddress dp + q); lia.
  - destruct (startAddress b + quantity b <? RegisterAddress dp + q); lia.
  - by destruct (points b).
  - apply Forall_app. split.
    + eapply Forall_impl; [exact Hp|]. intros p [Hkp [? ?]]. split; [done|].
      unfold covers. cbn [startAddress quantity]. lia.
    + constructor; [|done]. split; [done|]. unfold covers. cbn [startAddress quantity]. lia.
Qed.

Lemma plan_group_ok fc group : forall pending,
  (forall b, pending = Some b -> block_ok fc b /\ Forall (fun dp => startAddress b <= RegisterAddress dp) group) ->
  StronglySorted by_address group -> Forall addressable group ->
  Forall (block_ok fc) (plan_group fc pending group).
Proof.
  induction group as [|dp group IH]; intros pending Hp Hs Ha; cbn [plan_group].
  { destruct pending as [b|]; [|done]. constructor; [by apply Hp|done]. }
  apply StronglySorted_inv in Hs as [Hs Hmin]. inversion Ha; subst.
  destruct (RegisterCount (DataType dp)) as [q|] eqn:E.
  2:{ apply IH; [|done..]. intros b ->. destruct (Hp b eq_refl) as [? Hf]. split; [done|]. by inversion Hf. }
  assert (Hfresh : forall b, Some (mkBlock fc (RegisterAddress dp) q [dp]) = Some b ->
            block_ok fc b /\ Forall (fun p => startAddress b <= RegisterAddress p) group).
  { intros b [= <-]. split; [by apply fresh_ok|exact Hmin]. }
  destruct pending as [b|]; [|by apply IH].
  destruct (Hp b eq_refl) as [Hb Hf]. inversion Hf; subst.
  destruct (mergeable b dp _) eqn:Em.
  - apply IH; [|done..]. intros b' [= <-]. split; [by apply extend_ok|done].
  - constructor; [done|]. by apply IH.
Qed.

Lemma plan_group_points fc group : forall pending,
  concat (map points (plan_group fc pending group)) =
  match pending with Some b => points b | None => [] end ++ filter known group.
Proof.
  induction group as [|dp group IH]; intros pending; cbn [plan_group].
  { destruct pending; cbn; by rewrite ?app_nil_r. }
  rewrite filter_cons. destruct (RegisterCount (DataType dp)) as [q|] eqn:E.
  - rewrite decide_True by (by apply (count_inv dp q)).
    destruct pending as [b|]; [destruct (mergeable b dp _)|].
    + rewrite IH. cbn [extend points]. by rewrite <- app_assoc.
    + cbn [map concat]. by rewrite IH.
    + by rewrite IH.
  - rewrite decide_False by (by eapply count_err). apply IH.
Qed.

Lemma single_points fc group :
  concat (map points (omap (single_block fc) group)) = filter known group.
Proof.
  induction group as [|dp group IH]; [done|]. cbn [omap list_omap]. rewrite filter_cons.
  unfold single_block at 1. destruct (RegisterCount (DataType dp)) as [q|] eqn:E.
  - rewrite decide_True by (by apply (count_inv dp q)). cbn [map concat points]. cbn. by f_equal.
  - by rewrite decide_False by (by eapply count_err).
Qed.

Lemma single_ok fc group :
  Forall addressable group -> Forall (block_ok fc) (omap (single_block fc) group).
Proof.
  intros Ha. apply Forall_forall. intros b Hb.
  apply list_elem_of_omap in Hb as (dp & Hdp & Hb). unfold single_block in Hb.
  destruct (RegisterCount (DataType dp)) as [q|] eqn:E; [|done]. injection Hb as <-.
  apply fresh_ok; [done|]. by eapply Forall_forall in Ha.
Qed.

Section PlanFacts.
Context `{GoOrder}.

Lemma sorted_points l : StronglySorted by_address (sort_points l).
Proof. apply Sorted_StronglySorted; [apply by_address_trans|apply sort_points_sorted]. Qed.

Lemma plan_fc_points fc group :
  concat (map points (plan_fc fc group)) ≡ₚ filter known group.
Proof.
  unfold plan_fc. destruct ((fc =? FuncReadCoils) || (fc =? FuncReadDiscreteInputs)).
  - by rewrite single_points.
  - rewrite plan_group_points. cbn [app]. by rewrite sort_points_perm.
Qed.

Lemma plan_fc_ok fc group : Forall addressable group -> Forall (block_ok fc) (plan_fc fc group).
Proof.
  intros Ha. unfold plan_fc. destruct ((fc =? FuncReadCoils) || (fc =? FuncReadDiscreteInputs)).
  - by apply single_ok.
  - apply plan_group_ok; [done|apply sorted_points|]. by rewrite sort_points_perm.
Qed.

(** Splitting a list by the value of a function loses nothing. *)
Lemma groups_perm keys dps :
  NoDup keys -> (forall dp, dp ∈ dps -> FunctionCode dp ∈ keys) ->
  concat (map (fun fc => group_of fc dps) keys) ≡ₚ dps.
Proof.
  revert dps. induction keys as [|k keys IH]; intros dps Hnd Hin.
  { destruct dps as [|dp dps]; [done|]. specialize (Hin dp ltac:(left)). by inversion Hin. }
  apply NoDup_cons in Hnd as [Hk Hnd]. cbn [map concat].
  set (rest := filter (fun dp => FunctionCode dp <> k) dps).
  assert (Hrest : forall fc, fc ∈ keys -> group_of fc dps = group_of fc rest).
  { intros fc Hfc. unfold group_of, rest. rewrite list_filter_filter. apply list_filter_iff.
    intros dp. split; [|by intros []]. intros Hd. split; [done|]. intros Hk'. subst. done. }
  rewrite (map_ext_in (fun fc => group_of fc dps) (fun fc => group_of fc rest)).
  2:{ intros fc Hfc. apply Hrest. by apply list_elem_of_In. }
  rewrite IH; [|done|].
  - unfold group_of, rest. clear. induction dps as [|dp dps IH]; [done|].
    rewrite !filter_cons. destruct (decide (FunctionCode dp = k)).
    + rewrite decide_False by tauto. cbn. by rewrite IH.
    + rewrite decide_True by done. rewrite <- Permutation_middle. by rewrite IH.
  - intros dp Hdp. unfold rest in Hdp. apply list_elem_of_filter in Hdp as [Hne Hdp].
    specialize (Hin dp Hdp). by apply elem_of_cons in Hin as [|].
Qed.

Lemma keys_ok dps :
  NoDup (range_keys (remove_dups (map FunctionCode dps))) /\
  (forall dp, dp ∈ dps -> FunctionCode dp ∈ range_keys (remove_dups (map FunctionCode dps))).
Proof.
  split.
  - rewrite range_keys_perm. apply NoDup_remove_dups.
  - intros dp Hdp. rewrite range_keys_perm. apply elem_of_remove_dups. by apply list_elem_of_fmap_2.
Qed.

Lemma filter_concat_map {A} (P : DataPoint -> Prop) `{!forall x, Decision (P x)} (f : A -> list DataPoint) l :
  filter P (concat (map f l)) = concat (map (fun x => filter P (f x)) l).
Proof. induction l as [|x l IH]; [done|]. cbn [map concat]. by rewrite filter_app, IH. Qed.

Lemma plan_points dps :
  concat (map points (planBlockReads dps)) ≡ₚ filter known dps.
Proof.
  destruct (keys_ok dps) as [Hnd Hin]. unfold planBlockReads.
  rewrite <- (groups_perm _ _ Hnd Hin) at 2. rewrite filter_concat_map.
  generalize (range_keys (remove_dups (map FunctionCode dps))) as keys. clear Hnd Hin.
  induction keys as [|k keys IH]; [done|]. cbn [map concat].
  rewrite map_app, concat_app, IH. by rewrite plan_fc_points.
Qed.

(** C9. Every data point with a data type the decoder knows is read by exactly one block,
    and no other point is: whatever the order in which Go walks the map and sorts equal addresses, the points of
    the planned blocks are a rearrangement of the known points of the device. *)
Theorem plan_partition dps :
  concat (map points (planBlockReads dps)) ≡ₚ filter known dps.
Proof. apply plan_points. Qed.

Lemma plan_blocks_ok dps :
  Forall addressable dps ->
  Forall (fun b => block_ok (functionCode b) b /\ Forall (fun dp => FunctionCode dp = functionCode b) (points b))
    (planBlockReads dps).
Proof.
  intros Ha. apply Forall_forall. intros b Hb. unfold planBlockReads in Hb.
  apply list_elem_of_In, in_concat in Hb as (bs & Hbs & Hb).
  apply in_map_iff in Hbs as (fc & <- & _).
  assert (Hg : Forall addressable (group_of fc dps)) by (by apply Forall_filter).
  pose proof (plan_fc_ok fc _ Hg) as Hok. rewrite Forall_forall in Hok.
  apply list_elem_of_In in Hb. pose proof (Hok b Hb) as Hbo. rewrite (ok_fc _ _ Hbo).
  split; [done|]. apply Forall_forall. intros dp Hdp.
  assert (Hin : dp ∈ filter known (group_of fc dps)).
  { rewrite <- (plan_fc_points fc). apply list_elem_of_In, in_concat. exists (points b).
    split; [apply in_map|]; by apply list_elem_of_In. }
  apply list_elem_of_filter in Hin as [_ Hin]. by apply list_elem_of_filter in Hin as [? _].
Qed.

(** C11. The planned requests are legal and sufficient: when every point ends
    below register 65535, each block asks for 1 to 125 registers inside the address space, all its
    points have its function code, and every point's registers lie within the
    block, although the addresses are computed modulo 65536. *)
Theorem plan_bounds dps :
  Forall addressable dps ->
  Forall (fun b => block_ok (functionCode b) b /\ Forall (fun dp => FunctionCode dp = functionCode b) (points b))
    (planBlockReads dps).
Proof. apply plan_blocks_ok. Qed.
End PlanFacts.

(** Why a block starts: its first point is too far from the block before, would
    exceed the protocol's limit, or the block before ends near the top of the
    address space. *)
Definition split_here (b1 b2 : readBlock) : Prop :=
  exists dp, head (points b2) = Some dp /\ startAddress b2 = RegisterAddress dp /\
    (startAddress b1 + quantity b1 + maxGapRegisters < RegisterAddress dp \/
     maxRegistersPerBlock < RegisterAddress dp + registers dp - startAddress b1 \/
     65535 < startAddress b1 + quantity b1 + maxGapRegisters).

Lemma plan_group_head fc group : forall b,
  exists b1 rest, plan_group fc (Some b) group = b1 :: rest /\
    startAddress b1 = startAddress b /\ points b `prefix_of` points b1.
Proof.
  induction group as [|dp group IH]; intros b; cbn [plan_group]; [by exists b, []|].
  destruct (RegisterCount (DataType dp)) as [q|]; [|apply IH].
  destruct (mergeable b dp _); [|by eexists _, _].
  destruct (IH (extend b dp (Int.u16 (RegisterAddress dp + q)))) as (b1 & rest & -> & Hs & Hp).
  exists b1, rest. split_and!; [done|by rewrite Hs|].
  etrans; [|exact Hp]. by apply prefix_app_r.
Qed.

Lemma not_mergeable fc b dp q :
  block_ok fc b -> RegisterCount (DataType dp) = Ok q -> addressable dp ->
  startAddress b <= RegisterAddress dp ->
  mergeable b dp (Int.u16 (RegisterAddress dp + q)) = false ->
  startAddress b + quantity b + maxGapRegisters < RegisterAddress dp \/
  maxRegistersPerBlock < RegisterAddress dp + registers dp - startAddress b \/
  65535 < startAddress b + quantity b + maxGapRegisters.
Proof.
  intros [_ Hs Hq He _ _] E [Ha Hb] Hle Hm. destruct (count_inv _ _ E) as (Hr & _ & Hq4). rewrite Hr in *.
  unfold mergeable, block_end in Hm.
  rewrite (Int.u16_id (RegisterAddress dp + q)), (Int.u16_id (startAddress b + quantity b)) in Hm
    by (unfold Int.is_u16, maxRegistersPerBlock in *; lia).
  rewrite (Int.u16_id (RegisterAddress dp + q - _)) in Hm by (unfold Int.is_u16; lia).
  destruct (decide (65535 < startAddress b + quantity b + maxGapRegisters)); [by right; right|].
  rewrite Int.u16_id in Hm by (unfold Int.is_u16, maxGapRegisters, maxRegistersPerBlock in *; lia).
  apply andb_false_iff in Hm as [Hm|Hm]; zbool; lia.
Qed.

Lemma plan_group_split fc group : forall pending,
  (forall b, pending = Some b -> block_ok fc b /\ Forall (fun dp => startAddress b <= RegisterAddress dp) group) ->
  StronglySorted by_address group -> Forall addressable group ->
  Sorted split_here (plan_group fc pending group).
Proof.
  induction group as [|dp group IH]; intros pending Hp Hs Ha; cbn [plan_group].
  { destruct pending; repeat constructor. }
  apply StronglySorted_inv in Hs as [Hs Hmin]. inversion Ha; subst.
  destruct (RegisterCount (DataType dp)) as [q|] eqn:E.
  2:{ apply IH; [|done..]. intros b ->. destruct (Hp b eq_refl) as [? Hf]. split; [done|]. by inversion Hf. }
  assert (Hfresh : forall b, Some (mkBlock fc (RegisterAddress dp) q [dp]) = Some b ->
            block_ok fc b /\ Forall (fun p => startAddress b <= RegisterAddress p) group).
  { intros b [= <-]. split; [by apply fresh_ok|exact Hmin]. }
  destruct pending as [b|]; [|by apply IH].
  destruct (Hp b eq_refl) as [Hb Hf]. inversion Hf; subst.
  destruct (mergeable b dp _) eqn:Em.
  - apply IH; [|done..]. intros b' [= <-]. split; [by apply extend_ok|done].
  - constructor; [by apply IH|].
    destruct (plan_group_head fc group (mkBlock fc (RegisterAddress dp) q [dp])) as (b1 & rest & -> & Hst & [k Hk]).
    constructor. exists dp. cbn in Hst, Hk. rewrite Hk, Hst. split_and!; [done|done|].
    by eapply not_mergeable.
Qed.

Section PlanMerges.
Context `{GoOrder}.

(** No request is wasted: among the register blocks of one function code (3, 4),
    a new block starts only where its first point is more than 8 registers past the
    block before, or would make it longer than 125 registers, or the block before
    ends within 8 registers of the top of the address space. *)
Theorem plan_merges fc group :
  fc <> FuncReadCoils -> fc <> FuncReadDiscreteInputs -> Forall addressable group ->
  Sorted split_here (plan_fc fc group).
Proof.
  intros H1 H2 Ha. unfold plan_fc. apply Z.eqb_neq in H1 as ->. apply Z.eqb_neq in H2 as ->. cbn [orb].
  apply plan_group_split; [done|apply sorted_points|by rewrite sort_points_perm].
Qed.
End PlanMerges.

(** The device of the comment on [planBlockReads]: two registers under four
    tags, and a point far away. *)
Definition tag (id addr : Z) (d : string) : DataPoint :=
  mkDataPoint id 1 "tag" 4 addr d "" "" (of_Z 1) (of_Z 0) "" true.
Definition four_tags : list DataPoint :=
  [tag 1 1 UInt16; tag 2 2 UInt16; tag 3 1 UInt16; tag 4 2 UInt16; tag 5 40 Float32].

Lemma plan_bounds_witness :
  Forall (fun b => block_ok (functionCode b) b /\ Forall (fun dp => FunctionCode dp = functionCode b) (points b))
    [mkBlock 4 1 2 [tag 1 1 UInt16; tag 3 1 UInt16; tag 2 2 UInt16; tag 4 2 UInt16]; mkBlock 4 40 2 [tag 5 40 Float32]].
Proof.
  assert (E : planBlockReads four_tags =
    [mkBlock 4 1 2 [tag 1 1 UInt16; tag 3 1 UInt16; tag 2 2 UInt16; tag 4 2 UInt16]; mkBlock 4 40 2 [tag 5 40 Float32]])
    by (vm_compute; reflexivity).
  rewrite <- E. apply (plan_bounds four_tags). repeat constructor; by vm_compute.
Defined.

Lemma plan_merges_witness : Sorted split_here (plan_fc 4 four_tags).
Proof.
  apply (plan_merges 4 four_tags); [by vm_compute..|]. repeat constructor; by vm_compute.
Defined.

(** The last register: a one-register point at address 65535 whose group has a point
    ending eight registers below is merged into a block that does not read
    register 65535, because its end wraps to 0. *)
Theorem last_register_uncovered :
  let low := tag 1 65526 UInt16 in let top := tag 2 65535 UInt16 in
  planBlockReads [low; top] = [mkBlock 4 65526 1 [low; top]] /\
  ~ covers (mkBlock 4 65526 1 [low; top]) top.
Proof. cbv zeta. split; [by vm_compute|]. intros [_ Hc]. vm_compute in Hc. by apply Hc. Qed.
