(* ===== verification/Observers.v ===== *)
(** What happens to an acquired reading, and the stores that watch the gateway
    (internal/acquisition/reading.go and latest.go, internal/status,
    internal/diagnostics, internal/logger/ringbuffer.go, internal/processor,
    and the callbacks of cmd/gateway/main.go).  Each method runs under its
    store's lock, so it is one function on the store's state. *)

From S2P Require Import Prelude Float64.
From S2P Require Codec.
From S2P Require Import QueueDb.
From S2P Require QueueStore.
From S2P Require Import Modbus.

Local Open Scope string_scope.
Local Open Scope list_scope.
Local Open Scope Z_scope.

(** [acquisition.Reading]. *)
Record Reading := mkReading {
  r_DeviceID : Z;
  r_DeviceName : string;
  r_DatapointID : Z;
  r_Tag : string;
  r_Value : option f64;
  r_Quality : string;
  r_Unit : string;
  EventTimestamp : Z
}.

(** * Latest values (latest.go) *)

Record LatestValue := mkLatest {
  lv_Value : option f64;
  lv_Quality : string;
  lv_Unit : string;
  lv_At : Z
}.

Definition LatestStore : Type := gmap Z LatestValue.
Definition latest_Update (id : Z) (v : LatestValue) (m : LatestStore) : LatestStore := <[id := v]> m.
Definition latest_Get (id : Z) (m : LatestStore) : option LatestValue := m !! id.

(** * Device status (status.go) *)

Record Info := mkInfo {
  i_Quality : string;
  LastSeen : Z;
  LastPollDurationMs : Z;
  DatapointsPolled : Z;
  BlockReads : Z
}.

(** Go's zero value; [time.Time]'s is the year 1. *)
Definition zero_time : Z := -62135596800000000000.
Definition no_info : Info := mkInfo "" zero_time 0 0 0.

Definition StatusStore : Type := gmap Z Info.

Definition status_Update (device : Z) (q : string) (at_ : Z) (m : StatusStore) : StatusStore :=
  let i := default no_info (m !! device) in
  <[device := mkInfo q at_ (LastPollDurationMs i) (DatapointsPolled i) (BlockReads i)]> m.
Definition status_UpdatePollTiming (device durationMs polled blocks : Z) (m : StatusStore) : StatusStore :=
  let i := default no_info (m !! device) in
  <[device := mkInfo (i_Quality i) (LastSeen i) durationMs polled blocks]> m.
Definition status_Get (device : Z) (m : StatusStore) : option Info := m !! device.

(** * Diagnostics (diagnostics.go) *)

Record Diag := mkDiag {
  tx : Z;
  rx : Z;
  timeouts : Z;
  crcErrors : Z;
  retries : Z;
  responseTotalNs : Z;
  responseCount : Z
}.

Definition new_diag : Diag := mkDiag 0 0 0 0 0 0 0.

Definition RecordResult (quality : string) (duration attempts : Z) (d : Diag) : Diag :=
  let attempts := if attempts <? 1 then 1 else attempts in
  let d := mkDiag (Int.i64 (tx d + attempts)) (rx d) (timeouts d) (crcErrors d)
             (if 0 <? attempts - 1 then Int.i64 (retries d + (attempts - 1)) else retries d)
             (responseTotalNs d) (responseCount d) in
  if bool_decide (quality = Good) then
    mkDiag (tx d) (Int.i64 (rx d + 1)) (timeouts d) (crcErrors d) (retries d)
      (Int.i64 (responseTotalNs d + duration)) (Int.i64 (responseCount d + 1))
  else if bool_decide (quality = Timeout) then
    mkDiag (tx d) (rx d) (Int.i64 (timeouts d + 1)) (crcErrors d) (retries d)
      (responseTotalNs d) (responseCount d)
  else if bool_decide (quality = CRCError) then
    mkDiag (tx d) (rx d) (timeouts d) (Int.i64 (crcErrors d + 1)) (retries d)
      (responseTotalNs d) (responseCount d)
  else d.

Record Snapshot := mkSnapshot {
  TXCount : Z;
  RXCount : Z;
  TimeoutCount : Z;
  CRCErrorCount : Z;
  RetryCount : Z;
  AvgResponseTimeMs : f64
}.

Definition diag_Snapshot (d : Diag) : Snapshot :=
  mkSnapshot (tx d) (rx d) (timeouts d) (crcErrors d) (retries d)
    (if 0 <? responseCount d
     then fdiv (fdiv (of_Z (responseTotalNs d)) (of_Z (responseCount d))) (of_Z 1000000)
     else of_Z 0).

(** * Log ring (ringbuffer.go) *)

Section Ring.
Context {Entry : Type}.

Record ringStorage := mkRing { entries : list Entry; capacity : Z }.

(** [None]: a slice out of range panics. *)
Definition ring_add (e : Entry) (r : ringStorage) : option ringStorage :=
let es := entries r ++ [e] in
let n := Z.of_nat (length es) in
if capacity r <? n then
  if capacity r <? 0 then None
  else Some (mkRing (drop (Z.to_nat (n - capacity r)) es) (capacity r))
else Some (mkRing es (capacity r)).

Definition ring_snapshot (r : ringStorage) : list Entry := entries r.
End Ring.
Arguments ringStorage Entry : clear implicits.

(** [getLogs]: the last [limit] entries. *)
Definition recent {Entry} (limit : Z) (es : list Entry) : list Entry :=
  if limit <? Z.of_nat (length es) then drop (Z.to_nat (Z.of_nat (length es) - limit)) es else es.

(** * Into the queue (processor.go, main.go) *)

(** [Processor.Process]. *)
Definition queue_reading (r : Reading) : Codec.Reading :=
  Codec.mkReading (r_DeviceID r) (r_DatapointID r) (to_bits <$> r_Value r) (r_Quality r) (EventTimestamp r).
Definition Process (r : Reading) (q : Store) : Store := QueueStore.Append (queue_reading r) q.

(** The stores a reading reaches; no queue when Store & Forward is disabled. *)
Record Sinks := mkSinks {
  status : StatusStore;
  latest : LatestStore;
  queue : option Store;
  diag : Diag
}.

(** The callbacks [main] hands the manager. *)
Definition on_reading (r : Reading) (s : Sinks) : Sinks :=
  mkSinks (status_Update (r_DeviceID r) (r_Quality r) (EventTimestamp r) (status s))
    (latest_Update (r_DatapointID r) (mkLatest (r_Value r) (r_Quality r) (r_Unit r) (EventTimestamp r)) (latest s))
    (Process r <$> queue s) (diag s).

Definition on_poll_cycle (device durationMs read blocks : Z) (s : Sinks) : Sinks :=
  mkSinks (status_UpdatePollTiming device durationMs read blocks (status s)) (latest s) (queue s) (diag s).

Definition on_result (quality : string) (duration attempts : Z) (s : Sinks) : Sinks :=
  mkSinks (status s) (latest s) (queue s) (RecordResult quality duration attempts (diag s)).
