(* ===== verification/Poller.v ===== *)
(** Polling (internal/acquisition/poller.go): one connection's devices read in
    turn, block by block, and a reading emitted for every data point.

    The world [W] holds the Modbus client, the clock and the cancellation of
    the poller's context; [O] is whatever the callbacks write to. *)

From stdpp Require Import pretty.
From S2P Require Import Prelude GoTime Float64.
From S2P Require Import Modbus.
From S2P Require Import Inventory.
From S2P Require Import BlockPlan.
From S2P Require Import Observers.

Local Open Scope string_scope.
Local Open Scope list_scope.
Local Open Scope Z_scope.

Definition millisecond : Z := 1000000.
Definition reconnectFloorDelay : Z := GoTime.second.
Definition cycleYieldDelay : Z := 20 * millisecond.

(** [time.Now], [context.WithTimeout] and its [cancel], and a wait of a positive
    duration that is cut short ([false]) when the context is cancelled. *)
Class World (W : Type) := {
  world_client :: Client W;
  Now : W -> Z * W;
  with_timeout : Z -> W -> W;
  cancel_timeout : W -> W;
  cancelled : W -> bool;
  sleep : Z -> W -> bool * W
}.

(** [Poller]: the callbacks; [onPollCycle] and [diag] may be nil. *)
Record Poller (O : Type) := mkPoller {
  onReading : Reading -> O -> O;
  onPollCycle : option (Z -> Z -> Z -> Z -> O -> O);
  recordResult : option (string -> Z -> Z -> O -> O)
}.
Arguments mkPoller {O}.
Arguments onReading {O}.
Arguments onPollCycle {O}.
Arguments recordResult {O}.

Record deviceWithPoints := mkGroup { device : Device; dps : list DataPoint }.

(** * One device *)

Definition badReading (d : Device) (dp : DataPoint) (eventTime : Z) (q : string) : Reading :=
  mkReading (d_ID d) (d_Name d) (dp_ID dp) (TagName dp) None q (Unit dp) eventTime.

(** The reading [decodeAndEmit] hands to [onReading]. *)
Definition decoded_reading (d : Device) (dp : DataPoint) (raw : list Z) (blockStart eventTime : Z) : Reading :=
  match ByteWidth (DataType dp) with
  | Err _ => badReading d dp eventTime Invalid
  | Ok width =>
    let offset := Int.u16 (RegisterAddress dp - blockStart) * 2 in
    if (offset <? 0) || (Z.of_nat (length raw) <? offset + width) then badReading d dp eventTime Invalid
    else
      match Decode (slice (Z.to_nat offset) (Z.to_nat (offset + width)) raw) (DataType dp) (ByteOrder dp) with
      | Err _ => badReading d dp eventTime Invalid
      | Ok decoded =>
        mkReading (d_ID d) (d_Name d) (dp_ID dp) (TagName dp)
          (Some (ApplyScale decoded (Scale dp) (Offset dp))) Good (Unit dp) eventTime
      end
  end.

Section Poll.
Context {W O : Type} `{World W, GoOrder} (p : Poller O).

Definition emit_all (rs : list Reading) (o : O) : O := foldl (fun o r => onReading p r o) o rs.

Definition record (q : string) (elapsed attempts : Z) (o : O) : O :=
match recordResult p with Some f => f q elapsed attempts o | None => o end.

Definition decodeAndEmit (d : Device) (dp : DataPoint) (raw : list Z) (blockStart eventTime : Z) (o : O) : O :=
onReading p (decoded_reading d dp raw blockStart eventTime) o.

(** The readings of one block, from the outcome of its read. *)
Definition block_readings (d : Device) (eventTime : Z) (b : readBlock) (raw : list Z)
  (err : option goerror) : list Reading :=
match err with
| Some _ => map (fun dp => badReading d dp eventTime (QualityFromError err)) (points b)
| None => map (fun dp => decoded_reading d dp raw (startAddress b) eventTime) (points b)
end.

(** The body of the loop of [readDevice]: the points it counts as read. *)
Definition read_block (d : Device) (timeout eventTime : Z) (b : readBlock) (w : W) (o : O) : Z * (W * O) :=
let w := with_timeout timeout w in
let '(start, w) := Now w in
let '((raw, attempts, err), w) := ReadWithRetry (functionCode b) (startAddress b) (quantity b) 0 w in
let '(stop, w) := Now w in
let elapsed := time_sub stop start in
let w := cancel_timeout w in
match err with
| Some _ =>
  let q := QualityFromError err in
  let o := record q elapsed attempts o in
  (Z.of_nat (length (points b)), (w, emit_all (map (fun dp => badReading d dp eventTime q) (points b)) o))
| None =>
  let o := record Good elapsed attempts o in
  (Z.of_nat (length (points b)),
   (w, foldl (fun o dp => decodeAndEmit d dp raw (startAddress b) eventTime o) o (points b)))
end.

Fixpoint read_blocks (d : Device) (timeout eventTime : Z) (bs : list readBlock)
  (readCount blockReads : Z) (w : W) (o : O) : (Z * Z) * (W * O) :=
match bs with
| [] => ((readCount, blockReads), (w, o))
| b :: bs =>
  let '(n, (w, o)) := read_block d timeout eventTime b w o in
  read_blocks d timeout eventTime bs (readCount + n) (blockReads + 1) w o
end.

Definition readDevice (d : Device) (pts : list DataPoint) (timeout eventTime : Z) (w : W) (o : O) :
  (Z * Z) * (W * O) :=
read_blocks d timeout eventTime (planBlockReads pts) 0 0 w o.

Definition emitDeviceOffline (d : Device) (pts : list DataPoint) (now : Z) (err : goerror) (o : O) : O :=
emit_all (map (fun dp => badReading d dp now (QualityFromError (Some err))) pts) o.

(** * One connection *)

(** [wait]: no time at all for a duration that is not positive. *)
Definition wait (d : Z) (w : W) : bool * W := if d <=? 0 then (true, w) else sleep d w.

(** The loop over the devices; [false] is a return, after closing the client. *)
Fixpoint poll_devices (timeout delay : Z) (ds : list deviceWithPoints) (w : W) (o : O) : bool * (W * O) :=
match ds with
| [] => (true, (w, o))
| dg :: ds =>
  if cancelled w then (false, (CloseConn w, o))
  else
    let w := SetUnitID (Int.u8 (SlaveID (device dg))) w in
    let '(now, w) := Now w in
    let '(deviceStart, w) := Now w in
    let '((readCount, blockReads), (w, o)) := readDevice (device dg) (dps dg) timeout now w o in
    if 0 <? readCount then
      let '(o, w) := match onPollCycle p with
                     | Some f =>
                       let '(t, w) := Now w in
                       (f (d_ID (device dg)) (Z.quot (time_sub t deviceStart) 1000000) readCount blockReads o, w)
                     | None => (o, w)
                     end in
      let '(go, w) := wait delay w in
      if go then poll_devices timeout delay ds w o else (false, (CloseConn w, o))
    else poll_devices timeout delay ds w o
end.

(** A [time.Duration] of so many milliseconds. *)
Definition duration_ms (ms : Z) : Z := Int.i64 (ms * millisecond).

(** One turn of the endless loop: [None] is a return, [Some connected] goes on. *)
Definition poll_turn (conn : Connection) (ds : list deviceWithPoints) (connected : bool) (w : W) (o : O) :
  option bool * (W * O) :=
if cancelled w then (None, (CloseConn w, o))
else
  let '(c, w) := if connected then (@Ok goerror unit tt, w) else Connect w in
  match c with
  | Err e =>
    let '(now, w) := Now w in
    let o := foldl (fun o dg => emitDeviceOffline (device dg) (dps dg) now e o) o ds in
    let '(go, w) := wait reconnectFloorDelay w in
    if go then (Some false, (w, o)) else (None, (CloseConn w, o))
  | Ok _ =>
    let '(go, (w, o)) :=
      poll_devices (duration_ms (TimeoutMs conn)) (duration_ms (NextDeviceDelayMs conn)) ds w o in
    if go then
      let '(go, w) := wait cycleYieldDelay w in
      if go then (Some true, (w, o)) else (None, (CloseConn w, o))
    else (None, (w, o))
  end.

(** The loop, for [n] turns. *)
Fixpoint poll_loop (n : nat) (conn : Connection) (ds : list deviceWithPoints) (connected : bool)
  (w : W) (o : O) : option bool * (W * O) :=
match n with
| 0%nat => (Some connected, (w, o))
| S n =>
  match poll_turn conn ds connected w o with
  | (Some connected, (w, o)) => poll_loop n conn ds connected w o
  | r => r
  end
end.

Definition runConnectionWithClient (n : nat) (conn : Connection) (ds : list deviceWithPoints) (w : W) (o : O) :
  option bool * (W * O) :=
poll_loop n conn ds false w o.
End Poll.

(** * Clients *)

Inductive client_config :=
| TCPConfig (address : string) (timeout : Z)
| RTUConfig (interface : string) (baud data_bits : Z) (parity : string) (stop_bits timeout : Z).

Inductive build_error :=
| NoAddress (name : string)
| NoInterface (name : string)
| UnknownProtocol (protocol : string).

Definition BuildClient (c : Connection) : result build_error client_config :=
  let timeout := duration_ms (TimeoutMs c) in
  if bool_decide (Protocol c = TCP) then
    if bool_decide (IPAddress c = "") then Err (NoAddress (c_Name c))
    else Ok (TCPConfig (IPAddress c +:+ ":" +:+ pretty (Port c)) timeout)
  else if bool_decide (Protocol c = RTU) then
    if bool_decide (Interface c = "") then Err (NoInterface (c_Name c))
    else Ok (RTUConfig (Interface c) (BaudRate c) (DataBits c) (Parity c) (StopBits c) timeout)
  else Err (UnknownProtocol (Protocol c)).

Section RunConnection.
Context {W O : Type} `{World W, GoOrder} (p : Poller O).

(** [runConnection]: the world with the client [BuildClient] made. *)
Definition runConnection (n : nat) (open : client_config -> W -> W) (conn : Connection)
  (ds : list deviceWithPoints) (w : W) (o : O) : option bool * (W * O) :=
match BuildClient conn with
| Err _ => (None, (w, o))
| Ok cfg => runConnectionWithClient p n conn ds (open cfg w) o
end.
End RunConnection.
