(* ===== verification/PollerProps.v ===== *)
(** Properties of polling: what a pass over a device emits, that block reads
    decode as dedicated reads would, and what happens to coils and to a
    connection that dies. *)

From S2P Require Import Prelude GoTime Float64.
From S2P Require Import Modbus.
From S2P Require Import Inventory.
From S2P Require Import BlockPlan.
From S2P Require Import Observers.
From S2P Require Import Poller.
From S2P Require Wire QueueStore Transports.
From Corelib Require Import SpecFloat.

Local Open Scope string_scope.
Local Open Scope list_scope.
Local Open Scope Z_scope.

(** A view [obs] of what the callbacks wrote that shows each reading once, as
    [f] of it, and nothing else, as long as [live] holds. *)
Class Observes {O X : Type} (p : Poller O) (live : O -> Prop) (obs : O -> list X) (f : Reading -> X) := {
  obs_reading : forall r o, live o -> live (onReading p r o) /\ obs (onReading p r o) = obs o ++ [f r];
  obs_result : forall g q e a o, recordResult p = Some g -> live o -> live (g q e a o) /\ obs (g q e a o) = obs o;
  obs_cycle : forall g d t n b o, onPollCycle p = Some g -> live o -> live (g d t n b o) /\ obs (g d t n b o) = obs o
}.

(** * The two instances: a list of readings, and the gateway's own callbacks *)

Definition collector : Poller (list Reading) := mkPoller (fun r o => o ++ [r]) None None.
#[export] Instance collector_observes : Observes collector (fun _ => True) id id.
Proof. by split. Qed.

Definition gateway_poller : Poller Sinks :=
  mkPoller on_reading (Some on_poll_cycle) (Some on_result).
(** The readings waiting in the queue's buffer. *)
Definition queued (s : Sinks) : list Codec.Reading :=
  match queue s with Some q => QueueDb.buf q | None => [] end.
#[export] Instance gateway_observes :
  Observes gateway_poller (fun s => is_Some (queue s)) queued queue_reading.
Proof.
  split.
  - intros r [st l [q|] dg] [q' Hq]; [|done]. split; [by eexists|done].
  - by intros g q e a o [= <-].
  - by intros g d t n b o [= <-].
Qed.

(** * What a pass emits *)

Definition tag_of (r : Reading) : Z * string * string := (r_DatapointID r, r_Tag r, r_Unit r).
Definition point_tag (dp : DataPoint) : Z * string * string := (dp_ID dp, TagName dp, Unit dp).

(** A reading of device [d] taken at [t]: a value exactly when it is GOOD. *)
Definition well_formed (d : Device) (t : Z) (r : Reading) : Prop :=
  r_DeviceID r = d_ID d /\ r_DeviceName r = d_Name d /\ EventTimestamp r = t /\
  (r_Quality r = Good <-> is_Some (r_Value r)).

Lemma bad_well_formed d dp t q : q <> Good -> well_formed d t (badReading d dp t q).
Proof. intros Hq. split_and!; [done..|]. cbn. split; [done|by intros [? ?]]. Qed.

Lemma decoded_well_formed d dp raw s t : well_formed d t (decoded_reading d dp raw s t).
Proof.
  unfold decoded_reading. repeat case_match; try (by apply bad_well_formed).
  split_and!; [done..|]. cbn. split; [by eexists|done].
Qed.

Lemma decoded_tag d dp raw s t : tag_of (decoded_reading d dp raw s t) = point_tag dp.
Proof. unfold decoded_reading. by repeat case_match. Qed.

Lemma block_readings_ok d t b raw err :
  map tag_of (block_readings d t b raw err) = map point_tag (points b) /\
  Forall (well_formed d t) (block_readings d t b raw err).
Proof.
  unfold block_readings. destruct err as [e|]; (split; [rewrite map_map; apply map_ext; intros; first [reflexivity|apply decoded_tag]|]);
    apply Forall_forall; intros r Hr; apply list_elem_of_In, in_map_iff in Hr as (dp & <- & _).
  - apply bad_well_formed, quality_bad.
  - apply decoded_well_formed.
Qed.

Section Pass.
Context {W O X : Type} `{World W, GoOrder} (p : Poller O) (live : O -> Prop) (obs : O -> list X) (f : Reading -> X)
  `{!Observes p live obs f}.

Lemma obs_emit_all rs o :
  live o -> live (emit_all p rs o) /\ obs (emit_all p rs o) = obs o ++ map f rs.
Proof.
  unfold emit_all. revert o. induction rs as [|r rs IH]; intros o Hl; cbn [foldl map]; [by rewrite app_nil_r|].
  destruct (obs_reading r o Hl) as [Hl1 Ho1]. destruct (IH _ Hl1) as [Hl2 ->].
  split; [done|]. by rewrite Ho1, <- app_assoc.
Qed.

Lemma obs_record q e a o : live o -> live (record p q e a o) /\ obs (record p q e a o) = obs o.
Proof. unfold record. destruct (recordResult p) as [g|] eqn:E; [|done]. by apply obs_result. Qed.

Lemma emit_decoded d raw s t dps o :
  foldl (fun o dp => decodeAndEmit p d dp raw s t o) o dps =
  emit_all p (map (fun dp => decoded_reading d dp raw s t) dps) o.
Proof. unfold emit_all. revert o. induction dps as [|dp dps IH]; intros o; [done|]. apply IH. Qed.

(** One block: a single request, and a reading for every point of the block. *)
Lemma read_block_spec d timeout t b w o n w' o' :
  live o -> read_block p d timeout t b w o = (n, (w', o')) ->
  live o' /\ exists raw k err wr,
    ReadWithRetry (functionCode b) (startAddress b) (quantity b) 0 (Now (with_timeout timeout w)).2
      = ((raw, k, err), wr) /\
    w' = cancel_timeout (Now wr).2 /\ n = Z.of_nat (length (points b)) /\
    obs o' = obs o ++ map f (block_readings d t b raw err).
Proof.
  intros Hl. unfold read_block. destruct (Now (with_timeout timeout w)) as [start w1]. cbn [snd].
  destruct (ReadWithRetry _ _ _ 0 w1) as [[[raw k] err] wr] eqn:Er. destruct (Now wr) as [stop w3] eqn:En.
  destruct err as [e|]; intros [= <- <- <-]; rewrite ?emit_decoded;
    match goal with |- live (emit_all p ?rs (record p ?q ?e ?a o)) /\ _ =>
      destruct (obs_record q e a o Hl) as [Hl1 Ho1]; destruct (obs_emit_all rs _ Hl1) as [Hl2 Ho2] end;
    (split; [done|]); exists raw, k; eexists _, wr; rewrite En; (split_and!; [done..|]);
    by rewrite Ho2, Ho1.
Qed.

(** A run over blocks, for any property [Q] of worlds that a read keeps and
    any property of the readings that each block establishes. *)
Lemma read_blocks_spec (Q : W -> Prop) (P : readBlock -> list Reading -> Prop) d timeout t bs :
  (forall b w raw k err wr, b ∈ bs -> Q w ->
     ReadWithRetry (functionCode b) (startAddress b) (quantity b) 0 (Now (with_timeout timeout w)).2
       = ((raw, k, err), wr) ->
     Q (cancel_timeout (Now wr).2) /\ P b (block_readings d t b raw err)) ->
  forall rc br w o rc' br' w' o', live o -> Q w ->
  read_blocks p d timeout t bs rc br w o = ((rc', br'), (w', o')) ->
  live o' /\ exists rss, obs o' = obs o ++ map f (concat rss) /\ Forall2 P bs rss /\ Q w' /\
    rc' = rc + Z.of_nat (length (concat (map points bs))) /\ br' = br + Z.of_nat (length bs).
Proof.
  intros HP. induction bs as [|b bs IH]; intros rc br w o rc' br' w' o' Hl HQ; cbn [read_blocks].
  { intros [= <- <- <- <-]. split; [done|]. exists []. cbn. rewrite app_nil_r. split_and!; [done|constructor|done|lia|lia]. }
  destruct (read_block p d timeout t b w o) as [n [w1 o1]] eqn:Eb. intros Hr.
  apply read_block_spec in Eb as (Hl1 & raw & k & err & wr & Er & -> & -> & Hobs); [|done].
  destruct (HP b w raw k err wr ltac:(left) HQ Er) as [HQ1 HPb].
  apply IH in Hr as (Hl2 & rss & Ho & Hf & HQ2 & -> & ->); [|intros; eapply HP; [by right|done..]|done|done].
  split; [done|]. exists (block_readings d t b raw err :: rss). cbn [concat map length].
  rewrite Ho, Hobs, map_app, length_app, app_assoc. split_and!; [done|by constructor|done|lia|lia].
Qed.

(** C7. A pass over a device emits exactly one reading for each of its data
    points of a known type, however the reads turn out: each with the device's
    id and name, the tag and unit of its point and the pass's timestamp, and with a value
    exactly when its quality is GOOD (a stale value is never reported); the
    counts it returns are the readings emitted and the requests planned. *)
Theorem pass_readings d pts timeout t w o rc br w' o' :
  live o -> readDevice p d pts timeout t w o = ((rc, br), (w', o')) ->
  exists rs, obs o' = obs o ++ map f rs /\
    map tag_of rs ≡ₚ map point_tag (filter known pts) /\
    Forall (well_formed d t) rs /\
    rc = Z.of_nat (length rs) /\ br = Z.of_nat (length (planBlockReads pts)).
Proof.
  intros Hl Hr. apply (read_blocks_spec (fun _ => True)
    (fun b rs => map tag_of rs = map point_tag (points b) /\ Forall (well_formed d t) rs)) in Hr
    as (_ & rss & Ho & Hf & _ & Hrc & Hbr); [|intros; split; [done|apply block_readings_ok]|done|done].
  exists (concat rss).
  assert (Ht : map tag_of (concat rss) = map point_tag (concat (map points (planBlockReads pts)))).
  { clear -Hf. induction Hf as [|b rs bs rss [Hb _] _ IH]; [done|]. cbn [concat map]. by rewrite !map_app, Hb, IH. }
  split_and!; [done| |..].
  - rewrite Ht. apply Permutation_map, plan_points.
  - apply Forall_concat. clear -Hf. by induction Hf as [|b rs bs rss [_ Hb] _ IH]; constructor.
  - rewrite Hrc. apply (f_equal length) in Ht. rewrite !length_map in Ht. lia.
  - rewrite Hbr. lia.
Qed.
End Pass.

(** * Block reads and dedicated reads *)

(** A single attempt: the retry loop with no retries is the read itself. *)
Lemma read_once `{Client C} fc a q (c : C) :
  ReadWithRetry fc a q 0 c =
  match Read fc a q c with
  | (Ok raw, c) => ((raw, 1, None), c)
  | (Err e, c) => (([], 1, Some (default e (ctx_err c))), c)
  end.
Proof.
  unfold ReadWithRetry. change (Z.to_nat (0 + 1)) with 1%nat. cbn [retry_loop].
  change (0 <? 0) with false. cbv iota.
  destruct (Read fc a q c) as [[raw|e] c']; [done|]. by destruct (ctx_err c').
Qed.

Section Memory.
Context (reg : Z -> Z -> list Z).
Hypothesis reg_width : forall fc a, length (reg fc a) = 2%nat.

(** The bytes of [q] registers from [a]. *)
Definition bytes_at (fc a q : Z) : list Z := concat (map (reg fc) (seqZ a q)).

Lemma bytes_length fc a q : 0 <= q -> length (bytes_at fc a q) = Z.to_nat (2 * q).
Proof.
  intros Hq. unfold bytes_at. replace (Z.to_nat (2 * q)) with (2 * length (seqZ a q))%nat
    by (rewrite length_seqZ; lia).
  clear Hq. induction (seqZ a q) as [|x l IH]; [done|]. cbn [map concat length].
  rewrite length_app, reg_width, IH. lia.
Qed.

Lemma bytes_app fc a q1 q2 :
  0 <= q1 -> 0 <= q2 -> bytes_at fc a (q1 + q2) = bytes_at fc a q1 ++ bytes_at fc (a + q1) q2.
Proof. intros. unfold bytes_at. by rewrite seqZ_app, map_app, concat_app. Qed.

Lemma bytes_slice fc s q a r :
  s <= a -> 0 <= r -> a + r <= s + q ->
  slice (Z.to_nat ((a - s) * 2)) (Z.to_nat ((a - s) * 2 + 2 * r)) (bytes_at fc s q) = bytes_at fc a r.
Proof.
  intros. replace q with ((a - s) + (r + (s + q - (a + r)))) by lia.
  rewrite bytes_app, (bytes_app fc (s + (a - s)) r) by lia. replace (s + (a - s)) with a by lia.
  unfold slice. rewrite drop_app_length' by (rewrite bytes_length; lia).
  rewrite take_app_length' by (rewrite bytes_length; lia). done.
Qed.

(** A point decoded from a block that covers it is decoded from its own bytes. *)
Lemma decoded_covered d t fc b dp :
  block_ok fc b -> addressable dp -> known dp -> covers b dp ->
  decoded_reading d dp (bytes_at fc (startAddress b) (quantity b)) (startAddress b) t =
  decoded_reading d dp (bytes_at fc (RegisterAddress dp) (registers dp)) (RegisterAddress dp) t.
Proof.
  intros Hb [Ha1 Ha2] [q Hq] [Hc1 Hc2]. destruct (RegisterCount (DataType dp)) as [q'|] eqn:E; [|done].
  destruct (count_inv _ _ E) as (Hr & _ & Hq4). rewrite Hr in *.
  destruct (register_count _ _ E) as (w & Hw & -> & _).
  pose proof (ok_start _ _ Hb). pose proof (ok_end _ _ Hb). pose proof (ok_quantity _ _ Hb).
  unfold decoded_reading. rewrite Hw, Z.sub_diag.
  rewrite (Int.u16_id (RegisterAddress dp - startAddress b)) by (unfold Int.is_u16; lia).
  rewrite (Int.u16_id 0), !bytes_length by (unfold Int.is_u16; lia).
  assert (G1 : (((RegisterAddress dp - startAddress b) * 2 <? 0) ||
    (Z.of_nat (Z.to_nat (2 * quantity b)) <? (RegisterAddress dp - startAddress b) * 2 + 2 * q')) = false)
    by (apply orb_false_iff; split; apply Z.ltb_ge; lia).
  assert (G2 : ((0 * 2 <? 0) || (Z.of_nat (Z.to_nat (2 * q')) <? 0 * 2 + 2 * q')) = false)
    by (apply orb_false_iff; split; apply Z.ltb_ge; lia).
  rewrite G1, G2, (bytes_slice fc (startAddress b)) by lia.
  replace (0 * 2) with ((RegisterAddress dp - RegisterAddress dp) * 2) by lia.
  by rewrite bytes_slice by lia.
Qed.

Definition dedicated_reading (d : Device) (t : Z) (dp : DataPoint) : Reading :=
decoded_reading d dp (bytes_at (FunctionCode dp) (RegisterAddress dp) (registers dp)) (RegisterAddress dp) t.

Context {W O X : Type} `{World W, GoOrder} (p : Poller O) (live : O -> Prop) (obs : O -> list X) (f : Reading -> X)
  `{!Observes p live obs f}.
(** A device that answers every legal register request from its memory. *)
Context (online : W -> Prop).
Hypothesis answers : forall fc a q w,
  online w -> fc <> FuncReadCoils -> fc <> FuncReadDiscreteInputs -> 0 <= a -> 1 <= q <= 125 -> a + q <= 65536 ->
  exists w', Read fc a q w = (Ok (bytes_at fc a q), w') /\ online w'.
Hypothesis stays_online : forall w t,
  online w -> online (Now w).2 /\ online (with_timeout t w) /\ online (cancel_timeout w).

Lemma dedicated_pass d pts timeout t w o rc br w' o' :
  live o -> online w -> Forall addressable pts ->
  Forall (fun dp => FunctionCode dp <> FuncReadCoils /\ FunctionCode dp <> FuncReadDiscreteInputs) pts ->
  readDevice p d pts timeout t w o = ((rc, br), (w', o')) ->
  live o' /\ exists rs, obs o' = obs o ++ map f rs /\ rs ≡ₚ map (dedicated_reading d t) (filter known pts).
Proof.
  intros Hl Hon Ha Hfc Hr. pose proof (plan_blocks_ok pts Ha) as Hok. rewrite Forall_forall in Hok.
  assert (Hpts : forall b dp, b ∈ planBlockReads pts -> dp ∈ points b -> dp ∈ filter known pts).
  { intros b dp Hb Hdp. rewrite <- (plan_points pts). apply list_elem_of_In, in_concat. exists (points b).
    split; [apply in_map|]; by apply list_elem_of_In. }
  apply (read_blocks_spec _ live obs f online
    (fun b rs => rs = map (dedicated_reading d t) (points b))) in Hr as (Hlive & rss & Ho & Hf & _); [|..|done|done].
  - split; [exact Hlive|]. exists (concat rss). split; [done|]. etrans; [|apply Permutation_map, (plan_points pts)].
    clear -Hf. induction Hf as [|b rs bs rss -> _ IH]; [done|]. cbn [concat map]. rewrite map_app.
    by apply Permutation_app_head.
  - intros b w0 raw k err wr Hb Hw0 Er. destruct (Hok b Hb) as [Hbo Hbf].
    pose proof (ok_start _ _ Hbo). pose proof (ok_quantity _ _ Hbo). pose proof (ok_end _ _ Hbo).
    assert (Hcoil : functionCode b <> FuncReadCoils /\ functionCode b <> FuncReadDiscreteInputs).
    { pose proof (ok_nonempty _ _ Hbo). destruct (points b) as [|dp l] eqn:Ep; [done|].
      apply Forall_cons in Hbf as [<- _].
      assert (Hdp : dp ∈ filter known pts) by (apply (Hpts b); [done|rewrite Ep; left]).
      apply list_elem_of_filter in Hdp as [_ Hdp]. by eapply Forall_forall in Hfc. }
    assert (Hnow : online (Now (with_timeout timeout w0)).2) by (apply (stays_online _ 0), stays_online, Hw0).
    rewrite read_once in Er.
    destruct (answers (functionCode b) (startAddress b) (quantity b) _ Hnow (proj1 Hcoil) (proj2 Hcoil)) as (w2 & E2 & Hw2);
        [lia|unfold maxRegistersPerBlock in *; lia|lia|].
      rewrite E2 in Er. injection Er as <- <- <- <-.
      split; [apply (stays_online _ 0), (stays_online _ 0), Hw2|].
      cbn [block_readings]. apply map_ext_in. intros dp Hdp. apply list_elem_of_In in Hdp.
      pose proof (Hpts b dp Hb Hdp) as Hin. apply list_elem_of_filter in Hin as [Hk Hin].
      pose proof (ok_points _ _ Hbo) as Hcov. rewrite Forall_forall in Hcov, Hbf, Ha.
      unfold dedicated_reading. rewrite (Hbf dp Hdp). eapply decoded_covered; [done|by apply Ha|done|by apply Hcov].
Qed.

(** C8. Merging reads changes nothing but the number of requests: on a device that answers
    from its registers, a pass emits for every known data point exactly
    the reading a dedicated request for its own registers would give. *)
Theorem block_reads_equal_dedicated d pts timeout t w o rc br w' o' :
  live o -> online w -> Forall addressable pts ->
  Forall (fun dp => FunctionCode dp <> FuncReadCoils /\ FunctionCode dp <> FuncReadDiscreteInputs) pts ->
  readDevice p d pts timeout t w o = ((rc, br), (w', o')) ->
  exists rs, obs o' = obs o ++ map f rs /\ rs ≡ₚ map (dedicated_reading d t) (filter known pts).
Proof. intros Hl Hon Ha Hfc Hr. by destruct (dedicated_pass d pts timeout t w o rc br w' o' Hl Hon Ha Hfc Hr). Qed.
End Memory.

(** * Coils and discrete inputs *)

Definition coil (fc : Z) : Prop := fc = FuncReadCoils \/ fc = FuncReadDiscreteInputs.

Lemma coil_block `{GoOrder} pts b :
  b ∈ planBlockReads pts -> Forall (fun dp => coil (FunctionCode dp)) pts ->
  exists dp q, dp ∈ pts /\ RegisterCount (DataType dp) = Ok q /\
    b = mkBlock (FunctionCode dp) (RegisterAddress dp) q [dp].
Proof.
  intros Hb Hc. unfold planBlockReads in Hb. apply list_elem_of_In, in_concat in Hb as (bs & Hbs & Hb).
  apply in_map_iff in Hbs as (fc & <- & Hfc). apply list_elem_of_In in Hb. apply list_elem_of_In in Hfc.
  rewrite range_keys_perm in Hfc. apply elem_of_remove_dups, list_elem_of_In, in_map_iff in Hfc as (dp0 & Hd0 & Hin).
  assert (Hcoil : coil fc). { rewrite <- Hd0. apply list_elem_of_In in Hin. by eapply Forall_forall in Hc. }
  unfold plan_fc in Hb. replace ((fc =? FuncReadCoils) || (fc =? FuncReadDiscreteInputs)) with true in Hb
    by (destruct Hcoil as [->| ->]; done).
  apply list_elem_of_omap in Hb as (dp & Hdp & Hs). apply list_elem_of_filter in Hdp as [<- Hdp].
  unfold single_block in Hs. destruct (RegisterCount (DataType dp)) as [q|] eqn:E; [|done].
  injection Hs as <-. by exists dp, q.
Qed.

Section Coils.
Context {W O X : Type} `{World W, GoOrder} (p : Poller O) (live : O -> Prop) (obs : O -> list X)
  (f : Reading -> X) `{!Observes p live obs f}.
(** A bit request for [q] points is answered with one byte per eight. *)
Hypothesis bit_packed : forall fc a q w raw w',
  coil fc -> 1 <= q -> Read fc a q w = (Ok raw, w') -> Z.of_nat (length raw) = (q + 7) / 8.

(** Data points on coils and discrete inputs (function codes 1 and 2, which
    validation accepts) can never be GOOD: the decoder asks for two bytes per
    register where the device answers with one byte per eight bits, so every
    reading of every pass is bad. *)
Theorem coils_never_good d pts timeout t w o rc br w' o' :
  live o -> Forall (fun dp => coil (FunctionCode dp)) pts ->
  readDevice p d pts timeout t w o = ((rc, br), (w', o')) ->
  exists rs, obs o' = obs o ++ map f rs /\ length rs = length (filter known pts) /\
    Forall (fun r => r_Quality r <> Good /\ r_Value r = None) rs.
Proof.
  intros Hl Hc Hr.
  apply (read_blocks_spec p live obs f (fun _ => True) (fun b rs => length rs = length (points b) /\
    Forall (fun r => r_Quality r <> Good /\ r_Value r = None) rs)) in Hr
    as (_ & rss & Ho & Hf & _); [|..|done|done].
  - exists (concat rss). split_and!; [done|..].
    + rewrite <- (plan_points pts). clear -Hf.
      induction Hf as [|b rs bs rss [Hb _] _ IH]; [done|]. cbn [concat map]. rewrite !length_app. lia.
    + apply Forall_concat. clear -Hf. by induction Hf as [|b rs bs rss [_ Hb] _ IH]; constructor.
  - intros b w0 raw k err wr Hb _ Er. split; [done|].
    destruct (coil_block pts b Hb Hc) as (dp & q & Hdp & Eq & ->). cbn [points].
    rewrite read_once in Er. cbn [functionCode startAddress quantity] in Er.
    destruct (Read _ _ _ _) as [[raw1|e] w2] eqn:Erd; injection Er as <- <- <- <-.
    + destruct (count_inv _ _ Eq) as (_ & _ & Hq). destruct (register_count _ _ Eq) as (wd & Hw & -> & _).
      apply bit_packed in Erd; [|by eapply Forall_forall in Hc|lia].
      cbn [block_readings map points startAddress]. split; [done|]. constructor; [|done].
      unfold decoded_reading. rewrite Hw, Z.sub_diag, Erd. change (Int.u16 0 * 2) with 0. rewrite Z.add_0_l.
      replace ((0 <? 0) || ((q + 7) / 8 <? 2 * q)) with true; [done|]. symmetry. apply orb_true_iff. right.
      apply Z.ltb_lt. apply Z.div_lt_upper_bound; lia.
    + split; [done|]. constructor; [|done]. split; [apply quality_bad|done].
Qed.
End Coils.

(** * Not a number *)

(** A register pair holding a NaN is reported as GOOD: decoding, scaling and the
    quality check let it through, and the chunk it is queued in can never be
    sent, since its JSON message cannot be encoded. *)
Theorem nan_register_unsendable d dp raw t :
  DataType dp = Float32 -> ByteOrder dp = "" -> length raw = 4%nat ->
  of_bits32 (Int.u32 (be raw)) = S754_nan ->
  let r := decoded_reading d dp raw (RegisterAddress dp) t in
  r_Quality r = Good /\ r_Value r = Some S754_nan /\
  forall n before after, Transports.unsendable (QueueStore.mkChunk n (before ++ queue_reading r :: after)).
Proof.
  intros Hd Ho Hl Hnan r.
  assert (Hr : r = mkReading (d_ID d) (d_Name d) (dp_ID dp) (TagName dp) (Some S754_nan) Good (Unit dp) t).
  { unfold r, decoded_reading. rewrite Hd, Ho, Z.sub_diag. change (Int.u16 0 * 2) with 0.
    change (ByteWidth Float32) with (@Ok modbus_error Z 4). cbv iota. rewrite Hl. cbn [Z.of_nat].
    change (slice (Z.to_nat 0) (Z.to_nat (0 + 4)) raw) with (take 4 raw). rewrite take_ge by lia.
    unfold Decode. change (ByteWidth Float32) with (@Ok modbus_error Z 4). res_simpl. rewrite Hl.
    change (reorder raw "") with (@Ok modbus_error (list Z) raw). res_simpl.
    change (interpret Float32 raw) with (@Ok modbus_error f64 (of_bits32 (Int.u32 (be raw)))).
    by rewrite Hnan. }
  rewrite Hr. split_and!; [done..|]. intros n before after.
  exists (queue_reading (mkReading (d_ID d) (d_Name d) (dp_ID dp) (TagName dp) (Some S754_nan) Good (Unit dp) t)), (to_bits S754_nan).
  split_and!; [|done|by vm_compute]. cbn [QueueStore.Readings]. apply elem_of_app. right. left.
Qed.

Lemma nan_register_unsendable_witness :
  let r := decoded_reading (mkDevice 1 "sensor" 1 1 true) (tag 1 40 Float32) [127; 192; 0; 0] 40 7 in
  r_Quality r = Good /\ r_Value r = Some S754_nan /\
  forall n before after, Transports.unsendable (QueueStore.mkChunk n (before ++ queue_reading r :: after)).
Proof.
  exact (nan_register_unsendable (mkDevice 1 "sensor" 1 1 true) (tag 1 40 Float32) [127; 192; 0; 0] 7
           eq_refl eq_refl eq_refl eq_refl).
Defined.

(** * The loop of a connection *)

Definition known_points (ds : list deviceWithPoints) : nat :=
  length (concat (map (fun dg => filter known (dps dg)) ds)).

Definition not_good (r : Reading) : Prop := r_Quality r <> Good /\ r_Value r = None.

Section Turns.
Context {W O X : Type} `{World W, GoOrder} (p : Poller O) (live : O -> Prop) (obs : O -> list X)
  (f : Reading -> X) `{!Observes p live obs f}.
(** [dead]: every request fails, and nothing but [Connect] or [Close] changes that. *)
Context (dead : W -> Prop).
Hypothesis dead_read : forall fc a q w, dead w -> exists e w', Read fc a q w = (Err e, w') /\ dead w'.
Hypothesis stays_dead : forall w t, dead w ->
  dead (Now w).2 /\ dead (with_timeout t w) /\ dead (cancel_timeout w) /\ dead (SetUnitID t w) /\ dead (sleep t w).2.

Lemma dead_device d pts timeout t w o rc br w' o' :
  live o -> dead w -> readDevice p d pts timeout t w o = ((rc, br), (w', o')) ->
  live o' /\ dead w' /\ exists rs, obs o' = obs o ++ map f rs /\ length rs = length (filter known pts) /\
    Forall not_good rs.
Proof.
  intros Hl Hd Hr.
  apply (read_blocks_spec p live obs f dead (fun b rs => length rs = length (points b) /\ Forall not_good rs)) in Hr
    as (Hl' & rss & Ho & Hf & Hd' & _); [|..|done|done].
  - split_and!; [done..|]. exists (concat rss). split_and!; [done|..].
    + rewrite <- (plan_points pts). clear -Hf.
      induction Hf as [|b rs bs rss [Hb _] _ IH]; [done|]. cbn [concat map]. rewrite !length_app. lia.
    + apply Forall_concat. clear -Hf. by induction Hf as [|b rs bs rss [_ Hb] _ IH]; constructor.
  - intros b w0 raw k err wr _ Hw0 Er. rewrite read_once in Er.
    assert (Hn : dead (Now (with_timeout timeout w0)).2) by (by apply (stays_dead _ 0), stays_dead).
    destruct (dead_read (functionCode b) (startAddress b) (quantity b) _ Hn) as (e & w2 & E2 & Hw2).
    rewrite E2 in Er. injection Er as <- <- <- <-.
    split; [by apply (stays_dead _ 0), (stays_dead _ 0)|]. cbn [block_readings]. rewrite length_map.
    split; [done|]. apply Forall_forall. intros r Hin. apply list_elem_of_In, in_map_iff in Hin as (dp & <- & _).
    split; [apply quality_bad|done].
Qed.

Lemma dead_wait d w : dead w -> dead (wait d w).2.
Proof. intros Hd. unfold wait. destruct (d <=? 0); [done|]. by apply stays_dead. Qed.

Lemma dead_devices timeout delay ds : forall w o go w' o',
  live o -> dead w -> poll_devices p timeout delay ds w o = (go, (w', o')) ->
  live o' /\ exists rs, obs o' = obs o ++ map f rs /\ Forall not_good rs /\
    (go = true -> dead w' /\ length rs = known_points ds).
Proof.
  induction ds as [|dg ds IH]; intros w o go w' o' Hl Hd; cbn [poll_devices].
  { intros [= <- <- <-]. split; [done|]. exists []. cbn. by rewrite app_nil_r. }
  destruct (cancelled w).
  { intros [= <- <- <-]. split; [done|]. exists []. cbn. by rewrite app_nil_r. }
  destruct (Now (SetUnitID _ w)) as [now w1] eqn:E1.
  assert (Hd1 : dead w1).
  { replace w1 with (Now (SetUnitID (Int.u8 (SlaveID (device dg))) w)).2 by (by rewrite E1).
    by apply (stays_dead _ 0), stays_dead. }
  destruct (Now w1) as [ds0 w2] eqn:E2.
  assert (Hd2 : dead w2) by (replace w2 with (Now w1).2 by (by rewrite E2); by apply (stays_dead _ 0)).
  destruct (readDevice p (device dg) (dps dg) timeout now w2 o) as [[rc br] [w3 o3]] eqn:Er.
  apply dead_device in Er as (Hl3 & Hd3 & rs & Ho3 & Hlen & Hbad); [|done..].
  assert (Hnext : forall o4 w4 go w' o', live o4 -> obs o4 = obs o3 -> dead w4 ->
    poll_devices p timeout delay ds w4 o4 = (go, (w', o')) ->
    live o' /\ exists rs, obs o' = obs o ++ map f rs /\ Forall not_good rs /\
      (go = true -> dead w' /\ length rs = known_points (dg :: ds))).
  { intros o4 w4 go' w'' o'' Hl4 Ho4 Hd4 Hr. apply IH in Hr as (Hl' & rs' & Ho' & Hb' & Hgo); [|done..].
    split; [done|]. exists (rs ++ rs'). split_and!; [|by apply Forall_app|].
    - by rewrite Ho', Ho4, Ho3, map_app, app_assoc.
    - intros ->. destruct (Hgo eq_refl) as [? Hn]. split; [done|]. unfold known_points in *. cbn [map concat].
      rewrite !length_app. lia. }
  destruct (0 <? rc); [|by intros Hr; eapply Hnext in Hr].
  match goal with |- context [match ?c with (o, w) => _ end = _] => destruct c as [o4 w4] eqn:E4 end.
  assert (H4 : live o4 /\ obs o4 = obs o3 /\ dead w4).
  { destruct (onPollCycle p) as [g|] eqn:Eg; [|by injection E4 as <- <-].
    destruct (Now w3) as [t3 w5] eqn:E5. injection E4 as <- <-.
    cut ((live (g (d_ID (device dg)) (Z.quot (time_sub t3 ds0) 1000000) rc br o3) /\
          obs (g (d_ID (device dg)) (Z.quot (time_sub t3 ds0) 1000000) rc br o3) = obs o3) /\ dead w5); [tauto|]. split.
    - by apply obs_cycle.
    - replace w5 with (Now w3).2 by (by rewrite E5). by apply (stays_dead _ 0). }
  destruct H4 as (Hl4 & Ho4 & Hd4). pose proof (dead_wait delay w4 Hd4) as Hd5.
  destruct (wait delay w4) as [[] w5]; [by intros Hr; eapply Hnext in Hr|].
  intros [= <- <- <-]. split; [done|]. exists rs. split_and!; [by rewrite Ho4|done|done].
Qed.

(** C26. A connection that dies is not reopened: once the poller has connected, it never calls
    [Connect] again, so if the client's requests fail from some moment on,
    then for any number of turns every reading of every device on the
    connection is bad, one for each known point and turn, until the poller is
    restarted. *)
Theorem dead_connection_never_reopened conn ds n w o c w' o' :
  live o -> dead w -> poll_loop p n conn ds true w o = (c, (w', o')) ->
  (c = None \/ c = Some true) /\ exists rs, obs o' = obs o ++ map f rs /\ Forall not_good rs /\
    (c = Some true -> length rs = (n * known_points ds)%nat).
Proof.
  revert w o. induction n as [|n IH]; intros w o Hl Hd; cbn [poll_loop].
  { intros [= <- <- <-]. split; [by right|]. exists []. cbn. by rewrite app_nil_r. }
  unfold poll_turn. destruct (cancelled w).
  { intros [= <- <- <-]. split; [by left|]. exists []. cbn. by rewrite app_nil_r. }
  destruct (poll_devices p _ _ ds w o) as [[] [w1 o1]] eqn:Ep;
    apply dead_devices in Ep as (Hl1 & rs & Ho1 & Hb1 & Hgo); try done.
  2:{ intros [= <- <- <-]. split; [by left|]. exists rs. by split_and!. }
  destruct (Hgo eq_refl) as [Hd1 Hn]. pose proof (dead_wait cycleYieldDelay w1 Hd1) as Hd2.
  destruct (wait cycleYieldDelay w1) as [[] w2]; intros Hr.
  - apply IH in Hr as (Hc & rs' & Ho' & Hb' & Hlen); [|done..]. split; [done|].
    exists (rs ++ rs'). split_and!; [by rewrite Ho', Ho1, map_app, app_assoc|by apply Forall_app|].
    intros E. rewrite length_app, (Hlen E). lia.
  - injection Hr as <- <- <-. split; [by left|]. exists rs. by split_and!.
Qed.
End Turns.

Section Offline.
Context {W O X : Type} `{World W, GoOrder} (p : Poller O) (live : O -> Prop) (obs : O -> list X)
  (f : Reading -> X) `{!Observes p live obs f}.

(** A failed connection is reported for every data point: the turn emits, for each
    device in order and each of its points, one reading without a value and
    with the quality the error is classified as (never GOOD), and the poller
    stays disconnected, to try again after the floor delay. *)
Theorem connect_failure_reported conn ds w o e w1 :
  live o -> cancelled w = false -> Connect w = (Err e, w1) ->
  exists now c w' o', poll_turn p conn ds false w o = (c, (w', o')) /\ (c = None \/ c = Some false) /\
    obs o' = obs o ++
      map f (concat (map (fun dg => map (fun dp => badReading (device dg) dp now (QualityFromError (Some e))) (dps dg)) ds)) /\
    QualityFromError (Some e) <> Good.
Proof.
  intros Hl Hc He. unfold poll_turn. rewrite Hc, He. destruct (Now w1) as [now w2].
  assert (Hobs : forall ds o, live o -> obs (foldl (fun o dg => emitDeviceOffline p (device dg) (dps dg) now e o) o ds) =
    obs o ++ map f (concat (map (fun dg => map (fun dp => badReading (device dg) dp now (QualityFromError (Some e))) (dps dg)) ds))).
  { clear He Hc Hl conn ds o w w1. induction ds as [|dg ds IH]; intros o Hl; cbn [foldl map concat]; [by rewrite app_nil_r|].
    unfold emitDeviceOffline at 2.
    destruct (obs_emit_all p live obs f (map (fun dp => badReading (device dg) dp now (QualityFromError (Some e))) (dps dg)) o Hl)
      as [Hl1 Ho1].
    rewrite IH by done. by rewrite Ho1, map_app, app_assoc. }
  exists now. destruct (wait reconnectFloorDelay w2) as [[] w3]; eexists _, _, _;
    (split_and!; [done|auto|by apply Hobs|apply quality_bad]).
Qed.
End Offline.

(** * Concrete worlds *)

(** A device whose register [a] holds [a], with bit-packed coils; the world is
    its clock. *)
Definition own_address (fc a : Z) : list Z := [a / 256 mod 256; a mod 256].

#[local] Instance memory_client : Client Z :=
  {| Connect := fun w => (Ok tt, w); CloseConn := fun w => w; SetUnitID := fun _ w => w;
     Read := fun fc a q w =>
       (if (fc =? FuncReadCoils) || (fc =? FuncReadDiscreteInputs)
        then Ok (replicate (Z.to_nat ((q + 7) / 8)) 0) else Ok (bytes_at own_address fc a q), w + 1);
     ctx_err := fun _ => None |}.
#[local] Instance memory_world : World Z :=
  {| Now := fun w => (w, w + 1); with_timeout := fun _ w => w; cancel_timeout := fun w => w;
     cancelled := fun _ => false; sleep := fun d w => (true, w + d) |}.

Definition sensor : Device := mkDevice 1 "sensor" 1 1 true.

Lemma pass_readings_witness :
  exists rs, (readDevice collector sensor four_tags 0 7 0 []).2.2 = [] ++ map id rs /\
    map tag_of rs ≡ₚ map point_tag (filter known four_tags) /\
    Forall (well_formed sensor 7) rs.
Proof.
  destruct (readDevice collector sensor four_tags 0 7 0 []) as [[rc br] [w' o']] eqn:E.
  destruct (pass_readings collector (fun _ => True) id id sensor four_tags 0 7 0 [] rc br w' o' I E)
    as (rs & ? & ? & ? & _). by exists rs.
Defined.

Lemma block_reads_equal_dedicated_witness :
  exists rs, (readDevice collector sensor four_tags 0 7 0 []).2.2 = [] ++ map id rs /\
    rs ≡ₚ map (dedicated_reading own_address sensor 7) (filter known four_tags).
Proof.
  destruct (readDevice collector sensor four_tags 0 7 0 []) as [[rc br] [w' o']] eqn:E.
  apply (block_reads_equal_dedicated own_address (fun _ _ => eq_refl) collector (fun _ => True) id id
           (fun _ => True)) with (3 := I) (4 := I) (7 := E).
  - intros fc a q w _ H1 H2 _ _ _. exists (w + 1). split; [|done]. cbn [Read world_client memory_world memory_client].
    apply Z.eqb_neq in H1 as ->. by apply Z.eqb_neq in H2 as ->.
  - done.
  - repeat constructor; by vm_compute.
  - repeat constructor; by vm_compute.
Defined.

Definition coil_point : DataPoint := mkDataPoint 9 1 "running" 1 16 UInt16 "" "" (of_Z 1) (of_Z 0) "" true.

Lemma coils_never_good_witness :
  exists rs, (readDevice collector sensor [coil_point] 0 7 0 []).2.2 = [] ++ map id rs /\ length rs = 1%nat /\
    Forall (fun r => r_Quality r <> Good /\ r_Value r = None) rs.
Proof.
  destruct (readDevice collector sensor [coil_point] 0 7 0 []) as [[rc br] [w' o']] eqn:E.
  apply (coils_never_good collector (fun _ => True) id id) with (2 := I) (4 := E).
  - intros fc a q w raw w2 Hc Hq. cbn [Read world_client memory_world memory_client].
    replace ((fc =? FuncReadCoils) || (fc =? FuncReadDiscreteInputs)) with true by (destruct Hc as [->| ->]; done).
    intros [= <- <-]. rewrite length_replicate, Z2Nat.id; [done|]. apply Z.div_pos; lia.
  - constructor; [by left|constructor].
Defined.

(** A link that [Connect] opens, and that has gone down ([false]). *)
#[local] Instance link_client : Client bool :=
  {| Connect := fun _ => (Ok tt, true); CloseConn := fun _ => false; SetUnitID := fun _ w => w;
     Read := fun _ _ q w =>
       (if w then Ok (replicate (Z.to_nat (2 * q)) 0) else Err (mkError false false false "broken pipe"), w);
     ctx_err := fun _ => None |}.
#[local] Instance link_world : World bool :=
  {| Now := fun w => (0, w); with_timeout := fun _ w => w; cancel_timeout := fun w => w;
     cancelled := fun _ => false; sleep := fun _ w => (true, w) |}.

Definition serial : Connection := mkConnection 1 "bus" RTU "/dev/ttyUSB0" "" 0 1000 3 true 250 9600 8 "N" 1.
Definition two_devices : list deviceWithPoints :=
  [mkGroup sensor four_tags; mkGroup (mkDevice 2 "meter" 1 2 true) [tag 9 7 UInt16]].

Lemma dead_connection_never_reopened_witness :
  let r := poll_loop collector 3 serial two_devices true false [] in
  (r.1 = None \/ r.1 = Some true) /\ exists rs, r.2.2 = [] ++ map id rs /\ Forall not_good rs /\
    (r.1 = Some true -> length rs = 18%nat).
Proof.
  cbv zeta. destruct (poll_loop collector 3 serial two_devices true false []) as [c [w' o']] eqn:E.
  apply (dead_connection_never_reopened collector (fun _ => True) id id (fun w => w = false)) with (3 := I) (4 := eq_refl)
    (conn := serial) (ds := two_devices) (n := 3%nat) (w' := w'); [|by intros w t ->|exact E].
  intros fc a q w ->. by eexists _, _.
Defined.

(** A link that cannot be opened. *)
#[local] Instance refused_client : Client unit :=
  {| Connect := fun w => (Err (mkError false false false "connection refused"), w); CloseConn := fun w => w;
     SetUnitID := fun _ w => w; Read := fun _ _ _ w => (Ok [], w); ctx_err := fun _ => None |}.
#[local] Instance refused_world : World unit :=
  {| Now := fun w => (0, w); with_timeout := fun _ w => w; cancel_timeout := fun w => w;
     cancelled := fun _ => false; sleep := fun _ w => (true, w) |}.

Lemma connect_failure_reported_witness :
  exists now c w' o', poll_turn collector serial two_devices false tt [] = (c, (w', o')) /\
    (c = None \/ c = Some false) /\
    o' = [] ++ map id (concat (map (fun dg => map (fun dp => badReading (device dg) dp now DeviceOffline) (dps dg)) two_devices)) /\
    DeviceOffline <> Good.
Proof.
  apply (connect_failure_reported collector (fun _ => True) id id serial two_devices tt []
           (mkError false false false "connection refused") tt); done.
Defined.
