(* ===== verification/Manager.v ===== *)
(** Supervision of the pollers (internal/acquisition/manager.go): [Reload] makes
    the running pollers match the configuration in the tables.

    A poller goroutine is a task.  Cancelling its context does not end it: it
    returns at some later moment, when [runConnectionWithClient] next looks. *)

From S2P Require Import Prelude Float64.
From S2P Require Import Modbus.
From S2P Require Import Inventory.
From S2P Require Import BlockPlan.
From S2P Require Import Poller.

Local Open Scope string_scope.
Local Open Scope list_scope.
Local Open Scope Z_scope.

(** A goroutine running [runConnection]. *)
Record Task := mkTask {
  t_conn : Connection;
  t_devices : list deviceWithPoints;
  t_cancelled : bool;
  t_returned : bool
}.

(** [runningConnection]: its [cancel] is the task it cancels. *)
Record runningConnection := mkRunning {
  rc_task : nat;
  rc_conn : Connection;
  rc_devices : list deviceWithPoints
}.

Record Manager := mkManager {
  running : gmap Z runningConnection;
  tasks : list Task
}.

Definition NewManager : Manager := mkManager ∅ [].

(** What [Reload] wants on a connection. *)
Definition Wanted : Type := Connection * list deviceWithPoints.

(** ** [reflect.DeepEqual]: floats are compared with [==] *)

Definition datapoint_equal (p q : DataPoint) : bool :=
  bool_decide (dp_ID p = dp_ID q) && bool_decide (dp_DeviceID p = dp_DeviceID q) &&
  bool_decide (TagName p = TagName q) && bool_decide (FunctionCode p = FunctionCode q) &&
  bool_decide (RegisterAddress p = RegisterAddress q) && bool_decide (DataType p = DataType q) &&
  bool_decide (ByteOrder p = ByteOrder q) && bool_decide (WordOrder p = WordOrder q) &&
  feq (Scale p) (Scale q) && feq (Offset p) (Offset q) &&
  bool_decide (Unit p = Unit q) && bool_decide (dp_Enabled p = dp_Enabled q).

Fixpoint all_equal {A} (eqb : A -> A -> bool) (l k : list A) : bool :=
  match l, k with
  | [], [] => true
  | x :: l, y :: k => eqb x y && all_equal eqb l k
  | _, _ => false
  end.

Definition group_equal (g h : deviceWithPoints) : bool :=
  bool_decide (device g = device h) && all_equal datapoint_equal (dps g) (dps h).

Definition unchanged (rc : runningConnection) (w : Wanted) : bool :=
  bool_decide (rc_conn rc = w.1) && all_equal group_equal (rc_devices rc) w.2.

(** * Reload *)

Definition connByID (conns : list Connection) : gmap Z Connection :=
  foldl (fun m c => <[c_ID c := c]> m) ∅ conns.

Definition add_group (c : Connection) (dg : deviceWithPoints) (wanted : gmap Z Wanted) : gmap Z Wanted :=
  <[c_ID c := match wanted !! c_ID c with
              | Some (conn, dgs) => (conn, dgs ++ [dg])
              | None => (c, [dg])
              end]> wanted.

Section Collect.
Context `{InvEnv}.

Fixpoint collect (conns : gmap Z Connection) (devices : list Device) (wanted : gmap Z Wanted) :
  M repo_error Inv (gmap Z Wanted) :=
match devices with
| [] => mret wanted
| d :: devices =>
  match conns !! ConnectionID d with
  | None => collect conns devices wanted
  | Some c =>
    pts ← datapoint_ListEnabledByDevice (d_ID d);
    collect conns devices (add_group c (mkGroup d pts) wanted)
  end
end.
End Collect.

Definition cancel (n : nat) (ts : list Task) : list Task :=
  alter (fun t => mkTask (t_conn t) (t_devices t) true (t_returned t)) n ts.

Definition stale (wanted : gmap Z Wanted) (id : Z) (rc : runningConnection) : Prop :=
  match wanted !! id with None => True | Some w => unchanged rc w = false end.
#[export] Instance stale_dec wanted id rc : Decision (stale wanted id rc).
Proof. unfold stale. destruct (wanted !! id); apply _. Defined.

(** The first loop: cancel and forget what is no longer wanted as it is. *)
Definition stop_stale (wanted : gmap Z Wanted) (m : Manager) : Manager :=
  mkManager (filter (fun '(id, rc) => ~ stale wanted id rc) (running m))
    (foldr (fun rc ts => cancel (rc_task rc) ts) (tasks m)
       (map snd (map_to_list (filter (fun '(id, rc) => stale wanted id rc) (running m))))).

(** The body of the second loop. *)
Definition start_one (m : Manager) (w : Z * Wanted) : Manager :=
  match running m !! w.1 with
  | Some _ => m
  | None =>
    mkManager (<[w.1 := mkRunning (length (tasks m)) w.2.1 w.2.2]> (running m))
      (tasks m ++ [mkTask w.2.1 w.2.2 false false])
  end.

Definition apply_wanted (wanted : gmap Z Wanted) (m : Manager) : Manager :=
  foldl start_one (stop_stale wanted m) (map_to_list wanted).

Definition Reload `{InvEnv} (m : Manager) : M repo_error Inv Manager :=
  devices ← device_ListEnabled;
  conns ← connection_ListEnabled;
  wanted ← collect (connByID conns) devices ∅;
  mret (apply_wanted wanted m).

(** A cancelled poller returns. *)
Definition task_returns (n : nat) (m : Manager) : Manager :=
  mkManager (running m) (alter (fun t => mkTask (t_conn t) (t_devices t) (t_cancelled t) true) n (tasks m)).

(** * Invariant *)

(** The pollers that are not cancelled are exactly the running ones. *)
Record manager_ok (m : Manager) : Prop := {
  ok_running : forall id rc, running m !! id = Some rc ->
    c_ID (rc_conn rc) = id /\
    exists r, tasks m !! rc_task rc = Some (mkTask (rc_conn rc) (rc_devices rc) false r);
  ok_tasks : forall n t, tasks m !! n = Some t -> t_cancelled t = false ->
    exists id rc, running m !! id = Some rc /\ rc_task rc = n
}.

Lemma manager_ok_new : manager_ok NewManager.
Proof. split; intros; simplify_map_eq. Qed.

Lemma task_of_inj m id id' rc rc' :
  manager_ok m -> running m !! id = Some rc -> running m !! id' = Some rc' -> rc_task rc = rc_task rc' -> id = id'.
Proof.
  intros Hm H1 H2 E. destruct (ok_running _ Hm _ _ H1) as [<- [r1 T1]].
  destruct (ok_running _ Hm _ _ H2) as [<- [r2 T2]]. rewrite E, T2 in T1. by injection T1 as -> _.
Qed.

Lemma lookup_cancel_ne n k ts : n <> k -> cancel n ts !! k = ts !! k.
Proof. intros Hn. unfold cancel. by apply list_lookup_alter_ne. Qed.

Lemma lookup_cancel n ts : cancel n ts !! n = (fun t => mkTask (t_conn t) (t_devices t) true (t_returned t)) <$> ts !! n.
Proof. unfold cancel. rewrite list_lookup_alter. by rewrite decide_True. Qed.

Lemma lookup_cancel_all rcs ts k :
  foldr (fun rc ts => cancel (rc_task rc) ts) ts rcs !! k =
  if decide (k ∈ map rc_task rcs) then (fun t => mkTask (t_conn t) (t_devices t) true (t_returned t)) <$> ts !! k
  else ts !! k.
Proof.
  induction rcs as [|rc rcs IH]; cbn [foldr map].
  { rewrite decide_False; [done|]. by intros ?%elem_of_nil. }
  destruct (decide (rc_task rc = k)) as [->|Hne].
  - rewrite lookup_cancel, IH. rewrite (decide_True (P := k ∈ k :: _)) by left.
    destruct (decide (k ∈ map rc_task rcs)); [|done]. by destruct (ts !! k) as [[]|].
  - rewrite lookup_cancel_ne, IH by done. destruct (decide (k ∈ map rc_task rcs)).
    + rewrite decide_True; [done|]. by right.
    + rewrite decide_False; [done|]. intros [?|?]%elem_of_cons; congruence.
Qed.

Lemma elem_of_stale wanted m k :
  k ∈ map rc_task (map snd (map_to_list (filter (fun '(id, rc) => stale wanted id rc) (running m)))) <->
  exists id rc, running m !! id = Some rc /\ stale wanted id rc /\ rc_task rc = k.
Proof.
  rewrite map_map. split.
  - intros Hk. apply list_elem_of_In, in_map_iff in Hk as ([id rc] & <- & Hin). apply list_elem_of_In in Hin.
    apply elem_of_map_to_list, map_lookup_filter_Some in Hin as [? ?]. by exists id, rc.
  - intros (id & rc & Hl & Hs & <-). apply list_elem_of_In, in_map_iff. exists (id, rc). split; [done|].
    apply list_elem_of_In, elem_of_map_to_list, map_lookup_filter_Some. done.
Qed.

Lemma stop_stale_ok wanted m : manager_ok m -> manager_ok (stop_stale wanted m).
Proof.
  intros Hm. split; unfold stop_stale; cbn [running tasks].
  - intros id rc Hl. apply map_lookup_filter_Some in Hl as [Hl Hns].
    destruct (ok_running _ Hm _ _ Hl) as [Hid [r Ht]]. split; [done|]. exists r.
    rewrite lookup_cancel_all, decide_False; [done|].
    rewrite elem_of_stale. intros (id' & rc' & Hl' & Hs & E).
    pose proof (task_of_inj m id' id rc' rc Hm Hl' Hl E) as ->. simplify_eq. by destruct (Hns Hs).
  - intros n t Ht Hc. rewrite lookup_cancel_all in Ht. case_decide as Hin.
    { apply fmap_Some in Ht as (t0 & _ & ->). done. }
    destruct (ok_tasks _ Hm _ _ Ht Hc) as (id & rc & Hl & <-). exists id, rc. split; [|done].
    apply map_lookup_filter_Some. split; [done|]. intros Hs. apply Hin, elem_of_stale. by exists id, rc.
Qed.

Lemma start_one_ok m (w : Z * Wanted) : manager_ok m -> c_ID w.2.1 = w.1 -> manager_ok (start_one m w).
Proof.
  intros Hm Hid. unfold start_one. destruct (running m !! w.1) as [rc|] eqn:El; [done|].
  split; cbn [running tasks].
  - intros id rc Hl. apply lookup_insert_Some in Hl as [[<- <-]|[Hne Hl]].
    + split; [done|]. exists false. cbn [rc_task rc_conn rc_devices].
      by rewrite lookup_app_r, Nat.sub_diag by done.
    + destruct (ok_running _ Hm _ _ Hl) as [? [r Ht]]. split; [done|]. exists r.
      rewrite lookup_app_l; [done|]. by eapply lookup_lt_Some.
  - intros n t Ht Hc. apply lookup_app_Some in Ht as [Ht|[Hn Ht]].
    + destruct (ok_tasks _ Hm _ _ Ht Hc) as (id & rc & Hl & Hr). exists id, rc. split; [|done].
      rewrite lookup_insert_ne; [done|]. intros <-. congruence.
    + exists w.1. eexists. split; [by rewrite lookup_insert_eq|]. cbn [rc_task].
      destruct (n - length (tasks m))%nat eqn:E; [lia|by destruct n0].
Qed.

(** The entry of a connection after the second loop. *)
Lemma start_one_running m (w : Z * Wanted) id :
  running (start_one m w) !! id =
  match running m !! id with
  | Some rc => Some rc
  | None => if decide (id = w.1) then Some (mkRunning (length (tasks m)) w.2.1 w.2.2) else None
  end.
Proof.
  unfold start_one. destruct (running m !! w.1) as [rc|] eqn:El.
  - destruct (running m !! id) eqn:E; [done|]. rewrite decide_False; [done|]. by intros ->; simplify_eq.
  - cbn [running]. destruct (decide (id = w.1)) as [->|Hne].
    + by rewrite lookup_insert_eq, El.
    + rewrite lookup_insert_ne by done. by destruct (running m !! id).
Qed.

Lemma start_all_spec (ws : list (Z * Wanted)) : forall m,
  manager_ok m -> NoDup (map fst ws) -> Forall (fun w => c_ID w.2.1 = w.1) ws ->
  let m' := foldl start_one m ws in
  manager_ok m' /\
  (forall id rc, running m !! id = Some rc -> running m' !! id = Some rc) /\
  (forall id, running m !! id = None ->
     match running m' !! id with
     | Some rc => (id, (rc_conn rc, rc_devices rc)) ∈ ws
     | None => id ∉ map fst ws
     end).
Proof.
  induction ws as [|w ws IH]; intros m Hm Hnd Hid; cbn [foldl map].
  { split_and!; [done..|]. intros id ->. by intros ?%elem_of_nil. }
  apply NoDup_cons in Hnd as [Hni Hnd]. inversion Hid; subst.
  destruct (IH (start_one m w)) as (Hm' & Hkeep & Hnew); [by apply start_one_ok|done..|].
  split_and!; [done| |].
  - intros id rc Hl. apply Hkeep. by rewrite start_one_running, Hl.
  - intros id Hn. pose proof (start_one_running m w id) as Hs. rewrite Hn in Hs.
    destruct (decide (id = w.1)) as [->|Hne].
    + rewrite (Hkeep _ _ Hs). cbn [rc_conn rc_devices]. destruct w as [? []]. left.
    + specialize (Hnew id Hs). destruct (running _ !! id); [by right|].
      by intros [?|?]%elem_of_cons.
Qed.

Lemma add_group_ids c dg wanted id :
  (forall i w, wanted !! i = Some w -> c_ID w.1 = i) ->
  forall w, add_group c dg wanted !! id = Some w -> c_ID w.1 = id.
Proof.
  intros Hw w. unfold add_group. intros [[<- <-]|[_ Hl]]%lookup_insert_Some; [|by apply Hw].
  destruct (wanted !! c_ID c) as [[conn dgs]|] eqn:E; [|done]. by apply (Hw _ _ E).
Qed.

Section ReloadFacts.
Context `{InvEnv}.

(** What [select] and [lift] leave alone. *)
Lemma statement_tables {A} (f : Tables -> result repo_error (A * Tables)) s r s' :
  (forall t a t', f t = Ok (a, t') -> t' = t) -> statement f s = (r, s') -> tables s' = tables s.
Proof.
  intros Hf. unfold statement. destruct (inv_fault (stmts s)); [by intros [= <- <-]|].
  destruct (f (tables s)) as [[a t]|e] eqn:E; intros [= <- <-]; [|done]. by apply Hf in E.
Qed.

Lemma select_ok {A} (f : Tables -> A) s a s' :
  select f s = (Ok a, s') -> a = f (tables s) /\ tables s' = tables s.
Proof.
  unfold select, statement. destruct (inv_fault (stmts s)); [done|]. by intros [= <- <-].
Qed.

(** The enabled data points of a device, as stored. *)
Definition points_of (t : Tables) (d : Device) : list DataPoint :=
match scan_all scanDataPoint (filter (fun r => pr_device_id r = d_ID d /\ pr_enabled r = 1) (t_datapoint t)) with
| Ok pts => pts
| Err _ => []
end.

Lemma list_points_ok d s pts s' :
  datapoint_ListEnabledByDevice (d_ID d) s = (Ok pts, s') ->
  points_of (tables s) d = pts /\ tables s' = tables s.
Proof.
  unfold datapoint_ListEnabledByDevice, points_of. intros Hr. step_inv Hr; [|done].
  destruct (select_ok _ _ _ _ H0) as [-> Ht]. unfold lift in Hr. injection Hr as Hr <-. by rewrite Hr, Ht.
Qed.

Lemma collect_ids conns ds : forall wanted s w s',
  (forall i c, conns !! i = Some c -> c_ID c = i) ->
  (forall i w, wanted !! i = Some w -> c_ID w.1 = i) ->
  collect conns ds wanted s = (Ok w, s') ->
  (forall i x, w !! i = Some x -> c_ID x.1 = i) /\ tables s' = tables s.
Proof.
  induction ds as [|d ds IH]; intros wanted s w s' Hc Hw; cbn [collect].
  { intros [= <- <-]. done. }
  destruct (conns !! ConnectionID d) as [c|] eqn:E; [|by apply IH].
  intros Hr. step_inv Hr; [|done]. apply list_points_ok in H0 as [_ Ht].
  apply IH in Hr as [? Ht']; [|done|]; [by rewrite Ht', Ht|].
  intros i y. by apply add_group_ids.
Qed.

Lemma connByID_ids cs : forall (m : gmap Z Connection) i c,
  (forall i c, m !! i = Some c -> c_ID c = i) ->
  foldl (fun m c => <[c_ID c := c]> m) m cs !! i = Some c -> c_ID c = i.
Proof.
  induction cs as [|c0 cs IH]; intros m i c Hm; cbn [foldl]; [by apply Hm|].
  apply IH. intros j c1 [[<- <-]|[_ ?]]%lookup_insert_Some; [done|by apply Hm].
Qed.
(** The groups of one connection, in the order of the device ids. *)
Definition groups_on (t : Tables) (ds : list Device) (id : Z) : list deviceWithPoints :=
map (fun d => mkGroup d (points_of t d)) (filter (fun d => ConnectionID d = id) ds).

Definition with_groups (old : option Wanted) (c : Connection) (gs : list deviceWithPoints) : option Wanted :=
match old with
| Some (c0, g) => Some (c0, g ++ gs)
| None => match gs with [] => None | _ => Some (c, gs) end
end.

Lemma collect_spec conns ds : forall wanted s w s' id,
  (forall i c, conns !! i = Some c -> c_ID c = i) ->
  collect conns ds wanted s = (Ok w, s') ->
  w !! id = match conns !! id with
            | None => wanted !! id
            | Some c => with_groups (wanted !! id) c (groups_on (tables s) ds id)
            end.
Proof.
  induction ds as [|d ds IH]; intros wanted s w s' id Hc; cbn [collect].
  { intros [= <- <-]. destruct (conns !! id); [|done]. unfold groups_on. cbn.
    destruct (wanted !! id) as [[c0 g]|]; [|done]. cbn. by rewrite app_nil_r. }
  unfold groups_on. rewrite filter_cons. destruct (conns !! ConnectionID d) as [c|] eqn:E.
  - intros Hr. step_inv Hr; [|done]. apply list_points_ok in H0 as [Hp Ht].
    rewrite (IH _ _ _ _ id Hc Hr), Ht. destruct (conns !! id) as [c1|] eqn:E1.
    + pose proof (Hc _ _ E) as Hid. destruct (decide (ConnectionID d = id)) as [<-|Hne].
      * rewrite E in E1. injection E1 as <-. unfold add_group. rewrite Hid, lookup_insert_eq.
        cbn [map]. rewrite Hp. unfold groups_on.
        destruct (wanted !! ConnectionID d) as [[c0 g]|]; cbn [with_groups]; [|done].
        by rewrite <- app_assoc.
      * unfold add_group. rewrite Hid, lookup_insert_ne by done. done.
    + unfold add_group. rewrite lookup_insert_ne; [done|]. rewrite (Hc _ _ E). intros Heq. subst. congruence.
  - intros Hr. rewrite (IH _ _ _ _ id Hc Hr). destruct (conns !! id) as [c1|] eqn:E1; [|done].
    rewrite decide_False; [done|]. intros <-. congruence.
Qed.
Lemma ids_of_list_ok {A} (scan : A -> result repo_error Connection) f s cs s' :
  (rows ← select f; lift (scan_all scan rows)) s = (Ok cs, s') ->
  scan_all scan (f (tables s)) = Ok cs /\ tables s' = tables s.
Proof.
  intros Hr. step_inv Hr; [|done]. apply select_ok in H0 as [-> Ht]. unfold lift in Hr.
  injection Hr as Hr <-. by rewrite Ht.
Qed.

Lemma devices_ok s ds s' :
  device_ListEnabled s = (Ok ds, s') ->
  scan_all scanDevice (filter (fun r => dr_enabled r = 1) (t_device (tables s))) = Ok ds /\ tables s' = tables s.
Proof.
  unfold device_ListEnabled. intros Hr. step_inv Hr; [|done]. apply select_ok in H0 as [-> Ht]. unfold lift in Hr.
  injection Hr as Hr <-. by rewrite Ht.
Qed.
End ReloadFacts.

(** The enabled connections and devices stored in the tables. *)
Definition enabled_connections (t : Tables) : gmap Z Connection :=
  match scan_all scanConnection (filter (fun r => cr_enabled r = 1) (t_connection t)) with
  | Ok cs => connByID cs
  | Err _ => ∅
  end.
Definition enabled_devices (t : Tables) : list Device :=
  match scan_all scanDevice (filter (fun r => dr_enabled r = 1) (t_device t)) with Ok ds => ds | Err _ => [] end.

(** What the configuration asks for on a connection. *)
Definition configured (t : Tables) (id : Z) : option Wanted :=
  match enabled_connections t !! id with
  | None => None
  | Some c => with_groups None c (groups_on t (enabled_devices t) id)
  end.

Lemma apply_wanted_spec (wanted : gmap Z Wanted) m :
  manager_ok m -> (forall i w, wanted !! i = Some w -> c_ID w.1 = i) ->
  manager_ok (apply_wanted wanted m) /\
  forall id,
    match running (apply_wanted wanted m) !! id, (wanted !! id : option Wanted) with
    | None, None => True
    | Some rc, Some w =>
      (rc_conn rc, rc_devices rc) = w \/ (running m !! id = Some rc /\ unchanged rc w = true)
    | _, _ => False
    end /\
    (forall rc w, running m !! id = Some rc -> wanted !! id = Some w -> unchanged rc w = true ->
       running (apply_wanted wanted m) !! id = Some rc).
Proof.
  intros Hm Hw. pose proof (stop_stale_ok wanted m Hm) as Hs.
  destruct (start_all_spec (map_to_list wanted) (stop_stale wanted m) Hs) as (Hm' & Hkeep & Hnew).
  { apply NoDup_fst_map_to_list. }
  { apply Forall_forall. intros [i w] Hi. apply elem_of_map_to_list in Hi. by apply Hw. }
  change (foldl start_one (stop_stale wanted m) (map_to_list wanted)) with (apply_wanted wanted m) in *.
  split; [done|]. intros id.
  assert (Hold : forall rc, running (stop_stale wanted m) !! id = Some rc <->
            running m !! id = Some rc /\ ~ stale wanted id rc) by (intros rc; apply map_lookup_filter_Some).
  split.
  - destruct (running (stop_stale wanted m) !! id) as [rc|] eqn:E.
    + rewrite (Hkeep _ _ E). destruct (proj1 (Hold rc) eq_refl) as [Hl Hns]. unfold stale in Hns.
      destruct (wanted !! id) as [w|]; [|tauto]. right. split; [done|]. by destruct (unchanged rc w).
    + specialize (Hnew id E). destruct (running (apply_wanted wanted m) !! id) as [rc|].
      * assert (Hw1 : (wanted !! id : option Wanted) = Some (rc_conn rc, rc_devices rc)) by (by apply elem_of_map_to_list).
        rewrite Hw1. by left.
      * destruct (wanted !! id) as [w|] eqn:Ew; [|done]. apply Hnew.
        apply list_elem_of_In, in_map_iff. exists (id, w). split; [done|]. apply list_elem_of_In.
        by apply elem_of_map_to_list.
  - intros rc w Hl Hwi Hu. apply Hkeep, Hold. split; [done|]. unfold stale. by rewrite Hwi, Hu.
Qed.

(** Starting only adds tasks at the end. *)
Lemma start_all_tasks (ws : list (Z * Wanted)) : forall m, tasks m `prefix_of` tasks (foldl start_one m ws).
Proof.
  induction ws as [|w ws IH]; intros m; [done|]. cbn [foldl]. etrans; [|apply IH].
  unfold start_one. destruct (running m !! w.1); [done|]. by apply prefix_app_r.
Qed.

Lemma start_all_fresh (ws : list (Z * Wanted)) : forall m id rc,
  manager_ok m -> NoDup (map fst ws) -> Forall (fun w => c_ID w.2.1 = w.1) ws ->
  running m !! id = None -> running (foldl start_one m ws) !! id = Some rc ->
  tasks (foldl start_one m ws) !! rc_task rc = Some (mkTask (rc_conn rc) (rc_devices rc) false false).
Proof.
  induction ws as [|w ws IH]; intros m id rc Hm Hnd Hid Hn Hl; cbn [foldl] in *; [congruence|].
  apply NoDup_cons in Hnd as [_ Hnd]. inversion Hid; subst.
  pose proof (start_one_running m w id) as Hs. rewrite Hn in Hs. case_decide as Hw.
  - destruct (start_all_spec ws (start_one m w)) as (_ & Hkeep & _); [by apply start_one_ok|done..|].
    rewrite (Hkeep _ _ Hs) in Hl. injection Hl as <-. cbn [rc_task rc_conn rc_devices].
    eapply prefix_lookup_Some; [|apply start_all_tasks]. unfold start_one. subst id. rewrite Hn. cbn [tasks].
    by rewrite lookup_app_r, Nat.sub_diag by done.
  - eapply IH; [by apply start_one_ok|done..].
Qed.

Lemma apply_wanted_overlap (wanted : gmap Z Wanted) m id rc w :
  manager_ok m -> (forall i w, wanted !! i = Some w -> c_ID w.1 = i) ->
  running m !! id = Some rc -> tasks m !! rc_task rc = Some (mkTask (rc_conn rc) (rc_devices rc) false false) ->
  wanted !! id = Some w -> unchanged rc w = false ->
  exists n, n <> rc_task rc /\
    tasks (apply_wanted wanted m) !! rc_task rc = Some (mkTask (rc_conn rc) (rc_devices rc) true false) /\
    tasks (apply_wanted wanted m) !! n = Some (mkTask w.1 w.2 false false).
Proof.
  intros Hm Hw Hl Ht Hwi Hu. pose proof (stop_stale_ok wanted m Hm) as Hs.
  assert (Hst : stale wanted id rc) by (unfold stale; by rewrite Hwi).
  assert (Hnone : running (stop_stale wanted m) !! id = None).
  { apply map_lookup_filter_None. right. intros rc' Hl'. rewrite Hl in Hl'. injection Hl' as <-. tauto. }
  assert (Hold : tasks (stop_stale wanted m) !! rc_task rc = Some (mkTask (rc_conn rc) (rc_devices rc) true false)).
  { unfold stop_stale. cbn [tasks]. rewrite lookup_cancel_all, decide_True; [by rewrite Ht|].
    apply elem_of_stale. by exists id, rc. }
  destruct (proj2 (apply_wanted_spec wanted m Hm Hw) id) as [Hspec _]. rewrite Hwi in Hspec.
  destruct (running (apply_wanted wanted m) !! id) as [rc'|] eqn:E; [|done].
  destruct Hspec as [<-|[Hl' Hu']]; [|congruence].
  assert (Hnew : tasks (apply_wanted wanted m) !! rc_task rc' = Some (mkTask (rc_conn rc') (rc_devices rc') false false)).
  { apply (start_all_fresh (map_to_list wanted) (stop_stale wanted m) id rc'); [done|apply NoDup_fst_map_to_list| |done..].
    apply Forall_forall. intros [i w] Hi. apply elem_of_map_to_list in Hi. by apply Hw. }
  assert (Hold' : tasks (apply_wanted wanted m) !! rc_task rc = Some (mkTask (rc_conn rc) (rc_devices rc) true false)).
  { eapply prefix_lookup_Some; [done|apply start_all_tasks]. }
  exists (rc_task rc'). split_and!; [|done|done]. intros E'. rewrite E' in Hnew. congruence.
Qed.

Section Properties.
Context `{InvEnv}.

(** A successful [Reload] applies the configured map. *)
Lemma reload_applies m m' s s' :
  Reload m s = (Ok m', s') ->
  tables s' = tables s /\ exists wanted : gmap Z Wanted,
    m' = apply_wanted wanted m /\ (forall i w, wanted !! i = Some w -> c_ID w.1 = i) /\
    forall id, wanted !! id = configured (tables s) id.
Proof.
  unfold Reload. intros Hr. step_inv Hr; [|done]. rename x into ds.
  apply devices_ok in H0 as [Hds Ht1]. step_inv Hr; [|done]. rename x into cs.
  apply ids_of_list_ok in H0 as [Hcs Ht2]. step_inv Hr; [|done]. rename x into wanted.
  injection Hr as <- <-.
  assert (Hc : forall i c, connByID cs !! i = Some c -> c_ID c = i) by (intros i c; by apply connByID_ids).
  assert (Hw0 : forall i w, (∅ : gmap Z Wanted) !! i = Some w -> c_ID w.1 = i)
    by (intros i w Hi; by rewrite lookup_empty in Hi).
  destruct (collect_ids _ _ _ _ _ _ Hc Hw0 H0) as [Hw Ht3].
  split; [congruence|]. exists wanted. split_and!; [done..|]. intros id.
  rewrite (collect_spec _ _ _ _ _ _ id Hc H0), lookup_empty.
  unfold configured, enabled_connections, enabled_devices. rewrite Ht2, Ht1 in *. by rewrite Hcs, Hds.
Qed.

(** C15. Reloading makes the pollers match the configuration: after a successful
    [Reload] there is exactly one poller that is not cancelled for each enabled connection with an
    enabled device, polling its enabled devices and points in order (as stored, or as before when
    [DeepEqual] finds no change), and none for any other; pollers of unchanged connections
    are not disturbed and the tables are untouched. *)
Theorem reload_matches_configuration m m' s s' :
  manager_ok m -> Reload m s = (Ok m', s') ->
  manager_ok m' /\ tables s' = tables s /\
  forall id,
    match running m' !! id, configured (tables s) id with
    | None, None => True
    | Some rc, Some w =>
      (rc_conn rc, rc_devices rc) = w \/ (running m !! id = Some rc /\ unchanged rc w = true)
    | _, _ => False
    end /\
    (forall rc w, running m !! id = Some rc -> configured (tables s) id = Some w -> unchanged rc w = true ->
       running m' !! id = Some rc).
Proof.
  intros Hm Hr. apply reload_applies in Hr as (Ht & wanted & -> & Hw & Hc).
  destruct (apply_wanted_spec wanted m Hm Hw) as [Hm' Hspec]. split_and!; [done..|].
  intros id. rewrite <- Hc. apply Hspec.
Qed.

(** Reloading does not wait for a cancelled poller: when a connection or one
    of its devices was edited, right after [Reload] the old poller, which has
    not returned, and the new one both hold the connection, so two clients can be
    on one serial bus at a time. *)
Theorem reload_overlaps_pollers m m' s s' id rc w :
  manager_ok m -> Reload m s = (Ok m', s') ->
  running m !! id = Some rc -> tasks m !! rc_task rc = Some (mkTask (rc_conn rc) (rc_devices rc) false false) ->
  configured (tables s) id = Some w -> unchanged rc w = false ->
  exists n, n <> rc_task rc /\
    tasks m' !! rc_task rc = Some (mkTask (rc_conn rc) (rc_devices rc) true false) /\
    tasks m' !! n = Some (mkTask w.1 w.2 false false).
Proof.
  intros Hm Hr Hl Ht Hc Hu. apply reload_applies in Hr as (_ & wanted & -> & Hw & Hwc).
  apply (apply_wanted_overlap wanted m id rc w); [done..|by rewrite Hwc|done].
Qed.
End Properties.

(** * Concrete configuration: one bus, one device, then its slave id edited *)

#[local] Instance no_faults : InvEnv := {| inv_fault := fun _ => false |}.

Definition bus : Connection := mkConnection 1 "bus" RTU "/dev/ttyUSB0" "" 0 1000 3 true 250 9600 8 "N" 1.
Definition sensor_with (slave : Z) : Device := mkDevice 1 "sensor" 1 slave true.
Definition level_point : DataPoint :=
  mkDataPoint 1 1 "level" 3 0 UInt16 "" "" (of_Z 1) (of_Z 0) "m" true.
Definition stored (slave : Z) : Inv :=
  mkInv (mkTables [conn_row 1 bus] 1 [dev_row 1 (sensor_with slave)] [dp_row 1 1 level_point] 1) 0.
Definition polling (slave : Z) : Manager := apply_wanted {[1 := (bus, [mkGroup (sensor_with slave) [level_point]])]} NewManager.

Lemma polling_ok slave : manager_ok (polling slave).
Proof. apply apply_wanted_spec; [apply manager_ok_new|]. by intros i w [<- <-]%lookup_singleton_Some. Qed.

Lemma reload_matches_configuration_witness :
  exists m' s', Reload (polling 1) (stored 2) = (Ok m', s') /\ manager_ok m' /\
    configured (tables (stored 2)) 1 = Some (bus, [mkGroup (sensor_with 2) [level_point]]).
Proof.
  destruct (Reload (polling 1) (stored 2)) as [[m'|e] s'] eqn:E; [|by vm_compute in E].
  destruct (reload_matches_configuration (polling 1) m' (stored 2) s' (polling_ok 1) E) as [Hm' _].
  exists m', s'. split_and!; [done|done|by vm_compute].
Defined.

Lemma reload_overlaps_pollers_witness :
  exists m' n, n <> 0%nat /\
    tasks m' !! 0%nat = Some (mkTask bus [mkGroup (sensor_with 1) [level_point]] true false) /\
    tasks m' !! n = Some (mkTask bus [mkGroup (sensor_with 2) [level_point]] false false).
Proof.
  destruct (Reload (polling 1) (stored 2)) as [[m'|e] s'] eqn:E; [|by vm_compute in E].
  exists m'.
  apply (reload_overlaps_pollers (polling 1) m' (stored 2) s' 1
           (mkRunning 0 bus [mkGroup (sensor_with 1) [level_point]])
           (bus, [mkGroup (sensor_with 2) [level_point]]) (polling_ok 1) E); by vm_compute.
Defined.
