(* ===== verification/InventoryProps.v ===== *)
(** The configuration tables under the repositories' operations: keys,
    referential integrity, and what is read back. *)

From S2P Require Import Prelude Float64.
From S2P Require Import Modbus.
From S2P Require Import Inventory.

Local Open Scope string_scope.
Local Open Scope list_scope.
Local Open Scope Z_scope.

(** * Rows in key order *)

Section Rows.
Context {R : Type} (key : R -> Z).

Definition keys_ok (hi : Z) (rows : list R) : Prop :=
StronglySorted Z.lt (map key rows) /\ Forall (fun r => 1 <= key r <= hi) rows.

Lemma keys_append hi rows r :
  keys_ok hi rows -> 0 <= hi -> key r = hi + 1 -> keys_ok (hi + 1) (rows ++ [r]).
Proof.
  intros [Hs Hr] H0 Hk. split.
  - rewrite map_app. cbn [map]. rewrite Hk. clear Hk.
    induction rows as [|x rows IH]; cbn [map app] in *; [repeat constructor|].
    apply StronglySorted_inv in Hs as [Hs Hx]. inversion Hr as [|? ? Hxr Hr']; subst.
    constructor; [by apply IH|]. apply Forall_app. split; [done|]. repeat constructor. lia.
  - apply Forall_app. split; [|repeat constructor; lia].
    eapply Forall_impl; [exact Hr|]. intros x Hx. cbn beta in Hx. lia.
Qed.

Lemma keys_update hi id f rows :
  (forall r, key r = id -> key (f r) = id) -> keys_ok hi rows -> keys_ok hi (update_row key id f rows).
Proof.
  intros Hf [Hs Hr].
  assert (Hm : map key (update_row key id f rows) = map key rows).
  { unfold update_row. rewrite map_map. apply map_ext. intros r.
    destruct (key r =? id) eqn:E; [|done]. zbool. by rewrite (Hf r). }
  split; [by rewrite Hm|]. apply (Forall_map key (fun k => 1 <= k <= hi)). unfold fmap in *.
  change (Forall (fun k => 1 <= k <= hi) (map key (update_row key id f rows))). rewrite Hm.
  by apply (Forall_map key (fun k => 1 <= k <= hi)).
Qed.

Lemma keys_filter hi (P : R -> Prop) `{!forall r, Decision (P r)} rows :
  keys_ok hi rows -> keys_ok hi (filter P rows).
Proof.
  intros [Hs Hr]. split; [|by apply Forall_filter]. clear Hr.
  induction rows as [|x rows IH]; [done|]. cbn [map] in Hs. apply StronglySorted_inv in Hs as [Hs Hx].
  rewrite filter_cons. case_decide; [|by apply IH]. cbn [map]. constructor; [by apply IH|].
  apply Forall_forall. intros k Hk. apply list_elem_of_In, in_map_iff in Hk as (y & <- & Hy).
  apply list_elem_of_In, list_elem_of_filter in Hy as [_ Hy]. rewrite Forall_forall in Hx.
  apply Hx, list_elem_of_In, in_map. by apply list_elem_of_In.
Qed.

Lemma keys_unique hi rows r1 r2 :
  keys_ok hi rows -> r1 ∈ rows -> r2 ∈ rows -> key r1 = key r2 -> r1 = r2.
Proof.
  intros [Hs _]. induction rows as [|x rows IH]; intros H1 H2 E; [by apply elem_of_nil in H1|].
  cbn [map] in Hs. apply StronglySorted_inv in Hs as [Hs Hx]. rewrite Forall_forall in Hx.
  assert (Hlt : forall y, y ∈ rows -> key x < key y).
  { intros y Hy. apply Hx, list_elem_of_In, in_map. by apply list_elem_of_In. }
  apply elem_of_cons in H1 as [->|H1]; apply elem_of_cons in H2 as [->|H2]; [done|..|by apply IH].
  - specialize (Hlt _ H2). lia.
  - specialize (Hlt _ H1). lia.
Qed.

(** With unique keys, at most one row is selected by key. *)
Lemma affected_one hi rows r : keys_ok hi rows -> r ∈ rows -> affected key (key r) rows = [r].
Proof.
  intros [Hs _] Hr. unfold affected. induction rows as [|x rows IH]; [by apply elem_of_nil in Hr|].
  cbn [map] in Hs. apply StronglySorted_inv in Hs as [Hs Hx]. rewrite Forall_forall in Hx.
  assert (Hlt : forall y, y ∈ rows -> key x < key y).
  { intros y Hy. apply Hx, list_elem_of_In, in_map. by apply list_elem_of_In. }
  rewrite filter_cons. apply elem_of_cons in Hr as [->|Hr].
  - rewrite decide_True by done. f_equal. apply filter_none, Forall_forall.
    intros y Hy. specialize (Hlt _ Hy). lia.
  - rewrite decide_False; [by apply IH|]. specialize (Hlt _ Hr). lia.
Qed.
End Rows.

Lemma max_id_ge rows r : r ∈ rows -> dr_id r <= max_id rows.
Proof.
  induction rows as [|x rows IH]; intros Hr; [by apply elem_of_nil in Hr|].
  unfold max_id in *. cbn [map foldr]. apply elem_of_cons in Hr as [->|Hr]; [lia|]. specialize (IH Hr). lia.
Qed.

Lemma max_id_nonneg rows : 0 <= max_id rows.
Proof. unfold max_id. induction rows; cbn [map foldr]; lia. Qed.

Lemma device_keys hi rows : keys_ok dr_id hi rows -> keys_ok dr_id (max_id rows) rows.
Proof.
  intros [Hs Hr]. split; [done|]. rewrite Forall_forall in *. intros r Hin. specialize (Hr r Hin).
  pose proof (max_id_ge rows r Hin). lia.
Qed.

(** * The invariant of the tables *)

Record tables_ok (t : Tables) : Prop := {
  ok_connections : keys_ok cr_id (hi_connection t) (t_connection t);
  ok_devices : keys_ok dr_id (max_id (t_device t)) (t_device t);
  ok_datapoints : keys_ok pr_id (hi_datapoint t) (t_datapoint t);
  ok_hi : 0 <= hi_connection t /\ 0 <= hi_datapoint t;
  ok_device_fk : forall d, d ∈ t_device t -> exists c, c ∈ t_connection t /\ cr_id c = dr_connection_id d;
  ok_datapoint_fk : forall p, p ∈ t_datapoint t -> exists d, d ∈ t_device t /\ dr_id d = pr_device_id p;
  ok_protocols : Forall (fun r => cr_protocol r ∈ [RTU; TCP]) (t_connection t)
}.

Lemma tables_ok_empty : tables_ok empty_tables.
Proof. split; try (by repeat constructor); by intros ? ?%elem_of_nil. Qed.

Lemma elem_of_update_row {R} (key : R -> Z) id f rows r :
  r ∈ update_row key id f rows -> exists r0, r0 ∈ rows /\ r = if key r0 =? id then f r0 else r0.
Proof.
  intros Hr. apply list_elem_of_In, in_map_iff in Hr as (r0 & <- & H0). exists r0.
  split; [by apply list_elem_of_In|done].
Qed.

Lemma update_row_elem {R} (key : R -> Z) id f rows r0 :
  r0 ∈ rows -> (if key r0 =? id then f r0 else r0) ∈ update_row key id f rows.
Proof.
  intros H0. unfold update_row. apply list_elem_of_In. apply (in_map (fun r => if key r =? id then f r else r)).
  by apply list_elem_of_In.
Qed.

Lemma existsb_key {R} (key : R -> Z) id rows :
  existsb (fun r => key r =? id) rows = true -> exists r, r ∈ rows /\ key r = id.
Proof.
  intros He. apply existsb_exists in He as (r & Hr & E). zbool. exists r.
  split; [by apply list_elem_of_In|done].
Qed.

(** * Every statement keeps it *)

Section Statements.
Context `{InvEnv}.

(** Whatever a statement keeps, running it keeps, faults included. *)
Lemma statement_keeps {A} (P : Tables -> Prop) (f : Tables -> result repo_error (A * Tables)) s r s' :
  (forall a t', f (tables s) = Ok (a, t') -> P t') -> P (tables s) ->
  statement f s = (r, s') -> P (tables s').
Proof.
  intros Hf HP. unfold statement. destruct (inv_fault (stmts s)); [by intros [= <- <-]|].
  destruct (f (tables s)) as [[a t]|e] eqn:E; intros [= <- <-]; [by eapply Hf|done].
Qed.

Lemma checked_keeps {A} (P : Tables -> Prop) e (rows : list A) s r s' :
  P (tables s) -> checkRowsAffected e rows s = (r, s') -> P (tables s').
Proof. intros HP. unfold checkRowsAffected. by destruct rows; intros [= <- <-]. Qed.

(** A statement followed by the check of the rows it affected. *)
Lemma checked_statement_keeps {A} (P : Tables -> Prop) e (f : Tables -> result repo_error (list A * Tables)) s r s' :
  (forall a t', f (tables s) = Ok (a, t') -> P t') -> P (tables s) ->
  (rows ← statement f; checkRowsAffected e rows) s = (r, s') -> P (tables s').
Proof.
  intros Hf HP Hr. step_inv Hr.
  - eapply checked_keeps; [|done]. by eapply statement_keeps.
  - by eapply statement_keeps.
Qed.

Lemma connection_Create_keeps c s r s' :
  tables_ok (tables s) -> connection_Create c s = (r, s') -> tables_ok (tables s').
Proof.
  intros Hk. apply statement_keeps; [|done]. intros a t'. destruct (connection_ok c) eqn:Ec; [|done].
  intros [= _ <-]. destruct Hk as [K1 K2 K3 [K4 K4'] K5 K6 K7]. split; cbn; try done.
  - by apply keys_append.
  - split; [lia|done].
  - intros d Hd. destruct (K5 d Hd) as (c0 & ? & ?). exists c0. split; [|done]. apply elem_of_app. by left.
  - apply Forall_app. split; [done|]. apply Forall_singleton. by apply bool_decide_eq_true in Ec.
Qed.

Lemma connection_Update_keeps id c s r s' :
  tables_ok (tables s) -> connection_Update id c s = (r, s') -> tables_ok (tables s').
Proof.
  intros Hk. apply checked_statement_keeps; [|done]. intros a t'.
  cbv zeta. destruct (bool_decide _ && negb _) eqn:Ec; [done|].
  intros [= _ <-]. destruct Hk as [K1 K2 K3 K4 K5 K6 K7]. split; cbn; try done.
  - by apply keys_update.
  - intros d Hd. destruct (K5 d Hd) as (c0 & Hc0 & Hid).
    exists (if cr_id c0 =? id then conn_row id c else c0). split.
    + by apply (update_row_elem cr_id id (fun _ => conn_row id c)).
    + destruct (cr_id c0 =? id) eqn:E; [|done]. zbool. cbn. congruence.
  - apply Forall_forall. intros r0 Hr0. apply elem_of_update_row in Hr0 as (r1 & Hr1 & ->).
    rewrite Forall_forall in K7. destruct (cr_id r1 =? id) eqn:E; [|by apply K7]. zbool.
    apply andb_false_iff in Ec as [Ec|Ec].
    + apply bool_decide_eq_false in Ec. apply dec_stable in Ec.
      assert (Hin : r1 ∈ affected cr_id id (t_connection (tables s))) by (by apply list_elem_of_filter).
      rewrite Ec in Hin. by apply elem_of_nil in Hin.
    + apply negb_false_iff in Ec. by apply bool_decide_eq_true in Ec.
Qed.

Lemma connection_Delete_keeps id s r s' :
  tables_ok (tables s) -> connection_Delete id s = (r, s') -> tables_ok (tables s').
Proof.
  intros Hk. unfold connection_Delete. intros Hr. apply bind_inv in Hr as [(n & s1 & Hn & Hr)|(e & Hn & _)].
  2:{ eapply statement_keeps; [|done|exact Hn]. by intros a t' [= _ <-]. }
  assert (Hk1 : tables_ok (tables s1)) by (eapply statement_keeps; [|exact Hk|exact Hn]; by intros a t' [= _ <-]).
  destruct (0 <? n); [by injection Hr as _ <-|]. revert Hr. apply checked_statement_keeps; [|done].
  intros a t'.
  cbv zeta. destruct (bool_decide _ && bool_decide _) eqn:Ec; [done|].
  intros [= _ <-]. destruct Hk1 as [K1 K2 K3 K4 K5 K6 K7]. split; cbn; try done.
  - by apply keys_filter.
  - intros d Hd. destruct (K5 d Hd) as (c0 & Hc0 & Hid). exists c0. split; [|done].
    apply list_elem_of_filter. split; [|done]. intros Hc0id.
    apply andb_false_iff in Ec as [Ec|Ec]; apply bool_decide_eq_false in Ec; apply dec_stable in Ec.
    + assert (Hin : c0 ∈ affected cr_id id (t_connection (tables s1))) by (by apply list_elem_of_filter).
      rewrite Ec in Hin. by apply elem_of_nil in Hin.
    + assert (Hin : d ∈ devices_on id (tables s1)) by (apply list_elem_of_filter; split; [congruence|done]).
      rewrite Ec in Hin. by apply elem_of_nil in Hin.
  - by apply Forall_filter.
Qed.

Lemma device_Create_keeps d s r s' :
  tables_ok (tables s) -> device_Create d s = (r, s') -> tables_ok (tables s').
Proof.
  intros Hk. apply statement_keeps; [|done]. intros a t'. destruct (device_ok (tables s) d) eqn:Ec; [|done].
  intros [= _ <-]. destruct Hk as [K1 K2 K3 K4 K5 K6 K7]. split; cbn; try done.
  - apply (device_keys (max_id (t_device (tables s)) + 1)). apply keys_append; [done|apply max_id_nonneg|done].
  - intros x Hx. apply elem_of_app in Hx as [Hx|Hx]; [by apply K5|].
    apply list_elem_of_singleton in Hx as ->. by apply existsb_key in Ec.
  - intros p Hp. destruct (K6 p Hp) as (d0 & ? & ?). exists d0. split; [|done]. apply elem_of_app. by left.
Qed.

Lemma device_Update_keeps id d s r s' :
  tables_ok (tables s) -> device_Update id d s = (r, s') -> tables_ok (tables s').
Proof.
  intros Hk. apply checked_statement_keeps; [|done]. intros a t'.
  cbv zeta. destruct (bool_decide _ && negb _) eqn:Ec; [done|].
  intros [= _ <-]. destruct Hk as [K1 K2 K3 K4 K5 K6 K7]. split; cbn; try done.
  - apply (device_keys (max_id (t_device (tables s)))). by apply keys_update.
  - intros x Hx. apply elem_of_update_row in Hx as (r1 & Hr1 & ->).
    destruct (dr_id r1 =? id) eqn:E; [|by apply K5]. zbool.
    apply andb_false_iff in Ec as [Ec|Ec].
    + apply bool_decide_eq_false in Ec. apply dec_stable in Ec.
      assert (Hin : r1 ∈ affected dr_id id (t_device (tables s))) by (by apply list_elem_of_filter).
      rewrite Ec in Hin. by apply elem_of_nil in Hin.
    + apply negb_false_iff in Ec. by apply existsb_key in Ec.
  - intros p Hp. destruct (K6 p Hp) as (d0 & Hd0 & Hid).
    exists (if dr_id d0 =? id then dev_row id d else d0). split.
    + by apply (update_row_elem dr_id id (fun _ => dev_row id d)).
    + destruct (dr_id d0 =? id) eqn:E; [|done]. zbool. cbn. congruence.
Qed.

Lemma device_Delete_keeps id s r s' :
  tables_ok (tables s) -> device_Delete id s = (r, s') -> tables_ok (tables s').
Proof.
  intros Hk. apply checked_statement_keeps; [|done]. intros a t' [= _ <-].
  destruct Hk as [K1 K2 K3 K4 K5 K6 K7]. split; cbn; try done.
  - apply (device_keys (max_id (t_device (tables s)))). by apply keys_filter.
  - by apply keys_filter.
  - intros x Hx. apply list_elem_of_filter in Hx as [_ Hx]. by apply K5.
  - intros p Hp. apply list_elem_of_filter in Hp as [Hne Hp]. destruct (K6 p Hp) as (d0 & Hd0 & Hid).
    exists d0. split; [|done]. apply list_elem_of_filter. split; [congruence|done].
Qed.

Lemma datapoint_Create_keeps dp s r s' :
  tables_ok (tables s) -> datapoint_Create dp s = (r, s') -> tables_ok (tables s').
Proof.
  intros Hk. apply statement_keeps; [|done]. intros a t'.
  destruct (parent_device (tables s) (dp_DeviceID dp) && datapoint_ok dp) eqn:Ec; [|done]. zbool.
  intros [= _ <-]. destruct Hk as [K1 K2 K3 [K4 K4'] K5 K6 K7]. split; cbn; try done.
  - by apply keys_append.
  - split; [done|lia].
  - intros p Hp. apply elem_of_app in Hp as [Hp|Hp]; [by apply K6|].
    apply list_elem_of_singleton in Hp as ->. match goal with H : parent_device _ _ = true |- _ => by apply existsb_key in H end.
Qed.

Lemma datapoint_Update_keeps id dp s r s' :
  tables_ok (tables s) -> datapoint_Update id dp s = (r, s') -> tables_ok (tables s').
Proof.
  intros Hk. apply checked_statement_keeps; [|done]. intros a t'.
  cbv zeta. destruct (bool_decide _ && negb _); [done|].
  intros [= _ <-]. destruct Hk as [K1 K2 K3 K4 K5 K6 K7]. split; cbn; try done.
  - by apply keys_update.
  - intros p Hp. apply elem_of_update_row in Hp as (r1 & Hr1 & ->).
    destruct (K6 r1 Hr1) as (d0 & ? & ?). exists d0. by destruct (pr_id r1 =? id).
Qed.

Lemma datapoint_Delete_keeps id s r s' :
  tables_ok (tables s) -> datapoint_Delete id s = (r, s') -> tables_ok (tables s').
Proof.
  intros Hk. apply checked_statement_keeps; [|done]. intros a t' [= _ <-].
  destruct Hk as [K1 K2 K3 K4 K5 K6 K7]. split; cbn; try done.
  - by apply keys_filter.
  - intros p Hp. apply list_elem_of_filter in Hp as [_ Hp]. by apply K6.
Qed.
End Statements.

(** * Properties *)

(** A call that changes the tables. *)
Inductive repo_op :=
| CreateConnection (c : Connection)
| UpdateConnection (id : Z) (c : Connection)
| DeleteConnection (id : Z)
| CreateDevice (d : Device)
| UpdateDevice (id : Z) (d : Device)
| DeleteDevice (id : Z)
| CreateDataPoint (dp : DataPoint)
| UpdateDataPoint (id : Z) (dp : DataPoint)
| DeleteDataPoint (id : Z).

Section Properties.
Context `{InvEnv}.

Definition run_op (op : repo_op) (s : Inv) : Inv :=
match op with
| CreateConnection c => (connection_Create c s).2
| UpdateConnection id c => (connection_Update id c s).2
| DeleteConnection id => (connection_Delete id s).2
| CreateDevice d => (device_Create d s).2
| UpdateDevice id d => (device_Update id d s).2
| DeleteDevice id => (device_Delete id s).2
| CreateDataPoint dp => (datapoint_Create dp s).2
| UpdateDataPoint id dp => (datapoint_Update id dp s).2
| DeleteDataPoint id => (datapoint_Delete id s).2
end.

Lemma run_op_keeps op s : tables_ok (tables s) -> tables_ok (tables (run_op op s)).
Proof.
  intros Hk.
  destruct op as [c|id c|id|d|id d|id|dp|id dp|id]; cbn [run_op]; match goal with
  | |- context [(?m s).2] => destruct (m s) as [r s'] eqn:E
  end; cbn [snd].
  - by eapply connection_Create_keeps.
  - by eapply connection_Update_keeps.
  - by eapply connection_Delete_keeps.
  - by eapply device_Create_keeps.
  - by eapply device_Update_keeps.
  - by eapply device_Delete_keeps.
  - by eapply datapoint_Create_keeps.
  - by eapply datapoint_Update_keeps.
  - by eapply datapoint_Delete_keeps.
Qed.

(** The configuration stays consistent: after any sequence of repository
    calls on an empty gateway.db, with any statements failing, ids are unique, positive and in
    order, every device's connection and every data point's device exist, and
    every stored protocol is RTU or TCP. *)
Theorem configuration_consistent (ops : list repo_op) :
  tables_ok (tables (foldl (fun s op => run_op op s) (mkInv empty_tables 0) ops)).
Proof.
  assert (Hs : forall s, tables_ok (tables s) -> tables_ok (tables (foldl (fun s op => run_op op s) s ops))).
  { induction ops as [|op ops IH]; intros s Hs; [done|]. cbn [foldl]. by apply IH, run_op_keeps. }
  apply Hs, tables_ok_empty.
Qed.

(** A statement that does not fail. *)
Lemma statement_runs {A} (f : Tables -> result repo_error (A * Tables)) s :
  inv_fault (stmts s) = false ->
  statement f s = match f (tables s) with
                  | Ok (a, t) => (Ok a, mkInv t (S (stmts s)))
                  | Err e => (Err e, mkInv (tables s) (S (stmts s)))
                  end.
Proof. intros Hf. unfold statement. by rewrite Hf. Qed.

Lemma nullable_string s : null_string (nullable s) = s.
Proof. unfold nullable. destruct (s =? "")%string eqn:E; [|done]. by apply String.eqb_eq in E as ->. Qed.

Lemma bool_int b : negb (boolToInt b =? 0) = b.
Proof. by destruct b. Qed.

Lemma scan_conn_row id c :
  scanConnection (conn_row id c) =
  Ok (mkConnection id (c_Name c) (Protocol c) (Interface c) (IPAddress c) (Port c) (TimeoutMs c) (c_Retry c)
        (c_Enabled c) (NextDeviceDelayMs c) (BaudRate c) (DataBits c) (Parity c) (StopBits c)).
Proof.
  unfold scanConnection, conn_row. cbn [cr_id cr_name cr_protocol cr_interface cr_ip_address cr_port cr_timeout_ms
    cr_retry cr_enabled cr_next_device_delay_ms cr_baud_rate cr_data_bits cr_parity cr_stop_bits default].
  by rewrite !nullable_string, bool_int.
Qed.

Lemma scan_dev_row id d : scanDevice (dev_row id d) = Ok (mkDevice id (d_Name d) (ConnectionID d) (SlaveID d) (d_Enabled d)).
Proof. unfold scanDevice, dev_row. cbn [dr_id dr_name dr_connection_id dr_slave_id dr_enabled default]. by rewrite bool_int. Qed.

(** The values a [DataPoint]'s uint8 and uint16 fields can hold. *)
Definition dp_range (dp : DataPoint) : Prop := Int.is_u8 (FunctionCode dp) /\ Int.is_u16 (RegisterAddress dp).

Lemma scan_dp_row id device dp :
  dp_range dp ->
  scanDataPoint (dp_row id device dp) =
  Ok (mkDataPoint id device (TagName dp) (FunctionCode dp) (RegisterAddress dp) (DataType dp) (ByteOrder dp)
        (WordOrder dp) (Scale dp) (Offset dp) (Unit dp) (dp_Enabled dp)).
Proof.
  intros [[F1 F2] [R1 R2]]. unfold scanDataPoint, dp_row.
  cbn [pr_id pr_device_id pr_tag_name pr_function_code pr_register_address pr_data_type pr_byte_order pr_word_order
    pr_scale pr_offset pr_unit pr_enabled].
  apply Z.leb_le in F1 as ->. apply Z.ltb_lt in F2 as ->. apply Z.leb_le in R1 as ->. apply Z.ltb_lt in R2 as ->.
  cbn [andb]. by rewrite nullable_string, bool_int.
Qed.

(** Configuration round-trips through gateway.db: a connection, a device or
    a data point that [Create] accepted is read back by [Get] under the
    returned id with every field as given, empty strings and flags included. *)
Theorem create_then_get c d dp s :
  tables_ok (tables s) -> dp_range dp -> (forall n, (n < 2)%nat -> inv_fault (stmts s + n) = false) ->
  (forall id s', connection_Create c s = (Ok id, s') ->
     (connection_Get id s').1 =
     Ok (mkConnection id (c_Name c) (Protocol c) (Interface c) (IPAddress c) (Port c) (TimeoutMs c) (c_Retry c)
           (c_Enabled c) (NextDeviceDelayMs c) (BaudRate c) (DataBits c) (Parity c) (StopBits c))) /\
  (forall id s', device_Create d s = (Ok id, s') ->
     (device_Get id s').1 = Ok (mkDevice id (d_Name d) (ConnectionID d) (SlaveID d) (d_Enabled d))) /\
  (forall id s', datapoint_Create dp s = (Ok id, s') ->
     (datapoint_Get id s').1 =
     Ok (mkDataPoint id (dp_DeviceID dp) (TagName dp) (FunctionCode dp) (RegisterAddress dp) (DataType dp)
           (ByteOrder dp) (WordOrder dp) (Scale dp) (Offset dp) (Unit dp) (dp_Enabled dp))).
Proof.
  intros Hk Hdp Hf. pose proof (Hf 0%nat ltac:(lia)) as F0. pose proof (Hf 1%nat ltac:(lia)) as F1.
  rewrite Nat.add_0_r in F0. rewrite Nat.add_1_r in F1.
  split_and!; intros id s' Hc.
  - pose proof (connection_Create_keeps _ _ _ _ Hk Hc) as Hk'. unfold connection_Create in Hc.
    rewrite statement_runs in Hc by done. destruct (connection_ok c); [|done]. injection Hc as <- <-.
    unfold connection_Get, select. erewrite bind_ok by (by rewrite statement_runs).
    cbn [tables t_connection set_connections].
    pose proof (affected_one cr_id _ _ (conn_row (hi_connection (tables s) + 1) c) (ok_connections _ Hk')) as Ha.
    cbn [tables t_connection set_connections cr_id conn_row] in Ha.
    rewrite Ha; [cbn [get_one]; unfold lift; cbn [fst]; apply scan_conn_row|].
    apply elem_of_app. right. by apply list_elem_of_singleton.
  - pose proof (device_Create_keeps _ _ _ _ Hk Hc) as Hk'. unfold device_Create in Hc.
    rewrite statement_runs in Hc by done. destruct (device_ok (tables s) d); [|done]. injection Hc as <- <-.
    unfold device_Get, select. erewrite bind_ok by (by rewrite statement_runs).
    cbn [tables t_device set_devices].
    pose proof (affected_one dr_id _ _ (dev_row (max_id (t_device (tables s)) + 1) d) (ok_devices _ Hk')) as Ha.
    cbn [tables t_device set_devices dr_id dev_row] in Ha.
    rewrite Ha; [cbn [get_one]; unfold lift; cbn [fst]; apply scan_dev_row|].
    apply elem_of_app. right. by apply list_elem_of_singleton.
  - pose proof (datapoint_Create_keeps _ _ _ _ Hk Hc) as Hk'. unfold datapoint_Create in Hc.
    rewrite statement_runs in Hc by done. destruct (parent_device _ _ && datapoint_ok dp); [|done]. injection Hc as <- <-.
    unfold datapoint_Get, select. erewrite bind_ok by (by rewrite statement_runs).
    cbn [tables t_datapoint set_datapoints].
    pose proof (affected_one pr_id _ _ (dp_row (hi_datapoint (tables s) + 1) (dp_DeviceID dp) dp) (ok_datapoints _ Hk')) as Ha.
    cbn [tables t_datapoint set_datapoints pr_id dp_row] in Ha.
    rewrite Ha; [cbn [get_one]; unfold lift; cbn [fst]; by apply scan_dp_row|].
    apply elem_of_app. right. by apply list_elem_of_singleton.
Qed.
End Properties.

#[local] Instance no_faults : InvEnv := {| inv_fault := fun _ => false |}.

Definition sample_connection : Connection :=
  mkConnection 0 "plant" TCP "" "10.0.0.5" 502 1000 3 true 250 9600 8 "N" 1.
Definition sample_device : Device := mkDevice 0 "meter" 1 7 true.
Definition sample_point : DataPoint :=
  mkDataPoint 0 1 "kW" 3 10 Float32 "CDAB" "" (of_Z 1) (of_Z 0) "" true.
Definition sample_tables : Inv :=
  foldl (fun s op => run_op op s) (mkInv empty_tables 0) [CreateConnection sample_connection; CreateDevice sample_device].

Lemma create_then_get_witness :
  (datapoint_Get 1 (datapoint_Create sample_point sample_tables).2).1 =
    Ok (mkDataPoint 1 1 "kW" 3 10 Float32 "CDAB" "" (of_Z 1) (of_Z 0) "" true) /\
  (connection_Get 2 (connection_Create sample_connection sample_tables).2).1 =
    Ok (mkConnection 2 "plant" TCP "" "10.0.0.5" 502 1000 3 true 250 9600 8 "N" 1).
Proof.
  destruct (create_then_get sample_connection sample_device sample_point sample_tables) as (Hc & _ & Hp).
  - unfold sample_tables. cbn [foldl]. apply run_op_keeps, run_op_keeps, tables_ok_empty.
  - split; by vm_compute.
  - done.
  - split; [apply Hp|apply Hc]; vm_compute; reflexivity.
Defined.
