(* ===== verification/Api.v ===== *)
(** The configuration API (internal/api: connections.go, devices.go,
    datapoints.go, and [reload] of router.go).

    A request is its path id ([None] when it does not parse) and its decoded
    body ([None] when it is not JSON of the right shape); a handler returns the
    HTTP status and what it writes.  The DTOs of connections and data points
    have exactly the models' fields, so [toConnection], [toConnectionDTO] and
    the like are identities here; file Dto puts the DTOs and their JSON around
    these handlers. *)

From S2P Require Import Prelude GoTime Float64.
From S2P Require Import Modbus.
From S2P Require Import Inventory.
From S2P Require Import BlockPlan.
From S2P Require Import Observers.
From S2P Require Import Poller.
From S2P Require Import Manager.

Local Open Scope string_scope.
Local Open Scope list_scope.
Local Open Scope Z_scope.

(** [Server], as far as these handlers use it; the manager may be nil. *)
Record Api := mkApi {
  inv : Inv;
  manager : option Manager;
  a_status : StatusStore;
  a_latest : option LatestStore
}.

Inductive api_error :=
| BadID
| InvalidJSON
| ValidationFailed (e : invalid)
| RepoFailed (e : repo_error).

Inductive body (B : Type) :=
| JSON (b : B)
| ErrorBody (e : api_error)
| NoContent.
Arguments JSON {B} b.
Arguments ErrorBody {B} e.
Arguments NoContent {B}.

Definition response (B : Type) : Type := Z * body B.

(** ** DTOs *)

Record deviceDTO := mkDeviceDTO {
  dto_device : Device;
  dto_Status : string;
  dto_LastSeen : option Z;
  dto_LastPollDurationMs : option Z;
  dto_DatapointsPolled : Z;
  dto_BlockReads : Z
}.

Definition toDeviceDTO (st : StatusStore) (d : Device) : deviceDTO :=
  match status_Get (d_ID d) st with
  | None => mkDeviceDTO d "" None None 0 0
  | Some i =>
    if 0 <? DatapointsPolled i then
      mkDeviceDTO d (i_Quality i) (Some (LastSeen i)) (Some (LastPollDurationMs i)) (DatapointsPolled i) (BlockReads i)
    else mkDeviceDTO d (i_Quality i) (Some (LastSeen i)) None 0 0
  end.

Record dataPointDTO := mkDataPointDTO {
  dto_point : DataPoint;
  LastValue : option f64;
  LastQuality : string;
  LastReadAt : option Z
}.

Definition toDataPointDTO (dp : DataPoint) : dataPointDTO := mkDataPointDTO dp None "" None.

Definition withLatest (l : option LatestStore) (dto : dataPointDTO) : dataPointDTO :=
  match l with
  | None => dto
  | Some m =>
    match latest_Get (dp_ID (dto_point dto)) m with
    | None => dto
    | Some lv => mkDataPointDTO (dto_point dto) (lv_Value lv) (lv_Quality lv) (Some (lv_At lv))
    end
  end.

Definition with_connection_id (id : Z) (c : Connection) : Connection :=
  mkConnection id (c_Name c) (Protocol c) (Interface c) (IPAddress c) (Port c) (TimeoutMs c) (c_Retry c)
    (c_Enabled c) (NextDeviceDelayMs c) (BaudRate c) (DataBits c) (Parity c) (StopBits c).
Definition with_device_id (id : Z) (d : Device) : Device :=
  mkDevice id (d_Name d) (ConnectionID d) (SlaveID d) (d_Enabled d).
Definition with_connection (conn : Z) (d : Device) : Device :=
  mkDevice (d_ID d) (d_Name d) conn (SlaveID d) (d_Enabled d).
Definition with_point_id (id : Z) (dp : DataPoint) : DataPoint :=
  mkDataPoint id (dp_DeviceID dp) (TagName dp) (FunctionCode dp) (RegisterAddress dp) (DataType dp) (ByteOrder dp)
    (WordOrder dp) (Scale dp) (Offset dp) (Unit dp) (dp_Enabled dp).
Definition with_device (device : Z) (dp : DataPoint) : DataPoint :=
  mkDataPoint (dp_ID dp) device (TagName dp) (FunctionCode dp) (RegisterAddress dp) (DataType dp) (ByteOrder dp)
    (WordOrder dp) (Scale dp) (Offset dp) (Unit dp) (dp_Enabled dp).

(** ** Errors of the repositories as HTTP statuses *)

Definition writeConnectionRepoError {B} (e : repo_error) : response B :=
  (match e with ConnectionNotFound => 404 | ErrInUse => 409 | _ => 500 end, ErrorBody (RepoFailed e)).
Definition writeDeviceRepoError {B} (e : repo_error) : response B :=
  (match e with DeviceNotFound => 404 | _ => 500 end, ErrorBody (RepoFailed e)).
Definition writeDataPointRepoError {B} (e : repo_error) : response B :=
  (match e with DatapointNotFound => 404 | _ => 500 end, ErrorBody (RepoFailed e)).

Section Handlers.
Context `{InvEnv}.

Definition set_inv (s : Inv) (a : Api) : Api := mkApi s (manager a) (a_status a) (a_latest a).

(** A repository call from a handler. *)
Definition run {A} (m : M repo_error Inv A) (a : Api) : result repo_error A * Api :=
let '(r, s) := m (inv a) in (r, set_inv s a).

(** [reload]: a failure is only logged, and leaves the pollers as they are. *)
Definition reload (a : Api) : Api :=
match manager a with
| None => a
| Some m =>
  match run (Reload m) a with
  | (Ok m', a') => mkApi (inv a') (Some m') (a_status a') (a_latest a')
  | (Err _, a') => a'
  end
end.

(** * Connections *)

Definition listConnections (a : Api) : response (list Connection) * Api :=
match run connection_List a with
| (Err e, a) => ((500, ErrorBody (RepoFailed e)), a)
| (Ok cs, a) => ((200, JSON cs), a)
end.

Definition createConnection (dto : option Connection) (a : Api) : response Connection * Api :=
match dto with
| None => ((400, ErrorBody InvalidJSON), a)
| Some c =>
  match validate_connection c with
  | Err e => ((400, ErrorBody (ValidationFailed e)), a)
  | Ok _ =>
    match run (connection_Create c) a with
    | (Err e, a) => ((500, ErrorBody (RepoFailed e)), a)
    | (Ok id, a) => ((201, JSON (with_connection_id id c)), reload a)
    end
  end
end.

Definition updateConnection (id : option Z) (dto : option Connection) (a : Api) : response Connection * Api :=
match id with
| None => ((400, ErrorBody BadID), a)
| Some id =>
  match dto with
  | None => ((400, ErrorBody InvalidJSON), a)
  | Some c =>
    let c := with_connection_id id c in
    match validate_connection c with
    | Err e => ((400, ErrorBody (ValidationFailed e)), a)
    | Ok _ =>
      match run (connection_Update id c) a with
      | (Err e, a) => (writeConnectionRepoError e, a)
      | (Ok _, a) => ((200, JSON c), reload a)
      end
    end
  end
end.

Definition deleteConnection (id : option Z) (a : Api) : response unit * Api :=
match id with
| None => ((400, ErrorBody BadID), a)
| Some id =>
  match run (connection_Delete id) a with
  | (Err e, a) => (writeConnectionRepoError e, a)
  | (Ok _, a) => ((204, NoContent), reload a)
  end
end.

(** * Devices *)

Definition listDevices (a : Api) : response (list deviceDTO) * Api :=
match run device_List a with
| (Err e, a) => ((500, ErrorBody (RepoFailed e)), a)
| (Ok ds, a) => ((200, JSON (map (toDeviceDTO (a_status a)) ds)), a)
end.

Definition createDevice (dto : option Device) (a : Api) : response deviceDTO * Api :=
match dto with
| None => ((400, ErrorBody InvalidJSON), a)
| Some d =>
  match validate_device d with
  | Err e => ((400, ErrorBody (ValidationFailed e)), a)
  | Ok _ =>
    match run (device_Create d) a with
    | (Err e, a) => ((500, ErrorBody (RepoFailed e)), a)
    | (Ok id, a) => ((201, JSON (toDeviceDTO (a_status a) (with_device_id id d))), reload a)
    end
  end
end.

Definition updateDevice (id : option Z) (dto : option Device) (a : Api) : response deviceDTO * Api :=
match id with
| None => ((400, ErrorBody BadID), a)
| Some id =>
  match dto with
  | None => ((400, ErrorBody InvalidJSON), a)
  | Some d =>
    let d := with_device_id id d in
    match validate_device d with
    | Err e => ((400, ErrorBody (ValidationFailed e)), a)
    | Ok _ =>
      match run (device_Update id d) a with
      | (Err e, a) => (writeDeviceRepoError e, a)
      | (Ok _, a) => ((200, JSON (toDeviceDTO (a_status a) d)), reload a)
      end
    end
  end
end.

Definition deleteDevice (id : option Z) (a : Api) : response unit * Api :=
match id with
| None => ((400, ErrorBody BadID), a)
| Some id =>
  match run (device_Delete id) a with
  | (Err e, a) => (writeDeviceRepoError e, a)
  | (Ok _, a) => ((204, NoContent), reload a)
  end
end.

(** * Data points *)

Definition listDataPoints (id : option Z) (a : Api) : response (list dataPointDTO) * Api :=
match id with
| None => ((400, ErrorBody BadID), a)
| Some id =>
  match run (datapoint_ListByDevice id) a with
  | (Err e, a) => ((500, ErrorBody (RepoFailed e)), a)
  | (Ok dps, a) => ((200, JSON (map (fun dp => withLatest (a_latest a) (toDataPointDTO dp)) dps)), a)
  end
end.

Definition createDataPoint (device : option Z) (dto : option DataPoint) (a : Api) : response dataPointDTO * Api :=
match device with
| None => ((400, ErrorBody BadID), a)
| Some device =>
  match run (device_Get device) a with
  | (Err e, a) => (writeDeviceRepoError e, a)
  | (Ok _, a) =>
    match dto with
    | None => ((400, ErrorBody InvalidJSON), a)
    | Some dp =>
      let dp := with_device device dp in
      match validate_datapoint dp with
      | Err e => ((400, ErrorBody (ValidationFailed e)), a)
      | Ok _ =>
        match run (datapoint_Create dp) a with
        | (Err e, a) => ((500, ErrorBody (RepoFailed e)), a)
        | (Ok id, a) => ((201, JSON (toDataPointDTO (with_point_id id dp))), reload a)
        end
      end
    end
  end
end.

Definition updateDataPoint (id : option Z) (dto : option DataPoint) (a : Api) : response dataPointDTO * Api :=
match id with
| None => ((400, ErrorBody BadID), a)
| Some id =>
  match run (datapoint_Get id) a with
  | (Err e, a) => (writeDataPointRepoError e, a)
  | (Ok existing, a) =>
    match dto with
    | None => ((400, ErrorBody InvalidJSON), a)
    | Some dp =>
      let dp := with_device (dp_DeviceID existing) (with_point_id id dp) in
      match validate_datapoint dp with
      | Err e => ((400, ErrorBody (ValidationFailed e)), a)
      | Ok _ =>
        match run (datapoint_Update id dp) a with
        | (Err e, a) => (writeDataPointRepoError e, a)
        | (Ok _, a) => ((200, JSON (toDataPointDTO dp)), reload a)
        end
      end
    end
  end
end.

Definition deleteDataPoint (id : option Z) (a : Api) : response unit * Api :=
match id with
| None => ((400, ErrorBody BadID), a)
| Some id =>
  match run (datapoint_Delete id) a with
  | (Err e, a) => (writeDataPointRepoError e, a)
  | (Ok _, a) => ((204, NoContent), reload a)
  end
end.
End Handlers.
