(* ===== verification/ConfigIo.v ===== *)
(** Export and import of the configuration (internal/api/configio.go): the
    connections, devices and data points.  The sections of config.yaml that an
    export also shows are not read back; they are in file Panels. *)

From S2P Require Import Prelude Float64.
From S2P Require Import Modbus.
From S2P Require Import Inventory.
From S2P Require Import Observers.
From S2P Require Import Manager.
From S2P Require Import Api.

Local Open Scope string_scope.
Local Open Scope list_scope.
Local Open Scope Z_scope.

(** [deviceExportDTO] and the restored part of [configExportDTO]. *)
Record deviceExport := mkDeviceExport { ex_device : Device; ex_points : list DataPoint }.
Record configExport := mkExport { ex_connections : list Connection; ex_devices : list deviceExport }.

Inductive import_error :=
| InvalidConnection (name : string) (e : invalid)
| InvalidDevice (name : string) (e : invalid)
| InvalidPoint (device tag : string) (e : invalid)
| UpdateFailed (what : string) (e : repo_error)
| CreateFailed (what : string) (e : repo_error)
| UnknownConnection (device : string) (connection : Z).

(** [configImportResult]. *)
Record importResult := mkImport {
  ConnectionsCreated : Z;
  ConnectionsUpdated : Z;
  DevicesCreated : Z;
  DevicesUpdated : Z;
  DataPointsCreated : Z;
  DataPointsUpdated : Z;
  Errors : list import_error
}.

Definition no_import : importResult := mkImport 0 0 0 0 0 0 [].

Definition import_failed (e : import_error) (r : importResult) : importResult :=
  mkImport (ConnectionsCreated r) (ConnectionsUpdated r) (DevicesCreated r) (DevicesUpdated r)
    (DataPointsCreated r) (DataPointsUpdated r) (Errors r ++ [e]).
Definition count_connection (created : bool) (r : importResult) : importResult :=
  mkImport (ConnectionsCreated r + (if created then 1 else 0)) (ConnectionsUpdated r + (if created then 0 else 1))
    (DevicesCreated r) (DevicesUpdated r) (DataPointsCreated r) (DataPointsUpdated r) (Errors r).
Definition count_device (created : bool) (r : importResult) : importResult :=
  mkImport (ConnectionsCreated r) (ConnectionsUpdated r)
    (DevicesCreated r + (if created then 1 else 0)) (DevicesUpdated r + (if created then 0 else 1))
    (DataPointsCreated r) (DataPointsUpdated r) (Errors r).
Definition count_point (created : bool) (r : importResult) : importResult :=
  mkImport (ConnectionsCreated r) (ConnectionsUpdated r) (DevicesCreated r) (DevicesUpdated r)
    (DataPointsCreated r + (if created then 1 else 0)) (DataPointsUpdated r + (if created then 0 else 1)) (Errors r).

Section ConfigIo.
Context `{InvEnv}.

(** * Export *)

Fixpoint export_devices (ds : list Device) : M repo_error Inv (list deviceExport) :=
match ds with
| [] => mret []
| d :: ds =>
  dps ← datapoint_ListByDevice (d_ID d);
  rest ← export_devices ds;
  mret (mkDeviceExport d dps :: rest)
end.

Definition export : M repo_error Inv configExport :=
conns ← connection_List;
devices ← device_List;
out ← export_devices devices;
mret (mkExport conns out).

Definition exportConfig (a : Api) : response configExport * Api :=
match run export a with
| (Err e, a) => ((500, ErrorBody (RepoFailed e)), a)
| (Ok out, a) => ((200, JSON out), a)
end.

(** * Import *)

Definition point_errors (d : Device) (dps : list DataPoint) : list import_error :=
omap (fun dp => match validate_datapoint dp with
                | Err e => Some (InvalidPoint (d_Name d) (TagName dp) e)
                | Ok _ => None
                end) dps.

(** The first pass: nothing is written when it finds an error. *)
Definition payload_errors (p : configExport) : list import_error :=
omap (fun c => match validate_connection c with
               | Err e => Some (InvalidConnection (c_Name c) e)
               | Ok _ => None
               end) (ex_connections p) ++
concat (map (fun x => match validate_device (ex_device x) with
                      | Err e => [InvalidDevice (d_Name (ex_device x)) e]
                      | Ok _ => point_errors (ex_device x) (ex_points x)
                      end) (ex_devices p)).

(** An item with an id that exists is updated, any other is created: whether it was
    created, and its id. *)
Definition upsert {A} (what : string) (id : Z) (get : M repo_error Inv A) (update : M repo_error Inv unit)
    (create : M repo_error Inv Z) (s : Inv) : result import_error (bool * Z) * Inv :=
let create_it (s : Inv) :=
  match create s with
  | (Err e, s) => (Err (CreateFailed what e), s)
  | (Ok id, s) => (Ok (true, id), s)
  end in
if id =? 0 then create_it s
else
  match get s with
  | (Err _, s) => create_it s
  | (Ok _, s) =>
    match update s with
    | (Err e, s) => (Err (UpdateFailed what e), s)
    | (Ok _, s) => (Ok (false, id), s)
    end
  end.

Definition import_connection (c : Connection) (r : importResult) (ids : gmap Z Z) (s : Inv) :
  (importResult * gmap Z Z) * Inv :=
match upsert (c_Name c) (c_ID c) (connection_Get (c_ID c)) (connection_Update (c_ID c) c) (connection_Create c) s with
| (Err e, s) => ((import_failed e r, ids), s)
| (Ok (created, id), s) => ((count_connection created r, <[c_ID c := id]> ids), s)
end.

Fixpoint import_connections (cs : list Connection) (r : importResult) (ids : gmap Z Z) (s : Inv) :
  (importResult * gmap Z Z) * Inv :=
match cs with
| [] => ((r, ids), s)
| c :: cs => let '((r, ids), s) := import_connection c r ids s in import_connections cs r ids s
end.

Fixpoint import_points (device : Z) (dps : list DataPoint) (r : importResult) (s : Inv) : importResult * Inv :=
match dps with
| [] => (r, s)
| dp :: dps =>
  let p := with_device device dp in
  match upsert (TagName dp) (dp_ID dp) (datapoint_Get (dp_ID dp)) (datapoint_Update (dp_ID dp) p) (datapoint_Create p) s with
  | (Err e, s) => import_points device dps (import_failed e r) s
  | (Ok (created, _), s) => import_points device dps (count_point created r) s
  end
end.

Fixpoint import_devices (xs : list deviceExport) (ids : gmap Z Z) (r : importResult) (s : Inv) : importResult * Inv :=
match xs with
| [] => (r, s)
| x :: xs =>
  let d := ex_device x in
  match ids !! ConnectionID d with
  | None => import_devices xs ids (import_failed (UnknownConnection (d_Name d) (ConnectionID d)) r) s
  | Some conn =>
    let d' := with_connection conn d in
    match upsert (d_Name d) (d_ID d) (device_Get (d_ID d)) (device_Update (d_ID d) d') (device_Create d') s with
    | (Err e, s) => import_devices xs ids (import_failed e r) s
    | (Ok (created, id), s) =>
      let '(r, s) := import_points id (ex_points x) (count_device created r) s in
      import_devices xs ids r s
    end
  end
end.

Definition restore (p : configExport) (s : Inv) : importResult * Inv :=
let '((r, ids), s) := import_connections (ex_connections p) no_import ∅ s in
import_devices (ex_devices p) ids r s.

Definition importConfig (payload : option configExport) (a : Api) : response importResult * Api :=
match payload with
| None => ((400, ErrorBody InvalidJSON), a)
| Some p =>
  match payload_errors p with
  | [] =>
    let '(r, s) := restore p (inv a) in
    ((200, JSON r), reload (set_inv s a))
  | errs => ((400, JSON (mkImport 0 0 0 0 0 0 errs)), a)
  end
end.
End ConfigIo.
