(* ===== verification/ConfigIoProps.v ===== *)
(** Properties of the configuration API: an export imported back into the same
    gateway changes nothing; imported into an empty one it can corrupt. *)

From S2P Require Import Prelude Float64.
From S2P Require Import Modbus.
From S2P Require Import Inventory.
From S2P Require Import InventoryProps.
From S2P Require Import Observers.
From S2P Require Import Manager.
From S2P Require Import Api.
From S2P Require Import ConfigIo.

Local Open Scope string_scope.
Local Open Scope list_scope.
Local Open Scope Z_scope.

(** * Rows as the repositories write them *)

Definition conn_of (r : ConnRow) : Connection :=
  mkConnection (cr_id r) (cr_name r) (cr_protocol r) (null_string (cr_interface r))
    (null_string (cr_ip_address r)) (default 0 (cr_port r)) (cr_timeout_ms r) (cr_retry r)
    (negb (cr_enabled r =? 0)) (cr_next_device_delay_ms r) (cr_baud_rate r) (cr_data_bits r)
    (cr_parity r) (cr_stop_bits r).
Definition dev_of (r : DevRow) : Device :=
  mkDevice (dr_id r) (dr_name r) (dr_connection_id r) (default 0 (dr_slave_id r)) (negb (dr_enabled r =? 0)).
Definition dp_of (r : DpRow) : DataPoint :=
  mkDataPoint (pr_id r) (pr_device_id r) (pr_tag_name r) (pr_function_code r) (pr_register_address r)
    (pr_data_type r) (pr_byte_order r) (pr_word_order r) (pr_scale r) (pr_offset r)
    (null_string (pr_unit r)) (negb (pr_enabled r =? 0)).

(** Writing back what was read gives the same row. *)
Record rows_written (t : Tables) : Prop := {
  written_connections : Forall (fun r => conn_row (cr_id r) (conn_of r) = r) (t_connection t);
  written_devices : Forall (fun r => dev_row (dr_id r) (dev_of r) = r) (t_device t);
  written_points : Forall (fun r => dp_row (pr_id r) (pr_device_id r) (dp_of r) = r /\
                             dp_range (dp_of r) /\ datapoint_ok (dp_of r) = true) (t_datapoint t)
}.

Lemma update_row_same {R} (key : R -> Z) hi rows r :
  keys_ok key hi rows -> r ∈ rows -> update_row key (key r) (fun _ => r) rows = rows.
Proof.
  intros Hk Hr. unfold update_row. rewrite <- (map_id rows) at 2. apply map_ext_in.
  intros x Hx. apply list_elem_of_In in Hx. destruct (key x =? key r) eqn:E; [|done]. zbool.
  symmetry. by eapply keys_unique.
Qed.

Lemma scan_point r : dp_range (dp_of r) -> scanDataPoint r = Ok (dp_of r).
Proof.
  intros [[F1 F2] [R1 R2]]. unfold scanDataPoint. cbn [dp_of FunctionCode RegisterAddress] in *.
  apply Z.leb_le in F1 as ->. apply Z.ltb_lt in F2 as ->. apply Z.leb_le in R1 as ->. by apply Z.ltb_lt in R2 as ->.
Qed.

Lemma scan_all_ok {A B} (scan : A -> result repo_error B) (f : A -> B) rows :
  Forall (fun r => scan r = Ok (f r)) rows -> scan_all scan rows = Ok (map f rows).
Proof. induction 1 as [|r rows Hr _ IH]; [done|]. cbn [scan_all]. rewrite Hr. res_simpl. by rewrite IH. Qed.

(** ** Statements that write what is there *)

Lemma affected_nonempty {R} (key : R -> Z) r rows : r ∈ rows -> affected key (key r) rows <> [].
Proof.
  intros Hr E. assert (Hin : r ∈ affected key (key r) rows) by (by apply list_elem_of_filter).
  rewrite E in Hin. by apply elem_of_nil in Hin.
Qed.

Section Written.
Context (t : Tables) (Ht : tables_ok t) (Hw : rows_written t).

Lemma written_connection r :
  r ∈ t_connection t ->
  (let rows := affected cr_id (cr_id r) (t_connection t) in
   if bool_decide (rows <> []) && negb (connection_ok (conn_of r)) then Err Constraint
   else Ok (rows, set_connections (update_row cr_id (cr_id r) (fun _ => conn_row (cr_id r) (conn_of r)) (t_connection t))
                    (hi_connection t) t)) = Ok (affected cr_id (cr_id r) (t_connection t), t).
Proof.
  intros Hr. pose proof (written_connections _ Hw) as Hcw. pose proof (ok_protocols _ Ht) as Hp.
  rewrite Forall_forall in Hcw, Hp. cbv zeta. unfold connection_ok. cbn [Protocol conn_of].
  rewrite (bool_decide_eq_true_2 (cr_protocol r ∈ _)) by (by apply Hp). cbn [negb].
  rewrite andb_false_r, (Hcw r Hr), (update_row_same cr_id _ _ r (ok_connections _ Ht) Hr).
  by destruct t.
Qed.

Lemma written_device r :
  r ∈ t_device t ->
  (let rows := affected dr_id (dr_id r) (t_device t) in
   if bool_decide (rows <> []) && negb (device_ok t (dev_of r)) then Err Constraint
   else Ok (rows, set_devices (update_row dr_id (dr_id r) (fun _ => dev_row (dr_id r) (dev_of r)) (t_device t)) t)) =
  Ok (affected dr_id (dr_id r) (t_device t), t).
Proof.
  intros Hr. pose proof (written_devices _ Hw) as Hdw. rewrite Forall_forall in Hdw.
  destruct (ok_device_fk _ Ht r Hr) as (c & Hc & Hcid). cbv zeta. replace (device_ok t (dev_of r)) with true.
  2:{ symmetry. unfold device_ok. apply existsb_exists. exists c. split; [by apply list_elem_of_In|].
      cbn [ConnectionID dev_of]. by apply Z.eqb_eq. }
  cbn [negb]. rewrite andb_false_r, (Hdw r Hr), (update_row_same dr_id _ _ r (ok_devices _ Ht) Hr).
  by destruct t.
Qed.

Lemma written_point r :
  r ∈ t_datapoint t ->
  (let rows := affected pr_id (pr_id r) (t_datapoint t) in
   if bool_decide (rows <> []) && negb (datapoint_ok (dp_of r)) then Err Constraint
   else Ok (rows, set_datapoints (update_row pr_id (pr_id r) (fun x => dp_row (pr_id r) (pr_device_id x) (dp_of r)) (t_datapoint t))
                    (hi_datapoint t) t)) = Ok (affected pr_id (pr_id r) (t_datapoint t), t).
Proof.
  intros Hr. pose proof (written_points _ Hw) as Hpw. rewrite Forall_forall in Hpw.
  destruct (Hpw r Hr) as (Hrow & _ & Hok). cbv zeta. rewrite Hok. cbn [negb]. rewrite andb_false_r.
  replace (update_row pr_id (pr_id r) (fun r0 => dp_row (pr_id r) (pr_device_id r0) (dp_of r)) (t_datapoint t))
    with (t_datapoint t); [by destruct t|].
  rewrite <- (update_row_same pr_id _ _ r (ok_datapoints _ Ht) Hr) at 1. unfold update_row. apply map_ext_in.
  intros x Hx. apply list_elem_of_In in Hx. destruct (pr_id x =? pr_id r) eqn:E; [|done]. zbool.
  rewrite (keys_unique pr_id _ _ x r (ok_datapoints _ Ht) Hx Hr E). by rewrite Hrow.
Qed.
End Written.

Section SameGateway.
Context `{InvEnv}.
Hypothesis no_fault : forall n, inv_fault n = false.

(** A query or statement that runs. *)
Lemma select_runs {A} (f : Tables -> A) s : exists n, select f s = (Ok (f (tables s)), mkInv (tables s) n).
Proof. unfold select. rewrite statement_runs by done. by eexists. Qed.

Lemma get_found {A B} (f : Tables -> list A) e (scan : A -> result repo_error B) r x s :
  f (tables s) = [r] -> scan r = Ok x ->
  exists n, (rows ← select f; get_one e scan rows) s = (Ok x, mkInv (tables s) n).
Proof.
  intros Hf Hs. destruct (select_runs f s) as [n Hn]. exists n. erewrite bind_ok by exact Hn.
  rewrite Hf. cbn [get_one]. unfold lift. by rewrite Hs.
Qed.

Lemma list_found {A B} (f : Tables -> list A) (scan : A -> result repo_error B) (g : A -> B) s :
  Forall (fun r => scan r = Ok (g r)) (f (tables s)) ->
  exists n, (rows ← select f; lift (scan_all scan rows)) s = (Ok (map g (f (tables s))), mkInv (tables s) n).
Proof.
  intros Hf. destruct (select_runs f s) as [n Hn]. exists n. erewrite bind_ok by exact Hn. unfold lift.
  by rewrite (scan_all_ok _ g).
Qed.

(** An update that writes what is there. *)
Lemma update_same {A} e (f : Tables -> result repo_error (list A * Tables)) rows s :
  f (tables s) = Ok (rows, tables s) -> rows <> [] ->
  exists n, (rows ← statement f; checkRowsAffected e rows) s = (Ok tt, mkInv (tables s) n).
Proof.
  intros Hf Hne. eexists. erewrite bind_ok by (rewrite statement_runs by done; by rewrite Hf).
  unfold checkRowsAffected. by destruct rows.
Qed.

Lemma upsert_same {A} what id x (get : M repo_error Inv A) update create t n :
  id <> 0 -> (forall n, exists n', get (mkInv t n) = (Ok x, mkInv t n')) ->
  (forall n, exists n', update (mkInv t n) = (Ok tt, mkInv t n')) ->
  exists n', upsert what id get update create (mkInv t n) = (Ok (false, id), mkInv t n').
Proof.
  intros Hid Hg Hu. unfold upsert. apply Z.eqb_neq in Hid as ->. destruct (Hg n) as [n1 ->].
  destruct (Hu n1) as [n2 ->]. by exists n2.
Qed.

Context (t : Tables) (Ht : tables_ok t) (Hw : rows_written t).

Lemma same_connection r n :
  r ∈ t_connection t ->
  exists n', upsert (c_Name (conn_of r)) (cr_id r) (connection_Get (cr_id r))
    (connection_Update (cr_id r) (conn_of r)) (connection_Create (conn_of r)) (mkInv t n) = (Ok (false, cr_id r), mkInv t n').
Proof.
  intros Hr. destruct (ok_connections _ Ht) as [Hks Hkr].
  rewrite Forall_forall in Hkr. apply (upsert_same _ _ (conn_of r)); [specialize (Hkr r Hr); lia|..]; intros m.
  - apply (get_found (fun t => affected cr_id (cr_id r) (t_connection t)) _ scanConnection r);
      [|reflexivity]. cbn [tables]. by eapply (affected_one cr_id), Hr; apply Ht.
  - by apply (update_same _ _ _ (mkInv t m) (written_connection t Ht Hw r Hr)), affected_nonempty.
Qed.

Lemma same_device r n :
  r ∈ t_device t ->
  exists n', upsert (d_Name (dev_of r)) (dr_id r) (device_Get (dr_id r))
    (device_Update (dr_id r) (dev_of r)) (device_Create (dev_of r)) (mkInv t n) = (Ok (false, dr_id r), mkInv t n').
Proof.
  intros Hr. destruct (ok_devices _ Ht) as [Hks Hkr]. rewrite Forall_forall in Hkr.
  apply (upsert_same _ _ (dev_of r)); [specialize (Hkr r Hr); lia|..]; intros m.
  - apply (get_found (fun t => affected dr_id (dr_id r) (t_device t)) _ scanDevice r);
      [|reflexivity]. cbn [tables]. by eapply (affected_one dr_id), Hr; apply Ht.
  - by apply (update_same _ _ _ (mkInv t m) (written_device t Ht Hw r Hr)), affected_nonempty.
Qed.

Lemma same_point r n :
  r ∈ t_datapoint t ->
  exists n', upsert (TagName (dp_of r)) (pr_id r) (datapoint_Get (pr_id r))
    (datapoint_Update (pr_id r) (dp_of r)) (datapoint_Create (dp_of r)) (mkInv t n) = (Ok (false, pr_id r), mkInv t n').
Proof.
  intros Hr. pose proof (ok_datapoints _ Ht) as [Hks Hkr]. pose proof (written_points _ Hw) as Hpw.
  rewrite Forall_forall in Hkr, Hpw. destruct (Hpw r Hr) as (_ & Hrange & _).
  apply (upsert_same _ _ (dp_of r)); [specialize (Hkr r Hr); lia|..]; intros m.
  - apply (get_found (fun t => affected pr_id (pr_id r) (t_datapoint t)) _ scanDataPoint r);
      [|by apply scan_point]. cbn [tables]. by eapply (affected_one pr_id), Hr; apply Ht.
  - by apply (update_same _ _ _ (mkInv t m) (written_point t Ht Hw r Hr)), affected_nonempty.
Qed.

(** * The whole restore *)

Definition points_rows (d : Z) : list DpRow := filter (fun r => pr_device_id r = d) (t_datapoint t).
Definition exported_device (r : DevRow) : deviceExport :=
mkDeviceExport (dev_of r) (map dp_of (points_rows (dr_id r))).
Definition exported : configExport :=
mkExport (map conn_of (t_connection t)) (map exported_device (t_device t)).

Lemma export_devices_same rows n :
  exists n', export_devices (map dev_of rows) (mkInv t n) = (Ok (map exported_device rows), mkInv t n').
Proof.
  revert n. induction rows as [|r rows IH]; intros n; cbn [map export_devices]; [by eexists|].
  destruct (list_found (fun t => filter (fun r0 => pr_device_id r0 = dr_id r) (t_datapoint t)) scanDataPoint dp_of
              (mkInv t n)) as [n1 E1].
  { cbn [tables]. apply Forall_filter. eapply Forall_impl; [apply (written_points _ Hw)|].
    intros x (_ & Hx & _). by apply scan_point. }
  destruct (IH n1) as [n2 E2]. exists n2.
  change (d_ID (dev_of r)) with (dr_id r). unfold datapoint_ListByDevice.
  erewrite bind_ok by exact E1. cbn [tables]. erewrite bind_ok by exact E2. done.
Qed.

Lemma export_same n : exists n', export (mkInv t n) = (Ok exported, mkInv t n').
Proof.
  destruct (list_found t_connection scanConnection conn_of (mkInv t n)) as [n1 E1];
    [by apply Forall_forall|].
  destruct (list_found t_device scanDevice dev_of (mkInv t n1)) as [n2 E2]; [by apply Forall_forall|].
  destruct (export_devices_same (t_device t) n2) as [n3 E3]. exists n3.
  unfold export, connection_List, device_List. erewrite bind_ok by exact E1. cbn [tables].
  erewrite bind_ok by exact E2. cbn [tables]. erewrite bind_ok by exact E3. done.
Qed.

Lemma import_connections_same rows : forall r ids n,
  (forall x, x ∈ rows -> x ∈ t_connection t) ->
  exists ids' n',
    import_connections (map conn_of rows) r ids (mkInv t n) =
      ((mkImport (ConnectionsCreated r) (ConnectionsUpdated r + Z.of_nat (length rows)) (DevicesCreated r)
          (DevicesUpdated r) (DataPointsCreated r) (DataPointsUpdated r) (Errors r), ids'), mkInv t n') /\
    forall id, id ∈ map cr_id rows \/ ids !! id = Some id -> ids' !! id = Some id.
Proof.
  induction rows as [|x rows IH]; intros r ids n Hin; cbn [map import_connections].
  { exists ids, n. rewrite Z.add_0_r. split; [by destruct r|]. intros id [Hid|?]; [by apply elem_of_nil in Hid|done]. }
  unfold import_connection. change (c_ID (conn_of x)) with (cr_id x).
  destruct (same_connection x n (Hin x ltac:(left))) as [n1 ->].
  destruct (IH (count_connection false r) (<[cr_id x := cr_id x]> ids) n1) as (ids' & n2 & -> & Hids);
    [intros y Hy; apply Hin; by right|].
  exists ids', n2. split.
  - unfold count_connection. cbn [ConnectionsCreated ConnectionsUpdated DevicesCreated DevicesUpdated DataPointsCreated
      DataPointsUpdated Errors length]. do 3 f_equal; lia.
  - intros id Hid. apply Hids. destruct (decide (id = cr_id x)) as [->|Hne]; [right; by rewrite lookup_insert_eq|].
    destruct Hid as [Hid|Hid]; [|right; by rewrite lookup_insert_ne].
    apply elem_of_cons in Hid as [->|Hid]; [done|by left].
Qed.

Lemma import_points_same d rows : forall r n,
  (forall x, x ∈ rows -> x ∈ t_datapoint t /\ pr_device_id x = d) ->
  exists n',
    import_points d (map dp_of rows) r (mkInv t n) =
      (mkImport (ConnectionsCreated r) (ConnectionsUpdated r) (DevicesCreated r) (DevicesUpdated r)
         (DataPointsCreated r) (DataPointsUpdated r + Z.of_nat (length rows)) (Errors r), mkInv t n').
Proof.
  induction rows as [|x rows IH]; intros r n Hin; cbn [map import_points].
  { exists n. rewrite Z.add_0_r. by destruct r. }
  destruct (Hin x ltac:(left)) as [Hx Hd]. change (dp_ID (dp_of x)) with (pr_id x).
  replace (with_device d (dp_of x)) with (dp_of x) by (by rewrite <- Hd).
  destruct (same_point x n Hx) as [n1 ->].
  destruct (IH (count_point false r) n1) as [n2 ->]; [intros y Hy; apply Hin; by right|].
  exists n2. unfold count_point. cbn [ConnectionsCreated ConnectionsUpdated DevicesCreated DevicesUpdated
    DataPointsCreated DataPointsUpdated Errors length]. do 2 f_equal; lia.
Qed.

Lemma import_devices_same rows : forall ids r n,
  (forall x, x ∈ rows -> x ∈ t_device t) -> (forall c, c ∈ t_connection t -> ids !! cr_id c = Some (cr_id c)) ->
  exists n',
    import_devices (map exported_device rows) ids r (mkInv t n) =
      (mkImport (ConnectionsCreated r) (ConnectionsUpdated r) (DevicesCreated r)
         (DevicesUpdated r + Z.of_nat (length rows)) (DataPointsCreated r)
         (DataPointsUpdated r + Z.of_nat (length (concat (map (fun x => points_rows (dr_id x)) rows)))) (Errors r),
       mkInv t n').
Proof.
  induction rows as [|x rows IH]; intros ids r n Hin Hids; cbn [map import_devices].
  { exists n. cbn. rewrite !Z.add_0_r. by destruct r. }
  pose proof (Hin x ltac:(left)) as Hx. destruct (ok_device_fk _ Ht x Hx) as (c & Hc & Hcid).
  cbn [exported_device ex_device ex_points].
  change (ConnectionID (dev_of x)) with (dr_connection_id x). rewrite <- Hcid, (Hids c Hc), Hcid.
  change (with_connection (dr_connection_id x) (dev_of x)) with (dev_of x).
  change (d_ID (dev_of x)) with (dr_id x). destruct (same_device x n Hx) as [n1 ->].
  destruct (import_points_same (dr_id x) (points_rows (dr_id x)) (count_device false r) n1) as [n2 ->].
  { intros y Hy. by apply list_elem_of_filter in Hy as [? ?]. }
  match goal with |- context [import_devices _ _ ?r2 _] => destruct (IH ids r2 n2) as [n3 ->] end;
    [intros y Hy; apply Hin; by right|done|].
  exists n3. unfold count_device. cbn [ConnectionsCreated ConnectionsUpdated DevicesCreated DevicesUpdated
    DataPointsCreated DataPointsUpdated Errors length map concat]. rewrite length_app. do 2 f_equal; lia.
Qed.

Lemma points_of_devices :
  length (concat (map (fun x => points_rows (dr_id x)) (t_device t))) = length (t_datapoint t).
Proof.
  destruct (ok_devices _ Ht) as [Hs _]. pose proof (ok_datapoint_fk _ Ht) as Hfk. unfold points_rows.
  revert Hs Hfk. generalize (t_datapoint t) as dps, (t_device t) as ds. intros dps ds. revert dps.
  induction ds as [|d ds IH]; intros dps Hs Hfk.
  { destruct dps as [|p dps]; [done|]. destruct (Hfk p ltac:(left)) as (d & Hd & _). by apply elem_of_nil in Hd. }
  cbn [map] in Hs. apply StronglySorted_inv in Hs as [Hs Hlt]. rewrite Forall_forall in Hlt. cbn [map concat].
  rewrite length_app, (map_ext_in _ (fun x => filter (fun r => pr_device_id r = dr_id x)
                                        (filter (fun r => pr_device_id r <> dr_id d) dps))).
  - rewrite IH; [|done|].
    + clear. induction dps as [|p dps IH]; [done|]. rewrite !filter_cons.
      destruct (decide (pr_device_id p = dr_id d)).
      * rewrite decide_False by tauto. cbn [length]. lia.
      * rewrite decide_True by done. cbn [length]. lia.
    + intros p Hp. apply list_elem_of_filter in Hp as [Hne Hp]. destruct (Hfk p Hp) as (d0 & Hd0 & E).
      apply elem_of_cons in Hd0 as [->|Hd0]; [by rewrite E in Hne|by exists d0].
  - intros x Hx. rewrite list_filter_filter. apply list_filter_iff. intros p.
    split; [|by intros []]. intros E. split; [done|]. rewrite E.
    assert (Hin : dr_id x ∈ map dr_id ds) by (apply list_elem_of_In; by apply in_map). specialize (Hlt _ Hin). lia.
Qed.

Lemma restore_same n :
  exists n', restore exported (mkInv t n) =
    (mkImport 0 (Z.of_nat (length (t_connection t))) 0 (Z.of_nat (length (t_device t)))
       0 (Z.of_nat (length (t_datapoint t))) [], mkInv t n').
Proof.
  unfold restore, exported. cbn [ex_connections ex_devices].
  destruct (import_connections_same (t_connection t) no_import ∅ n) as (ids & n1 & -> & Hids); [done|].
  match goal with |- context [import_devices _ _ ?r _] =>
    destruct (import_devices_same (t_device t) ids r n1) as [n2 ->] end; [done| |].
  { intros c Hc. apply Hids. left. apply list_elem_of_In, in_map. by apply list_elem_of_In. }
  exists n2. by rewrite points_of_devices.
Qed.
End SameGateway.

(** * Only valid configuration is stored *)

Record stored_valid (t : Tables) : Prop := {
  valid_connections : Forall (fun r => validate_connection (conn_of r) = Ok tt /\ conn_row (cr_id r) (conn_of r) = r)
                        (t_connection t);
  valid_devices : Forall (fun r => validate_device (with_connection 1 (dev_of r)) = Ok tt /\ dev_row (dr_id r) (dev_of r) = r)
                    (t_device t);
  valid_points : Forall (fun r => validate_datapoint (dp_of r) = Ok tt /\ dp_row (pr_id r) (pr_device_id r) (dp_of r) = r /\
                            dp_range (dp_of r) /\ datapoint_ok (dp_of r) = true) (t_datapoint t)
}.

Lemma stored_valid_written t : stored_valid t -> rows_written t.
Proof.
  intros [Hc Hd Hp]. split; (eapply Forall_impl; [done|]); intros r; cbn beta; tauto.
Qed.

Lemma conn_of_row id c : conn_of (conn_row id c) = with_connection_id id c.
Proof.
  unfold conn_of, conn_row. cbn [cr_id cr_name cr_protocol cr_interface cr_ip_address cr_port cr_timeout_ms
    cr_retry cr_enabled cr_next_device_delay_ms cr_baud_rate cr_data_bits cr_parity cr_stop_bits default].
  by rewrite !nullable_string, bool_int.
Qed.
Lemma dev_of_row id d : dev_of (dev_row id d) = with_device_id id d.
Proof. unfold dev_of, dev_row. cbn [dr_id dr_name dr_connection_id dr_slave_id dr_enabled default]. by rewrite bool_int. Qed.
Lemma dp_of_row id device dp : dp_of (dp_row id device dp) = with_point_id id (with_device device dp).
Proof.
  unfold dp_of, dp_row. cbn [pr_id pr_device_id pr_tag_name pr_function_code pr_register_address pr_data_type
    pr_byte_order pr_word_order pr_scale pr_offset pr_unit pr_enabled]. by rewrite nullable_string, bool_int.
Qed.

Definition valid_conn (r : ConnRow) : Prop :=
  validate_connection (conn_of r) = Ok tt /\ conn_row (cr_id r) (conn_of r) = r.
Definition valid_dev (r : DevRow) : Prop :=
  validate_device (with_connection 1 (dev_of r)) = Ok tt /\ dev_row (dr_id r) (dev_of r) = r.
Definition valid_dp (r : DpRow) : Prop :=
  validate_datapoint (dp_of r) = Ok tt /\ dp_row (pr_id r) (pr_device_id r) (dp_of r) = r /\
  dp_range (dp_of r) /\ datapoint_ok (dp_of r) = true.

Lemma valid_conn_row id c : validate_connection c = Ok tt -> valid_conn (conn_row id c).
Proof. intros Hv. unfold valid_conn. by rewrite conn_of_row. Qed.
Lemma valid_dev_row id d : validate_device (with_connection 1 d) = Ok tt -> valid_dev (dev_row id d).
Proof. intros Hv. unfold valid_dev. by rewrite dev_of_row. Qed.
Lemma valid_dp_row id device dp :
  validate_datapoint dp = Ok tt -> dp_range dp -> datapoint_ok dp = true -> valid_dp (dp_row id device dp).
Proof. intros Hv Hr Ho. unfold valid_dp. by rewrite dp_of_row. Qed.

(** What every handler keeps. *)
Definition config_ok (t : Tables) : Prop := tables_ok t /\ stored_valid t.

Lemma Forall_update_row {R} (P : R -> Prop) key id f rows :
  Forall P rows -> (forall r, r ∈ rows -> key r = id -> P (f r)) -> Forall P (update_row key id f rows).
Proof.
  intros HP Hf. rewrite Forall_forall in *. intros r Hr. apply elem_of_update_row in Hr as (r0 & H0 & ->).
  destruct (key r0 =? id) eqn:E; [|by apply HP]. zbool. by apply Hf.
Qed.

Lemma affected_elem {R} (key : R -> Z) id rows r : r ∈ rows -> key r = id -> affected key id rows <> [].
Proof.
  intros Hr Hk E. assert (Hin : r ∈ affected key id rows) by (by apply list_elem_of_filter).
  rewrite E in Hin. by apply elem_of_nil in Hin.
Qed.

Section ValidOperations.
Context `{InvEnv}.

Definition keeps {A} (m : M repo_error Inv A) : Prop :=
forall s r s', config_ok (tables s) -> m s = (r, s') -> config_ok (tables s').

Lemma keeps_pure {A} (m : M repo_error Inv A) : (forall s r s', m s = (r, s') -> tables s' = tables s) -> keeps m.
Proof. intros Hm s r s' Hk Hr. by rewrite (Hm _ _ _ Hr). Qed.

Lemma keep_both {A} (m : M repo_error Inv A) :
  (forall s r s', tables_ok (tables s) -> m s = (r, s') -> tables_ok (tables s')) ->
  (forall s r s', stored_valid (tables s) -> m s = (r, s') -> stored_valid (tables s')) -> keeps m.
Proof. intros H1 H2 s r s' [K1 K2] Hr. split; [by eapply H1|by eapply H2]. Qed.

Lemma keeps_connection_Create c : validate_connection c = Ok tt -> keeps (connection_Create c).
Proof.
  intros Hv. apply keep_both; [intros; by eapply connection_Create_keeps|].
  intros s r s' Hk. apply statement_keeps; [|done]. intros a t'. destruct (connection_ok c); [|done].
  intros [= _ <-]. destruct Hk as [K1 K2 K3]. split; [|done..]. apply Forall_app. split; [done|].
  apply Forall_singleton. by apply valid_conn_row.
Qed.

Lemma keeps_connection_Update id c : validate_connection c = Ok tt -> keeps (connection_Update id c).
Proof.
  intros Hv. apply keep_both; [intros; by eapply connection_Update_keeps|].
  intros s r s' Hk. apply checked_statement_keeps; [|done]. intros a t'. cbv zeta.
  destruct (bool_decide _ && negb _); [done|]. intros [= _ <-]. destruct Hk as [K1 K2 K3]. split; [|done..].
  apply Forall_update_row; [done|]. intros. by apply valid_conn_row.
Qed.

Lemma keeps_connection_Delete id : keeps (connection_Delete id).
Proof.
  apply keep_both; [intros; by eapply connection_Delete_keeps|].
  intros s r s' Hk. unfold connection_Delete. intros Hr. apply bind_inv in Hr as [(n & s1 & Hn & Hr)|(e & Hn & _)].
  2:{ eapply statement_keeps; [|done|exact Hn]. by intros a t' [= _ <-]. }
  assert (Hk1 : stored_valid (tables s1)) by (eapply statement_keeps; [|exact Hk|exact Hn]; by intros a t' [= _ <-]).
  destruct (0 <? n); [by injection Hr as _ <-|]. revert Hr. apply checked_statement_keeps; [|done].
  intros a t'. cbv zeta. destruct (bool_decide _ && bool_decide _); [done|]. intros [= _ <-].
  destruct Hk1 as [K1 K2 K3]. split; [|done..]. by apply Forall_filter.
Qed.

Lemma keeps_device_Create d : validate_device (with_connection 1 d) = Ok tt -> keeps (device_Create d).
Proof.
  intros Hv. apply keep_both; [intros; by eapply device_Create_keeps|].
  intros s r s' Hk. apply statement_keeps; [|done]. intros a t'. destruct (device_ok (tables s) d); [|done].
  intros [= _ <-]. destruct Hk as [K1 K2 K3]. split; [done| |done]. apply Forall_app. split; [done|].
  apply Forall_singleton. by apply valid_dev_row.
Qed.

Lemma keeps_device_Update id d : validate_device (with_connection 1 d) = Ok tt -> keeps (device_Update id d).
Proof.
  intros Hv. apply keep_both; [intros; by eapply device_Update_keeps|].
  intros s r s' Hk. apply checked_statement_keeps; [|done]. intros a t'. cbv zeta.
  destruct (bool_decide _ && negb _); [done|]. intros [= _ <-]. destruct Hk as [K1 K2 K3]. split; [done| |done].
  apply Forall_update_row; [done|]. intros. by apply valid_dev_row.
Qed.

Lemma keeps_device_Delete id : keeps (device_Delete id).
Proof.
  apply keep_both; [intros; by eapply device_Delete_keeps|].
  intros s r s' Hk. apply checked_statement_keeps; [|done]. intros a t' [= _ <-].
  destruct Hk as [K1 K2 K3]. split; [done|..]; by apply Forall_filter.
Qed.

Lemma keeps_datapoint_Create dp : validate_datapoint dp = Ok tt -> dp_range dp -> keeps (datapoint_Create dp).
Proof.
  intros Hv Hd. apply keep_both; [intros; by eapply datapoint_Create_keeps|].
  intros s r s' Hk. apply statement_keeps; [|done]. intros a t'.
  destruct (parent_device _ _ && datapoint_ok dp) eqn:E; [|done]. apply andb_true_iff in E as [_ E].
  intros [= _ <-]. destruct Hk as [K1 K2 K3]. split; [done..|]. apply Forall_app. split; [done|].
  apply Forall_singleton. by apply valid_dp_row.
Qed.

Lemma keeps_datapoint_Update id dp : validate_datapoint dp = Ok tt -> dp_range dp -> keeps (datapoint_Update id dp).
Proof.
  intros Hv Hd. apply keep_both; [intros; by eapply datapoint_Update_keeps|].
  intros s r s' Hk. apply checked_statement_keeps; [|done]. intros a t'. cbv zeta.
  destruct (bool_decide _ && negb _) eqn:E; [done|]. intros [= _ <-]. destruct Hk as [K1 K2 K3]. split; [done..|].
  apply Forall_update_row; [done|]. intros x Hx Hid. apply andb_false_iff in E as [E|E].
  - apply bool_decide_eq_false in E. apply dec_stable in E. by destruct (affected_elem pr_id id _ x Hx Hid).
  - apply negb_false_iff in E. by apply valid_dp_row.
Qed.

Lemma keeps_datapoint_Delete id : keeps (datapoint_Delete id).
Proof.
  apply keep_both; [intros; by eapply datapoint_Delete_keeps|].
  intros s r s' Hk. apply checked_statement_keeps; [|done]. intros a t' [= _ <-].
  destruct Hk as [K1 K2 K3]. split; [done..|]. by apply Forall_filter.
Qed.

(** ** Calls that only read *)

Definition reads {A} (m : M repo_error Inv A) : Prop := forall s r s', m s = (r, s') -> tables s' = tables s.

Lemma reads_select {A} (f : Tables -> A) : reads (select f).
Proof. intros s r s'. unfold select, statement. destruct (inv_fault (stmts s)); by intros [= _ <-]. Qed.
Lemma reads_bind {A B} (m : M repo_error Inv A) (k : A -> M repo_error Inv B) :
  reads m -> (forall a, reads (k a)) -> reads (m ≫= k).
Proof.
  intros Hm Hk s r s' Hr. apply bind_inv in Hr as [(a & s1 & E & Hr)|(e & E & _)]; [|by eapply Hm].
  by rewrite (Hk _ _ _ _ Hr), (Hm _ _ _ E).
Qed.
Lemma reads_lift {A} (r : result repo_error A) : reads (lift r).
Proof. by intros s r' s' [= _ <-]. Qed.
Lemma reads_ret {A} (a : A) : reads (mret a).
Proof. by intros s r' s' [= _ <-]. Qed.
Lemma reads_fail {A} e : reads (A := A) (fail e).
Proof. by intros s r' s' [= _ <-]. Qed.
Lemma reads_get {A B} e (scan : A -> result repo_error B) rows : reads (get_one e scan rows).
Proof. destruct rows; [apply reads_fail|apply reads_lift]. Qed.

Lemma reads_collect conns ds : forall w, reads (collect conns ds w).
Proof.
  induction ds as [|d ds IH]; intros w; cbn [collect]; [apply reads_ret|].
  destruct (conns !! ConnectionID d); [|apply IH]. apply reads_bind; [|intros; apply IH].
  apply reads_bind; [apply reads_select|intros; apply reads_lift].
Qed.

Lemma reads_Reload m : reads (Reload m).
Proof.
  apply reads_bind; [apply reads_bind; [apply reads_select|intros; apply reads_lift]|intros ds].
  apply reads_bind; [apply reads_bind; [apply reads_select|intros; apply reads_lift]|intros cs].
  apply reads_bind; [apply reads_collect|intros; apply reads_ret].
Qed.

Lemma reload_tables a : tables (inv (reload a)) = tables (inv a).
Proof.
  unfold reload. destruct (manager a) as [m|]; [|done].
  unfold run. destruct (Reload m (inv a)) as [[m'|e] s'] eqn:E; cbn [set_inv inv]; by apply reads_Reload in E.
Qed.
End ValidOperations.

(** * The API *)

Inductive request :=
| CreateConnectionReq (dto : option Connection)
| UpdateConnectionReq (id : option Z) (dto : option Connection)
| DeleteConnectionReq (id : option Z)
| CreateDeviceReq (dto : option Device)
| UpdateDeviceReq (id : option Z) (dto : option Device)
| DeleteDeviceReq (id : option Z)
| CreateDataPointReq (device : option Z) (dto : option DataPoint)
| UpdateDataPointReq (id : option Z) (dto : option DataPoint)
| DeleteDataPointReq (id : option Z)
| ImportReq (payload : option configExport).

(** A body that decoded has function codes and addresses of their Go types. *)
Definition typed_request (q : request) : Prop :=
  match q with
  | CreateDataPointReq _ (Some dp) | UpdateDataPointReq _ (Some dp) => dp_range dp
  | ImportReq (Some p) => Forall (fun x => Forall dp_range (ex_points x)) (ex_devices p)
  | _ => True
  end.

Lemma validate_device_connection d conn :
  validate_device d = Ok tt -> validate_device (with_connection 1 (with_connection conn d)) = Ok tt.
Proof.
  unfold validate_device, with_connection. cbn [d_Name ConnectionID SlaveID].
  destruct (negb (d_Name d =? "")%string); [|done]. cbn [require mbind result_bind].
  destruct (negb (ConnectionID d <=? 0)); [|done]. by cbn.
Qed.

Lemma validate_device_one d : validate_device d = Ok tt -> validate_device (with_connection 1 d) = Ok tt.
Proof. apply (validate_device_connection d 0). Qed.

Lemma unit_ok {E} (r : result E unit) u : r = Ok u -> r = Ok tt.
Proof. by destruct u. Qed.

Section Served.
Context `{InvEnv}.

Definition serve (q : request) (a : Api) : Api :=
match q with
| CreateConnectionReq dto => (createConnection dto a).2
| UpdateConnectionReq id dto => (updateConnection id dto a).2
| DeleteConnectionReq id => (deleteConnection id a).2
| CreateDeviceReq dto => (createDevice dto a).2
| UpdateDeviceReq id dto => (updateDevice id dto a).2
| DeleteDeviceReq id => (deleteDevice id a).2
| CreateDataPointReq device dto => (createDataPoint device dto a).2
| UpdateDataPointReq id dto => (updateDataPoint id dto a).2
| DeleteDataPointReq id => (deleteDataPoint id a).2
| ImportReq payload => (importConfig payload a).2
end.

Definition api_ok (a : Api) : Prop := config_ok (tables (inv a)).

Lemma run_keeps {A} (m : M repo_error Inv A) a r a' : keeps m -> api_ok a -> run m a = (r, a') -> api_ok a'.
Proof.
  intros Hm Ha. unfold run. destruct (m (inv a)) as [r' s'] eqn:E. intros [= _ <-]. by eapply Hm.
Qed.

Lemma reload_ok a : api_ok a -> api_ok (reload a).
Proof. unfold api_ok. by rewrite reload_tables. Qed.

Lemma reads_keeps {A} (m : M repo_error Inv A) : reads m -> keeps m.
Proof. intros Hm. by apply keeps_pure. Qed.

Lemma upsert_keeps {A} what id (get : M repo_error Inv A) update create s r s' :
  keeps get -> keeps update -> keeps create -> config_ok (tables s) ->
  upsert what id get update create s = (r, s') -> config_ok (tables s').
Proof.
  intros Hg Hu Hc Hk. unfold upsert. destruct (id =? 0).
  { destruct (create s) as [[i|e] s1] eqn:E; intros [= _ <-]; by eapply Hc. }
  destruct (get s) as [[x|e] s1] eqn:E; pose proof (Hg _ _ _ Hk E) as Hk1.
  - destruct (update s1) as [[u|e] s2] eqn:E2; intros [= _ <-]; by eapply Hu.
  - destruct (create s1) as [[i|e2] s2] eqn:E2; intros [= _ <-]; by eapply Hc.
Qed.

Lemma import_connections_keeps cs : forall r ids s x s',
  Forall (fun c => validate_connection c = Ok tt) cs -> config_ok (tables s) ->
  import_connections cs r ids s = (x, s') -> config_ok (tables s').
Proof.
  induction cs as [|c cs IH]; intros r ids s x s' Hv Hk; cbn [import_connections]; [by intros [= _ <-]|].
  inversion Hv as [|? ? Hc Hcs]; subst. unfold import_connection.
  destruct (upsert _ _ _ _ _ s) as [[[created id]|e] s1] eqn:E; apply upsert_keeps in E; try done;
    try (by apply keeps_connection_Update); try (by apply keeps_connection_Create);
    try (by eapply reads_keeps, reads_bind; [apply reads_select|intros; apply reads_get]); by apply IH.
Qed.

Lemma import_points_keeps d dps : forall r s x s',
  Forall (fun dp => validate_datapoint dp = Ok tt /\ dp_range dp) dps -> config_ok (tables s) ->
  import_points d dps r s = (x, s') -> config_ok (tables s').
Proof.
  induction dps as [|dp dps IH]; intros r s x s' Hv Hk; cbn [import_points]; [by intros [= _ <-]|].
  inversion Hv as [|? ? [Hd Hr] Hds]; subst.
  destruct (upsert _ _ _ _ _ s) as [[[created id]|e] s1] eqn:E; apply upsert_keeps in E; try done;
    try (by apply keeps_datapoint_Update); try (by apply keeps_datapoint_Create);
    try (by eapply reads_keeps, reads_bind; [apply reads_select|intros; apply reads_get]); by apply IH.
Qed.

Lemma import_devices_keeps xs : forall ids r s x s',
  Forall (fun x => validate_device (ex_device x) = Ok tt /\
            Forall (fun dp => validate_datapoint dp = Ok tt /\ dp_range dp) (ex_points x)) xs ->
  config_ok (tables s) -> import_devices xs ids r s = (x, s') -> config_ok (tables s').
Proof.
  induction xs as [|x0 xs IH]; intros ids r s x s' Hv Hk; cbn [import_devices]; [by intros [= _ <-]|].
  inversion Hv as [|? ? [Hd Hp] Hxs]; subst. destruct (ids !! ConnectionID (ex_device x0)) as [conn|]; [|by apply IH].
  pose proof (validate_device_connection _ conn Hd) as Hd'.
  destruct (upsert _ _ _ _ _ s) as [[[created id]|e] s1] eqn:E; apply upsert_keeps in E; try done;
    try (by apply keeps_device_Update); try (by apply keeps_device_Create);
    try (by eapply reads_keeps, reads_bind; [apply reads_select|intros; apply reads_get]); [|by apply IH].
  destruct (import_points _ _ _ s1) as [r2 s2] eqn:E2. apply import_points_keeps in E2; [|done..]. by apply IH.
Qed.

(** A payload without errors is valid throughout. *)
Lemma payload_valid p :
  payload_errors p = [] ->
  Forall (fun c => validate_connection c = Ok tt) (ex_connections p) /\
  Forall (fun x => validate_device (ex_device x) = Ok tt /\ Forall (fun dp => validate_datapoint dp = Ok tt) (ex_points x))
    (ex_devices p).
Proof.
  unfold payload_errors. intros Hp. apply app_eq_nil in Hp as [Hc Hd]. split.
  - apply Forall_forall. intros c Hin. destruct (validate_connection c) as [[]|e] eqn:E; [done|].
    assert (Hx : InvalidConnection (c_Name c) e ∈ []); [|by apply elem_of_nil in Hx].
    rewrite <- Hc. apply list_elem_of_omap. exists c. by rewrite E.
  - apply Forall_forall. intros x Hin.
    assert (Hx : (match validate_device (ex_device x) with
                  | Err e => [InvalidDevice (d_Name (ex_device x)) e]
                  | Ok _ => point_errors (ex_device x) (ex_points x) end) = []).
    { apply list_elem_of_In in Hin. revert Hd Hin. generalize (ex_devices p) as xs.
      induction xs as [|y xs IH]; intros Hd Hin; [done|]. cbn [map concat] in Hd. apply app_eq_nil in Hd as [Hy Hd].
      destruct Hin as [->|Hin]; [done|by apply IH]. }
    destruct (validate_device (ex_device x)) as [[]|e] eqn:E; [|done]. split; [done|].
    apply Forall_forall. intros dp Hdp. destruct (validate_datapoint dp) as [[]|e] eqn:Ed; [done|].
    assert (He : InvalidPoint (d_Name (ex_device x)) (TagName dp) e ∈ []); [|by apply elem_of_nil in He].
    rewrite <- Hx. apply list_elem_of_omap. exists dp. by rewrite Ed.
Qed.

Lemma import_keeps p a :
  typed_request (ImportReq (Some p)) -> api_ok a -> api_ok (importConfig (Some p) a).2.
Proof.
  intros Ht Ha. unfold importConfig. destruct (payload_errors p) as [|e es] eqn:E; [|done].
  destruct (payload_valid p E) as [Hc Hd]. cbn [typed_request] in Ht. unfold restore.
  destruct (import_connections (ex_connections p) no_import ∅ (inv a)) as [[r ids] s1] eqn:E1.
  apply import_connections_keeps in E1; [|done..].
  destruct (import_devices (ex_devices p) ids r s1) as [r2 s2] eqn:E2.
  apply import_devices_keeps in E2; [by apply reload_ok| |done].
  rewrite Forall_forall in *. intros x Hx. destruct (Hd x Hx) as [? Hps]. split; [done|].
  specialize (Ht x Hx). rewrite Forall_forall in *. intros dp Hdp. split; [by apply Hps|by apply Ht].
Qed.
End Served.

Section ServedProperties.
Context `{InvEnv}.

Lemma get_device_keeps id : keeps (device_Get id).
Proof. apply reads_keeps, reads_bind; [apply reads_select|intros; apply reads_get]. Qed.
Lemma get_datapoint_keeps id : keeps (datapoint_Get id).
Proof. apply reads_keeps, reads_bind; [apply reads_select|intros; apply reads_get]. Qed.

(** Run a repository call inside a handler and keep the invariant. *)
Ltac served E lem := destruct (run _ _) as [[?|?] ?] eqn:E; apply run_keeps in E; try done; try (by apply lem).

Lemma serve_ok q a : typed_request q -> api_ok a -> api_ok (serve q a).
Proof.
  intros Ht Ha.
  destruct q as [[c|]|[id|] [c|]|[id|]|[d|]|[id|] [d|]|[id|]|[dev|] dto|[id|] dto|[id|]|[p|]];
    cbn [serve]; try done.
  - unfold createConnection. destruct (validate_connection c) as [u|e] eqn:Ev; [|done].
    apply unit_ok in Ev. served E keeps_connection_Create. by apply reload_ok.
  - unfold updateConnection. destruct (validate_connection _) as [u|e] eqn:Ev; [|done].
    apply unit_ok in Ev. served E keeps_connection_Update. by apply reload_ok.
  - unfold deleteConnection. served E keeps_connection_Delete. by apply reload_ok.
  - unfold createDevice. destruct (validate_device d) as [u|e] eqn:Ev; [|done].
    apply unit_ok, validate_device_one in Ev. served E keeps_device_Create. by apply reload_ok.
  - unfold updateDevice. destruct (validate_device _) as [u|e] eqn:Ev; [|done].
    apply unit_ok, validate_device_one in Ev. served E keeps_device_Update. by apply reload_ok.
  - unfold deleteDevice. served E keeps_device_Delete. by apply reload_ok.
  - unfold createDataPoint. served E get_device_keeps. destruct dto as [dp|]; [|done].
    destruct (validate_datapoint _) as [u|e] eqn:Ev; [|done]. apply unit_ok in Ev.
    served E2 keeps_datapoint_Create. by apply reload_ok.
  - unfold updateDataPoint. served E get_datapoint_keeps. destruct dto as [dp|]; [|done].
    destruct (validate_datapoint _) as [u|e] eqn:Ev; [|done]. apply unit_ok in Ev.
    served E2 keeps_datapoint_Update. by apply reload_ok.
  - unfold deleteDataPoint. served E keeps_datapoint_Delete. by apply reload_ok.
  - by apply import_keeps.
Qed.

Lemma known_valid dp : validate_datapoint dp = Ok tt -> BlockPlan.known dp.
Proof.
  unfold validate_datapoint, BlockPlan.known, RegisterCount.
  destruct (negb (TagName dp =? "")%string); [|done]. cbn [require mbind result_bind].
  destruct (bool_decide _); [|done]. cbn [require mbind result_bind].
  destruct (ByteWidth (DataType dp)); [by eexists|done].
Qed.

Lemma builds_valid c : validate_connection c = Ok tt -> exists cfg, Poller.BuildClient c = Ok cfg.
Proof.
  unfold validate_connection, Poller.BuildClient. destruct (negb (c_Name c =? "")%string); [|done].
  cbn [require mbind result_bind]. destruct (Protocol c =? TCP)%string eqn:Et.
  - apply String.eqb_eq in Et. rewrite (bool_decide_eq_true_2 (Protocol c = TCP)) by done.
    destruct (IPAddress c =? "")%string eqn:Ei; [done|]. apply String.eqb_neq in Ei.
    rewrite bool_decide_eq_false_2 by done. by eexists.
  - apply String.eqb_neq in Et. rewrite (bool_decide_eq_false_2 (Protocol c = TCP)) by done.
    destruct (Protocol c =? RTU)%string eqn:Er; [|done]. apply String.eqb_eq in Er.
    rewrite (bool_decide_eq_true_2 (Protocol c = RTU)) by done.
    destruct (Interface c =? "")%string eqn:Ei; [done|]. apply String.eqb_neq in Ei.
    rewrite (bool_decide_eq_false_2 (Interface c = "")) by done. by eexists.
Qed.

(** The connection a stored device refers to exists, so its id is positive. *)
Lemma devices_valid t :
  tables_ok t -> Forall valid_dev (t_device t) -> Forall (fun r => validate_device (dev_of r) = Ok tt) (t_device t).
Proof.
  intros Hk Hd. apply Forall_forall. intros r Hr. rewrite Forall_forall in Hd. destruct (Hd r Hr) as [Hv _].
  destruct (ok_device_fk _ Hk r Hr) as (c & Hcin & Hid). destruct (ok_connections _ Hk) as [_ Hpos].
  rewrite Forall_forall in Hpos. specialize (Hpos c Hcin). revert Hv.
  unfold validate_device, with_connection. cbn [d_Name ConnectionID SlaveID dev_of].
  destruct (negb (dr_name r =? "")%string); [|done]. cbn [require mbind result_bind].
  replace (dr_connection_id r <=? 0) with false by (symmetry; apply Z.leb_gt; lia). by cbn.
Qed.

Lemma omap_map_none {A B C} (f : B -> option C) (g : A -> B) l :
  Forall (fun x => f (g x) = None) l -> omap f (map g l) = [].
Proof. induction 1 as [|x l Hx _ IH]; [done|]. cbn [map omap list_omap]. rewrite Hx. exact IH. Qed.

(** C12. The API stores only usable configuration: after any requests, imports included and with any
    database faults, the tables are consistent, every stored
    connection, device and data point passes validation, a client can be
    built for every connection, and every data point is of a type the poller
    reads. *)
Theorem api_stores_valid_configuration qs m st lt :
  Forall typed_request qs ->
  let t := tables (inv (foldl (fun a q => serve q a) (mkApi (mkInv empty_tables 0) m st lt) qs)) in
  tables_ok t /\
  Forall (fun r => validate_connection (conn_of r) = Ok tt /\ exists cfg, Poller.BuildClient (conn_of r) = Ok cfg)
    (t_connection t) /\
  Forall (fun r => validate_device (dev_of r) = Ok tt) (t_device t) /\
  Forall (fun r => validate_datapoint (dp_of r) = Ok tt /\ BlockPlan.known (dp_of r)) (t_datapoint t).
Proof.
  intros Hq t.
  assert (Hk : config_ok t).
  { unfold t. assert (Ha : api_ok (mkApi (mkInv empty_tables 0) m st lt)).
    { split; [apply tables_ok_empty|]. by repeat constructor. }
    revert Ha. generalize (mkApi (mkInv empty_tables 0) m st lt) as a.
    induction Hq as [|q qs Hq _ IH]; intros a Ha; [done|]. cbn [foldl]. by apply IH, serve_ok. }
  clearbody t. destruct Hk as [Hk [Hc Hd Hp]]. split_and!; [done|..].
  - eapply Forall_impl; [exact Hc|]. intros r [Hv _]. split; [done|by apply builds_valid].
  - by apply devices_valid.
  - eapply Forall_impl; [exact Hp|]. intros r (Hv & _). split; [done|by apply known_valid].
Qed.

(** A backup restores the gateway it was taken from: importing an export into the same
    gateway reports every item as updated, none created and no error,
    and leaves the tables exactly as they were. *)
Theorem import_own_export_changes_nothing a :
  (forall n, inv_fault n = false) -> tables_ok (tables (inv a)) -> stored_valid (tables (inv a)) ->
  exists p r a1 a2,
    exportConfig a = ((200, JSON p), a1) /\ payload_errors p = [] /\
    importConfig (Some p) a1 = ((200, JSON r), a2) /\ tables (inv a2) = tables (inv a) /\
    r = mkImport 0 (Z.of_nat (length (t_connection (tables (inv a))))) 0 (Z.of_nat (length (t_device (tables (inv a)))))
          0 (Z.of_nat (length (t_datapoint (tables (inv a))))) [].
Proof.
  intros Hf Hk Hv. pose proof (stored_valid_written _ Hv) as Hw. destruct a as [[t n] m st lt].
  cbn [inv tables] in *. destruct (export_same Hf t Hw n) as [n1 E1].
  destruct (restore_same Hf t Hk Hw n1) as [n2 E2].
  assert (Hpe : payload_errors (exported t) = []).
  { unfold payload_errors, exported. cbn [ex_connections ex_devices].
    destruct Hv as [Hc Hd Hp]. apply app_nil. split.
    - apply omap_map_none. eapply Forall_impl; [exact Hc|]. intros r [Hr _]. by rewrite Hr.
    - pose proof (devices_valid t Hk Hd) as Hds. clear -Hds Hp.
      induction Hds as [|r rows Hr _ IH]; [done|]. cbn [map concat exported_device ex_device ex_points].
      rewrite Hr, IH, app_nil_r. apply omap_map_none, Forall_filter. eapply Forall_impl; [exact Hp|].
      intros x [Hx _]. by rewrite Hx. }
  eexists (exported t), _, (mkApi (mkInv t n1) m st lt), _. split_and!.
  - unfold exportConfig, run. cbn [inv]. by rewrite E1.
  - done.
  - unfold importConfig. rewrite Hpe. cbn [inv]. by rewrite E2.
  - by rewrite reload_tables.
  - done.
Qed.
End ServedProperties.

(** * Concrete gateways *)

#[local] Instance fault_free : InvEnv := {| inv_fault := fun _ => false |}.

Definition plant_bus : Connection := mkConnection 0 "bus" RTU "/dev/ttyUSB0" "" 0 1000 3 true 250 9600 8 "N" 1.
Definition new_point (name : string) (addr : Z) : DataPoint :=
  mkDataPoint 0 0 name 3 addr UInt16 "" "" (of_Z 1) (of_Z 0) "" true.
Definition fresh_gateway : Api := mkApi (mkInv empty_tables 0) None ∅ None.

(** Two devices; the second point of the first one is added last. *)
Definition plant_requests : list request :=
  [CreateConnectionReq (Some plant_bus);
   CreateDeviceReq (Some (mkDevice 0 "boiler" 1 1 true)); CreateDeviceReq (Some (mkDevice 0 "pump" 1 2 true));
   CreateDataPointReq (Some 1) (Some (new_point "temperature" 0));
   CreateDataPointReq (Some 2) (Some (new_point "flow" 0));
   CreateDataPointReq (Some 1) (Some (new_point "pressure" 1))].
Definition plant : Api := foldl (fun a q => serve q a) fresh_gateway plant_requests.

Lemma api_stores_valid_configuration_witness :
  let t := tables (inv plant) in
  tables_ok t /\
  Forall (fun r => validate_connection (conn_of r) = Ok tt /\ exists cfg, Poller.BuildClient (conn_of r) = Ok cfg)
    (t_connection t) /\
  Forall (fun r => validate_device (dev_of r) = Ok tt) (t_device t) /\
  Forall (fun r => validate_datapoint (dp_of r) = Ok tt /\ BlockPlan.known (dp_of r)) (t_datapoint t).
Proof.
  apply (api_stores_valid_configuration plant_requests None ∅ None).
  repeat constructor; by vm_compute.
Defined.

Lemma plant_ok : tables_ok (tables (inv plant)) /\ stored_valid (tables (inv plant)).
Proof.
  assert (Ha : api_ok fresh_gateway) by (split; [apply tables_ok_empty|by repeat constructor]).
  unfold plant, plant_requests. cbn [foldl].
  do 6 (apply serve_ok; [first [exact I|by split; vm_compute]|]). exact Ha.
Qed.

Lemma import_own_export_changes_nothing_witness :
  exists p r a1 a2,
    exportConfig plant = ((200, JSON p), a1) /\ payload_errors p = [] /\
    importConfig (Some p) a1 = ((200, JSON r), a2) /\ tables (inv a2) = tables (inv plant) /\
    r = mkImport 0 1 0 2 0 3 [].
Proof.
  exact (import_own_export_changes_nothing plant (fun _ => eq_refl) (proj1 plant_ok) (proj2 plant_ok)).
Defined.

(** The tags of the data points stored for a device. *)
Definition tags_of (device : Z) (a : Api) : list string :=
  map pr_tag_name (filter (fun r => pr_device_id r = device) (t_datapoint (tables (inv a)))).

(** A backup restored onto an empty gateway can lose data points: where points
    were added to devices in turn, the ids the import assigns meet ids of the
    payload, so the second device's point overwrites the first device's
    instead of being created, and the import still reports success. *)
Theorem import_onto_empty_loses_points :
  exists p a1 r a2,
    exportConfig plant = ((200, JSON p), a1) /\
    importConfig (Some p) fresh_gateway = ((200, JSON r), a2) /\
    r = mkImport 1 0 2 0 2 1 [] /\
    tags_of 1 plant = ["temperature"; "pressure"] /\ tags_of 2 plant = ["flow"] /\
    tags_of 1 a2 = ["temperature"; "flow"] /\ tags_of 2 a2 = [].
Proof.
  destruct (exportConfig plant) as [[st [p| |]] a1] eqn:E; try (vm_compute in E; done).
  exists p, a1. destruct (importConfig (Some p) fresh_gateway) as [[st2 [r| |]] a2] eqn:E2;
    vm_compute in E; injection E as <- <- <-; try (vm_compute in E2; done).
  exists r, a2. vm_compute in E2. injection E2 as <- <- <-. split_and!; by vm_compute.
Qed.
