(* ===== verification/GoText.v ===== *)
(** Go's [strings.Split], [strings.Cut], [strings.Join], [strconv.Atoi] and
    [strconv.Itoa] as the program uses them, on byte strings, and the lemmas
    that relate writing to reading. *)

From Stdlib Require Import Ascii.
From S2P Require Import Prelude.
From S2P Require Import GoStrings.
From S2P Require Import GoTime.

Local Open Scope list_scope.

(** * Splitting at a one-byte separator *)

(** [strings.Split(s, sep)]: never empty. *)
Fixpoint split_at (c : ascii) (s : list ascii) : list (list ascii) :=
  match s with
  | [] => [[]]
  | a :: s =>
    if decide (a = c) then [] :: split_at c s
    else match split_at c s with f :: fs => (a :: f) :: fs | [] => [[a]] end
  end.
Definition Split (s : string) (c : ascii) : list string := map of_bytes (split_at c (bytes_of s)).

(** [strings.Cut(s, sep)]: the text before and after the first separator. *)
Fixpoint cut_at (c : ascii) (s : list ascii) : option (list ascii * list ascii) :=
  match s with
  | [] => None
  | a :: s =>
    if decide (a = c) then Some ([], s)
    else match cut_at c s with Some (x, y) => Some (a :: x, y) | None => None end
  end.
Definition Cut (s : string) (c : ascii) : option (string * string) :=
  match cut_at c (bytes_of s) with Some (x, y) => Some (of_bytes x, of_bytes y) | None => None end.

(** [strings.Join(fs, sep)]. *)
Fixpoint Join (fs : list string) (sep : string) : string :=
  match fs with
  | [] => ""
  | [f] => f
  | f :: fs => f +:+ sep +:+ Join fs sep
  end.

(** No separator occurs in a text. *)
Definition lacks (c : ascii) (s : string) : Prop := c ∉ bytes_of s.
#[export] Instance lacks_dec c s : Decision (lacks c s).
Proof. unfold lacks. apply _. Defined.

Lemma bytes_of_app s t : bytes_of (s +:+ t) = bytes_of s ++ bytes_of t.
Proof. induction s as [|a s IH]; [done|]. by apply (f_equal (cons a)). Qed.
Lemma of_bytes_app s t : of_bytes (s ++ t) = of_bytes s +:+ of_bytes t.
Proof. induction s as [|a s IH]; [done|]. by apply (f_equal (String a)). Qed.
Lemma bytes_of_inj s t : bytes_of s = bytes_of t -> s = t.
Proof. intros H. rewrite <- (of_bytes_of s), <- (of_bytes_of t). by rewrite H. Qed.

Lemma lacks_app c s t : lacks c (s +:+ t) <-> lacks c s /\ lacks c t.
Proof. unfold lacks. rewrite bytes_of_app, elem_of_app. tauto. Qed.

Lemma HasPrefix_app p s : HasPrefix (p +:+ s) p = true.
Proof. unfold HasPrefix. rewrite bytes_of_app. apply bool_decide_eq_true_2. by exists (bytes_of s). Qed.

Lemma split_at_app c s r : c ∉ s -> split_at c (s ++ c :: r) = s :: split_at c r.
Proof.
  induction s as [|a s IH]; intros Hs; cbn; [by rewrite decide_True|].
  apply not_elem_of_cons in Hs as [Hac Hs]. rewrite decide_False by congruence. by rewrite IH.
Qed.

(** Splitting lines that each end in the separator gives the lines and one
    empty remainder. *)
Lemma split_lines c (ls : list string) :
  Forall (lacks c) ls ->
  Split (foldr (fun l r => l +:+ String c r) "" ls) c = ls ++ [""].
Proof.
  unfold Split. induction 1 as [|l ls Hl _ IH]; [done|]. cbn [foldr].
  rewrite bytes_of_app. change (bytes_of (String c ?r)) with (c :: bytes_of r).
  rewrite split_at_app by done. cbn [map app]. by rewrite IH, of_bytes_of.
Qed.

Lemma split_at_none c s : c ∉ s -> split_at c s = [s].
Proof.
  induction s as [|a s IH]; intros Hs; [done|]. apply not_elem_of_cons in Hs as [Hac Hs]. cbn.
  rewrite decide_False by congruence. by rewrite IH.
Qed.
Lemma Split_none c s : lacks c s -> Split s c = [s].
Proof. intros Hs. unfold Split. rewrite split_at_none by done. cbn. by rewrite of_bytes_of. Qed.
Lemma Split_app c s r : lacks c s -> Split (s +:+ String c r) c = s :: Split r c.
Proof.
  intros Hs. unfold Split. rewrite bytes_of_app. change (bytes_of (String c ?r)) with (c :: bytes_of r).
  rewrite split_at_app by done. cbn. by rewrite of_bytes_of.
Qed.

Lemma Split_Join c fs :
  fs <> [] -> Forall (lacks c) fs -> Split (Join fs (String c "")) c = fs.
Proof.
  intros Hne Hf. induction Hf as [|f fs Hf Hfs IH]; [done|]. destruct fs as [|g fs].
  - by apply Split_none.
  - change (Join (f :: g :: fs) (String c "")) with (f +:+ String c (Join (g :: fs) (String c ""))).
    rewrite Split_app by done. by rewrite IH.
Qed.

Lemma cut_at_app c s r : c ∉ s -> cut_at c (s ++ c :: r) = Some (s, r).
Proof.
  induction s as [|a s IH]; intros Hs; cbn; [by rewrite decide_True|].
  apply not_elem_of_cons in Hs as [Hac Hs]. rewrite decide_False by congruence. by rewrite IH.
Qed.
Lemma Cut_app c s r : lacks c s -> Cut (s +:+ String c r) c = Some (s, r).
Proof.
  intros Hs. unfold Cut. rewrite bytes_of_app. change (bytes_of (String c ?r)) with (c :: bytes_of r).
  rewrite cut_at_app by done. by rewrite !of_bytes_of.
Qed.
Lemma cut_at_none c s : c ∉ s -> cut_at c s = None.
Proof.
  induction s as [|a s IH]; intros Hs; [done|]. apply not_elem_of_cons in Hs as [Hac Hs]. cbn.
  rewrite decide_False by congruence. by rewrite IH.
Qed.
Lemma Cut_none c s : lacks c s -> Cut s c = None.
Proof. intros Hs. unfold Cut. by rewrite cut_at_none. Qed.

(** * Decimal integers *)

Local Open Scope Z_scope.

(** [strconv.Itoa]. *)
Definition Itoa (n : Z) : string := of_bytes (append_int 1 n).

Inductive num_error := ErrSyntax | ErrRange.
#[export] Instance num_error_eq_dec : EqDecision num_error.
Proof. solve_decision. Defined.

(** The digits of [s] as a number; [None] on an empty text or another byte. *)
Definition parse_digits (s : list ascii) : option Z :=
  match span_digits s with
  | ([], _) | (_, _ :: _) => None
  | (vs, []) => Some (foldl (fun n v => 10 * n + v) 0 vs)
  end.

(** [strconv.Atoi]: the value it returns next to its error. *)
Definition Atoi (s : string) : Z * option num_error :=
  let '(neg, ds) :=
    match bytes_of s with
    | a :: r => if decide (a = "-"%char) then (true, r) else if decide (a = "+"%char) then (false, r) else (false, a :: r)
    | [] => (false, [])
    end in
  match parse_digits ds with
  | None => (0, Some ErrSyntax)
  | Some n =>
    if neg then (if Int.two63 <? n then (- Int.two63, Some ErrRange) else (- n, None))
    else if Int.two63 - 1 <? n then (Int.two63 - 1, Some ErrRange) else (n, None)
  end.

Lemma span_digits_digits w n acc :
  0 <= n -> exists vs, span_digits (digits w n) = (vs, []) /\ length vs = w /\
  foldl (fun n v => 10 * n + v) acc vs = acc * 10 ^ Z.of_nat w + n mod 10 ^ Z.of_nat w.
Proof.
  assert (Happ : forall l l' vs, span_digits l = (vs, []) ->
            span_digits (l ++ l') = ((vs ++ (span_digits l').1), (span_digits l').2)).
  { induction l as [|a l IH]; cbn; intros l' vs.
    - intros [= <-]. cbn. by destruct (span_digits l').
    - destruct (digit_value a) as [v|]; [|done]. destruct (span_digits l) as [vs' r] eqn:E.
      intros [= <- ->]. by rewrite (IH l' vs' eq_refl). }
  revert n acc. induction w as [|w IH]; intros n acc Hn.
  - exists []. cbn. split_and!; [done..|]. rewrite Z.mod_1_r. lia.
  - destruct (IH (n / 10) acc) as (vs & Hs & Hl & Hf); [apply Z.div_pos; lia|].
    exists (vs ++ [n mod 10]). cbn [digits]. rewrite (Happ _ _ _ Hs).
    pose proof (Z.mod_pos_bound n 10 ltac:(lia)). cbn [span_digits].
    rewrite digit_value_digit by lia. cbn [fst snd]. split_and!; [done|rewrite length_app; cbn; lia|].
    rewrite foldl_app, Hf. cbn [foldl]. rewrite Nat2Z.inj_succ, Z.pow_succ_r by lia.
    rewrite Z.rem_mul_r by lia. lia.
Qed.

Lemma ndigits_enough k n : 0 <= n < 10 ^ Z.of_nat k -> n < 10 ^ Z.of_nat (ndigits k n).
Proof.
  revert n. induction k as [|k IH]; intros n Hn; [cbn in *; lia|]. cbn [ndigits].
  destruct (n <? 10) eqn:E; zbool; [cbn; lia|].
  rewrite Nat2Z.inj_succ, Z.pow_succ_r in * by lia.
  assert (n / 10 < 10 ^ Z.of_nat (ndigits k (n / 10))).
  { apply IH. split; [apply Z.div_pos; lia|apply Z.div_lt_upper_bound; lia]. }
  pose proof (Z.div_mod n 10). pose proof (Z.mod_pos_bound n 10). lia.
Qed.

Lemma digit_code k : digit k = "-"%char \/ digit k = "+"%char -> ~ 0 <= k <= 9.
Proof.
  intros Hd Hk. assert (Hv := digit_value_digit k Hk). by destruct Hd as [E|E]; rewrite E in Hv.
Qed.

(** The first byte of a number is a digit. *)
Lemma digits_head w n : 0 <= n -> exists k r, digits (S w) n = digit k :: r /\ 0 <= k <= 9.
Proof.
  revert n. induction w as [|w IH]; intros n Hn.
  - exists (n mod 10), []. cbn. split; [done|]. pose proof (Z.mod_pos_bound n 10). lia.
  - destruct (IH (n / 10)) as (k & r & E & Hk); [apply Z.div_pos; lia|].
    change (digits (S (S w)) n) with (digits (S w) (n / 10) ++ [digit (n mod 10)]). rewrite E. by eexists _, _.
Qed.

Lemma Atoi_Itoa n : Int.is_i64 n -> Atoi (Itoa n) = (n, None).
Proof.
  unfold Int.is_i64. intros Hn. unfold Atoi, Itoa. rewrite bytes_of_bytes. unfold append_int.
  set (w := Nat.max 1 (ndigits 20 (Z.abs n))).
  assert (Hw : Z.abs n < 10 ^ Z.of_nat w).
  { eapply Z.lt_le_trans; [apply (ndigits_enough 20)|].
    - change (10 ^ Z.of_nat 20) with 100000000000000000000. lia.
    - apply Z.pow_le_mono_r; unfold w; lia. }
  assert (H1 : (1 <= w)%nat) by (unfold w; lia). clearbody w. destruct w as [|w]; [lia|].
  destruct (span_digits_digits (S w) (Z.abs n) 0) as (vs & Hs & Hl & Hf); [lia|].
  assert (Hp : parse_digits (digits (S w) (Z.abs n)) = Some (Z.abs n)).
  { unfold parse_digits. rewrite Hs. destruct vs as [|v vs]; [done|]. rewrite Hf.
    rewrite Z.mod_small by lia. f_equal. }
  destruct (n <? 0) eqn:Hneg; zbool; cbn [app].
  - rewrite decide_True by done. rewrite Hp. rewrite (proj2 (Z.ltb_ge _ _)) by (unfold Int.two63; lia).
    f_equal. lia.
  - destruct (digits_head w (Z.abs n)) as (k & r & E & Hk); [lia|]. rewrite E in *.
    rewrite !decide_False by (intros Hd; apply (digit_code k); auto). rewrite Hp.
    rewrite (proj2 (Z.ltb_ge _ _)) by (unfold Int.two63; lia). f_equal. lia.
Qed.

Lemma Itoa_inj m n : Int.is_i64 m -> Int.is_i64 n -> Itoa m = Itoa n -> m = n.
Proof. intros Hm Hn E. apply (f_equal Atoi) in E. rewrite !Atoi_Itoa in E by done. congruence. Qed.

Lemma digits_lack c w n : 0 <= n -> (forall k, 0 <= k <= 9 -> digit k <> c) -> c ∉ digits w n.
Proof.
  revert n. induction w as [|w IH]; intros n Hn Hc; cbn; [apply not_elem_of_nil|].
  rewrite elem_of_app, list_elem_of_singleton. pose proof (Z.mod_pos_bound n 10).
  intros [?|E]; [by eapply IH; [|exact Hc|eassumption]; apply Z.div_pos; lia|].
  eapply (Hc (n mod 10)); [lia|done].
Qed.

(** A number holds nothing but digits and a sign. *)
Lemma Itoa_lacks c n : digit_value c = None -> c <> "-"%char -> lacks c (Itoa n).
Proof.
  intros Hc Hm. unfold lacks, Itoa. rewrite bytes_of_bytes. unfold append_int. rewrite elem_of_app.
  intros [Hs|Hd].
  - case_match; [apply list_elem_of_singleton in Hs; congruence|by apply elem_of_nil in Hs].
  - revert Hd. apply digits_lack; [lia|]. intros k Hk <-. by rewrite digit_value_digit in Hc.
Qed.

(** * Host and port *)

(** [net.SplitHostPort]: the host and the port, or an error. *)
Definition last_index (c : ascii) (s : list ascii) : option nat :=
  (fun k => (length s - S k)%nat) <$> (fst <$> list_find (fun a => a = c) (reverse s)).
Definition index (c : ascii) (s : list ascii) : option nat := fst <$> list_find (fun a => a = c) s.

Definition split_host_port (s : list ascii) : option (list ascii * list ascii) :=
  i ← last_index ":" s;
  '(host, j, k) ←
    (if decide (head s = Some "["%char) then
       e ← index "]" s;
       if decide ((e + 1)%nat = i) then Some (drop 1 (take e s), 1%nat, (e + 1)%nat) else None
     else
       let host := take i s in
       if decide (":"%char ∈ host) then None else Some (host, 0%nat, 0%nat));
  if decide ("["%char ∈ drop j s \/ "]"%char ∈ drop k s) then None
  else Some (host, drop (i + 1) s).
Definition SplitHostPort (s : string) : option (string * string) :=
  '(h, p) ← split_host_port (bytes_of s); Some (of_bytes h, of_bytes p).

(** [net.JoinHostPort]: brackets around a host with a colon. *)
Definition JoinHostPort (host port : string) : string :=
  if decide (":"%char ∈ bytes_of host) then "[" +:+ host +:+ "]:" +:+ port else host +:+ ":" +:+ port.

Example split_name : SplitHostPort "ntp.example:1123" = Some ("ntp.example", "1123").
Proof. by vm_compute. Qed.
Example split_no_port : SplitHostPort "ntp.example" = None.
Proof. by vm_compute. Qed.
Example split_v6 : SplitHostPort "[fe80::1]:123" = Some ("fe80::1", "123") /\ SplitHostPort "fe80::1" = None.
Proof. by vm_compute. Qed.
