(* ===== verification/NetConfig.v ===== *)
(** The host's network configuration (internal/netconfig): the [Controller]
    interface and its nmcli implementation, and the confirm-or-revert [Service]
    around it, with Go's timers and the interleavings of its callers.

    nmcli itself is not part of the repository: [Nmcli] is what the code calls
    of it ([run] returns nmcli's output or the command's error), and [NMSpec]
    is what NetworkManager documents of the commands used here. *)

From Stdlib Require Import Ascii.
From S2P Require Import Prelude.
From S2P Require Import GoTime.
From S2P Require Import GoStrings.
From S2P Require Import GoText.

Local Open Scope string_scope.
Local Open Scope list_scope.
Local Open Scope Z_scope.

(** * Data (netconfig.go) *)

Record Info := mkInfo {
  Interface : string;
  Method : string;
  Address : string;
  Prefix : Z;
  Gateway : string;
  DNS : list string
}.
#[export] Instance Info_eq_dec : EqDecision Info.
Proof. solve_decision. Defined.

Record StaticConfig := mkStatic {
  cfg_Interface : string;
  cfg_Address : string;
  cfg_Prefix : Z;
  cfg_Gateway : string;
  cfg_DNS : list string
}.

(** Errors, as far as [errors.Is(err, ErrUnsupported)] can tell them apart. *)
Inductive net_error :=
| ErrUnsupported
| Errorf (text : string)
| WrapNet (context : string) (e : net_error).
#[export] Instance net_error_eq_dec : EqDecision net_error.
Proof. solve_decision. Defined.

Fixpoint is_unsupported (e : net_error) : bool :=
  match e with ErrUnsupported => true | Errorf _ => false | WrapNet _ e => is_unsupported e end.

Definition validate (cfg : StaticConfig) : result net_error unit :=
  if decide (cfg_Interface cfg = "") then Err (Errorf "interface is required")
  else if decide (cfg_Address cfg = "") then Err (Errorf "address is required")
  else if decide (cfg_Gateway cfg = "") then Err (Errorf "gateway is required")
  else if (cfg_Prefix cfg <=? 0) || (32 <? cfg_Prefix cfg)
  then Err (Errorf "prefix must be between 1 and 32")
  else Ok tt.

(** [Controller]: what [Service] calls of a host's network stack. *)
Class Controller (H : Type) := {
  Current : M net_error H Info;
  ApplyStatic : StaticConfig -> M net_error H unit;
  ApplyDHCP : string -> M net_error H unit
}.

(** * The nmcli controller (netconfig.go) *)

(** [run] and [lookPath] of [nmcliController]. *)
Class Nmcli (H : Type) := {
  nm_run : list string -> M string H string;
  nm_available : H -> bool
}.

Definition newline : ascii := "010"%char.
Definition colon : ascii := ":"%char.

Section Nmcli.
Context {H : Type} `{Nmcli H}.

Definition nmcli_run (context : string) (args : list string) : M net_error H string :=
wrap (fun e => Errorf (context +:+ ": " +:+ e)) (nm_run args).

(** The first connected ethernet or wifi device of [nmcli device status]. *)
Fixpoint find_primary (lines : list string) : option string :=
match lines with
| [] => None
| line :: rest =>
  match Split line colon with
  | device :: devType :: state :: _ =>
    if bool_decide (state = "connected") && (bool_decide (devType = "ethernet") || bool_decide (devType = "wifi"))
    then Some device
    else find_primary rest
  | _ => find_primary rest
  end
end.

Definition status_args : list string := ["-t"; "-f"; "DEVICE,TYPE,STATE"; "device"; "status"].

Definition primaryInterface : M net_error H string :=
out ← nmcli_run "nmcli device status" status_args;
match find_primary (Split out newline) with
| Some d => mret d
| None => fail (Errorf "no connected ethernet/wifi interface found")
end.

(** The connection profile named in [nmcli device show]: the first
    [GENERAL.CONNECTION] line decides. *)
Fixpoint find_connection (iface : string) (lines : list string) : result net_error string :=
match lines with
| [] => Err (Errorf ("could not determine connection profile for interface " +:+ iface))
| line :: rest =>
  match Cut line colon with
  | Some (key, val) =>
    if decide (key = "GENERAL.CONNECTION") then
      let val := TrimSpace val in
      if decide (val = "" \/ val = "--")
      then Err (Errorf ("interface " +:+ iface +:+ " has no active connection profile"))
      else Ok val
    else find_connection iface rest
  | None => find_connection iface rest
  end
end.

Definition lift {E S A} (r : result E A) : M E S A := fun s => (r, s).

Definition connection_args (iface : string) : list string :=
["-t"; "-f"; "GENERAL.CONNECTION"; "device"; "show"; iface].

Definition connectionForInterface (iface : string) : M net_error H string :=
out ← nmcli_run ("nmcli device show " +:+ iface) (connection_args iface);
lift (find_connection iface (Split out newline)).

(** One line of [nmcli device show] in [Current]'s loop: the connection name
    and the configuration read so far. *)
Definition read_line (acc : string * Info) (line : string) : string * Info :=
let '(conn, i) := acc in
match Cut line colon with
| None => acc
| Some (key, val) =>
  if decide (key = "GENERAL.CONNECTION") then (val, i)
  else if decide (key = "IP4.ADDRESS[1]") then
    let '(addr, prefixStr) := match Cut val "/"%char with Some p => p | None => (val, "") end in
    (conn, mkInfo (Interface i) (Method i) addr (Atoi prefixStr).1 (Gateway i) (DNS i))
  else if decide (key = "IP4.GATEWAY") then
    (conn, mkInfo (Interface i) (Method i) (Address i) (Prefix i) val (DNS i))
  else if HasPrefix key "IP4.DNS[" then
    if decide (val = "") then acc
    else (conn, mkInfo (Interface i) (Method i) (Address i) (Prefix i) (Gateway i) (DNS i ++ [val]))
  else acc
end.

Definition set_method (m : string) (i : Info) : Info :=
mkInfo (Interface i) m (Address i) (Prefix i) (Gateway i) (DNS i).

Definition read_method (i : Info) (line : string) : Info :=
match Cut line colon with
| Some (key, val) => if decide (key = "ipv4.method") then set_method (TrimSpace val) i else i
| None => i
end.

Definition show_args (iface : string) : list string :=
["-t"; "-f"; "GENERAL.CONNECTION,IP4.ADDRESS,IP4.GATEWAY,IP4.DNS"; "device"; "show"; iface].
Definition method_args (conn : string) : list string :=
["-t"; "-f"; "ipv4.method"; "connection"; "show"; conn].

(** An error of the last command is ignored: the method stays empty. *)
Definition nmcli_Current : M net_error H Info :=
fun h =>
if negb (nm_available h) then (Err ErrUnsupported, h) else
(iface ← primaryInterface;
 out ← nmcli_run ("nmcli device show " +:+ iface) (show_args iface);
 let '(conn, info) := foldl read_line ("", mkInfo iface "" "" 0 "" []) (Split out newline) in
 if decide (conn <> "" /\ conn <> "--") then
   r ← try (nmcli_run "" (method_args conn));
   match r with
   | Ok methodOut => mret (foldl read_method info (Split methodOut newline))
   | Err _ => mret info
   end
 else mret info) h.

Definition mod_static_args (conn : string) (cfg : StaticConfig) : list string :=
["con"; "mod"; conn;
 "ipv4.addresses"; cfg_Address cfg +:+ "/" +:+ Itoa (cfg_Prefix cfg);
 "ipv4.gateway"; cfg_Gateway cfg;
 "ipv4.method"; "manual"]
++ (if decide (0 < length (cfg_DNS cfg))%nat then ["ipv4.dns"; Join (cfg_DNS cfg) ","] else []).
Definition mod_auto_args (conn : string) : list string := ["con"; "mod"; conn; "ipv4.method"; "auto"].
Definition up_args (conn : string) : list string := ["con"; "up"; conn].

Definition nmcli_ApplyStatic (cfg : StaticConfig) : M net_error H unit :=
fun h =>
if negb (nm_available h) then (Err ErrUnsupported, h) else
(_ ← lift (validate cfg);
 conn ← connectionForInterface (cfg_Interface cfg);
 _ ← nmcli_run "nmcli con mod" (mod_static_args conn cfg);
 _ ← nmcli_run "nmcli con up" (up_args conn);
 mret tt) h.

Definition nmcli_ApplyDHCP (iface : string) : M net_error H unit :=
fun h =>
if negb (nm_available h) then (Err ErrUnsupported, h) else
if decide (iface = "") then (Err (Errorf "interface is required"), h) else
(conn ← connectionForInterface iface;
 _ ← nmcli_run "nmcli con mod (dhcp)" (mod_auto_args conn);
 _ ← nmcli_run "nmcli con up" (up_args conn);
 mret tt) h.

#[export] Instance nmcliController : Controller H := {|
Current := nmcli_Current;
ApplyStatic := nmcli_ApplyStatic;
ApplyDHCP := nmcli_ApplyDHCP
|}.
End Nmcli.

(** * The confirm-or-revert service (service.go) *)

(** [time.AfterFunc]'s timer: when it goes off, and the [prevCopy] its function
    hands to [revert]. *)
Record Timer := mkTimer { deadline : Z; closure : Info }.

(** [Service] with the host it controls and the runtime's timers: [timer] is
    the id of the timer the field points to, [armed] are the timers that have
    neither fired nor been stopped. *)
Record Svc (H : Type) := mkSvc {
  host : H;
  previous : option Info;
  timer : option nat;
  armed : gmap nat Timer;
  fresh_id : nat;
  now : Z
}.
Arguments mkSvc {H}.
Arguments host {H}.
Arguments previous {H}.
Arguments timer {H}.
Arguments armed {H}.
Arguments fresh_id {H}.
Arguments now {H}.

Section Service.
Context {H : Type} `{Controller H}.

Definition on_host {A} (m : M net_error H A) : M net_error (Svc H) A :=
fun s => let '(r, h) := m (host s) in
(r, mkSvc h (previous s) (timer s) (armed s) (fresh_id s) (now s)).

Definition svc_Current : M net_error (Svc H) Info := on_host Current.

(** [timer.Stop()]: without effect on a timer that has fired. *)
Definition Stop (id : nat) (s : Svc H) : Svc H :=
mkSvc (host s) (previous s) (timer s) (delete id (armed s)) (fresh_id s) (now s).

(** The critical section of [applyAndArm]. *)
Definition arm (confirmWindow : Z) (prev : Info) (s : Svc H) : Svc H :=
let s := match timer s with Some id => Stop id s | None => s end in
mkSvc (host s) (Some prev) (Some (fresh_id s))
      (<[fresh_id s := mkTimer (now s + confirmWindow) prev]> (armed s))
      (S (fresh_id s)) (now s).

Definition applyAndArm (confirmWindow : Z) (do : M net_error H unit) : M net_error (Svc H) unit :=
prev ← wrap (WrapNet "read current network config") (on_host Current);
_ ← on_host do;
modify (arm confirmWindow prev).

Definition Apply (cfg : StaticConfig) (confirmWindow : Z) : M net_error (Svc H) unit :=
applyAndArm confirmWindow (ApplyStatic cfg).
Definition svc_ApplyDHCP (iface : string) (confirmWindow : Z) : M net_error (Svc H) unit :=
applyAndArm confirmWindow (ApplyDHCP iface).

(** The controller call of [revert]. *)
Definition restore (prev : Info) : M net_error H unit :=
if decide (Method prev = "manual")
then ApplyStatic (mkStatic (Interface prev) (Address prev) (Prefix prev) (Gateway prev) (DNS prev))
else ApplyDHCP (Interface prev).

Definition clear (s : Svc H) : Svc H :=
mkSvc (host s) None None (armed s) (fresh_id s) (now s).

(** A failed restore is only logged. *)
Definition revert (prev : Info) (s : Svc H) : Svc H := clear (on_host (restore prev) s).2.

Definition Confirm : M net_error (Svc H) unit :=
fun s =>
match timer s with
| None => (Err (Errorf "no pending network change to confirm"), s)
| Some id => (Ok tt, clear (Stop id s))
end.

Definition Pending (s : Svc H) : bool := bool_decide (is_Some (timer s)).

(** ** Interleavings *)

(** A goroutine inside the service: a handler in [applyAndArm] before [do],
    before its critical section, or a fired timer in [revert] before the
    controller call and before its critical section. *)
Inductive change := ToStatic (cfg : StaticConfig) | ToDHCP (iface : string).
Inductive thread :=
| TApply (c : change) (window : Z)
| TDo (c : change) (window : Z) (prev : Info)
| TArm (window : Z) (prev : Info)
| TRevert (prev : Info)
| TClear.

Definition run_change (c : change) : M net_error H unit :=
match c with ToStatic cfg => ApplyStatic cfg | ToDHCP iface => ApplyDHCP iface end.

(** Run a goroutine up to its next lock or controller call. *)
Definition thread_step (t : thread) (s : Svc H) : option thread * Svc H :=
match t with
| TApply c w =>
  match on_host Current s with
  | (Ok prev, s) => (Some (TDo c w prev), s)
  | (Err _, s) => (None, s)
  end
| TDo c w prev =>
  match on_host (run_change c) s with
  | (Ok _, s) => (Some (TArm w prev), s)
  | (Err _, s) => (None, s)
  end
| TArm w prev => (None, arm w prev s)
| TRevert prev => (Some TClear, (on_host (restore prev) s).2)
| TClear => (None, clear s)
end.

Definition tick (d : Z) (s : Svc H) : Svc H :=
mkSvc (host s) (previous s) (timer s) (armed s) (fresh_id s) (now s + d).

Definition config : Type := list thread * Svc H.

(** Requests and fired timers start goroutines, which run interleaved. *)
Inductive step : config -> config -> Prop :=
| step_request ts s c w : step (ts, s) (ts ++ [TApply c w], s)
| step_confirm ts s : step (ts, s) (ts, (Confirm s).2)
| step_tick ts s d : 0 <= d -> step (ts, s) (ts, tick d s)
| step_fire ts s id t :
    armed s !! id = Some t -> deadline t <= now s ->
    step (ts, s) (ts ++ [TRevert (closure t)], Stop id s)
| step_thread ts s i t :
    ts !! i = Some t ->
    step (ts, s) (match (thread_step t s).1 with
                  | Some t' => <[i := t']> ts
                  | None => delete i ts
                  end, (thread_step t s).2).

(** ** One call at a time *)

Inductive op :=
| OpApply (c : change) (window : Z)
| OpConfirm
| OpTick (d : Z)
| OpFire (id : nat).

(** The timer's goroutine runs to its end once it has fired. *)
Definition fire (id : nat) (s : Svc H) : Svc H :=
match armed s !! id with
| Some t => if deadline t <=? now s then revert (closure t) (Stop id s) else s
| None => s
end.

Definition run_op (o : op) (s : Svc H) : Svc H :=
match o with
| OpApply c w => (applyAndArm w (run_change c) s).2
| OpConfirm => (Confirm s).2
| OpTick d => tick (Z.max 0 d) s
| OpFire id => fire id s
end.
Definition run_ops (os : list op) (s : Svc H) : Svc H := foldl (fun s o => run_op o s) s os.

Definition new_service (h : H) (t : Z) : Svc H := mkSvc h None None ∅ 0 t.
End Service.
Arguments thread_step {H _}.
Arguments step {H _}.
