(* ===== verification/NetConfigProps.v ===== *)
(** The contract a [Controller] owes the service, and what confirm-or-revert
    guarantees over it: when a change is undone, when it stays, and the two
    places where the guarantee has a hole. *)

From Stdlib Require Import Ascii.
From S2P Require Import Prelude.
From S2P Require Import GoStrings.
From S2P Require Import GoText.
From S2P Require Import NetConfig.

Local Open Scope string_scope.
Local Open Scope list_scope.
Local Open Scope Z_scope.

(** * The contract *)

(** [net_live h i] is the configuration in force on interface [i]; [net_ok] is
    what the host keeps true of itself.  Applying a static configuration with
    no name servers leaves the interface the ones it finds. *)
Class ControllerSpec (H : Type) `{Controller H} := {
  net_ok : H -> Prop;
  net_live : H -> string -> Info;
  net_primary : H -> option string;
  net_current : forall h r h', net_ok h -> Current h = (r, h') ->
    h' = h /\ forall i, r = Ok i ->
      net_primary h = Some (Interface i) /\ net_live h (Interface i) = i;
  net_static : forall cfg h h', net_ok h -> ApplyStatic cfg h = (Ok tt, h') ->
    net_ok h' /\ net_primary h' = net_primary h /\
    (forall i, i <> cfg_Interface cfg -> net_live h' i = net_live h i) /\
    (Forall (lacks ","%char) (cfg_DNS cfg) -> lacks "/"%char (cfg_Address cfg) ->
     cfg_DNS cfg <> [] ->
     net_live h' (cfg_Interface cfg) =
     mkInfo (cfg_Interface cfg) "manual" (cfg_Address cfg) (cfg_Prefix cfg) (cfg_Gateway cfg) (cfg_DNS cfg));
  net_dhcp : forall i h h', net_ok h -> ApplyDHCP i h = (Ok tt, h') ->
    net_ok h' /\ net_primary h' = net_primary h /\
    (forall j, j <> i -> net_live h' j = net_live h j) /\ Method (net_live h' i) = "auto";
  net_static_invalid : forall cfg h e, validate cfg = Err e -> (ApplyStatic cfg h).2 = h
}.

(** * States between calls *)

Section Serial.
Context {H : Type} `{Controller H}.

(** Between calls that do not overlap, the armed timer is the one the field
    points to, and [previous] is what it would restore. *)
Definition Serial (s : Svc H) : Prop :=
match timer s with
| None => armed s = ∅ /\ previous s = None
| Some id => exists t, armed s = {[id := t]} /\ previous s = Some (closure t) /\ (id < fresh_id s)%nat
end.

Lemma on_host_eq {A} (m : M net_error H A) (s : Svc H) :
on_host m s = ((m (host s)).1, mkSvc (m (host s)).2 (previous s) (timer s) (armed s) (fresh_id s) (now s)).
Proof. unfold on_host. by destruct (m (host s)). Qed.

(** What [applyAndArm] does, on its error paths and on success. *)
Lemma applyAndArm_eq w (do : M net_error H unit) (s : Svc H) :
applyAndArm w do s =
match Current (host s) with
| (Err e, h) => (Err (WrapNet "read current network config" e), (on_host (fun _ => (Ok tt, h)) s).2)
| (Ok prev, h) =>
  match do h with
  | (Err e, h) => (Err e, (on_host (fun _ => (Ok tt, h)) s).2)
  | (Ok _, h) => (Ok tt, arm w prev (on_host (fun _ => (Ok tt, h)) s).2)
  end
end.
Proof.
unfold applyAndArm, mbind, M_bind, wrap. rewrite on_host_eq.
destruct (Current (host s)) as [[prev|e] h]; cbn; [|done].
rewrite on_host_eq. cbn. destruct (do h) as [[u|e] h']; cbn; done.
Qed.

(** The critical section replaces whatever timer was armed. *)
Lemma arm_armed w prev (s : Svc H) :
Serial s -> armed (arm w prev s) = {[fresh_id s := mkTimer (now s + w) prev]}.
Proof.
unfold Serial, arm. destruct (timer s) as [id|]; cbn.
- intros (t & -> & _). by rewrite delete_singleton_eq, insert_empty.
- intros [-> _]. by rewrite insert_empty.
Qed.

Lemma arm_fields w prev (s : Svc H) :
timer (arm w prev s) = Some (fresh_id s) /\ previous (arm w prev s) = Some prev /\
host (arm w prev s) = host s /\ now (arm w prev s) = now s /\ fresh_id (arm w prev s) = S (fresh_id s).
Proof. unfold arm. by destruct (timer s). Qed.

Lemma Serial_arm w prev s : Serial s -> Serial (arm w prev s).
Proof.
intros Hs. unfold Serial. destruct (arm_fields w prev s) as (-> & -> & _ & _ & ->).
rewrite arm_armed by done. eexists. split_and!; [done|done|lia].
Qed.

Lemma Serial_host (h : H) s :
Serial s -> Serial (mkSvc h (previous s) (timer s) (armed s) (fresh_id s) (now s)).
Proof. done. Qed.

Lemma Serial_fire id (s : Svc H) :
Serial s ->
fire id s = match timer s, armed s !! id with
            | Some i, Some t => if deadline t <=? now s then
                mkSvc (restore (closure t) (host s)).2 None None ∅ (fresh_id s) (now s) else s
            | _, _ => s
            end.
Proof.
unfold Serial, fire. destruct (timer s) as [i|].
- intros (t & Ha & _). rewrite Ha. destruct (decide (i = id)) as [<-|Hn].
  + rewrite lookup_singleton_eq. destruct (_ <=? _); [|done]. unfold revert, clear.
    rewrite on_host_eq. cbn. by rewrite Ha, delete_singleton_eq.
  + by rewrite lookup_singleton_ne.
- intros [Ha _]. by rewrite Ha, lookup_empty.
Qed.

Lemma Serial_op o (s : Svc H) : Serial s -> Serial (run_op o s).
Proof.
intros Hs. destruct o as [c w| |d|id]; cbn.
- rewrite applyAndArm_eq. destruct (Current (host s)) as [[prev|e] h]; cbn -[arm]; [|done].
  destruct (run_change c h) as [[u|e] h']; cbn -[arm]; [|done]. apply Serial_arm, (Serial_host h' s), Hs.
- unfold Confirm. destruct (timer s) as [id|] eqn:E; [|done]. cbn. unfold Serial in *. rewrite E in Hs.
  destruct Hs as (t & Ha & _). cbn. by rewrite Ha, delete_singleton_eq.
- done.
- rewrite Serial_fire by done. destruct (timer s) eqn:E; [|done].
  destruct (armed s !! id); [|done]. by destruct (_ <=? _).
Qed.

Lemma Serial_ops os (s : Svc H) : Serial s -> Serial (run_ops os s).
Proof. revert s. induction os as [|o os IH]; intros s Hs; cbn; [done|]. by apply IH, Serial_op. Qed.

Lemma Serial_new (h : H) t : Serial (new_service h t).
Proof. done. Qed.

(** Time passing and timers going off: nobody calls the service. *)
Definition idle_op (o : op) : Prop := match o with OpTick _ | OpFire _ => True | _ => False end.
(** ... or somebody only confirms. *)
Definition no_change (o : op) : Prop := match o with OpApply _ _ => False | _ => True end.

(** With nothing pending, nothing happens. *)
Lemma nothing_pending os (s : Svc H) :
Serial s -> timer s = None -> Forall no_change os ->
host (run_ops os s) = host s /\ timer (run_ops os s) = None.
Proof.
intros Hs Ht Hos. revert s Hs Ht. induction Hos as [|o os Ho _ IH]; intros s Hs Ht; [done|]. cbn.
assert (Hstep : host (run_op o s) = host s /\ timer (run_op o s) = None).
{ destruct o as [c w| |d|id]; cbn; [done|..].
  - unfold Confirm. by rewrite Ht.
  - done.
  - rewrite Serial_fire by done. by rewrite Ht. }
destruct Hstep as [<- Ht']. by apply IH; [apply Serial_op|].
Qed.

(** A pending change under idle operations: it stays until its deadline, and
    once the timer has fired the snapshot has been restored. *)
Definition awaiting (id : nat) (t : Timer) (h : H) (s : Svc H) : Prop :=
(timer s = Some id /\ armed s = {[id := t]} /\ host s = h) \/
(timer s = None /\ host s = (restore (closure t) h).2 /\ deadline t <= now s).

Lemma awaiting_op id t h o s :
Serial s -> idle_op o -> awaiting id t h s -> awaiting id t h (run_op o s).
Proof.
intros Hs Ho Ha. destruct o as [c w| |d|id']; cbn in *; [done|done|..].
- destruct Ha as [Ha|(? & ? & ?)]; [by left|]. right. split_and!; [done|done|]. unfold tick. cbn. lia.
- rewrite Serial_fire by done. destruct Ha as [(Ht & Har & Hh)|(Ht & Hh & Hd)].
  + rewrite Ht, Har. destruct (decide (id = id')) as [<-|Hn].
    * rewrite lookup_singleton_eq. destruct (_ <=? _) eqn:E; zbool; [right|by left].
      cbn. by rewrite Hh.
    * rewrite lookup_singleton_ne by done. by left.
  + rewrite Ht. by right.
Qed.

Lemma awaiting_ops id t h os s :
Serial s -> Forall idle_op os -> awaiting id t h s -> awaiting id t h (run_ops os s).
Proof.
intros Hs Hos. revert s Hs. induction Hos as [|o os Ho _ IH]; intros s Hs Ha; [done|].
cbn. apply IH; [by apply Serial_op|by apply awaiting_op].
Qed.

(** A successful change leaves exactly its own timer. *)
Lemma apply_awaiting c w s s' :
Serial s -> applyAndArm w (run_change c) s = (Ok tt, s') ->
exists prev h, Current (host s) = (Ok prev, h) /\ run_change c h = (Ok tt, host s') /\
now s' = now s /\ Serial s' /\
awaiting (fresh_id s) (mkTimer (now s + w) prev) (host s') s'.
Proof.
intros Hs. rewrite applyAndArm_eq. destruct (Current (host s)) as [[prev|e] h] eqn:Ec; [|done].
destruct (run_change c h) as [[[]|e] h'] eqn:Er; [|done]. intros [= <-].
set (s0 := mkSvc h' _ _ _ _ _). assert (Hs0 : Serial s0) by exact (Serial_host _ s Hs).
destruct (arm_fields w prev s0) as (Ht & _ & Hh & Hn & _). pose proof (arm_armed w prev s0 Hs0) as Ha.
exists prev, h. split_and!; [done|by rewrite Hh|by rewrite Hn|by apply Serial_arm|by left].
Qed.
End Serial.

(** * The guarantees *)

Section Guarantees.
Context {H : Type} `{ControllerSpec H}.

(** The interface a change configures. *)
Definition change_iface (c : change) : string :=
match c with ToStatic cfg => cfg_Interface cfg | ToDHCP i => i end.

Lemma run_change_spec c (h h' : H) :
net_ok h -> run_change c h = (Ok tt, h') ->
net_ok h' /\ net_primary h' = net_primary h /\ forall i, i <> change_iface c -> net_live h' i = net_live h i.
Proof.
intros Hok Hr. destruct c as [cfg|i]; cbn in Hr.
- by destruct (net_static cfg h h' Hok Hr) as (? & ? & ? & _).
- by destruct (net_dhcp i h h' Hok Hr) as (? & ? & ? & _).
Qed.

(** A configuration [revert] can put back exactly: a static one with the
    fields [validate] asks for and at least one name server. *)
Definition restorable (i : Info) : Prop :=
Method i = "manual" /\ DNS i <> [] /\ Forall (lacks ","%char) (DNS i) /\ lacks "/"%char (Address i).

Lemma restore_spec prev (h h' : H) :
net_ok h -> restorable prev -> restore prev h = (Ok tt, h') ->
net_ok h' /\ net_primary h' = net_primary h /\ net_live h' (Interface prev) = prev.
Proof.
intros Hok (Hm & Hd & Hc & Ha). unfold restore. rewrite decide_True by done. intros Hr.
destruct (net_static _ h h' Hok Hr) as (? & ? & _ & Hl). split_and!; [done|done|].
cbn in Hl. rewrite Hl by done. destruct prev. cbn in *. by subst.
Qed.

(** C22. An unconfirmed change is undone.  After a successful Apply or ApplyDHCP
    that no other call of the service overlaps or follows, while time passes
    and timers go off: before the confirmation window ends the change stays in
    force and Pending reports it; from the end of the window on the change's
    timer, if it has not gone off yet, restores the configuration Current read
    just before the change, and nothing is pending any more.  When that call of
    the controller succeeds and the snapshot is a static configuration with name
    servers, reading the configuration again yields the snapshot. *)
Theorem unconfirmed_change_reverted (h0 : H) t0 os0 c w s' os :
let s := run_ops os0 (new_service h0 t0) in
applyAndArm w (run_change c) s = (Ok tt, s') -> Forall idle_op os ->
exists prev, (Current (host s)).1 = Ok prev /\
(now (run_ops os s') < now s + w -> host (run_ops os s') = host s' /\ Pending (run_ops os s') = true) /\
(now s + w <= now (run_ops os s') ->
 let s3 := fire (fresh_id s) (run_ops os s') in
 host s3 = (restore prev (host s')).2 /\ Pending s3 = false /\
 (net_ok (host s) -> restorable prev -> (restore prev (host s')).1 = Ok tt ->
  forall i, (Current (host s3)).1 = Ok i -> i = prev)).
Proof.
intros s Happ Hos. assert (Hs : Serial s) by by apply Serial_ops, Serial_new.
destruct (apply_awaiting c w s s' Hs Happ) as (prev & h & Hc & Hr & Hn & Hs' & Hw).
exists prev. rewrite Hc. split; [done|].
pose proof (awaiting_ops _ _ _ os s' Hs' Hos Hw) as Ha.
pose proof (Serial_ops os s' Hs') as Hsos. split.
- intros Hlt. destruct Ha as [(Ht & _ & ->)|(_ & _ & Hd)]; [|cbn in Hd; lia].
  unfold Pending. by rewrite Ht.
- intros Hge. cbv zeta.
  assert (Hend : host (fire (fresh_id s) (run_ops os s')) = (restore prev (host s')).2 /\
                 Pending (fire (fresh_id s) (run_ops os s')) = false).
  { rewrite Serial_fire by done. destruct Ha as [(Ht & Har & Hh)|(Ht & Hh & _)]; rewrite Ht.
    - rewrite Har, lookup_singleton_eq. cbn. rewrite (proj2 (Z.leb_le _ _)) by done. cbn. by rewrite Hh.
    - split; [done|]. unfold Pending. by rewrite Ht. }
  destruct Hend as [-> Hp]. split_and!; [done|done|]. intros Hok Hres Hrest i.
  destruct (net_current (host s) _ _ Hok Hc) as [-> Hprev]. destruct (Hprev prev eq_refl) as [Hprim _].
  destruct (run_change_spec c _ _ Hok Hr) as (Hok' & Hprim' & _).
  destruct (restore prev (host s')) as [r h3] eqn:E. cbn in Hrest. subst r.
  destruct (restore_spec prev _ _ Hok' Hres E) as (Hok3 & Hprim3 & Hlive). cbn.
  destruct (Current h3) as [r h4] eqn:E3. cbn. intros ->.
  destruct (net_current h3 _ _ Hok3 E3) as [-> Hi]. destruct (Hi i eq_refl) as [Hpi Hli].
  rewrite Hprim3, Hprim', Hprim in Hpi. injection Hpi as Hpi. by rewrite <- Hli, <- Hpi.
Qed.


(** A change that fails arms nothing: whatever the step that failed
    (reading the snapshot, or the controller's call, which may already have
    touched the host), the pending change of an earlier call, if any, keeps its
    timer and its snapshot.  In particular nothing will undo what a failed
    controller call changed. *)
Theorem failed_change_arms_nothing (c : change) w (s s' : Svc H) e :
net_ok (host s) -> applyAndArm w (run_change c) s = (Err e, s') ->
timer s' = timer s /\ armed s' = armed s /\ previous s' = previous s /\
((exists e', (Current (host s)).1 = Err e' /\ e = WrapNet "read current network config" e' /\
             host s' = (Current (host s)).2)
 \/ ((run_change c (host s)).1 = Err e /\ host s' = (run_change c (host s)).2)).
Proof.
intros Hok. rewrite applyAndArm_eq. destruct (Current (host s)) as [[prev|e'] h] eqn:Ec.
- destruct (net_current (host s) _ _ Hok Ec) as [-> _].
  destruct (run_change c (host s)) as [[u|e'] h'] eqn:Er; [done|]. intros [= <- <-].
  split_and!; [done..|]. by right.
- intros [= <- <-]. split_and!; [done..|]. left. by exists e'.
Qed.

(** ** Two holes *)

(** A late confirmation is answered ok and ignored: once the window's timer
    has fired but its goroutine has not reached its critical section, Confirm
    still finds the timer field set, reports success, and the configuration is
    restored all the same. *)
Theorem late_confirm_reverted (s : Svc H) id t :
timer s = Some id -> armed s !! id = Some t -> deadline t <= now s ->
exists s1 s2 s3,
step ([], s) ([TRevert (closure t)], s1) /\
Confirm s1 = (Ok tt, s2) /\ step ([TRevert (closure t)], s1) ([TRevert (closure t)], s2) /\
host s2 = host s /\
rtc step ([TRevert (closure t)], s2) ([], s3) /\
host s3 = (restore (closure t) (host s)).2.
Proof.
intros Ht Ha Hd. set (s1 := Stop id s). set (s2 := (Confirm s1).2).
assert (Hc : Confirm s1 = (Ok tt, s2)) by (unfold s2, Confirm; cbn; by rewrite Ht).
exists s1, s2, (clear (on_host (restore (closure t)) s2).2).
assert (Hh : host s2 = host s) by (unfold s2, Confirm; cbn; by rewrite Ht).
split_and!.
- by apply (step_fire [] s id t).
- done.
- apply step_confirm.
- done.
- eapply rtc_l; [eapply (step_thread _ _ 0); reflexivity|].
  eapply rtc_l; [eapply (step_thread _ _ 0); reflexivity|]. apply rtc_refl.
- cbn. rewrite on_host_eq. cbn. by rewrite Hh.
Qed.

(** A change applied while an older revert is between its controller call and
    its critical section loses its own pending timer: nothing is reported
    pending, Confirm refuses, and the timer still undoes the change. *)
Lemma overlapping_revert_hides_change c w (s s' : Svc H) :
Serial s -> applyAndArm w (run_change c) s = (Ok tt, s') ->
exists prev s2 s3,
(Current (host s)).1 = Ok prev /\
step ([TClear], s') ([], s2) /\ host s2 = host s' /\ Pending s2 = false /\
(Confirm s2).1 = Err (Errorf "no pending network change to confirm") /\
rtc step ([], s2) ([], s3) /\ host s3 = (restore prev (host s')).2.
Proof.
intros Hs Happ. destruct (apply_awaiting c w s s' Hs Happ) as (prev & h & Hc & _ & Hn & _ & Hw).
exists prev. rewrite Hc. destruct Hw as [(Ht & Har & _)|(Ht & _)].
2: { rewrite applyAndArm_eq in Happ. rewrite Hc in Happ. destruct (run_change c h) as [[u|e] h']; [|done].
     injection Happ as <-. by rewrite (proj1 (arm_fields w prev _)) in Ht. }
set (s2 := clear s'). set (s2' := tick (Z.max 0 w) s2).
exists s2, (clear (on_host (restore prev) (Stop (fresh_id s) s2')).2).
split_and!; [done|apply (step_thread [TClear] s' 0 TClear eq_refl)|done|done|done| |].
- eapply rtc_l; [apply (step_tick [] s2 (Z.max 0 w)); lia|].
  eapply rtc_l; [apply (step_fire _ _ (fresh_id s) (mkTimer (now s + w) prev))|].
  + cbn. rewrite Har. by rewrite lookup_singleton_eq.
  + cbn. lia.
  + eapply rtc_l; [eapply (step_thread _ _ 0); reflexivity|].
    eapply rtc_l; [eapply (step_thread _ _ 0); reflexivity|]. apply rtc_refl.
- cbn. by rewrite on_host_eq.
Qed.

(** What the safety net cannot undo: reverting a static configuration
    without a default gateway fails its own validation and leaves the host as
    the change made it, and a change of an interface other than the one Current
    reports is left in force by a revert that succeeds; in both cases the
    pending flag is cleared. *)
Theorem revert_leaves_change (h0 h1 : H) c prev (s : Svc H) :
net_ok h0 -> (Current h0).1 = Ok prev -> run_change c h0 = (Ok tt, h1) -> host s = h1 ->
Pending (revert prev s) = false /\
(Method prev = "manual" -> Gateway prev = "" -> host (revert prev s) = h1) /\
(change_iface c <> Interface prev -> (restore prev h1).1 = Ok tt ->
 net_live (host (revert prev s)) (change_iface c) = net_live h1 (change_iface c)).
Proof.
intros Hok Hc Hr <-. unfold revert. split_and!; [done|..].
- intros Hm Hg. cbn. rewrite on_host_eq. cbn. unfold restore. rewrite decide_True by done.
  set (cfg := mkStatic _ _ _ _ _).
  assert (Hv : exists e, validate cfg = Err e).
  { unfold validate. cbn. repeat (case_decide; [by eexists|]). done. }
  destruct Hv as [e He]. by eapply net_static_invalid.
- intros Hne Hres. cbn. rewrite on_host_eq. cbn. destruct (run_change_spec c _ _ Hok Hr) as (Hok' & _).
  destruct (restore prev (host s)) as [r h2] eqn:E. cbn in *. subst r. unfold restore in E.
  case_decide.
  + destruct (net_static _ _ _ Hok' E) as (_ & _ & Hf & _). by apply Hf.
  + destruct (net_dhcp _ _ _ Hok' E) as (_ & _ & Hf & _). by apply Hf.
Qed.
End Guarantees.
