(* ===== verification/Nmcli.v ===== *)
(** NetworkManager as nmcli's documentation describes the commands the gateway
    runs, the nmcli controller as an implementation of the [Controller]
    contract over it, and a small NetworkManager that satisfies the
    description. *)

From Stdlib Require Import Ascii.
From S2P Require Import Prelude.
From S2P Require Import GoStrings.
From S2P Require Import GoText.
From S2P Require Import NetConfig.
From S2P Require Import NetConfigProps.

Local Open Scope string_scope.
Local Open Scope list_scope.
Local Open Scope Z_scope.

(** * NetworkManager *)

(** The properties of a connection profile the commands touch, and the
    configuration in force on a device; addresses are texts [addr/prefix]. *)
Record Profile := mkProfile {
  p_method : string;
  p_addresses : list string;
  p_gateway : string;
  p_dns : list string
}.
Record Device := mkDevice {
  d_type : string;
  d_state : string;
  d_conn : string;
  d_addresses : list string;
  d_gateway : string;
  d_dns : list string
}.
Record Net := mkNet {
  devices : list (string * Device);
  profiles : string -> Profile
}.

Definition device_of (n : Net) (i : string) : option Device :=
  snd <$> head (filter (fun d => d.1 = i) (devices n)).

Definition is_primary (d : Device) : bool :=
  bool_decide (d_state d = "connected") &&
  (bool_decide (d_type d = "ethernet") || bool_decide (d_type d = "wifi")).

(** Terse output: one line per device, or one [KEY:value] line per field, list
    fields numbered from 1. *)
Definition unlines (ls : list string) : string := foldr (fun l r => l +:+ String newline r) "" ls.
Definition status_line (d : string * Device) : string :=
  d.1 +:+ String colon (d_type d.2 +:+ String colon (d_state d.2)).
Definition field (key val : string) : string := key +:+ String colon val.
Fixpoint numbered (key : string) (k : Z) (vals : list string) : list string :=
  match vals with
  | [] => []
  | v :: vals => field (key +:+ "[" +:+ Itoa k +:+ "]") v :: numbered key (k + 1) vals
  end.
Definition show_lines (d : Device) : list string :=
  field "GENERAL.CONNECTION" (d_conn d) :: numbered "IP4.ADDRESS" 1 (d_addresses d) ++
  field "IP4.GATEWAY" (d_gateway d) :: numbered "IP4.DNS" 1 (d_dns d).

(** [con mod]: the properties named in the arguments are replaced. *)
Definition mod_profile (c : string) (f : Profile -> Profile) (n : Net) : Net :=
  mkNet (devices n) (fun c' => if decide (c' = c) then f (profiles n c') else profiles n c').

Definition static_profile (addr gw : string) (dns : option string) (p : Profile) : Profile :=
  mkProfile "manual" [addr] gw (match dns with Some v => Split v "," | None => p_dns p end).
Definition auto_profile (p : Profile) : Profile :=
  mkProfile "auto" (p_addresses p) (p_gateway p) (p_dns p).

(** [con up] of a manual profile puts its configuration in force on the
    devices that use it. *)
Definition up_manual (c : string) (n : Net) : Net :=
  mkNet (map (fun d =>
           if decide (d_conn d.2 = c)
           then (d.1, mkDevice (d_type d.2) (d_state d.2) c (p_addresses (profiles n c))
                               (p_gateway (profiles n c)) (p_dns (profiles n c)))
           else d) (devices n)) (profiles n).

Definition dns_args (dns : option string) : list string :=
  match dns with Some v => ["ipv4.dns"; v] | None => [] end.

(** The host's own consistency: values fit on a line, a device name is unique,
    a device that is up has a profile, and a profile is active on one device at
    most (NetworkManager's default for [connection.multi-connect]). *)
Definition texts_ok (l : list string) : Prop :=
  Forall (lacks newline) l /\ Z.of_nat (length l) < Int.two63 - 1.
Definition dns_ok (l : list string) : Prop := texts_ok l /\ Forall (fun v => v <> "") l.
Definition profile_wf (p : Profile) : Prop :=
  TrimSpace (p_method p) = p_method p /\ lacks newline (p_method p) /\
  texts_ok (p_addresses p) /\ lacks newline (p_gateway p) /\ dns_ok (p_dns p).
#[export] Instance profile_wf_dec p : Decision (profile_wf p).
Proof. unfold profile_wf, dns_ok, texts_ok. apply _. Defined.

Definition conn_ok (c : string) : Prop :=
  TrimSpace c = c /\ c <> "" /\ c <> "--" /\ lacks newline c.
Definition device_wf (i : string) (d : Device) : Prop :=
  (lacks newline i /\ lacks colon i) /\ (lacks newline (d_type d) /\ lacks colon (d_type d)) /\
  (lacks newline (d_state d) /\ lacks colon (d_state d)) /\
  (d_conn d = "" \/ conn_ok (d_conn d)) /\ (is_primary d = true -> d_conn d <> "") /\
  texts_ok (d_addresses d) /\ lacks newline (d_gateway d) /\ dns_ok (d_dns d).

Record net_wf (n : Net) : Prop := {
  wf_nodup : NoDup (map fst (devices n));
  wf_active : forall i j d e, (i, d) ∈ devices n -> (j, e) ∈ devices n ->
    d_conn d <> "" -> d_conn d = d_conn e -> i = j;
  wf_devices : forall i d, (i, d) ∈ devices n -> device_wf i d;
  wf_profiles : forall c, profile_wf (profiles n c)
}.

(** What [con up] may change of the devices: those that use the profile keep
    their name, kind, state and profile; the others are left alone. *)
Definition brought_up (c : string) (d e : string * Device) : Prop :=
  d.1 = e.1 /\ is_primary d.2 = is_primary e.2 /\ d_conn d.2 = d_conn e.2 /\ (d_conn d.2 <> c -> d = e).

(** What the commands answer and change.  A query changes nothing; a command
    may fail, and the laws say what holds when it does not. *)
Class NMSpec (H : Type) `{Nmcli H} := {
  net : H -> Net;
  nm_wf : forall args h r h', nm_run args h = (r, h') -> net_wf (net h) -> net_wf (net h');
  nm_status : forall h r h', nm_run status_args h = (r, h') ->
    h' = h /\ forall out, r = Ok out -> out = unlines (map status_line (devices (net h)));
  nm_connection : forall i h r h', nm_run (connection_args i) h = (r, h') ->
    h' = h /\ forall out, r = Ok out ->
      exists d, device_of (net h) i = Some d /\ out = unlines [field "GENERAL.CONNECTION" (d_conn d)];
  nm_show : forall i h r h', nm_run (show_args i) h = (r, h') ->
    h' = h /\ forall out, r = Ok out ->
      exists d, device_of (net h) i = Some d /\ out = unlines (show_lines d);
  nm_method : forall i d h r h', device_of (net h) i = Some d -> nm_run (method_args (d_conn d)) h = (r, h') ->
    h' = h /\ r = Ok (unlines [field "ipv4.method" (p_method (profiles (net h) (d_conn d)))]);
  nm_mod_static : forall c addr gw dns h out h',
    nm_run (["con"; "mod"; c; "ipv4.addresses"; addr; "ipv4.gateway"; gw; "ipv4.method"; "manual"] ++ dns_args dns) h
    = (Ok out, h') ->
    net h' = mod_profile c (static_profile addr gw dns) (net h);
  nm_mod_auto : forall c h out h', nm_run (mod_auto_args c) h = (Ok out, h') ->
    net h' = mod_profile c auto_profile (net h);
  nm_up_manual : forall c h out h', nm_run (up_args c) h = (Ok out, h') ->
    p_method (profiles (net h) c) = "manual" -> net h' = up_manual c (net h);
  nm_up : forall c h out h', nm_run (up_args c) h = (Ok out, h') ->
    profiles (net h') = profiles (net h) /\ Forall2 (brought_up c) (devices (net h)) (devices (net h'))
}.

(** * Reading nmcli's output *)

Lemma unlines_split ls : Forall (lacks newline) ls -> Split (unlines ls) newline = ls ++ [""].
Proof. apply split_lines. Qed.

Lemma Split_status i d :
  device_wf i d -> Split (status_line (i, d)) colon = [i; d_type d; d_state d] /\ lacks newline (status_line (i, d)).
Proof.
  intros ((Hi & Hic) & (Ht & Htc) & (Hs & Hsc) & _). unfold status_line. cbn [fst snd]. split.
  - rewrite !Split_app by done. by rewrite Split_none.
  - assert (Hcol : forall s, lacks newline s -> lacks newline (String colon s)).
    { intros s Hl. change (String colon s) with (":" +:+ s). apply lacks_app. split; [|done].
      apply (bool_decide_unpack _). by vm_compute. }
    apply lacks_app. split; [done|]. apply Hcol, lacks_app. split; [done|]. by apply Hcol.
Qed.

Lemma find_primary_ok ds :
  (forall i d, (i, d) ∈ ds -> device_wf i d) ->
  find_primary (map status_line ds ++ [""]) = fst <$> head (filter (fun d => is_primary d.2 = true) ds).
Proof.
  induction ds as [|[i d] ds IH]; intros Hwf; [done|]. cbn [map app find_primary].
  destruct (Split_status i d) as [Hsp _]; [apply Hwf; left|]. rewrite Hsp.
  rewrite filter_cons. cbn [snd]. fold (is_primary d). destruct (is_primary d) eqn:E.
  - by rewrite decide_True.
  - rewrite decide_False by done. apply IH. intros j e Hj. apply Hwf. by right.
Qed.

Lemma Cut_field key val : lacks colon key -> Cut (field key val) colon = Some (key, val).
Proof. apply Cut_app. Qed.

Lemma lacks_colon_numbered key k : lacks colon key -> lacks colon (key +:+ "[" +:+ Itoa k +:+ "]").
Proof.
  intros Hk. rewrite !lacks_app. split_and!; [done|by apply (bool_decide_unpack _); vm_compute| |].
  - by apply Itoa_lacks.
  - apply (bool_decide_unpack _). by vm_compute.
Qed.

Lemma lacks_newline_field key val : lacks newline key -> lacks newline val -> lacks newline (field key val).
Proof.
  intros Hk Hv. unfold field. change (String colon val) with (":" +:+ val). rewrite !lacks_app.
  split_and!; [done| |done]. apply (bool_decide_unpack _). by vm_compute.
Qed.

Lemma numbered_lines key k vals :
  lacks newline key -> Forall (lacks newline) vals -> Forall (lacks newline) (numbered key k vals).
Proof.
  intros Hk Hv. revert k. induction Hv as [|v vals Hv _ IH]; intros k; cbn; constructor; [|apply IH].
  apply lacks_newline_field; [|done]. rewrite !lacks_app. split_and!; [done| |by apply Itoa_lacks|];
    apply (bool_decide_unpack _); by vm_compute.
Qed.

Lemma show_lines_ok i d : device_wf i d -> Forall (lacks newline) (show_lines d).
Proof.
  intros (_ & _ & _ & Hc & _ & [Ha _] & Hg & [[Hd _] _]). unfold show_lines.
  constructor; [|apply Forall_app; split; [|constructor]].
  - apply lacks_newline_field; [apply (bool_decide_unpack _); by vm_compute|].
    destruct Hc as [->|(_ & _ & _ & Hc)]; [|done]. apply (bool_decide_unpack _). by vm_compute.
  - apply numbered_lines; [apply (bool_decide_unpack _); by vm_compute|done].
  - apply lacks_newline_field; [apply (bool_decide_unpack _); by vm_compute|done].
  - apply numbered_lines; [apply (bool_decide_unpack _); by vm_compute|done].
Qed.

Definition set_address (a : string) (i : Info) : Info :=
  let '(addr, p) := match Cut a "/" with Some p => p | None => (a, "") end in
  mkInfo (Interface i) (Method i) addr (Atoi p).1 (Gateway i) (DNS i).

Lemma read_address k v acc :
  1 <= k < Int.two63 ->
  read_line acc (field ("IP4.ADDRESS[" +:+ Itoa k +:+ "]") v) =
  if decide (k = 1) then (acc.1, set_address v acc.2) else acc.
Proof.
  intros Hk. destruct acc as [c i]. unfold read_line.
  rewrite Cut_field by (apply (lacks_colon_numbered "IP4.ADDRESS"), (bool_decide_unpack _); by vm_compute).
  rewrite decide_False by done. destruct (decide (k = 1)) as [->|Hn].
  - rewrite decide_True by (by vm_compute). unfold set_address. cbn [fst snd]. by destruct (Cut v "/") as [[? ?]|].
  - rewrite decide_False.
    2: { intros E. apply Hn, Itoa_inj; [unfold Int.is_i64, Int.two63 in *; lia..|].
         change (Itoa 1) with "1". apply bytes_of_inj. apply (f_equal bytes_of) in E.
         change "IP4.ADDRESS[1]" with ("IP4.ADDRESS[" +:+ "1" +:+ "]") in E. rewrite !bytes_of_app in E.
         by apply app_inv_head, app_inv_tail in E. }
    by rewrite decide_False.
Qed.

Lemma read_addresses k vals acc :
  1 < k -> k + Z.of_nat (length vals) < Int.two63 -> foldl read_line acc (numbered "IP4.ADDRESS" k vals) = acc.
Proof.
  revert k. induction vals as [|v vals IH]; intros k Hk Hl; [done|]. cbn [numbered foldl].
  cbn [length] in Hl.
  change ("IP4.ADDRESS" +:+ "[" +:+ Itoa k +:+ "]") with ("IP4.ADDRESS[" +:+ Itoa k +:+ "]").
  rewrite read_address by lia. rewrite decide_False by lia. apply IH; lia.
Qed.

Lemma read_dns k vals conn i :
  Forall (fun v => v <> "") vals ->
  foldl read_line (conn, i) (numbered "IP4.DNS" k vals) =
  (conn, mkInfo (Interface i) (Method i) (Address i) (Prefix i) (Gateway i) (DNS i ++ vals)).
Proof.
  intros Hv. revert k i. induction Hv as [|v vals Hv _ IH]; intros k i; cbn [numbered foldl].
  { rewrite app_nil_r. by destruct i. }
  assert (E : read_line (conn, i) (field ("IP4.DNS" +:+ "[" +:+ Itoa k +:+ "]") v) =
              (conn, mkInfo (Interface i) (Method i) (Address i) (Prefix i) (Gateway i) (DNS i ++ [v]))).
  { unfold read_line.
    rewrite Cut_field by (apply (lacks_colon_numbered "IP4.DNS"), (bool_decide_unpack _); by vm_compute).
    do 3 rewrite decide_False by done.
    change ("IP4.DNS" +:+ "[" +:+ Itoa k +:+ "]") with ("IP4.DNS[" +:+ (Itoa k +:+ "]")).
    rewrite HasPrefix_app. by rewrite decide_False. }
  rewrite E, IH. cbn. by rewrite <- app_assoc.
Qed.

(** What [Current] makes of a device: its first address, its gateway and its
    name servers. *)
Definition device_info (i m : string) (d : Device) : Info :=
  let '(addr, p) := match d_addresses d with
                    | a :: _ => match Cut a "/" with Some p => (p.1, (Atoi p.2).1) | None => (a, 0) end
                    | [] => ("", 0)
                    end in
  mkInfo i m addr p (d_gateway d) (d_dns d).

Lemma read_show i d :
  device_wf i d ->
  foldl read_line ("", mkInfo i "" "" 0 "" []) (show_lines d ++ [""]) = (d_conn d, device_info i "" d).
Proof.
  intros (_ & _ & _ & _ & _ & [_ Hl] & _ & [_ Hd]). unfold show_lines. rewrite foldl_app. cbn [foldl].
  assert (Hnil : forall acc, read_line acc "" = acc) by by intros [? ?].
  rewrite Hnil. set (acc0 := ("", _)).
  assert (E0 : read_line acc0 (field "GENERAL.CONNECTION" (d_conn d)) = (d_conn d, mkInfo i "" "" 0 "" [])).
  { unfold read_line, acc0. by rewrite Cut_field by (apply (bool_decide_unpack _); by vm_compute). }
  rewrite E0, foldl_app. cbn [foldl].
  set (acc1 := foldl read_line _ (numbered "IP4.ADDRESS" 1 _)).
  assert (E1 : acc1 = (d_conn d, mkInfo i "" (Address (device_info i "" d)) (Prefix (device_info i "" d)) "" [])).
  { unfold acc1, device_info. destruct (d_addresses d) as [|a l]; [done|]. cbn [numbered foldl].
    change ("IP4.ADDRESS" +:+ "[" +:+ Itoa 1 +:+ "]") with ("IP4.ADDRESS[" +:+ Itoa 1 +:+ "]").
    cbn [length] in Hl. rewrite read_address by (unfold Int.two63; lia). rewrite decide_True by done.
    rewrite read_addresses by (unfold Int.two63 in *; lia). cbn [fst snd]. unfold set_address.
    by destruct (Cut a "/") as [[? ?]|]. }
  rewrite E1. clear E0 E1 acc0 acc1.
  set (acc2 := read_line _ (field "IP4.GATEWAY" _)).
  assert (E2 : acc2 = (d_conn d, mkInfo i "" (Address (device_info i "" d)) (Prefix (device_info i "" d)) (d_gateway d) [])).
  { unfold acc2, read_line. rewrite Cut_field by (apply (bool_decide_unpack _); by vm_compute). done. }
  rewrite E2, read_dns by done. cbn. unfold device_info. by destruct (match d_addresses d with [] => _ | _ => _ end).
Qed.

Lemma read_method_line i m :
  TrimSpace m = m -> lacks newline m ->
  foldl read_method i (Split (unlines [field "ipv4.method" m]) newline) = set_method m i.
Proof.
  intros Hm Hn. rewrite unlines_split.
  - cbn [foldl app]. unfold read_method. rewrite Cut_field by (apply (bool_decide_unpack _); by vm_compute).
    rewrite decide_True by done. rewrite Hm. done.
  - constructor; [|done]. apply lacks_newline_field; [apply (bool_decide_unpack _); by vm_compute|done].
Qed.

(** * The controller implements its contract *)

Definition find_device (ds : list (string * Device)) (i : string) : option Device :=
  snd <$> head (filter (fun d => d.1 = i) ds).
Definition primary_of (n : Net) : option string :=
  fst <$> head (filter (fun d => is_primary d.2 = true) (devices n)).
Definition method_of (n : Net) (d : Device) : string :=
  if decide (d_conn d = "") then "" else p_method (profiles n (d_conn d)).
Definition info_of (n : Net) (i : string) : Info :=
  match device_of n i with Some d => device_info i (method_of n d) d | None => mkInfo i "" "" 0 "" [] end.

Lemma device_of_in n i d : device_of n i = Some d -> (i, d) ∈ devices n.
Proof.
  unfold device_of. destruct (head _) as [[j e]|] eqn:E; [|done]. intros [= <-].
  apply head_Some_elem_of, list_elem_of_filter in E as [<- E]. done.
Qed.

Lemma primary_in n i : primary_of n = Some i -> exists d, (i, d) ∈ devices n /\ is_primary d = true.
Proof.
  unfold primary_of. destruct (head _) as [[j e]|] eqn:E; [|done]. intros [= <-].
  apply head_Some_elem_of, list_elem_of_filter in E as [? ?]. by exists e.
Qed.

Lemma device_of_unique n i d e :
  net_wf n -> (i, d) ∈ devices n -> device_of n i = Some e -> d = e.
Proof.
  intros Hwf Hd He%device_of_in. destruct Hwf as [Hnd _ _ _]. revert Hnd Hd He.
  induction (devices n) as [|[j x] ds IH]; intros Hnd Hd He; [by apply elem_of_nil in Hd|].
  cbn in Hnd. apply NoDup_cons in Hnd as [Hj Hnd].
  assert (Hin : forall y, (j, y) ∈ ds -> False).
  { intros y Hy. apply Hj. by apply (list_elem_of_fmap_2 fst _ (j, y)). }
  apply elem_of_cons in Hd as [[= <- <-]|Hd], He as [[= <-]|He]; [done| | |by apply IH].
  - by apply Hin in He.
  - by apply Hin in Hd.
Qed.

(** Bringing a profile up: the devices of other profiles are found as before,
    and the choice of the primary interface is the same. *)
Lemma brought_up_find c ds es i :
  Forall2 (brought_up c) ds es ->
  match find_device ds i, find_device es i with
  | None, None => True
  | Some d, Some e => brought_up c (i, d) (i, e)
  | _, _ => False
  end.
Proof.
  unfold find_device. induction 1 as [|[j d] [k e] ds es (Hn & Hp & Hc & Hu) _ IH]; [done|]. cbn in Hn, Hp, Hc, Hu.
  rewrite !filter_cons. cbn [fst]. subst k. destruct (decide (j = i)) as [->|]; [|exact IH]. cbn.
  split_and!; [done|done|done|]. cbn. intros ?. by apply Hu.
Qed.
Lemma brought_up_primary c ds es :
  Forall2 (brought_up c) ds es ->
  fst <$> head (filter (fun d : string * Device => is_primary d.2 = true) es) =
  fst <$> head (filter (fun d : string * Device => is_primary d.2 = true) ds).
Proof.
  induction 1 as [|[j d] [k e] ds es (Hn & Hp & _) _ IH]; [done|]. cbn in Hn, Hp. subst k.
  rewrite !filter_cons. cbn [snd]. rewrite <- Hp. by case_decide.
Qed.

Section Implements.
Context {H : Type} `{NMSpec H}.

Lemma nmcli_run_inv ctx args h r h' :
nmcli_run ctx args h = (r, h') -> exists r0, nm_run args h = (r0, h') /\
(forall a, r = Ok a -> r0 = Ok a) /\ (forall a, r0 = Ok a -> r = Ok a).
Proof.
unfold nmcli_run, wrap. destruct (nm_run args h) as [r0 h0]. intros [= <- <-]. exists r0.
split; [done|]. destruct r0; cbn; split; congruence.
Qed.

Lemma primaryInterface_ok h r h' :
primaryInterface h = (r, h') -> net_wf (net h) ->
h' = h /\ forall i, r = Ok i -> primary_of (net h) = Some i.
Proof.
unfold primaryInterface. intros Hrun Hwf. apply bind_inv in Hrun as [(out & h1 & Hq & Hrun)|(e & Hq & ->)].
- apply nmcli_run_inv in Hq as (r0 & Hq & Hr & _). destruct (nm_status h r0 h1 Hq) as [-> Hout].
  rewrite (Hout out (Hr out eq_refl)) in Hrun. rewrite unlines_split in Hrun.
  2: { apply Forall_map, Forall_forall. intros [i d] Hd. apply Split_status. by apply Hwf. }
  rewrite find_primary_ok in Hrun by apply Hwf. fold (primary_of (net h)) in Hrun.
  destruct (primary_of (net h)) as [p|]; cbn in Hrun; injection Hrun as <- <-; (split; [done|]); congruence.
- apply nmcli_run_inv in Hq as (r0 & Hq & _). by destruct (nm_status h r0 h' Hq) as [-> _].
Qed.

Lemma connectionForInterface_ok i h r h' :
connectionForInterface i h = (r, h') -> net_wf (net h) ->
h' = h /\ forall c, r = Ok c -> exists d, device_of (net h) i = Some d /\ d_conn d = c /\ c <> "".
Proof.
unfold connectionForInterface. intros Hrun Hwf. apply bind_inv in Hrun as [(out & h1 & Hq & Hrun)|(e & Hq & ->)].
2: { apply nmcli_run_inv in Hq as (r0 & Hq & _). by destruct (nm_connection i h r0 h' Hq) as [-> _]. }
apply nmcli_run_inv in Hq as (r0 & Hq & Hr & _). destruct (nm_connection i h r0 h1 Hq) as [-> Hout].
destruct (Hout out (Hr out eq_refl)) as (d & Hd & ->).
assert (Hdw : device_wf i d) by (by apply Hwf, device_of_in).
destruct Hdw as (_ & _ & _ & Hconn & _).
rewrite unlines_split in Hrun.
2: { constructor; [|done]. apply lacks_newline_field; [apply (bool_decide_unpack _); by vm_compute|].
     destruct Hconn as [->|(_ & _ & _ & ?)]; [|done]. apply (bool_decide_unpack _). by vm_compute. }
assert (Hfind : forall c, find_connection i ([field "GENERAL.CONNECTION" (d_conn d)] ++ [""]) = Ok c ->
                         d_conn d = c /\ c <> "").
{ intros c Hc. cbn [app find_connection] in Hc.
  rewrite Cut_field in Hc by (apply (bool_decide_unpack _); by vm_compute).
  rewrite decide_True in Hc by done. cbv zeta in Hc. destruct Hconn as [E|(Ht & Hne & _)].
  - rewrite E in Hc. by vm_compute in Hc.
  - rewrite Ht in Hc. case_decide; [done|]. by injection Hc as <-. }
unfold lift in Hrun. injection Hrun as Hr1 <-. split; [done|]. intros c ->. exists d.
by destruct (Hfind c Hr1).
Qed.

(** [Current] reads back the configuration of the primary interface. *)
Lemma nmcli_Current_ok h r h' :
nmcli_Current h = (r, h') -> net_wf (net h) ->
h' = h /\ forall i, r = Ok i ->
primary_of (net h) = Some (Interface i) /\ info_of (net h) (Interface i) = i.
Proof.
unfold nmcli_Current. intros Hrun Hwf. destruct (negb _); [by injection Hrun as <- <-|].
apply bind_inv in Hrun as [(i & h1 & Hp & Hrun)|(e & Hp & ->)].
2: by destruct (primaryInterface_ok h _ _ Hp Hwf) as [-> _].
destruct (primaryInterface_ok h _ _ Hp Hwf) as [-> Hprim]. specialize (Hprim i eq_refl). clear Hp.
apply bind_inv in Hrun as [(out & h1 & Hq & Hrun)|(e & Hq & ->)].
2: { apply nmcli_run_inv in Hq as (r0 & Hq & _). by destruct (nm_show i h r0 h' Hq) as [-> _]. }
apply nmcli_run_inv in Hq as (r0 & Hq & Hr & _). destruct (nm_show i h r0 h1 Hq) as [-> Hout].
destruct (Hout out (Hr out eq_refl)) as (d & Hd & ->). clear Hout Hr Hq.
assert (Hdw : device_wf i d) by (by apply Hwf, device_of_in).
rewrite unlines_split in Hrun by by apply (show_lines_ok i).
rewrite read_show in Hrun by done.
assert (Hconn : d_conn d <> "" /\ d_conn d <> "--").
{ destruct (primary_in _ _ Hprim) as (e & He & Hpe). pose proof (device_of_unique _ _ _ _ Hwf He Hd) as ->.
  destruct Hdw as (_ & _ & _ & [Hc|Hc] & Hne & _); [by destruct (Hne Hpe)|]. by destruct Hc as (_ & ? & ? & _). }
rewrite decide_True in Hrun by done.
unfold try, mbind, M_bind in Hrun.
destruct (nmcli_run "" (method_args (d_conn d)) h) as [r1 h1] eqn:Hm.
apply nmcli_run_inv in Hm as (r2 & Hm & _ & Hr2). destruct (nm_method i d h r2 h1 Hd Hm) as [-> ->].
rewrite (Hr2 _ eq_refl) in Hrun. rewrite read_method_line in Hrun by apply Hwf.
injection Hrun as <- <-. split; [done|]. intros i' [= <-].
assert (Hi : Interface (set_method (p_method (profiles (net h) (d_conn d))) (device_info i "" d)) = i).
{ cbn. unfold device_info. by destruct (match d_addresses d with [] => _ | _ => _ end). }
rewrite Hi. split; [done|]. unfold info_of. rewrite Hd. unfold method_of. rewrite decide_False by apply Hconn.
unfold device_info. by destruct (match d_addresses d with [] => _ | _ => _ end).
Qed.

(** Editing and bringing up the profile of one device. *)
Lemma up_effect c i d f n n' :
net_wf n -> device_of n i = Some d -> d_conn d = c -> c <> "" ->
profiles n' = profiles (mod_profile c f n) ->
Forall2 (brought_up c) (devices n) (devices n') ->
primary_of n' = primary_of n /\ (forall j, j <> i -> info_of n' j = info_of n j) /\
exists e, device_of n' i = Some e /\ d_conn e = c.
Proof.
intros Hwf Hd Hc Hne Hp Hu. split; [by apply brought_up_primary with c|]. split.
- intros j Hj. pose proof (brought_up_find c _ _ j Hu) as Hb.
  change (find_device (devices ?m) j) with (device_of m j) in Hb. unfold info_of.
  destruct (device_of n j) as [x|] eqn:Ex, (device_of n' j) as [y|]; [|done|done|done].
  destruct Hb as (_ & _ & _ & Hxy). cbn in Hxy. destruct (decide (d_conn x = c)) as [Ec|Ec].
  + destruct Hj. destruct Hwf as [_ Ha _ _]. symmetry. apply (Ha i j d x).
    * by apply device_of_in.
    * by apply device_of_in.
    * by rewrite Hc.
    * by rewrite Hc, Ec.
  + injection (Hxy Ec) as ->. unfold method_of. rewrite Hp. cbn. by rewrite (decide_False _ _ Ec).
- pose proof (brought_up_find c _ _ i Hu) as Hb.
  change (find_device (devices ?m) i) with (device_of m i) in Hb. rewrite Hd in Hb.
  destruct (device_of n' i) as [e|]; [|done]. exists e. split; [done|].
  destruct Hb as (_ & _ & Hce & _). cbn in Hce. by rewrite <- Hce.
Qed.

Lemma device_of_up c n i d :
device_of n i = Some d -> d_conn d = c ->
device_of (up_manual c n) i =
Some (mkDevice (d_type d) (d_state d) c (p_addresses (profiles n c)) (p_gateway (profiles n c)) (p_dns (profiles n c))).
Proof.
unfold device_of, up_manual. cbn [devices]. set (p := profiles n c). clearbody p.
induction (devices n) as [|[j e] ds IH]; [done|]. cbn [map]. rewrite !filter_cons. cbn [fst snd].
destruct (decide (d_conn e = c)) as [Ec|Ec]; cbn [fst snd]; destruct (decide (j = i)) as [->|Hj].
- by cbn; intros [= ->] _.
- exact IH.
- cbn. by intros [= ->] ?.
- exact IH.
Qed.

Lemma info_of_static cfg n i d c :
device_of n i = Some d -> d_conn d = c -> c <> "" -> validate cfg = Ok tt ->
let n1 := mod_profile c (static_profile (cfg_Address cfg +:+ "/" +:+ Itoa (cfg_Prefix cfg)) (cfg_Gateway cfg)
                           (if decide (0 < length (cfg_DNS cfg))%nat then Some (Join (cfg_DNS cfg) ",") else None)) n in
Forall (lacks ",") (cfg_DNS cfg) -> lacks "/" (cfg_Address cfg) -> cfg_DNS cfg <> [] ->
info_of (up_manual c n1) i = mkInfo i "manual" (cfg_Address cfg) (cfg_Prefix cfg) (cfg_Gateway cfg) (cfg_DNS cfg).
Proof.
intros Hd Hc Hne Hv n1 Hdns Ha Hn. unfold info_of. rewrite (device_of_up c n1 i d Hd Hc).
unfold method_of, n1, mod_profile, static_profile. cbn [profiles up_manual]. cbn [d_conn p_method].
rewrite (decide_False _ _ Hne). rewrite !(decide_True (P := c = c)) by done. cbn [p_method p_addresses p_gateway p_dns].
unfold device_info. cbn [d_addresses d_gateway d_dns].
change (cfg_Address cfg +:+ "/" +:+ Itoa (cfg_Prefix cfg)) with (cfg_Address cfg +:+ String "/" (Itoa (cfg_Prefix cfg))).
rewrite Cut_app by done. cbn [fst snd]. rewrite Atoi_Itoa.
2: { unfold validate in Hv. repeat (case_decide; [done|]). destruct (_ || _) eqn:E; [done|]. zbool.
     unfold Int.is_i64. lia. }
rewrite decide_True by (destruct (cfg_DNS cfg); [done|cbn; lia]). by rewrite Split_Join.
Qed.

(** ** Setting a static configuration *)

Lemma nmcli_static_ok cfg h h' :
net_wf (net h) -> nmcli_ApplyStatic cfg h = (Ok tt, h') ->
net_wf (net h') /\ primary_of (net h') = primary_of (net h) /\
(forall i, i <> cfg_Interface cfg -> info_of (net h') i = info_of (net h) i) /\
(Forall (lacks ",") (cfg_DNS cfg) -> lacks "/" (cfg_Address cfg) -> cfg_DNS cfg <> [] ->
 info_of (net h') (cfg_Interface cfg) =
 mkInfo (cfg_Interface cfg) "manual" (cfg_Address cfg) (cfg_Prefix cfg) (cfg_Gateway cfg) (cfg_DNS cfg)).
Proof.
intros Hwf Hrun. unfold nmcli_ApplyStatic in Hrun. destruct (negb _); [done|].
apply bind_inv in Hrun as [(u & h0 & Hv & Hrun)|(? & _ & ?)]; [|done]. unfold lift in Hv. injection Hv as Hv <-. destruct u.
apply bind_inv in Hrun as [(c & h1 & Hc & Hrun)|(? & _ & ?)]; [|done].
destruct (connectionForInterface_ok _ _ _ _ Hc Hwf) as [-> Hd].
destruct (Hd c eq_refl) as (d & Hdev & Hdc & Hne). clear Hc Hd.
apply bind_inv in Hrun as [(out & h1 & Hm & Hrun)|(? & _ & ?)]; [|done].
apply bind_inv in Hrun as [(out2 & h2 & Hu & Hrun)|(? & _ & ?)]; [|done]. injection Hrun as ->.
apply nmcli_run_inv in Hm as (r1 & Hm & Hr1 & _). rewrite (Hr1 _ eq_refl) in Hm. clear Hr1 r1.
apply nmcli_run_inv in Hu as (r2 & Hu & Hr2 & _). rewrite (Hr2 _ eq_refl) in Hu. clear Hr2 r2.
pose proof (nm_wf _ _ _ _ Hm Hwf) as Hwf1. pose proof (nm_wf _ _ _ _ Hu Hwf1) as Hwf2.
assert (Hargs : mod_static_args c cfg =
  ["con"; "mod"; c; "ipv4.addresses"; cfg_Address cfg +:+ "/" +:+ Itoa (cfg_Prefix cfg);
   "ipv4.gateway"; cfg_Gateway cfg; "ipv4.method"; "manual"]
  ++ dns_args (if decide (0 < length (cfg_DNS cfg))%nat then Some (Join (cfg_DNS cfg) ",") else None)).
{ unfold mod_static_args. by case_decide. }
rewrite Hargs in Hm. clear Hargs. pose proof (nm_mod_static _ _ _ _ _ _ _ Hm) as Hnet1.
set (f := static_profile _ _ _) in Hnet1.
destruct (nm_up _ _ _ _ Hu) as [Hp Hfa]. rewrite Hnet1 in Hp, Hfa. cbn [devices mod_profile] in Hfa.
destruct (up_effect c _ d f (net h) (net h') Hwf Hdev Hdc Hne Hp Hfa) as (Hprim & Hframe & _).
split_and!; [done|done|done|]. intros Hdns Ha Hn.
assert (Hmeth : p_method (profiles (net h1) c) = "manual").
{ rewrite Hnet1. cbn. by rewrite decide_True. }
rewrite (nm_up_manual _ _ _ _ Hu Hmeth), Hnet1. by apply (info_of_static cfg (net h) _ d).
Qed.

Lemma nmcli_dhcp_ok i h h' :
net_wf (net h) -> nmcli_ApplyDHCP i h = (Ok tt, h') ->
net_wf (net h') /\ primary_of (net h') = primary_of (net h) /\
(forall j, j <> i -> info_of (net h') j = info_of (net h) j) /\ Method (info_of (net h') i) = "auto".
Proof.
intros Hwf Hrun. unfold nmcli_ApplyDHCP in Hrun. destruct (negb _); [done|]. case_decide; [done|].
apply bind_inv in Hrun as [(c & h1 & Hc & Hrun)|(? & _ & ?)]; [|done].
destruct (connectionForInterface_ok _ _ _ _ Hc Hwf) as [-> Hd].
destruct (Hd c eq_refl) as (d & Hdev & Hdc & Hne). clear Hc Hd.
apply bind_inv in Hrun as [(out & h1 & Hm & Hrun)|(? & _ & ?)]; [|done].
apply bind_inv in Hrun as [(out2 & h2 & Hu & Hrun)|(? & _ & ?)]; [|done]. injection Hrun as ->.
apply nmcli_run_inv in Hm as (r1 & Hm & Hr1 & _). rewrite (Hr1 _ eq_refl) in Hm. clear Hr1 r1.
apply nmcli_run_inv in Hu as (r2 & Hu & Hr2 & _). rewrite (Hr2 _ eq_refl) in Hu. clear Hr2 r2.
pose proof (nm_wf _ _ _ _ Hm Hwf) as Hwf1. pose proof (nm_wf _ _ _ _ Hu Hwf1) as Hwf2.
pose proof (nm_mod_auto _ _ _ _ Hm) as Hnet1.
destruct (nm_up _ _ _ _ Hu) as [Hp Hfa]. rewrite Hnet1 in Hp, Hfa. cbn [devices mod_profile] in Hfa.
destruct (up_effect c i d auto_profile (net h) (net h') Hwf Hdev Hdc Hne Hp Hfa) as (Hprim & Hframe & e & He & Hec).
split_and!; [done|done|done|]. unfold info_of. rewrite He. unfold method_of. rewrite Hec, (decide_False _ _ Hne), Hp.
cbn. rewrite decide_True by done. unfold device_info. by destruct (match d_addresses e with [] => _ | _ => _ end).
Qed.

Lemma nmcli_static_invalid cfg h e : validate cfg = Err e -> (nmcli_ApplyStatic cfg h).2 = h.
Proof. intros Hv. unfold nmcli_ApplyStatic. destruct (negb _); [done|]. by rewrite Hv. Qed.

#[export] Instance nmcli_spec : ControllerSpec H := {|
net_ok := fun h => net_wf (net h);
net_live := fun h => info_of (net h);
net_primary := fun h => primary_of (net h);
net_current := fun h r h' Hok Hc => nmcli_Current_ok h r h' Hc Hok;
net_static := nmcli_static_ok;
net_dhcp := nmcli_dhcp_ok;
net_static_invalid := nmcli_static_invalid
|}.

End Implements.
