(* ===== verification/NmcliModel.v ===== *)
(** A small NetworkManager that behaves as [NMSpec] says, on which the
    guarantees of the network service are exercised end to end. *)

From Stdlib Require Import Ascii.
From S2P Require Import Prelude.
From S2P Require Import GoTime.
From S2P Require Import GoStrings.
From S2P Require Import GoText.
From S2P Require Import NetConfig.
From S2P Require Import NetConfigProps.
From S2P Require Import Nmcli.

Local Open Scope string_scope.
Local Open Scope list_scope.
Local Open Scope Z_scope.

(** A host: its configuration, whether nmcli is installed, and whether bringing
    a connection up fails. *)
Record Host := mkHost { h_net : Net; h_nmcli : bool; h_up_fails : bool }.

Inductive command :=
| CStatus
| CConnection (i : string)
| CShow (i : string)
| CMethod (c : string)
| CStatic (c addr gw : string) (dns : option string)
| CAuto (c : string)
| CUp (c : string).

Definition parse_command (args : list string) : option command :=
  match args with
  | [a; b; c] => if decide ([a; b] = ["con"; "up"]) then Some (CUp c) else None
  | [a; b; c; d; e] =>
    if decide (args = status_args) then Some CStatus
    else if decide ([a; b; d; e] = ["con"; "mod"; "ipv4.method"; "auto"]) then Some (CAuto c) else None
  | [a; b; c; d; e; x] =>
    if decide ([a; b; c; d; e; ""] = connection_args "") then Some (CConnection x)
    else if decide ([a; b; c; d; e; ""] = show_args "") then Some (CShow x)
    else if decide ([a; b; c; d; e; ""] = method_args "") then Some (CMethod x) else None
  | a :: b :: c :: d :: addr :: f :: gw :: k :: l :: rest =>
    if decide ([a; b; d; f; k; l] = ["con"; "mod"; "ipv4.addresses"; "ipv4.gateway"; "ipv4.method"; "manual"]) then
      match rest with
      | [] => Some (CStatic c addr gw None)
      | [m; v] => if decide (m = "ipv4.dns") then Some (CStatic c addr gw (Some v)) else None
      | _ => None
      end
    else None
  | _ => None
  end.

(** What a DHCP server hands out here. *)
Definition lease (d : Device) : Device :=
  mkDevice (d_type d) (d_state d) (d_conn d) ["10.0.0.7/8"] "10.0.0.1" ["10.0.0.1"].
Definition up_auto (c : string) (n : Net) : Net :=
  mkNet (map (fun d => if decide (d_conn d.2 = c) then (d.1, lease d.2) else d) (devices n)) (profiles n).

Definition set_net (n : Net) (h : Host) : Host := mkHost n (h_nmcli h) (h_up_fails h).

(** An edit that would make the profile malformed is refused. *)
Definition edit (c : string) (f : Profile -> Profile) (h : Host) : result string string * Host :=
  if decide (profile_wf (f (profiles (h_net h) c)))
  then (Ok "", set_net (mod_profile c f (h_net h)) h)
  else (Err "exit status 2", h).

Definition query (o : option string) (h : Host) : result string string * Host :=
  (match o with Some out => Ok out | None => Err "exit status 10" end, h).

Definition nmcli (args : list string) (h : Host) : result string string * Host :=
  let n := h_net h in
  match parse_command args with
  | Some CStatus => query (Some (unlines (map status_line (devices n)))) h
  | Some (CConnection i) =>
    query ((fun d => unlines [field "GENERAL.CONNECTION" (d_conn d)]) <$> device_of n i) h
  | Some (CShow i) => query ((fun d => unlines (show_lines d)) <$> device_of n i) h
  | Some (CMethod c) => query (Some (unlines [field "ipv4.method" (p_method (profiles n c))])) h
  | Some (CStatic c addr gw dns) => edit c (static_profile addr gw dns) h
  | Some (CAuto c) => edit c auto_profile h
  | Some (CUp c) =>
    if h_up_fails h then (Err "exit status 4", h)
    else (Ok "", set_net (if decide (p_method (profiles n c) = "manual") then up_manual c n else up_auto c n) h)
  | None => (Err "exit status 2", h)
  end.

#[export] Instance host_nmcli : Nmcli Host := {| nm_run := nmcli; nm_available := h_nmcli |}.

(** Replacing the configuration of the devices of a profile keeps the host
    consistent when the new configuration is. *)
Lemma wf_up c (f : Device -> Device) n :
  (forall d, d_type (f d) = d_type d /\ d_state (f d) = d_state d /\ d_conn (f d) = d_conn d) ->
  (forall i d, device_wf i d -> device_wf i (f d)) ->
  net_wf n ->
  net_wf (mkNet (map (fun d => if decide (d_conn d.2 = c) then (d.1, f d.2) else d) (devices n)) (profiles n)).
Proof.
  intros Hf Hw [Hnd Ha Hd Hp]. set (g := fun d : string * Device => if decide (d_conn d.2 = c) then (d.1, f d.2) else d).
  assert (Hg : forall j d, (j, d) ∈ map g (devices n) -> exists d0, (j, d0) ∈ devices n /\ d_conn d = d_conn d0 /\ (d = d0 \/ d = f d0)).
  { intros j d Hin. apply list_elem_of_fmap in Hin as ([k d0] & E & Hin). unfold g in E. cbn in E.
    exists d0. case_decide; injection E as -> ->; (split; [done|]); [|by split; [|left]].
    split; [by apply Hf|by right]. }
  constructor; cbn; [| | |done].
  - assert (E : map fst (map g (devices n)) = map fst (devices n)); [|by fold g; rewrite E].
    rewrite map_map. apply map_ext. intros [k d0]. unfold g. by case_decide.
  - intros i j d e Hi Hj. destruct (Hg _ _ Hi) as (d0 & Hi0 & -> & _), (Hg _ _ Hj) as (e0 & Hj0 & -> & _). by apply Ha.
  - intros i d Hi. destruct (Hg _ _ Hi) as (d0 & Hi0 & _ & [->| ->]); [by apply Hd|by apply Hw, Hd].
Qed.

Lemma device_wf_config i d addrs gw dns :
  texts_ok addrs -> lacks newline gw -> dns_ok dns -> device_wf i d ->
  device_wf i (mkDevice (d_type d) (d_state d) (d_conn d) addrs gw dns).
Proof. intros Ha Hg Hd (H1 & H2 & H3 & H4 & H5 & _). done. Qed.

Lemma wf_edit c f h r h' : edit c f h = (r, h') -> net_wf (h_net h) -> net_wf (h_net h').
Proof.
  unfold edit. case_decide as Hw; intros [= <- <-] Hwf; [|done]. destruct Hwf as [H1 H2 H3 H4].
  constructor; [done|done|done|]. intros c'. cbn. case_decide; [by subst|apply H4].
Qed.

Lemma wf_query o h r h' : query o h = (r, h') -> h' = h.
Proof. by intros [= _ <-]. Qed.

Lemma wf_nmcli args h r h' : nmcli args h = (r, h') -> net_wf (h_net h) -> net_wf (h_net h').
Proof.
  unfold nmcli. destruct (parse_command args) as [[]|]; try (intros ->%wf_query; done).
  - apply wf_edit.
  - apply wf_edit.
  - destruct (h_up_fails h); intros [= _ <-]; [done|]. intros Hwf. cbn.
    destruct (decide _).
    + pose proof (wf_profiles _ Hwf c) as (_ & _ & Ha & Hg & Hd).
      assert (E : up_manual c (h_net h) = mkNet (map (fun d => if decide (d_conn d.2 = c) then
        (d.1, mkDevice (d_type d.2) (d_state d.2) (d_conn d.2) (p_addresses (profiles (h_net h) c))
           (p_gateway (profiles (h_net h) c)) (p_dns (profiles (h_net h) c))) else d) (devices (h_net h)))
        (profiles (h_net h))).
      { unfold up_manual. f_equal. apply map_ext. intros [k d]. cbn. by case_decide; subst. }
      rewrite E. refine (wf_up c (fun d => mkDevice (d_type d) (d_state d) (d_conn d) _ _ _) _ _ _ Hwf); [done|].
      intros i d. by apply device_wf_config.
    + apply wf_up; [done| |done]. intros i d. apply device_wf_config.
      * split; [apply (bool_decide_unpack _); by vm_compute|by vm_compute].
      * apply (bool_decide_unpack _). by vm_compute.
      * split; [split; [apply (bool_decide_unpack _); by vm_compute|by vm_compute]|].
        apply (bool_decide_unpack _). by vm_compute.
  - by intros [= _ <-].
Qed.

Lemma brought_up_map c (f : Device -> Device) ds :
  (forall d, d_type (f d) = d_type d /\ d_state (f d) = d_state d /\ d_conn (f d) = d_conn d) ->
  Forall2 (brought_up c) ds (map (fun d => if decide (d_conn d.2 = c) then (d.1, f d.2) else d) ds).
Proof.
  intros Hf. induction ds as [|[i d] ds IH]; [done|]. cbn. constructor; [|done]. cbn.
  destruct (Hf d) as (Ht & Hs & Hc). case_decide; [|done]. unfold brought_up, is_primary. cbn. by rewrite Ht, Hs, Hc.
Qed.

Lemma parse_static c addr gw dns :
  parse_command (["con"; "mod"; c; "ipv4.addresses"; addr; "ipv4.gateway"; gw; "ipv4.method"; "manual"] ++ dns_args dns)
  = Some (CStatic c addr gw dns).
Proof. by destruct dns. Qed.

#[export] Instance host_spec : NMSpec Host.
Proof.
  refine {| net := h_net; nm_wf := wf_nmcli |}.
  - intros h r h'. cbn. unfold nmcli. cbn [parse_command]. intros [= <- <-]. by split; [|intros out [= <-]].
  - intros i h r h'. cbn. unfold nmcli. cbn [parse_command query]. change (parse_command (connection_args i)) with (Some (CConnection i)).
    intros [= <- <-]. split; [done|]. intros out. destruct (device_of (h_net h) i) as [d|]; cbn; [|done].
    intros [= <-]. by exists d.
  - intros i h r h'. cbn. unfold nmcli. change (parse_command (show_args i)) with (Some (CShow i)).
    intros [= <- <-]. split; [done|]. intros out. destruct (device_of (h_net h) i) as [d|]; cbn; [|done].
    intros [= <-]. by exists d.
  - intros i d h r h' _. cbn. unfold nmcli. change (parse_command (method_args ?c)) with (Some (CMethod c)). by intros [= <- <-].
  - intros c addr gw dns h out h'. cbn [nm_run host_nmcli]. unfold nmcli. rewrite parse_static. unfold edit.
    case_decide; [|done]. by intros [= _ <-].
  - intros c h out h'. cbn [nm_run host_nmcli]. unfold nmcli. change (parse_command (mod_auto_args c)) with (Some (CAuto c)).
    unfold edit. case_decide; [|done]. by intros [= _ <-].
  - intros c h out h'. cbn [nm_run host_nmcli]. unfold nmcli. change (parse_command (up_args c)) with (Some (CUp c)).
    destruct (h_up_fails h); [done|]. intros [= _ <-] Hm. cbn. by rewrite decide_True.
  - intros c h out h'. cbn [nm_run host_nmcli]. unfold nmcli. change (parse_command (up_args c)) with (Some (CUp c)).
    destruct (h_up_fails h); [done|]. intros [= _ <-]. cbn. case_decide; (split; [done|]).
    + assert (E : devices (up_manual c (h_net h)) = map (fun d => if decide (d_conn d.2 = c) then
        (d.1, mkDevice (d_type d.2) (d_state d.2) (d_conn d.2) (p_addresses (profiles (h_net h) c))
           (p_gateway (profiles (h_net h) c)) (p_dns (profiles (h_net h) c))) else d) (devices (h_net h))).
      { cbn. apply map_ext. intros [k d]. cbn. by case_decide; subst. }
      rewrite E. by refine (brought_up_map c (fun d => mkDevice (d_type d) (d_state d) (d_conn d) _ _ _) _ _).
    + by apply brought_up_map.
Defined.

(** * A gateway with two wired interfaces *)

Definition wired (conn : string) (addr gw : string) (dns : list string) : Device :=
  mkDevice "ethernet" "connected" conn [addr] gw dns.
Definition sample_net : Net :=
  mkNet [("lo", mkDevice "loopback" "unmanaged" "" ["127.0.0.1/8"] "" []);
         ("eth0", wired "Wired 1" "192.168.1.10/24" "192.168.1.1" ["8.8.8.8"; "1.1.1.1"]);
         ("eth1", wired "Plant" "172.16.0.2/16" "172.16.0.1" ["172.16.0.1"])]
        (fun c => if decide (c = "Wired 1")
                  then mkProfile "manual" ["192.168.1.10/24"] "192.168.1.1" ["8.8.8.8"; "1.1.1.1"]
                  else mkProfile "manual" ["172.16.0.2/16"] "172.16.0.1" ["172.16.0.1"]).
Definition sample_host : Host := mkHost sample_net true false.

Lemma sample_ok : net_ok sample_host.
Proof.
  constructor; cbn.
  - apply (bool_decide_unpack _). by vm_compute.
  - intros i j d e Hi Hj Hd He. repeat (apply elem_of_cons in Hi as [[= -> ->]|Hi] || apply elem_of_nil in Hi);
      repeat (apply elem_of_cons in Hj as [[= -> ->]|Hj] || apply elem_of_nil in Hj); cbn in *; done.
  - assert (Hall : Forall (fun d => device_wf d.1 d.2) (devices sample_net)).
    { repeat constructor; try (by vm_compute); apply (bool_decide_unpack _); by vm_compute. }
    rewrite Forall_forall in Hall. intros i d Hi. by apply (Hall (i, d)).
  - intros c. case_decide; apply (bool_decide_unpack _); by vm_compute.
Qed.

Definition new_address : change := ToStatic (mkStatic "eth0" "10.1.1.5" 8 "10.1.1.1" ["9.9.9.9"]).
Definition sample_service : Svc Host := new_service sample_host 0.


Example sample_current :
  (Current sample_host).1 = Ok (mkInfo "eth0" "manual" "192.168.1.10" 24 "192.168.1.1" ["8.8.8.8"; "1.1.1.1"]).
Proof. by vm_compute. Qed.

(** * The guarantees on this host *)

Lemma ok_pair {E S} (m : result E unit * S) : m.1 = Ok tt -> m = (Ok tt, m.2).
Proof. destruct m as [r s]. by intros [= ->]. Qed.

Definition window : Z := 45 * second.
Definition changed : Svc Host := (applyAndArm window (run_change new_address) sample_service).2.

Lemma changed_eq : applyAndArm window (run_change new_address) sample_service = (Ok tt, changed).
Proof. apply ok_pair. by vm_compute. Qed.

Lemma unconfirmed_change_reverted_witness :
  Forall idle_op [OpTick window] /\
  exists prev, (Current sample_host).1 = Ok prev /\
  (now (run_ops [OpTick window] changed) < 0 + window ->
   host (run_ops [OpTick window] changed) = host changed /\ Pending (run_ops [OpTick window] changed) = true) /\
  (0 + window <= now (run_ops [OpTick window] changed) ->
   let s3 := fire 0 (run_ops [OpTick window] changed) in
   host s3 = (restore prev (host changed)).2 /\ Pending s3 = false /\
   (net_ok sample_host -> restorable prev -> (restore prev (host changed)).1 = Ok tt ->
    forall i, (Current (host s3)).1 = Ok i -> i = prev)).
Proof.
  assert (Hidle : Forall idle_op [OpTick window]) by by repeat constructor.
  split; [exact Hidle|].
  exact (unconfirmed_change_reverted sample_host 0 [] new_address window changed [OpTick window] changed_eq Hidle).
Defined.


(** The same host when bringing a connection up fails. *)
Definition failing_service : Svc Host := new_service (mkHost sample_net true true) 0.
Definition failed : Svc Host := (applyAndArm window (run_change new_address) failing_service).2.

Lemma failed_change_arms_nothing_witness :
  let e := Errorf "nmcli con up: exit status 4" in
  timer failed = None /\ armed failed = ∅ /\ previous failed = None /\
  ((exists e', (Current (host failing_service)).1 = Err e' /\ e = WrapNet "read current network config" e' /\
               host failed = (Current (host failing_service)).2) \/
   ((run_change new_address (host failing_service)).1 = Err e /\
    host failed = (run_change new_address (host failing_service)).2)) /\
  p_addresses (profiles (h_net (host failed)) "Wired 1") = ["10.1.1.5/8"].
Proof.
  cbv zeta. assert (Hrun : applyAndArm window (run_change new_address) failing_service =
                           (Err (Errorf "nmcli con up: exit status 4"), failed)).
  { unfold failed. destruct (applyAndArm _ _ _) as [r s] eqn:E. f_equal.
    change r with (r, s).1. rewrite <- E. by vm_compute. }
  assert (Hok : net_ok (host failing_service)) by exact sample_ok.
  destruct (failed_change_arms_nothing new_address window failing_service failed _ Hok Hrun) as (H1 & H2 & H3 & H4).
  split_and!; [exact H1|exact H2|exact H3|exact H4|by vm_compute].
Defined.

Definition expired : Svc Host := tick window changed.
Definition snapshot : Info := mkInfo "eth0" "manual" "192.168.1.10" 24 "192.168.1.1" ["8.8.8.8"; "1.1.1.1"].

Lemma late_confirm_reverted_witness :
  exists s1 s2 s3 : Svc Host,
  step ([], expired) ([TRevert snapshot], s1) /\ Confirm s1 = (Ok tt, s2) /\
  step ([TRevert snapshot], s1) ([TRevert snapshot], s2) /\ host s2 = host expired /\
  rtc step ([TRevert snapshot], s2) ([], s3) /\ host s3 = (restore snapshot (host expired)).2.
Proof.
  refine (late_confirm_reverted expired 0 (mkTimer window snapshot) _ _ _); [by vm_compute..|].
  vm_compute. done.
Defined.

(** A change of the second interface, whose revert restores the first. *)
Definition plant_address : change := ToStatic (mkStatic "eth1" "172.20.0.9" 16 "172.20.0.1" ["172.20.0.1"]).
Definition plant_host : Host := (run_change plant_address sample_host).2.

Lemma revert_leaves_change_witness :
  let s := new_service plant_host 0 in
  Pending (revert snapshot s) = false /\
  (Method snapshot = "manual" -> Gateway snapshot = "" -> host (revert snapshot s) = plant_host) /\
  (change_iface plant_address <> Interface snapshot -> (restore snapshot plant_host).1 = Ok tt ->
   net_live (host (revert snapshot s)) "eth1" = net_live plant_host "eth1") /\
  Address (net_live plant_host "eth1") = "172.20.0.9".
Proof.
  destruct (revert_leaves_change sample_host plant_host plant_address snapshot (new_service plant_host 0) sample_ok)
    as (H1 & H2 & H3); [by vm_compute|apply ok_pair; by vm_compute|done|].
  split_and!; [exact H1|exact H2|exact H3|by vm_compute].
Defined.


(** Reverting to a static configuration without name servers keeps those of
    the change: the snapshot is not what is read afterwards. *)
Example revert_keeps_name_servers :
  let prev := mkInfo "eth0" "manual" "192.168.1.10" 24 "192.168.1.1" [] in
  DNS (info_of (h_net (restore prev (run_change new_address sample_host).2).2) "eth0") = ["9.9.9.9"].
Proof. by vm_compute. Qed.
