(* ===== verification/TimeService.v ===== *)
(** The time service (internal/time): the SNTP exchange, the hardware clock,
    and the periodic sync that steps the system clock and keeps the quality
    signal.  Instants are nanoseconds since 1970 UTC.

    The network, the kernel's ioctls and [settimeofday] are the parameters
    [TimeEnv]; what a server puts on the wire is written out ([ntp_stamp]), for
    the theorems about what the client makes of it. *)

From Stdlib Require Import Ascii.
From S2P Require Import Prelude.
From S2P Require Import GoTime.
From S2P Require Import GoStrings.
From S2P Require Import GoText.

Local Open Scope string_scope.
Local Open Scope list_scope.
Local Open Scope Z_scope.

(** * NTP (ntp.go) *)

Definition ntpEpoch : Z := days_of_civil 1900 1 1 * 86400 * second.

(** [binary.BigEndian.Uint32]. *)
Definition be32 (b : list Z) : Z := foldl (fun v x => Int.u32 (256 * v + x)) 0 (take 4 b).

(** [d] is a [time.Duration], and so are its two parts. *)
Definition ntpTimestampToTime (b : list Z) : Z :=
  let secs := be32 (take 4 b) in
  let frac := be32 (take 4 (drop 4 b)) in
  let d := Int.i64 (Int.i64 (secs * second) + Int.i64 (Z.shiftr (Int.u64 (frac * second)) 32)) in
  ntpEpoch + d.

(** What the exchange with a server yields: the local clock before the request
    and after the reply, the bytes read into the 48-byte buffer and how many. *)
Record Exchange := mkExchange {
  x_t1 : Z;
  x_t4 : Z;
  x_resp : list Z;
  x_n : Z
}.

(** The 48-byte request. *)
Definition ntp_request : list Z := 27 :: replicate 47 0.

Class TimeEnv (W : Type) := {
  (** dial, send [ntp_request], receive; the error names the step that failed *)
  ntp_exchange : string -> Z -> W -> result string Exchange * W;
  (** [RTC] and [SystemClock] *)
  rtc_read : W -> result string Z * W;
  rtc_write : Z -> W -> option string * W;
  clock_set : Z -> W -> option string * W;
  (** [time.Now()], and the offset from UTC of the local zone at an instant *)
  time_now : W -> Z * W;
  zone_offset : W -> Z -> Z
}.

(** The address dialled: the default port when the name has none. *)
Definition ntp_addr (server : string) : string :=
  match SplitHostPort server with None => JoinHostPort server "123" | Some _ => server end.

(** The checks of the reply and the clock offset (Mills' formula), on int64
    durations with Go's division. *)
Definition ntp_offset (x : Exchange) : result string Z :=
  if x_n x <? 48 then Err ("short ntp response: " +:+ Itoa (x_n x) +:+ " bytes")
  else if negb (Z.land (nth 0 (x_resp x) 0) 7 =? 4) then
    Err ("unexpected ntp mode " +:+ Itoa (Z.land (nth 0 (x_resp x) 0) 7) +:+ " in response")
  else if nth 1 (x_resp x) 0 =? 0 then Err "ntp server reported kiss-of-death (stratum 0)"
  else
    let t2 := ntpTimestampToTime (slice 32 40 (x_resp x)) in
    let t3 := ntpTimestampToTime (slice 40 48 (x_resp x)) in
    Ok (Z.quot (Int.i64 (time_sub t2 (x_t1 x) + time_sub t3 (x_t4 x))) 2).

Section Query.
Context {W : Type} `{TimeEnv W}.

Definition queryNTP (server : string) (timeout : Z) (w : W) : result string Z * W :=
match ntp_exchange (ntp_addr server) timeout w with
| (Err e, w) => (Err e, w)
| (Ok x, w) => (ntp_offset x, w)
end.
End Query.

(** * The hardware clock (rtc_linux.go) *)

(** The kernel's [struct rtc_time], as the code fills and reads it. *)
Record RTCTime := mkRTCTime { Sec : Z; Minute : Z; Hour : Z; Mday : Z; Mon : Z; Year : Z }.

(** [hwRTC.Write]'s conversion. *)
Definition rtc_of_time (t : Z) : RTCTime :=
  let sec := t / second in
  let sod := sec mod 86400 in
  let '(y, m, d) := civil (sec / 86400) in
  mkRTCTime (Int.i32 (sod mod 60)) (Int.i32 (sod / 60 mod 60)) (Int.i32 (sod / 3600)) (Int.i32 d)
            (Int.i32 (m - 1)) (Int.i32 (y - 1900)).

(** [time.Date] in UTC: a month out of range moves the year; days, hours,
    minutes and seconds simply add up. *)
Definition time_date (y m d hh mi ss : Z) : Z :=
  let y' := y + (m - 1) / 12 in
  let m' := (m - 1) mod 12 + 1 in
  ((days_of_civil y' m' 1 + (d - 1)) * 86400 + hh * 3600 + mi * 60 + ss) * second.

(** [hwRTC.Read]'s conversion. *)
Definition time_of_rtc (r : RTCTime) : Z :=
  time_date (Year r + 1900) (Mon r + 1) (Mday r) (Hour r) (Minute r) (Sec r).

(** [ErrRTCUnavailable]. *)
Definition rtc_unavailable : string := "rtc: not available on this host".

(** The RTC device: opening it, and its two ioctls. *)
Class RTCDev (D : Type) := {
  rtc_open : string -> D -> bool;
  ioctl_get : string -> D -> result string RTCTime;
  ioctl_set : string -> RTCTime -> D -> option string * D
}.

Section HwRTC.
Context {D : Type} `{RTCDev D}.

Definition hw_Read (device : string) (dv : D) : result string Z :=
if negb (rtc_open device dv) then Err rtc_unavailable
else match ioctl_get device dv with
     | Err e => Err ("read rtc " +:+ device +:+ ": " +:+ e)
     | Ok rt => Ok (time_of_rtc rt)
     end.

Definition hw_Write (device : string) (t : Z) (dv : D) : option string * D :=
if negb (rtc_open device dv) then (Some rtc_unavailable, dv)
else match ioctl_set device (rtc_of_time t) dv with
     | (Some e, dv) => (Some ("write rtc " +:+ device +:+ ": " +:+ e), dv)
     | (None, dv) => (None, dv)
     end.
End HwRTC.

(** Hosts without an RTC (rtc_other.go). *)
Definition unsupported_Read : result string Z := Err rtc_unavailable.
Definition unsupported_Write (_ : Z) : option string := Some rtc_unavailable.

(** * The system clock (clock_linux.go, clock_other.go) *)

(** [unix.NsecToTimeval] and [unix.Settimeofday] together. *)
Class ClockDev (D : Type) := { settimeofday : Z -> D -> option string * D }.

Definition os_Set `{ClockDev D} (t : Z) (dv : D) : option string * D :=
  match settimeofday t dv with
  | (Some e, dv) => (Some ("settimeofday: " +:+ e), dv)
  | (None, dv) => (None, dv)
  end.
Definition errSystemClockUnsupported : string := "timeservice: setting the system clock is not supported on this platform".
Definition unsupported_Set (_ : Z) : option string := Some errSystemClockUnsupported.

(** * The service (service.go) *)

Inductive Quality := QualitySynced | QualityRTC | QualityUnsynced | QualityInvalid.
#[export] Instance Quality_eq_dec : EqDecision Quality.
Proof. solve_decision. Defined.

Record Config := mkConfig {
  NTPServer : string;
  SyncInterval : Z;
  QueryTimeout : Z;
  RTCDevice : string
}.

Record Status := mkStatus {
  SystemTime : Z;
  Timezone : string;
  st_NTPServer : string;
  NTPSynced : bool;
  LastSync : option Z;
  ClockOffset : option Z;
  RTCAvailable : bool;
  RTCTimeRead : option Z;
  TimeQuality : Quality
}.

Section Service.
Context {W : Type} `{TimeEnv W}.

(** [Service]: its configuration and the status behind [mu]. *)
Record Service := mkService {
  cfg : Config;
  timezone : string;
  status : Status
}.

Definition New (c : Config) (tz : string) : Service :=
let c := mkConfig (NTPServer c)
           (if SyncInterval c <=? 0 then 5 * 60 * second else SyncInterval c)
           (if QueryTimeout c <=? 0 then 3 * second else QueryTimeout c)
           (if decide (RTCDevice c = "") then "/dev/rtc0" else RTCDevice c) in
mkService c tz (mkStatus 0 "" (NTPServer c) false None None false None QualityUnsynced).

(** [Status()]: the snapshot, with the clock read now. *)
Definition get_Status (s : Service) (w : W) : Status * W :=
let st := status s in
let '(now, w) := time_now w in
(mkStatus now (timezone s) (st_NTPServer st) (NTPSynced st) (LastSync st) (ClockOffset st)
          (RTCAvailable st) (RTCTimeRead st) (TimeQuality st), w).

Definition set_status (st : Status) (s : Service) : Service := mkService (cfg s) (timezone s) st.

Definition isPlausible (w : W) (t : Z) : bool :=
let y := year_of (t + zone_offset w t * second) in
(2020 <=? y) && (y <=? 2100).

(** [checkRTC]: the read, then the critical section. *)
Definition checkRTC (s : Service) (w : W) : Service * W :=
let '(r, w) := rtc_read w in
let st := status s in
(set_status (mkStatus (SystemTime st) (Timezone st) (st_NTPServer st) (NTPSynced st) (LastSync st) (ClockOffset st)
   (match r with Ok _ => true | Err _ => false end)
   (match r with Ok t => Some t | Err _ => None end) (TimeQuality st)) s, w).

(** [degrade]: the clock is only read when the RTC is absent. *)
Definition degrade (s : Service) (w : W) : Service * W :=
let st := status s in
let '(q, w) :=
  if RTCAvailable st then (QualityRTC, w)
  else let '(now, w) := time_now w in
       (if isPlausible w now then QualityUnsynced else QualityInvalid, w) in
(set_status (mkStatus (SystemTime st) (Timezone st) (st_NTPServer st) false (LastSync st) (ClockOffset st)
   (RTCAvailable st) (RTCTimeRead st) q) s, w).

(** The critical section of a successful sync. *)
Definition mark_synced (now offset : Z) (s : Service) : Service :=
let st := status s in
set_status (mkStatus (SystemTime st) (Timezone st) (st_NTPServer st) true (Some now) (Some offset)
   (RTCAvailable st) (RTCTimeRead st) QualitySynced) s.

(** The rest of [syncOnce] once the offset is known; failures to set a clock
    are only logged. *)
Definition apply_offset (offset : Z) (s : Service) (w : W) : Service * W :=
let '(now, w) := time_now w in
let corrected := now + offset in
let '(_, w) := clock_set corrected w in
let s := mark_synced now offset s in
let '(_, w) := rtc_write corrected w in
(s, w).

Definition syncOnce (s : Service) (w : W) : Service * W :=
let '(s, w) := checkRTC s w in
if decide (NTPServer (cfg s) = "") then degrade s w
else
  match queryNTP (NTPServer (cfg s)) (QueryTimeout (cfg s)) w with
  | (Err _, w) => degrade s w
  | (Ok offset, w) => apply_offset offset s w
  end.

(** [Run]: one sync at once, then one per tick until the context is done. *)
Fixpoint Run (ticks : nat) (s : Service) (w : W) : Service * W :=
match ticks with
| O => syncOnce s w
| S k => let '(s, w) := Run k s w in syncOnce s w
end.

(** Every status a concurrent [Status()] can copy while [Run] is at work: the
    one before a sync, the one between the RTC check and the end, the final
    one. *)
Inductive published : Service -> W -> Status -> Prop :=
| published_now s w : published s w (status s)
| published_rtc s w : published s w (status (checkRTC s w).1)
| published_later s w st : published (syncOnce s w).1 (syncOnce s w).2 st -> published s w st.
End Service.
