(* ===== verification/TimeProps.v ===== *)
(** What the time service computes and reports: the accuracy of the clock
    offset and its era, what one sync does on every branch, the consistency of
    every status a reader can see, and the hardware clock's round trip. *)

From Stdlib Require Import Ascii.
From S2P Require Import Prelude.
From S2P Require Import GoTime.
From S2P Require Import GoStrings.
From S2P Require Import GoText.
From S2P Require Import TimeService.

Local Open Scope string_scope.
Local Open Scope list_scope.
Local Open Scope Z_scope.

(** * The wire format *)

Definition put32 (v : Z) : list Z := [v / 16777216; v / 65536 mod 256; v / 256 mod 256; v mod 256].

(** An instant as an NTP server stamps it (RFC 4330): seconds since 1900 modulo
    2^32, and the fraction of a second in units of 2^-32. *)
Definition era_length : Z := 4294967296 * second.
Definition ntp_era (t : Z) : Z := (t - ntpEpoch) / era_length.
Definition ntp_stamp (t : Z) : list Z :=
  put32 ((t - ntpEpoch) / second mod 4294967296)
  ++ put32 ((t - ntpEpoch) mod second * 4294967296 / second).

(** A server's reply to a request: mode 4, a stratum, both stamps. *)
Definition ntp_reply (head : list Z) (t2 t3 : Z) : list Z := head ++ ntp_stamp t2 ++ ntp_stamp t3.
Definition good_head (head : list Z) : Prop :=
  length head = 32%nat /\ Z.land (nth 0 head 0) 7 = 4 /\ nth 1 head 0 <> 0.

Lemma be32_put32 v r : 0 <= v < 4294967296 -> be32 (take 4 (put32 v ++ r)) = v.
Proof.
  intros Hv. unfold be32, put32. cbn [app take foldl].
  assert (E : forall a b, 0 <= a < 16777216 -> 0 <= b < 256 -> Int.u32 (256 * a + b) = 256 * a + b).
  { intros a b Ha Hb. unfold Int.u32. apply Z.mod_small. lia. }
  assert (H1 : v / 65536 = 256 * (v / 16777216) + v / 65536 mod 256).
  { replace (v / 16777216) with (v / 65536 / 256) by (rewrite Z.div_div by lia; done). apply Z.div_mod. lia. }
  assert (H2 : v / 256 = 256 * (v / 65536) + v / 256 mod 256).
  { replace (v / 65536) with (v / 256 / 256) by (rewrite Z.div_div by lia; done). apply Z.div_mod. lia. }
  assert (H3 : v = 256 * (v / 256) + v mod 256) by (apply Z.div_mod; lia).
  pose proof (Z.mod_pos_bound (v / 65536) 256 ltac:(lia)). pose proof (Z.mod_pos_bound (v / 256) 256 ltac:(lia)).
  pose proof (Z.mod_pos_bound v 256 ltac:(lia)).
  assert (0 <= v / 16777216 < 256) by (split; [apply Z.div_pos; lia|apply Z.div_lt_upper_bound; lia]).
  rewrite (E 0) by lia. rewrite (E (_ + v / 16777216)) by lia.
  replace (256 * (256 * 0 + v / 16777216) + v / 65536 mod 256) with (v / 65536) by lia.
  rewrite (E (v / 65536)) by lia. rewrite <- H2. rewrite (E (v / 256)) by lia. by rewrite <- H3.
Qed.

Lemma drop_put32 v r : drop 4 (put32 v ++ r) = r.
Proof. done. Qed.

(** Reading a stamp back loses at most one nanosecond, and the era. *)
Lemma read_stamp t r :
  ntpEpoch <= t ->
  exists d, 0 <= d <= 1 /\ ntpTimestampToTime (ntp_stamp t ++ r) = t - ntp_era t * era_length - d.
Proof.
  intros Ht. unfold ntpTimestampToTime, ntp_stamp. rewrite <- app_assoc.
  set (u := t - ntpEpoch). assert (Hu : 0 <= u) by (unfold u; lia).
  pose proof (Z.mod_pos_bound (u / second) 4294967296 ltac:(lia)) as Hs.
  pose proof (Z.mod_pos_bound u second ltac:(done)) as Hr.
  set (frac := u mod second * 4294967296 / second).
  assert (Hf : 0 <= frac < 4294967296).
  { unfold frac. split; [apply Z.div_pos; unfold second in *; lia|apply Z.div_lt_upper_bound; unfold second in *; lia]. }
  rewrite be32_put32 by done. rewrite drop_put32, be32_put32 by done.
  rewrite Z.shiftr_div_pow2 by lia. change (2 ^ 32) with 4294967296.
  rewrite Int.u64_id by (unfold Int.is_u64, second; lia).
  set (n := frac * second / 4294967296).
  assert (Hn : u mod second - 1 <= n <= u mod second).
  { unfold n, frac. clear -Hr. unfold second in *. div_lia. }
  assert (Hn0 : 0 <= n) by (apply Z.div_pos; unfold second; lia). clearbody n frac.
  unfold second in *. set (a := u / 1000000000 mod 4294967296) in *.
  rewrite (Int.i64_id (a * _)) by (unfold Int.is_i64; lia). rewrite (Int.i64_id n) by (unfold Int.is_i64; lia).
  rewrite Int.i64_id by (unfold Int.is_i64; lia).
  exists (u mod 1000000000 - n). split; [lia|]. unfold ntp_era, era_length. fold u.
  unfold second, a. rewrite (Z.mul_comm 4294967296 1000000000), <- (Z.div_div u 1000000000 4294967296) by lia.
  pose proof (Z.div_mod (u / 1000000000) 4294967296 ltac:(lia)).
  pose proof (Z.div_mod u 1000000000 ltac:(lia)). unfold u in *. lia.
Qed.

Lemma slice_reply head t2 t3 :
  length head = 32%nat ->
  slice 32 40 (ntp_reply head t2 t3) = ntp_stamp t2 /\ slice 40 48 (ntp_reply head t2 t3) = ntp_stamp t3.
Proof.
  intros Hl. unfold slice, ntp_reply. split.
  - change (40 - 32)%nat with 8%nat. by rewrite <- Hl, drop_app_length.
  - change (48 - 40)%nat with 8%nat. replace 40%nat with (length head + 8)%nat by lia. by rewrite <- drop_drop, drop_app_length.
Qed.

Section Accuracy.
Context {W : Type} `{TimeEnv W}.

(** C31. The offset queryNTP computes is the server's clock against ours, to
    within half the network delay and two nanoseconds, minus 2^32 seconds for
    each NTP era since 1900: a server whose clock is theta ahead, that receives
    the request d1 after it was sent, holds it for p and whose reply takes d2,
    stamps both instants in era e, and the result is theta - e * 2^32 s up to
    that error.  From 7 February 2036 on (era 1) the offset of a perfectly set
    clock comes out 136 years negative. *)
Theorem ntp_offset_accuracy server timeout (w w' : W) head t1 theta d1 p d2 e :
let t2 := t1 + d1 + theta in
let t3 := t2 + p in
good_head head ->
ntp_exchange (ntp_addr server) timeout w = (Ok (mkExchange t1 (t3 - theta + d2) (ntp_reply head t2 t3) 48), w') ->
0 <= d1 -> 0 <= p -> 0 <= d2 -> ntpEpoch <= t2 -> ntp_era t2 = e -> ntp_era t3 = e ->
Z.abs (theta - e * era_length) + d1 + d2 + 1 < Int.two63 / 2 ->
exists offset, queryNTP server timeout w = (Ok offset, w') /\
2 * Z.abs (offset - (theta - e * era_length)) <= Z.max d1 d2 + 3.
Proof.
intros t2 t3 (Hl & Hmode & Hstr) Hx H1 Hp H2 Hep He2 He3 Hb. unfold queryNTP. rewrite Hx.
unfold ntp_offset. cbn [x_n x_resp x_t1 x_t4]. change (48 <? 48) with false. cbn [negb].
assert (Hn : forall k, (k < 32)%nat -> nth k (ntp_reply head t2 t3) 0 = nth k head 0).
{ intros k Hk. unfold ntp_reply. apply app_nth1. lia. }
rewrite !Hn by lia. rewrite Hmode. cbn [Z.eqb Pos.eqb negb].
rewrite (proj2 (Z.eqb_neq _ _) Hstr).
destruct (slice_reply head t2 t3 Hl) as [-> ->]. rewrite <- (app_nil_r (ntp_stamp t2)), <- (app_nil_r (ntp_stamp t3)).
destruct (read_stamp t2 []) as (a & Ha & ->); [done|].
destruct (read_stamp t3 []) as (b & Hb3 & ->); [unfold t3; lia|]. rewrite He2, He3.
eexists. split; [done|]. change (Int.two63 / 2) with 4611686018427387904 in Hb.
set (th := theta - e * era_length) in *.
assert (E2 : t2 - e * era_length - a - t1 = th + d1 - a) by (unfold th, t2; lia).
assert (E3 : t3 - e * era_length - b - (t3 - theta + d2) = th - d2 - b) by (unfold th, t3; lia).
unfold time_sub. rewrite E2, E3. unfold Int.two63.
rewrite Int.i64_id by (unfold Int.is_i64; lia). pose proof (Z.quot_rem' (2 * th + d1 - d2 - a - b) 2) as Hq.
rewrite (Z.min_r (_ - 1) (th + d1 - a)), (Z.min_r (_ - 1) (th - d2 - b)) by lia.
rewrite (Z.max_r _ (th + d1 - a)), (Z.max_r _ (th - d2 - b)) by lia.
replace (th + d1 - a + (th - d2 - b)) with (2 * th + d1 - d2 - a - b) by lia.
pose proof (Z.rem_bound_abs (2 * th + d1 - d2 - a - b) 2 ltac:(lia)). lia.
Qed.

(** * One sync *)

(** What one sync does.  The RTC is read first and its fields follow the
    outcome.  With no server configured, or when the query fails, NTPSynced is
    cleared, the last sync's time and offset stay, the quality is RTC if the
    RTC answered and otherwise UNSYNCED or INVALID by the year of the local
    clock, and no clock is set.  When the query succeeds the system clock and
    then the RTC are set to the local time plus the offset, the outcome of
    either is ignored, and the status says SYNCED with that offset, and with
    the local time read before the clock was stepped as the time of the sync. *)
Theorem sync_outcome (s : Service) (w w' : W) (s' : Service) :
syncOnce s w = (s', w') ->
let '(r, w1) := rtc_read w in
cfg s' = cfg s /\ timezone s' = timezone s /\
RTCAvailable (status s') = bool_decide (err_of r = None) /\
RTCTimeRead (status s') = match r with Ok t => Some t | Err _ => None end /\
let q := queryNTP (NTPServer (cfg s)) (QueryTimeout (cfg s)) w1 in
match (if decide (NTPServer (cfg s) = "") then (Err "", w1) else q) with
| (Ok offset, w2) =>
  let '(now, w3) := time_now w2 in
  w' = (rtc_write (now + offset) (clock_set (now + offset) w3).2).2 /\
  NTPSynced (status s') = true /\ TimeQuality (status s') = QualitySynced /\
  LastSync (status s') = Some now /\ ClockOffset (status s') = Some offset
| (Err _, w2) =>
  NTPSynced (status s') = false /\
  LastSync (status s') = LastSync (status s) /\ ClockOffset (status s') = ClockOffset (status s) /\
  w' = (if RTCAvailable (status s') then w2 else (time_now w2).2) /\
  TimeQuality (status s') =
    (if RTCAvailable (status s') then QualityRTC
     else if isPlausible (time_now w2).2 (time_now w2).1 then QualityUnsynced else QualityInvalid)
end.
Proof.
unfold syncOnce, checkRTC. destruct (rtc_read w) as [r w1].
assert (Hr : (match r with Ok _ => true | Err _ => false end) = bool_decide (err_of r = None)) by by destruct r.
rewrite <- Hr. cbn [cfg set_status]. unfold degrade, apply_offset. cbn [status set_status RTCAvailable].
assert (Hd : forall s2 w2 (s3 : Service) (w3 : W) (av : bool),
  (let '(q, w) := if av then (QualityRTC, w2) else let '(now, w) := time_now w2 in
     (if isPlausible w now then QualityUnsynced else QualityInvalid, w) in (s2 q, w)) = (s3, w3) ->
  s3 = s2 (if av then QualityRTC else if isPlausible (time_now w2).2 (time_now w2).1 then QualityUnsynced else QualityInvalid)
  /\ w3 = (if av then w2 else (time_now w2).2)).
{ intros s2 w2 s3 w3 [|]; [by intros [= <- <-]|]. destruct (time_now w2) as [now w4]. by intros [= <- <-]. }
destruct (decide _) as [Hs|Hs].
- intros [-> ->]%Hd. by cbn.
- destruct (queryNTP _ _ w1) as [[offset|e] w2].
  + destruct (time_now w2) as [now w3]. destruct (clock_set (now + offset) w3) as [? w4]. cbn [snd].
    destruct (rtc_write (now + offset) w4) as [? w5]. by intros [= <- <-].
  + intros [-> ->]%Hd. by cbn.
Qed.

(** * The status *)

(** What every snapshot satisfies, whenever it is taken. *)
Record status_ok (st : Status) : Prop := {
  ok_synced : TimeQuality st = QualitySynced <-> NTPSynced st = true;
  ok_rtc : is_Some (RTCTimeRead st) <-> RTCAvailable st = true;
  ok_last : is_Some (LastSync st) <-> is_Some (ClockOffset st);
  ok_offset : NTPSynced st = true -> is_Some (LastSync st)
}.
(** What holds once a sync is over. *)
Definition settled (st : Status) : Prop :=
status_ok st /\ (TimeQuality st = QualityRTC -> RTCAvailable st = true).

Lemma New_settled c tz : settled (status (New c tz)).
Proof. split; [|done]. constructor; cbn; [done|by split; [intros [? ?]|]|done|done]. Qed.

Lemma checkRTC_ok s (w : W) : status_ok (status s) -> status_ok (status (checkRTC s w).1).
Proof.
intros [H1 H2 H3 H4]. unfold checkRTC. destruct (rtc_read w) as [[t|e] w1]; cbn; (constructor; cbn; [done| |done|done]).
- done.
- split; [by intros [? ?]|done].
Qed.

Lemma syncOnce_settled s (w : W) :
status_ok (status s) -> settled (status (syncOnce s w).1) /\
(is_Some (LastSync (status s)) -> is_Some (LastSync (status (syncOnce s w).1))).
Proof.
intros Hok. destruct (syncOnce s w) as [s' w'] eqn:E. apply sync_outcome in E.
destruct (rtc_read w) as [r w1]. destruct E as (_ & _ & Hav & Ht & E). cbv zeta in E. cbn [fst].
assert (Hrtc : is_Some (RTCTimeRead (status s')) <-> RTCAvailable (status s') = true).
{ rewrite Hav, Ht. destruct r; cbn; [done|]. split; [by intros [? ?]|done]. }
destruct Hok as [_ _ H3 _].
destruct (if decide _ then _ else _) as [[offset|e] w2].
- destruct (time_now w2) as [now w3]. destruct E as (_ & Hs & Hq & Hl & Ho). unfold settled.
  rewrite Hq, Hl. split; [|done]. split; [|done]. by constructor; rewrite ?Hq, ?Hs, ?Hl, ?Ho.
- destruct E as (Hs & Hl & Ho & _ & Hq). split; [|by rewrite Hl]. split.
  + constructor; rewrite ?Hs, ?Hl, ?Ho; [|done|done|done]. rewrite Hq. by repeat case_match.
  + rewrite Hq. by repeat case_match.
Qed.

Lemma Run_settled n s (w : W) : status_ok (status s) -> settled (status (Run n s w).1).
Proof.
revert s w. induction n as [|n IH]; intros s w Hok; cbn; [by apply syncOnce_settled|].
pose proof (IH s w Hok) as Hs. destruct (Run n s w) as [s1 w1]. apply syncOnce_settled, Hs.
Qed.

Lemma published_ok s w st : status_ok (status s) -> published s w st -> status_ok st.
Proof.
intros Hok Hp. induction Hp as [s w|s w|s w st Hp IH]; [done|by apply checkRTC_ok|].
apply IH, syncOnce_settled, Hok.
Qed.

(** Every status a concurrent reader can see is consistent: from a new
    service on, SYNCED is reported exactly when the last sync succeeded, then
    with a time and an offset, an RTC time exactly when the RTC is available;
    when no sync is in progress RTC quality also means the RTC is available
    (between the RTC check and the end of a sync the quality of the sync before
    is still there).  The sync times survive: once there has been a sync, every
    later sync leaves the time of one. *)
Theorem status_consistent c tz n (w : W) st :
let s := Run n (New c tz) w in
(published s.1 s.2 st -> status_ok st) /\ settled (status s.1) /\
(is_Some (LastSync (status s.1)) -> is_Some (LastSync (status (syncOnce s.1 s.2).1))).
Proof.
intros s. destruct (Run_settled n (New c tz) w (proj1 (New_settled c tz))) as [Hok Hr]. fold s in Hok, Hr.
split_and!; [by apply published_ok|done|by apply syncOnce_settled].
Qed.
End Accuracy.

(** * The hardware clock *)

(** Days add up within a month. *)
Lemma days_of_civil_day y m d : days_of_civil y m 1 + (d - 1) = days_of_civil y m d.
Proof. unfold days_of_civil. lia. Qed.

(** The hardware clock keeps time: reading an RTC that holds what Write
    stored gives the instant back to the second, for every year a 32-bit
    [tm_year] can hold. *)
Theorem rtc_round_trip t :
  -2147481748 <= year_of t <= 2147485547 -> time_of_rtc (rtc_of_time t) = t / second * second.
Proof.
  unfold year_of, rtc_of_time. set (sec := t / second). set (sod := sec mod 86400).
  destruct (civil (sec / 86400)) as [[y m] d] eqn:Ec. cbn [fst]. intros Hy.
  destruct (civil_ok _ _ _ _ Ec) as (Hm & Hd & Hday).
  pose proof (Z.mod_pos_bound sec 86400 ltac:(lia)) as Hsod. fold sod in Hsod.
  destruct (div_mod_86400 sod Hsod) as (Hh & Hmi & Hs & Hsplit).
  assert (Hd31 : d <= 31) by (unfold days_in in Hd; repeat case_match; lia).
  assert (E : forall v, -2147483648 <= v < 2147483648 -> Int.i32 v = v).
  { intros v Hv. unfold Int.i32. rewrite Z.mod_small; lia. }
  unfold time_of_rtc. cbn [Year Mon Mday Hour Minute Sec]. rewrite !E by lia. unfold time_date.
  replace (y - 1900 + 1900) with y by lia. replace (m - 1 + 1 - 1) with (m - 1) by lia.
  rewrite (Z.div_small (m - 1)), (Z.mod_small (m - 1)) by lia.
  replace (y + 0) with y by lia. replace (m - 1 + 1) with m by lia.
  rewrite days_of_civil_day, Hday. f_equal. pose proof (Z.div_mod sec 86400 ltac:(lia)) as Hsec. fold sod in Hsec. lia.
Qed.

(** * A host on the day after the NTP era rolls over *)

(** A local clock, a server that answers one exchange, and an RTC. *)
Record World := mkWorld { w_now : Z; w_reply : option Exchange; w_rtc : option Z }.

#[local] Instance world_env : TimeEnv World := {|
  ntp_exchange := fun _ _ w =>
    (match w_reply w with Some x => Ok x | None => Err "dial ntp server: i/o timeout" end, w);
  rtc_read := fun w => (match w_rtc w with Some t => Ok t | None => Err rtc_unavailable end, w);
  rtc_write := fun t w =>
    match w_rtc w with
    | Some _ => (None, mkWorld (w_now w) (w_reply w) (Some t))
    | None => (Some rtc_unavailable, w)
    end;
  clock_set := fun t w => (None, mkWorld t (w_reply w) (w_rtc w));
  time_now := fun w => (w_now w, w);
  zone_offset := fun _ _ => 7 * 3600
|}.

(** 2036-02-08 00:00 UTC; the server's clock is exactly ours. *)
Definition rollover : Z := days_of_civil 2036 2 8 * 86400 * second.
Definition reply_head : list Z := 36 :: 2 :: replicate 30 0.
Definition ms : Z := 1000000.
Definition sample_exchange : Exchange :=
  mkExchange rollover (rollover + 10 * ms + 0 + ms - 0 + 20 * ms)
    (ntp_reply reply_head (rollover + 10 * ms + 0) (rollover + 10 * ms + 0 + ms)) 48.
Definition sample_world : World := mkWorld rollover (Some sample_exchange) (Some 0).

Lemma ntp_offset_accuracy_witness :
  good_head reply_head /\ ntp_era (rollover + 10 * ms + 0) = 1 /\
  exists offset, queryNTP "ntp.plant" (3 * second) sample_world = (Ok offset, sample_world) /\
  2 * Z.abs (offset - (0 - 1 * era_length)) <= Z.max (10 * ms) (20 * ms) + 3.
Proof.
  split; [by vm_compute|]. split; [by vm_compute|].
  apply (ntp_offset_accuracy "ntp.plant" (3 * second) sample_world sample_world reply_head rollover 0 (10 * ms) ms (20 * ms) 1);
    [by vm_compute|done|..]; by vm_compute.
Defined.

Definition sample_service : Service := New (mkConfig "ntp.plant" 0 0 "") "Asia/Bangkok".

Lemma sync_outcome_witness :
  let '(s', w') := syncOnce sample_service sample_world in
  NTPSynced (status s') = true /\ TimeQuality (status s') = QualitySynced /\
  LastSync (status s') = Some rollover /\ ClockOffset (status s') = Some (-4294967296005000001) /\
  w_now w' = rollover - 4294967296005000001 /\ w_rtc w' = Some (rollover - 4294967296005000001).
Proof.
  destruct (syncOnce sample_service sample_world) as [s' w'] eqn:E.
  destruct (sync_outcome sample_service sample_world w' s' E) as (_ & _ & _ & _ & Hw & Hs & Hq & Hl & Ho).
  split_and!; [exact Hs|exact Hq|exact Hl|rewrite Ho|rewrite Hw..]; by vm_compute.
Defined.

Lemma status_consistent_witness :
  let s := Run 0 sample_service sample_world in
  (published s.1 s.2 (status s.1) -> status_ok (status s.1)) /\ settled (status s.1) /\
  (is_Some (LastSync (status s.1)) -> is_Some (LastSync (status (syncOnce s.1 s.2).1))) /\
  is_Some (LastSync (status s.1)).
Proof.
  destruct (status_consistent (mkConfig "ntp.plant" 0 0 "") "Asia/Bangkok" 0 sample_world
              (status (Run 0 sample_service sample_world).1)) as (H1 & H2 & H3).
  split_and!; [exact H1|exact H2|exact H3|by eexists; vm_compute].
Defined.

Lemma rtc_round_trip_witness :
  year_of (rollover + 5) = 2036 /\ time_of_rtc (rtc_of_time (rollover + 5)) = (rollover + 5) / second * second.
Proof. split; [by vm_compute|]. apply (rtc_round_trip (rollover + 5)). by vm_compute. Defined.

(** A bracketed IPv6 literal without a port is bracketed again. *)
Example ntp_addr_brackets : ntp_addr "[::1]" = "[[::1]]:123" /\ ntp_addr "::1" = "[::1]:123".
Proof. by vm_compute. Qed.
