(* ===== verification/Config.v ===== *)
(** The static configuration (internal/config): config.yaml's record, its
    defaults, loading with environment expansion, saving, and the TLS
    configuration of the MQTT transport.

    The YAML codec, the X.509 parser and the file system are parameters; text
    expansion ([os.ExpandEnv]) and [path/filepath] are written out. *)

From Stdlib Require Import Ascii.
From S2P Require Import Prelude.
From S2P Require Import Float64.
From S2P Require Import GoStrings.
From S2P Require Import GoText.

Local Open Scope string_scope.
Local Open Scope list_scope.
Local Open Scope Z_scope.

(** * The record *)

Record GatewayConfig := mkGatewayConfig { gw_ID : string; gw_Name : string }.
Record APIConfig := mkAPIConfig { ListenAddr : string; StaticDir : string }.
Record DatabaseConfig := mkDatabaseConfig { db_Path : string }.
Record QueueConfig := mkQueueConfig {
  q_Path : string;
  q_MaxBytes : Z;
  q_MinFreePercent : f64;
  q_FlushIntervalMs : Z;
  q_MaintenanceIntervalSec : Z
}.
Record StoreForwardConfig := mkStoreForward { Disabled : bool }.
Record ForwarderConfig := mkForwarderConfig {
  Transport : string;
  ServerURL : string;
  MaxReadingsPerMessage : Z;
  PollIntervalMs : Z;
  SendTimeoutMs : Z
}.
Record LogConfig := mkLogConfig { Level : string; Format : string }.
Record MQTTTLSConfig := mkTLS {
  Enabled : bool;
  CAFile : string;
  CertFile : string;
  KeyFile : string;
  InsecureSkipVerify : bool
}.
Record MQTTConfig := mkMQTT {
  BrokerURL : string;
  ClientID : string;
  Username : string;
  Password : string;
  QoS : Z;
  DataTopic : string;
  AckTopic : string;
  KeepAliveSec : Z;
  ConnectTimeoutMs : Z;
  PublishTimeoutMs : Z;
  AckTimeoutMs : Z;
  TLS : MQTTTLSConfig
}.
Record TimeConfig := mkTimeConfig {
  NTPServer : string;
  Timezone : string;
  SyncIntervalSec : Z;
  QueryTimeoutMs : Z;
  RTCDevice : string
}.
Record Config := mkConfig {
  Gateway : GatewayConfig;
  API : APIConfig;
  Database : DatabaseConfig;
  Queue : QueueConfig;
  StoreForward : StoreForwardConfig;
  Forwarder : ForwarderConfig;
  Log : LogConfig;
  MQTT : MQTTConfig;
  Time : TimeConfig
}.

(** * Environment expansion ([os.ExpandEnv]) *)

Definition in_code (lo hi : N) (a : ascii) : bool := ((lo <=? N_of_ascii a) && (N_of_ascii a <=? hi))%N.
Definition isShellSpecialVar (a : ascii) : bool :=
  bool_decide (a ∈ ["*"; "#"; "$"; "@"; "!"; "?"; "-"]%char) || in_code 48 57 a.
Definition isAlphaNum (a : ascii) : bool :=
  bool_decide (a = "_"%char) || in_code 48 57 a || in_code 97 122 a || in_code 65 90 a.

Fixpoint span (p : ascii -> bool) (s : list ascii) : list ascii :=
  match s with a :: s => if p a then a :: span p s else [] | [] => [] end.

(** [getShellName]: the variable's name and the number of bytes it takes; bad
    syntax has no name but takes bytes. *)
Definition getShellName (s : list ascii) : list ascii * nat :=
  match s with
  | "{"%char :: r =>
    match r with
    | v :: "}"%char :: _ => if isShellSpecialVar v then ([v], 3%nat) else
        match index "}" r with Some (S k) => (take (S k) r, (k + 3)%nat) | Some O => ([], 2%nat) | None => ([], 1%nat) end
    | _ => match index "}" r with Some (S k) => (take (S k) r, (k + 3)%nat) | Some O => ([], 2%nat) | None => ([], 1%nat) end
    end
  | a :: _ => if isShellSpecialVar a then ([a], 1%nat) else let n := span isAlphaNum s in (n, length n)
  | [] => ([], O)
  end.

(** [os.Expand]: one round per byte at most. *)
Fixpoint expand (fuel : nat) (env : string -> string) (s : list ascii) : list ascii :=
  match fuel with
  | O => s
  | S k =>
    match s with
    | [] => []
    | a :: r =>
      if bool_decide (a = "$"%char) && bool_decide (r <> []) then
        let '(name, w) := getShellName r in
        (match name, w with
         | [], O => [a]
         | [], _ => []
         | _, _ => bytes_of (env (of_bytes name))
         end) ++ expand k env (drop w r)
      else a :: expand k env r
    end
  end.
Definition ExpandEnv (env : string -> string) (s : string) : string :=
  of_bytes (expand (length (bytes_of s)) env (bytes_of s)).

(** * Paths ([path/filepath] on Unix) *)

Definition slash : ascii := "/"%char.

(** [Clean]: the components that remain, last first. *)
Fixpoint clean_components (rooted : bool) (acc cs : list string) : list string :=
  match cs with
  | [] => acc
  | c :: cs =>
    if decide (c = "" \/ c = ".") then clean_components rooted acc cs
    else if decide (c = "..") then
      match acc with
      | [] => clean_components rooted (if rooted then [] else [".."]) cs
      | d :: acc' =>
        if decide (d = "..") then clean_components rooted (".." :: acc) cs
        else clean_components rooted acc' cs
      end
    else clean_components rooted (c :: acc) cs
  end.
Definition Clean (p : string) : string :=
  let rooted := bool_decide (head (bytes_of p) = Some slash) in
  let out := (if rooted then "/" else "") +:+ Join (reverse (clean_components rooted [] (Split p slash))) "/" in
  if decide (out = "") then "." else out.
Definition Dir (p : string) : string :=
  Clean (match last_index slash (bytes_of p) with
         | Some i => of_bytes (take (i + 1) (bytes_of p))
         | None => ""
         end).
Definition JoinPath (a b : string) : string :=
  Clean (Join (filter (fun e => e <> "") [a; b]) "/").

(** * Defaults (the second half of [Load]) *)

Definition default_Z (d z : Z) : Z := if z <=? 0 then d else z.
Definition default_string (d s : string) : string := if decide (s = "") then d else s.

Definition queue_defaults (db : string) (q : QueueConfig) : QueueConfig :=
  mkQueueConfig
    (default_string (JoinPath (Dir db) "queue.db") (q_Path q))
    (default_Z 1073741824 (q_MaxBytes q))
    (if fle (q_MinFreePercent q) (of_Z 0) then of_Z 10 else q_MinFreePercent q)
    (default_Z 2000 (q_FlushIntervalMs q))
    (default_Z 30 (q_MaintenanceIntervalSec q)).

Definition forwarder_defaults (f : ForwarderConfig) : ForwarderConfig :=
  mkForwarderConfig (default_string "http" (Transport f)) (ServerURL f)
    (default_Z 2000 (MaxReadingsPerMessage f)) (default_Z 1000 (PollIntervalMs f)) (default_Z 5000 (SendTimeoutMs f)).

Definition mqtt_defaults (gatewayID : string) (m : MQTTConfig) : MQTTConfig :=
  let client := default_string gatewayID (ClientID m) in
  mkMQTT (BrokerURL m) client (Username m) (Password m) (default_Z 1 (QoS m))
    (default_string ("gateway/" +:+ client +:+ "/data") (DataTopic m))
    (default_string ("gateway/" +:+ client +:+ "/ack") (AckTopic m))
    (default_Z 30 (KeepAliveSec m)) (default_Z 5000 (ConnectTimeoutMs m))
    (default_Z 5000 (PublishTimeoutMs m)) (default_Z 10000 (AckTimeoutMs m)) (TLS m).

Definition time_defaults (t : TimeConfig) : TimeConfig :=
  mkTimeConfig (NTPServer t) (default_string "UTC" (Timezone t)) (default_Z 300 (SyncIntervalSec t))
    (default_Z 3000 (QueryTimeoutMs t)) (default_string "/dev/rtc0" (RTCDevice t)).

Definition with_defaults (c : Config) : Config :=
  mkConfig (Gateway c) (API c) (Database c) (queue_defaults (db_Path (Database c)) (Queue c)) (StoreForward c)
    (forwarder_defaults (Forwarder c)) (Log c) (mqtt_defaults (gw_ID (Gateway c)) (MQTT c)) (time_defaults (Time c)).

(** * Load and Save *)

(** The files, the environment's variables, and the YAML codec.  A failed
    write may leave anything in the file. *)
Class ConfigEnv (W : Type) := {
  read_file : string -> W -> result string string;
  write_file : string -> string -> W -> option string * W;
  getenv : W -> string -> string;
  yaml_unmarshal : string -> result string Config;
  yaml_marshal : Config -> result string string
}.

Section LoadSave.
Context {W : Type} `{ConfigEnv W}.

Definition Load (path : string) (w : W) : result string Config :=
raw ← read_file path w;
cfg ← yaml_unmarshal (ExpandEnv (getenv w) raw);
mret (with_defaults cfg).

Definition Save (path : string) (cfg : Config) (w : W) : option string * W :=
match yaml_marshal cfg with
| Err e => (Some ("marshal config: " +:+ e), w)
| Ok data =>
  match write_file path data w with
  | (Some e, w) => (Some ("write config: " +:+ e), w)
  | (None, w) => (None, w)
  end
end.
End LoadSave.

(** * TLS *)

(** [tls.Config], as far as [BuildMQTTTLSConfig] fills it. *)
Record TLSConfig := mkTLSConfig {
  tls_InsecureSkipVerify : bool;
  tls_RootCAs : option (list string);
  tls_Certificates : list string
}.

(** [AppendCertsFromPEM] on an empty pool ([None] when it finds no
    certificate) and [tls.LoadX509KeyPair]. *)
Class TLSEnv (W : Type) := {
  append_certs : string -> option (list string);
  load_key_pair : string -> string -> W -> result string string
}.

Section TLS.
Context {W : Type} `{ConfigEnv W} `{TLSEnv W}.

Definition BuildMQTTTLSConfig (c : MQTTTLSConfig) (w : W) : result string (option TLSConfig) :=
if negb (Enabled c) then Ok None else
roots ← (if decide (CAFile c = "") then Ok None
         else match read_file (CAFile c) w with
              | Err e => Err ("read ca_file: " +:+ e)
              | Ok pem =>
                match append_certs pem with
                | None => Err ("ca_file " +:+ CAFile c +:+ " contains no valid certificates")
                | Some pool => Ok (Some pool)
                end
              end);
certs ← (if decide (CertFile c = "" /\ KeyFile c = "") then Ok []
         else match load_key_pair (CertFile c) (KeyFile c) w with
              | Err e => Err ("load client certificate: " +:+ e)
              | Ok cert => Ok [cert]
              end);
mret (Some (mkTLSConfig (InsecureSkipVerify c) roots certs)).
End TLS.
