(* ===== verification/SettingsApi.v ===== *)
(** The settings handlers of the API (internal/api/settings.go) over the
    static configuration.

    [url.Parse] and the MQTT client's connect are parameters; error texts that
    quote their argument are values of [settings_error]. *)

From Stdlib Require Import Ascii.
From S2P Require Import Prelude.
From S2P Require Import GoTime.
From S2P Require Import Float64.
From S2P Require Import GoStrings.
From S2P Require Import GoText.
From S2P Require Import Config.

Local Open Scope string_scope.
Local Open Scope list_scope.
Local Open Scope Z_scope.

Inductive settings_error :=
| InvalidJSON
| GatewayIDRequired
| BrokerURLRequired
| BrokerURLInvalid (raw : string)
| BadTransport
| ConnectFailed (text : string)
| NTPServerInvalid (raw : string)
| NoConfigPath
| SaveFailed (text : string).

(** * Normalisers *)

Definition contains_any (s : string) (cs : list ascii) : bool :=
  existsb (fun a => bool_decide (a ∈ cs)) (bytes_of s).
Definition blanks : list ascii := [" "; "009"; "013"; "010"]%char.

Definition ntp_conf_prefixes : list string := ["server "; "pool "].

Fixpoint strip_prefix (prefixes : list string) (s : string) : string :=
  match prefixes with
  | [] => s
  | p :: ps =>
    if HasPrefix (ToLower s) p then TrimSpace (of_bytes (drop (length (bytes_of p)) (bytes_of s)))
    else strip_prefix ps s
  end.

Definition normalizeNTPServer (raw : string) : result settings_error string :=
  let s := TrimSpace raw in
  if decide (s = "") then Ok ""
  else
    let s := strip_prefix ntp_conf_prefixes s in
    if contains_any s blanks then Err (NTPServerInvalid raw) else Ok s.

(** [url.Parse]: the host, or an error. *)
Class UrlEnv := { url_host : string -> option string }.

Definition normalizeBrokerURL `{UrlEnv} (raw : string) : result settings_error string :=
  let s := TrimSpace raw in
  if decide (s = "") then Err BrokerURLRequired
  else match url_host s with
       | None => Err (BrokerURLInvalid raw)
       | Some host => if decide (host = "") then Err (BrokerURLInvalid raw) else Ok s
       end.

(** * The connection test *)

(** [forwarder.MQTTAdapterConfig], as this caller fills it. *)
Record MQTTAdapterConfig := mkAdapterConfig {
  ac_BrokerURL : string;
  ac_ClientID : string;
  ac_Username : string;
  ac_Password : string;
  ac_QoS : Z;
  ac_DataTopic : string;
  ac_AckTopic : string;
  ac_KeepAlive : Z;
  ac_ConnectTimeout : Z;
  ac_TLS : option TLSConfig
}.

(** Connecting an adapter with a deadline, and the time in nanoseconds. *)
Class MqttEnv (W : Type) := {
  mqtt_connect : MQTTAdapterConfig -> Z -> W -> option string * W;
  unix_nano : W -> Z
}.

Definition millisecond : Z := 1000000.

Section Handlers.
Context {W : Type} `{ConfigEnv W} `{TLSEnv W} `{MqttEnv W} `{UrlEnv}.

Definition connect_timeout (cfg : MQTTConfig) : Z :=
let t := Int.i64 (ConnectTimeoutMs cfg * millisecond) in
if t <=? 0 then 5 * second else t.

Definition test_client_id (cfg : MQTTConfig) (now : Z) : string :=
(if decide (ClientID cfg = "") then "gateway" else ClientID cfg) +:+ "-settings-test-" +:+ Itoa now.

Definition testMQTTConnect (cfg : MQTTConfig) (transport : string) (w : W) : option string * W :=
if decide (transport <> "mqtt") then (None, w)
else
  match BuildMQTTTLSConfig (TLS cfg) w with
  | Err e => (Some ("tls config: " +:+ e), w)
  | Ok tls =>
    let adapter := mkAdapterConfig (BrokerURL cfg) (test_client_id cfg (unix_nano w)) (Username cfg) (Password cfg)
      (Int.u8 (QoS cfg)) (DataTopic cfg) (AckTopic cfg) (Int.i64 (KeepAliveSec cfg * second))
      (connect_timeout cfg) tls in
    match mqtt_connect adapter (connect_timeout cfg) w with
    | (Some e, w) => (Some ("could not connect to MQTT broker " +:+ BrokerURL cfg +:+ ": " +:+ e), w)
    | (None, w) => (None, w)
    end
  end.

(** * GET and PUT /config/settings *)

(** [Server], as far as these handlers use it; [restarting] says the exit of
    the process has been scheduled. *)
Record Srv := mkSrv {
  cfg : Config;
  configPath : string;
  restarting : bool;
  world : W
}.

Record settingsDTO := mkDTO {
  dto_ID : string;
  dto_Name : string;
  dto_Transport : string;
  dto_BrokerURL : string;
  dto_ClientID : string;
  dto_Username : string;
  dto_Password : string;
  dto_QoS : Z;
  dto_DataTopic : string;
  dto_AckTopic : string;
  dto_KeepAliveSec : Z;
  dto_NTPServer : string;
  dto_Timezone : string;
  dto_SyncIntervalSec : Z;
  dto_MaxBytes : Z;
  dto_MinFreePercent : f64;
  dto_Enabled : bool
}.

(** The password is never sent. *)
Definition settings_of (c : Config) : settingsDTO :=
let m := MQTT c in
mkDTO (gw_ID (Gateway c)) (gw_Name (Gateway c)) (Transport (Forwarder c)) (BrokerURL m) (ClientID m) (Username m) ""
  (QoS m) (DataTopic m) (AckTopic m) (KeepAliveSec m) (NTPServer (Time c)) (Timezone (Time c))
  (SyncIntervalSec (Time c)) (q_MaxBytes (Queue c)) (q_MinFreePercent (Queue c)) (negb (Disabled (StoreForward c))).

Definition getSettings (s : Srv) : Z * settingsDTO := (200, settings_of (cfg s)).

Definition positive_or (old new : Z) : Z := if 0 <? new then new else old.
Definition nonempty_or (old new : string) : string := if decide (new = "") then old else new.

(** [newMQTT]: the MQTT configuration the save would produce. *)
Definition new_mqtt (m : MQTTConfig) (brokerURL : string) (dto : settingsDTO) : MQTTConfig :=
mkMQTT (if dto_Enabled dto then brokerURL else TrimSpace (dto_BrokerURL dto))
  (dto_ClientID dto) (dto_Username dto) (nonempty_or (Password m) (dto_Password dto))
  (positive_or (QoS m) (dto_QoS dto)) (nonempty_or (DataTopic m) (dto_DataTopic dto))
  (nonempty_or (AckTopic m) (dto_AckTopic dto)) (positive_or (KeepAliveSec m) (dto_KeepAliveSec dto))
  (ConnectTimeoutMs m) (PublishTimeoutMs m) (AckTimeoutMs m) (TLS m).

(** The first assignments to [s.cfg], and those after the NTP server's check. *)
Definition apply_identity (dto : settingsDTO) (m : MQTTConfig) (c : Config) : Config :=
let f := Forwarder c in
mkConfig (mkGatewayConfig (dto_ID dto) (dto_Name dto)) (API c) (Database c) (Queue c)
  (mkStoreForward (negb (dto_Enabled dto)))
  (mkForwarderConfig (dto_Transport dto) (ServerURL f) (MaxReadingsPerMessage f) (PollIntervalMs f) (SendTimeoutMs f))
  (Log c) m (Time c).
Definition apply_rest (dto : settingsDTO) (ntpServer : string) (c : Config) : Config :=
let t := Time c in let q := Queue c in
mkConfig (Gateway c) (API c) (Database c)
  (mkQueueConfig (q_Path q) (positive_or (q_MaxBytes q) (dto_MaxBytes dto))
    (if flt (of_Z 0) (dto_MinFreePercent dto) then dto_MinFreePercent dto else q_MinFreePercent q)
    (q_FlushIntervalMs q) (q_MaintenanceIntervalSec q))
  (StoreForward c) (Forwarder c) (Log c) (MQTT c)
  (mkTimeConfig ntpServer (dto_Timezone dto) (positive_or (SyncIntervalSec t) (dto_SyncIntervalSec dto))
    (QueryTimeoutMs t) (RTCDevice t)).

(** The checks before anything is tested or changed. *)
Definition check_dto (dto : settingsDTO) : result settings_error string :=
if decide (dto_ID dto = "") then Err GatewayIDRequired
else if dto_Enabled dto then
  brokerURL ← normalizeBrokerURL (dto_BrokerURL dto);
  if decide (dto_Transport dto = "http" \/ dto_Transport dto = "mqtt") then mret brokerURL else Err BadTransport
else Ok "".

Definition response : Type := Z * result settings_error unit.
Definition reject (status : Z) (e : settings_error) : response := (status, Err e).

Definition set_cfg (c : Config) (s : Srv) : Srv := mkSrv c (configPath s) (restarting s) (world s).
Definition set_world (w : W) (s : Srv) : Srv := mkSrv (cfg s) (configPath s) (restarting s) w.

(** From the NTP server's check to the restart. *)
Definition finish_save (dto : settingsDTO) (s : Srv) : response * Srv :=
match normalizeNTPServer (dto_NTPServer dto) with
| Err e => (reject 400 e, s)
| Ok ntpServer =>
  let s := set_cfg (apply_rest dto ntpServer (cfg s)) s in
  if decide (configPath s = "") then (reject 500 NoConfigPath, s)
  else
    match Save (configPath s) (cfg s) (world s) with
    | (Some e, w) => (reject 500 (SaveFailed e), set_world w s)
    | (None, w) => ((200, Ok tt), mkSrv (cfg s) (configPath s) true w)
    end
end.

Definition saveSettings (body : option settingsDTO) (s : Srv) : response * Srv :=
match body with
| None => (reject 400 InvalidJSON, s)
| Some dto =>
  match check_dto dto with
  | Err e => (reject 400 e, s)
  | Ok brokerURL =>
    let m := new_mqtt (MQTT (cfg s)) brokerURL dto in
    let '(failed, w) := if dto_Enabled dto then testMQTTConnect m (dto_Transport dto) (world s) else (None, world s) in
    let s := set_world w s in
    match failed with
    | Some e => (reject 400 (ConnectFailed e), s)
    | None => finish_save dto (set_cfg (apply_identity dto m (cfg s)) s)
    end
  end
end.

(** The process after a restart: [Load] of the same path. *)
Definition restarted (s : Srv) : result string Config := Load (configPath s) (world s).
End Handlers.
