(* ===== verification/SettingsProps.v ===== *)
(** Loading, saving and editing the configuration: defaults, the round trip
    through the file and its dollar signs, what a rejected save leaves behind,
    and submitting the settings one was shown. *)

From Stdlib Require Import Ascii.
From S2P Require Import Prelude.
From S2P Require Import GoTime.
From S2P Require Import Float64.
From S2P Require Import GoStrings.
From S2P Require Import GoText.
From S2P Require Import Config.
From S2P Require Import SettingsApi.

Local Open Scope string_scope.
Local Open Scope list_scope.
Local Open Scope Z_scope.

(** * Defaults *)

(** What the rest of the gateway relies on in a configuration it is given. *)
Record config_ok (c : Config) : Prop := {
  ok_queue : q_Path (Queue c) <> "" /\ 0 < q_MaxBytes (Queue c) /\
    fle (q_MinFreePercent (Queue c)) (of_Z 0) = false /\
    0 < q_FlushIntervalMs (Queue c) /\ 0 < q_MaintenanceIntervalSec (Queue c);
  ok_forwarder : Transport (Forwarder c) <> "" /\ 0 < MaxReadingsPerMessage (Forwarder c) /\
    0 < PollIntervalMs (Forwarder c) /\ 0 < SendTimeoutMs (Forwarder c);
  ok_mqtt : 0 < QoS (MQTT c) /\ (ClientID (MQTT c) = "" -> gw_ID (Gateway c) = "") /\
    DataTopic (MQTT c) <> "" /\ AckTopic (MQTT c) <> "" /\ 0 < KeepAliveSec (MQTT c) /\
    0 < ConnectTimeoutMs (MQTT c) /\ 0 < PublishTimeoutMs (MQTT c) /\ 0 < AckTimeoutMs (MQTT c);
  ok_time : Timezone (Time c) <> "" /\ 0 < SyncIntervalSec (Time c) /\ 0 < QueryTimeoutMs (Time c) /\
    RTCDevice (Time c) <> ""
}.

Lemma default_Z_pos d z : 0 < d -> 0 < default_Z d z.
Proof. unfold default_Z. destruct (z <=? 0) eqn:E; zbool; lia. Qed.
Lemma default_Z_id d z : 0 < z -> default_Z d z = z.
Proof. intros Hz. unfold default_Z. by rewrite (proj2 (Z.leb_gt _ _)) by lia. Qed.
Lemma default_string_ne d s : d <> "" -> default_string d s <> "".
Proof. intros Hd. unfold default_string. by case_decide. Qed.
Lemma default_string_id d s : s <> "" -> default_string d s = s.
Proof. intros Hs. unfold default_string. by case_decide. Qed.

Lemma JoinPath_ne a b : JoinPath a b <> "".
Proof. unfold JoinPath, Clean. by case_decide. Qed.

Ltac defaulted :=
  first [apply default_string_ne; solve [done | apply JoinPath_ne | by destruct (default_string _ _)]
        | apply default_Z_pos; lia].

Lemma with_defaults_ok c : config_ok (with_defaults c).
Proof.
  constructor; cbn -[fle of_Z].
  - split_and!; [defaulted|defaulted| |defaulted|defaulted].
    destruct (fle (q_MinFreePercent (Queue c)) (of_Z 0)) eqn:E; [by vm_compute|exact E].
  - split_and!; defaulted.
  - split_and!; [defaulted| |defaulted..]. unfold default_string at 1. by case_decide.
  - split_and!; defaulted.
Qed.

Lemma with_defaults_id c : config_ok c -> with_defaults c = c.
Proof.
  intros [(? & ? & Hf & ? & ?) (? & ? & ? & ?) (? & Hc & ? & ? & ? & ? & ? & ?) (? & ? & ? & ?)].
  assert (Hcl : default_string (gw_ID (Gateway c)) (ClientID (MQTT c)) = ClientID (MQTT c)).
  { unfold default_string. case_decide as E; [by rewrite E, Hc|done]. }
  destruct c as [g a d q sf f l m t], q, f, m, t. cbn -[fle of_Z default_string] in *.
  unfold with_defaults, queue_defaults, forwarder_defaults, mqtt_defaults, time_defaults. cbn -[fle of_Z default_Z default_string JoinPath Dir].
  rewrite Hf, Hcl. by rewrite !default_Z_id, !default_string_id by done.
Qed.

(** * Expansion *)

Lemma expand_plain fuel env s : (length s <= fuel)%nat -> "$"%char ∉ s -> expand fuel env s = s.
Proof.
  revert s. induction fuel as [|k IH]; intros [|a s] Hl Hs; try done.
  apply not_elem_of_cons in Hs as [Ha Hs]. cbn [expand].
  rewrite bool_decide_eq_false_2 by done. cbn [andb]. f_equal. apply IH; [cbn in Hl; lia|done].
Qed.
Lemma ExpandEnv_plain env s : lacks "$" s -> ExpandEnv env s = s.
Proof. intros Hs. unfold ExpandEnv. rewrite expand_plain by done. by apply of_bytes_of. Qed.

(** More rounds than bytes change nothing. *)
Lemma expand_fuel env s k k' :
  (length s <= k)%nat -> (length s <= k')%nat -> expand k env s = expand k' env s.
Proof.
  revert s k'. induction k as [|k IH]; intros s [|k'] Hk Hk'; [done|by destruct s; [|cbn in *; lia]..|].
  cbn [expand]. destruct s as [|a r]; [done|]. cbn in Hk, Hk'. destruct (bool_decide _ && _).
  - destruct (getShellName r) as [name w]. f_equal. apply IH; rewrite length_drop; lia.
  - f_equal. apply IH; lia.
Qed.

Lemma expand_app env s t k :
  "$"%char ∉ s -> (length (s ++ t) <= k)%nat -> expand k env (s ++ t) = s ++ expand (k - length s) env t.
Proof.
  revert k. induction s as [|a s IH]; intros k Hs Hk; [by rewrite Nat.sub_0_r|].
  apply not_elem_of_cons in Hs as [Ha Hs]. destruct k as [|k]; [cbn in Hk; lia|]. cbn [app expand].
  rewrite bool_decide_eq_false_2 by done. cbn [andb]. f_equal. cbn in Hk. rewrite IH by (done || lia). done.
Qed.

Lemma span_app p s a t : Forall (fun c => p c = true) s -> p a = false -> span p (s ++ a :: t) = s.
Proof. induction 1 as [|c s Hc _ IH]; intros Ha; cbn; [by rewrite Ha|]. rewrite Hc. by rewrite IH. Qed.

(** A dollar sign followed by a name is replaced by the variable's value. *)
Lemma ExpandEnv_name env pre v name a rest :
  lacks "$" pre -> Forall (fun c => isAlphaNum c = true) (v :: name) ->
  isShellSpecialVar v = false -> isAlphaNum a = false ->
  ExpandEnv env (pre +:+ String "$" (of_bytes (v :: name) +:+ String a rest)) =
  pre +:+ env (of_bytes (v :: name)) +:+ ExpandEnv env (String a rest).
Proof.
  intros Hpre Hname Hv Ha. unfold ExpandEnv. set (t := bytes_of (String a rest)).
  assert (E : bytes_of (pre +:+ String "$" (of_bytes (v :: name) +:+ String a rest)) =
              bytes_of pre ++ "$"%char :: (v :: name) ++ t).
  { rewrite bytes_of_app. change (bytes_of (String "$" ?r)) with ("$"%char :: bytes_of r).
    by rewrite bytes_of_app, bytes_of_bytes. }
  rewrite E. rewrite expand_app by done. rewrite length_app.
  replace (length (bytes_of pre) + _ - _)%nat with (S (length ((v :: name) ++ t))) by (cbn; lia).
  cbn [expand]. rewrite bool_decide_eq_true_2 by done. cbn [andb app].
  rewrite bool_decide_eq_true_2 by done.
  assert (Hsh : getShellName (v :: name ++ t) = (v :: name, S (length name))).
  { assert (Hsp : span isAlphaNum (v :: name ++ t) = v :: name) by (apply (span_app isAlphaNum (v :: name)); done).
    unfold getShellName. rewrite Hsp, Hv.
    assert (Hb : v <> "{"%char) by (intros ->; by apply Forall_cons in Hname as [? _]).
    destruct v as [[] [] [] [] [] [] [] []]; done. }
  rewrite Hsh. rewrite !of_bytes_app, !of_bytes_of. f_equal. f_equal.
  change (drop (S (length name)) (v :: name ++ t)) with (drop (length name) (name ++ t)).
  rewrite drop_app_length. f_equal. apply expand_fuel; [|done]. cbn [length]. rewrite length_app. lia.
Qed.

Section Props.
Context {W : Type} `{ConfigEnv W} `{TLSEnv W} `{MqttEnv W} `{UrlEnv}.

(** C24. Every configuration Load returns is complete: all intervals, timeouts
    and limits positive, the queue's path, the transport, topics, time zone and
    RTC device named, the client identified by the gateway's id when it has no
    name of its own; and applying the defaults again changes nothing. *)
Theorem load_well_formed path (w : W) c : Load path w = Ok c -> config_ok c /\ with_defaults c = c.
Proof.
unfold Load. destruct (read_file path w) as [raw|e]; [|done]. res_simpl.
destruct (yaml_unmarshal _) as [c0|e]; [|done]. res_simpl. intros [= <-].
pose proof (with_defaults_ok c0). split; [done|by apply with_defaults_id].
Qed.

(** The file system gives back what was written last. *)
Definition reads_back : Prop := forall path data (w w' : W),
write_file path data w = (None, w') -> read_file path w' = Ok data.

Lemma Save_ok path c (w w' : W) :
Save path c w = (None, w') -> exists data, yaml_marshal c = Ok data /\ write_file path data w = (None, w').
Proof.
unfold Save. destruct (yaml_marshal c) as [data|e]; [|done].
destruct (write_file path data w) as [[e|] w1] eqn:E; [done|]. intros [= <-]. by exists data.
Qed.

(** A saved configuration is what the next start loads, provided its YAML
    holds no dollar sign; where it does, the start reads the variable's value
    instead: Save writes the text as it is, and Load expands it. *)
Theorem save_then_load path c (w w' : W) :
reads_back -> Save path c w = (None, w') ->
exists data, yaml_marshal c = Ok data /\
(lacks "$" data -> yaml_unmarshal data = Ok c -> Load path w' = Ok (with_defaults c)) /\
(forall pre v name a rest,
 data = pre +:+ String "$" (of_bytes (v :: name) +:+ String a rest) ->
 lacks "$" pre -> Forall (fun x => isAlphaNum x = true) (v :: name) ->
 isShellSpecialVar v = false -> isAlphaNum a = false ->
 Load path w' = with_defaults <$>
   yaml_unmarshal (pre +:+ getenv w' (of_bytes (v :: name)) +:+ ExpandEnv (getenv w') (String a rest))).
Proof.
intros Hrb Hs. destruct (Save_ok _ _ _ _ Hs) as (data & Hm & Hw). exists data. split; [done|].
unfold Load. rewrite (Hrb _ _ _ _ Hw). res_simpl. split.
- intros Hd Hy. by rewrite ExpandEnv_plain, Hy.
- intros pre v name a rest -> Hp Hn Hv Ha. rewrite ExpandEnv_name by done. by destruct (yaml_unmarshal _).
Qed.

(** * Saving settings *)

(** What [saveSettings] does with a decoded body, by outcome. *)
Lemma saveSettings_inv dto s r s' :
saveSettings (Some dto) s = (r, s') ->
(exists e, check_dto dto = Err e /\ r = reject 400 e /\ s' = s) \/
(exists url failed w, check_dto dto = Ok url /\
 (if dto_Enabled dto then testMQTTConnect (new_mqtt (MQTT (cfg s)) url dto) (dto_Transport dto) (world s)
  else (None, world s)) = (failed, w) /\
 match failed with
 | Some e => r = reject 400 (ConnectFailed e) /\ s' = set_world w s
 | None => finish_save dto (set_cfg (apply_identity dto (new_mqtt (MQTT (cfg s)) url dto) (cfg s)) (set_world w s))
           = (r, s')
 end).
Proof.
unfold saveSettings. destruct (check_dto dto) as [url|e]; [|intros [= <- <-]; left; by exists e].
destruct (if dto_Enabled dto then _ else _) as [failed w] eqn:E. intros Hs. right. exists url, failed, w.
split_and!; [done|done|]. destruct failed; [by injection Hs as <- <-|done].
Qed.

(** [finish_save], by outcome. *)
Lemma finish_save_inv dto (s : Srv) r s' :
finish_save dto s = (r, s') ->
(exists e, normalizeNTPServer (dto_NTPServer dto) = Err e /\ r = reject 400 e /\ s' = s) \/
(exists ntp, normalizeNTPServer (dto_NTPServer dto) = Ok ntp /\ cfg s' = apply_rest dto ntp (cfg s) /\
 configPath s' = configPath s /\
 ((r = (200, Ok tt) /\ restarting s' = true /\ configPath s <> "" /\
   Save (configPath s) (cfg s') (world s) = (None, world s')) \/
  (exists e, r = reject 500 e /\ restarting s' = restarting s))).
Proof.
unfold finish_save. destruct (normalizeNTPServer _) as [ntp|e]; [|intros [= <- <-]; left; by exists e].
intros Hs. right. exists ntp. split; [done|]. cbn [set_cfg configPath cfg world] in Hs.
case_decide as Hp; [injection Hs as <- <-; split_and!; [done|done|]; right; by exists NoConfigPath|].
destruct (Save _ _ _) as [[e|] w] eqn:E; injection Hs as <- <-; split_and!; try done.
- right. by eexists.
- by left.
Qed.

(** What a rejected save leaves behind.  A request answered 400 never
    schedules a restart and never writes the file; the configuration in memory
    is the old one, except when it is the NTP server that is refused: that
    check comes last, and the gateway's identity, the MQTT settings, the
    transport and the master switch have already been replaced, while time and
    queue have not. *)
Theorem rejected_save_half_applied dto s e s' :
saveSettings (Some dto) s = (reject 400 e, s') ->
restarting s' = restarting s /\
match e with
| NTPServerInvalid _ =>
  exists url, check_dto dto = Ok url /\
  cfg s' = apply_identity dto (new_mqtt (MQTT (cfg s)) url dto) (cfg s) /\
  gw_ID (Gateway (cfg s')) = dto_ID dto /\ ClientID (MQTT (cfg s')) = dto_ClientID dto /\
  Disabled (StoreForward (cfg s')) = negb (dto_Enabled dto) /\
  Time (cfg s') = Time (cfg s) /\ Queue (cfg s') = Queue (cfg s)
| _ => cfg s' = cfg s
end.
Proof.
assert (Hntp : forall e, normalizeNTPServer (dto_NTPServer dto) = Err e -> e = NTPServerInvalid (dto_NTPServer dto)).
{ unfold normalizeNTPServer. intros e'. case_decide; [done|]. destruct (contains_any _ _); [|done]. by intros [= <-]. }
intros [(e' & Hc & Hr & ->)|(url & failed & w & Hc & _ & Hf)]%saveSettings_inv.
- injection Hr as ->. split; [done|]. destruct e'; try done.
  unfold check_dto, normalizeBrokerURL in Hc.
  repeat first [case_decide | case_match | progress res_simpl in Hc]; simplify_eq.
- destruct failed as [te|]; [by destruct Hf as [[= ->] ->]|].
  apply finish_save_inv in Hf as [(e' & Hn & Hr & ->)|(ntp & _ & _ & _ & [(Hr & _)|(e' & Hr & _)])]; [|done|done].
  injection Hr as ->. rewrite (Hntp e' Hn). split; [done|]. exists url. split_and!; done.
Qed.

(** ** The normalisers *)

Lemma lower_blank a b : b ∈ blanks -> lower a = b -> a = b.
Proof.
intros Hb <-. assert (E : forall n, (n < 256)%N -> lower (ascii_of_N n) ∈ blanks -> ascii_of_N n = lower (ascii_of_N n)).
{ intros n Hn. assert (Hall : forall j, 0 <= j < 0 + Z.of_nat 256 -> lower (ascii_of_N (Z.to_N j)) ∈ blanks ->
    ascii_of_N (Z.to_N j) = lower (ascii_of_N (Z.to_N j))).
  { intros j. apply (all_range 256 0 (fun j => lower (ascii_of_N (Z.to_N j)) ∈ blanks ->
      ascii_of_N (Z.to_N j) = lower (ascii_of_N (Z.to_N j)))). by vm_compute. }
  specialize (Hall (Z.of_N n)). rewrite N2Z.id in Hall. apply Hall. lia. }
rewrite <- (ascii_N_embedding a). rewrite <- (ascii_N_embedding a) in Hb. apply E; [apply N_ascii_bounded|done].
Qed.

Lemma contains_any_spec s cs : contains_any s cs = false -> forall a, a ∈ cs -> lacks a s.
Proof.
unfold contains_any, lacks. intros Hc a Ha Hin. apply Bool.not_true_iff_false in Hc. apply Hc.
apply existsb_exists. exists a. split; [by apply list_elem_of_In|by apply bool_decide_eq_true].
Qed.

Lemma strip_prefix_trimmed ps s : TrimSpace s = s -> TrimSpace (strip_prefix ps s) = strip_prefix ps s.
Proof.
intros Hs. induction ps as [|p ps IH]; cbn; [done|]. destruct (HasPrefix _ p); [apply TrimSpace_idem|done].
Qed.

Lemma strip_prefix_none s : lacks " " s -> strip_prefix ntp_conf_prefixes s = s.
Proof.
intros Hs. cbn. assert (Hp : forall p, " "%char ∈ bytes_of p -> HasPrefix (ToLower s) p = false).
{ intros p Hp. apply bool_decide_eq_false. intros [t Ht]. unfold ToLower in Ht. rewrite bytes_of_bytes in Ht.
  assert (Hin : " "%char ∈ map lower (bytes_of s)) by (rewrite Ht; apply elem_of_app; by left).
  apply list_elem_of_fmap in Hin as (a & Ea & Ha). symmetry in Ea. apply lower_blank in Ea; [|left].
  by subst. }
by rewrite !Hp by (apply (bool_decide_unpack _); by vm_compute).
Qed.

(** A normalised NTP server is a name: trimmed, without blanks, tabs or line
    ends, and normalising it again changes nothing; the keyword of an ntp.conf
    line is dropped, in any case. *)
Theorem normalizeNTPServer_name raw s :
normalizeNTPServer raw = Ok s ->
TrimSpace s = s /\ (forall a, a ∈ blanks -> lacks a s) /\ normalizeNTPServer s = Ok s.
Proof.
unfold normalizeNTPServer at 1. case_decide as Hr.
- intros [= <-]. split_and!; [done| |done]. intros a _. apply not_elem_of_nil.
- set (t := strip_prefix _ _). destruct (contains_any _ _) eqn:Hc; [done|].
  assert (Ht : TrimSpace t = t) by apply strip_prefix_trimmed, TrimSpace_idem.
  pose proof (contains_any_spec _ _ Hc) as Hl. clearbody t. intros [= <-].
  split_and!; [done|done|]. unfold normalizeNTPServer. rewrite Ht. case_decide as He; [by rewrite He|].
  rewrite strip_prefix_none by (apply Hl; left). by rewrite Hc.
Qed.

Lemma normalizeBrokerURL_trimmed raw s :
normalizeBrokerURL raw = Ok s -> s = TrimSpace raw /\ TrimSpace s = s /\ normalizeBrokerURL s = Ok s.
Proof.
unfold normalizeBrokerURL. case_decide as Hr; [done|]. destruct (url_host (TrimSpace raw)) as [h|] eqn:Hu; [|done].
case_decide as Hh; [done|]. intros [= <-]. split; [done|]. rewrite TrimSpace_idem.
split; [done|]. rewrite decide_False by done. rewrite Hu. by rewrite decide_False.
Qed.

(** ** Showing and submitting *)

Lemma check_dto_url dto url : check_dto dto = Ok url -> dto_Enabled dto = true -> normalizeBrokerURL (dto_BrokerURL dto) = Ok url.
Proof.
unfold check_dto. case_decide; [done|]. intros Hc Hen. rewrite Hen in Hc.
destruct (normalizeBrokerURL _) as [u|e]; [|done]. res_simpl in Hc. case_decide; by simplify_eq.
Qed.

(** The MQTT configuration after a save is the one the check let through, with
    a trimmed broker URL. *)
Lemma new_mqtt_trimmed m url dto :
check_dto dto = Ok url -> TrimSpace (BrokerURL (new_mqtt m url dto)) = BrokerURL (new_mqtt m url dto) /\
BrokerURL (new_mqtt m url dto) = TrimSpace (dto_BrokerURL dto).
Proof.
intros Hc. unfold new_mqtt. cbn [BrokerURL]. destruct (dto_Enabled dto) eqn:Hen; [|by rewrite TrimSpace_idem].
destruct (normalizeBrokerURL_trimmed _ _ (check_dto_url _ _ Hc Hen)) as (-> & ? & _). by rewrite TrimSpace_idem.
Qed.

Lemma positive_or_same b : positive_or b b = b.
Proof. unfold positive_or. by case_match. Qed.
Lemma nonempty_or_same b : nonempty_or b b = b.
Proof. unfold nonempty_or. by case_decide. Qed.

End Props.

(** * A gateway with one configuration file *)

(** The file's text, and no environment variable set.  The file format keeps
    only the MQTT password, which is all the examples vary. *)
Definition sample_config (password : string) : Config :=
  with_defaults (mkConfig (mkGatewayConfig "gw-1" "Plant 1") (mkAPIConfig ":8080" "") (mkDatabaseConfig "/data/gateway.db")
    (mkQueueConfig "" 0 (of_Z 0) 0 0) (mkStoreForward false) (mkForwarderConfig "mqtt" "" 0 0 0) (mkLogConfig "info" "json")
    (mkMQTT "tcp://broker:1883" "" "user" password 0 "" "" 0 0 0 0 (mkTLS false "" "" "" false))
    (mkTimeConfig "" "" 0 0 "")).

Definition Disk : Type := string.
#[local] Instance disk_env : ConfigEnv Disk := {|
  read_file := fun _ w => Ok w;
  write_file := fun _ data _ => (None, data);
  getenv := fun _ _ => "";
  yaml_unmarshal := fun text => Ok (sample_config (of_bytes (drop 10 (take (length (bytes_of text) - 1) (bytes_of text)))));
  yaml_marshal := fun c => Ok ("password: " +:+ Password (MQTT c) +:+ String "010" "")
|}.
#[local] Instance disk_tls : TLSEnv Disk := {| append_certs := fun _ => None; load_key_pair := fun _ _ _ => Err "no such file" |}.
#[local] Instance disk_mqtt : MqttEnv Disk := {| mqtt_connect := fun _ _ w => (None, w); unix_nano := fun _ => 1 |}.
#[local] Instance disk_url : UrlEnv := {| url_host := fun _ => Some "broker:1883" |}.

Lemma load_well_formed_witness :
  Load "config.yaml" ("password: secret" +:+ String "010" "" : Disk) = Ok (sample_config "secret") /\
  config_ok (sample_config "secret") /\ with_defaults (sample_config "secret") = sample_config "secret".
Proof.
  assert (Hl : Load "config.yaml" ("password: secret" +:+ String "010" "" : Disk) = Ok (sample_config "secret")) by by vm_compute.
  split; [exact Hl|]. exact (load_well_formed "config.yaml" _ _ Hl).
Defined.

(** A password with a dollar sign does not survive the restart. *)
Lemma save_then_load_witness :
  let c := sample_config "pa$word" in
  let w' : Disk := "password: pa$word" +:+ String "010" "" in
  Save "config.yaml" c ("" : Disk) = (None, w') /\
  Load "config.yaml" w' = with_defaults <$> yaml_unmarshal ("password: pa" +:+ "" +:+ ExpandEnv (fun _ => "") (String "010" "")) /\
  Load "config.yaml" w' = Ok (sample_config "pa").
Proof.
  cbv zeta. assert (Hs : Save "config.yaml" (sample_config "pa$word") ("" : Disk) =
                         (None, ("password: pa$word" +:+ String "010" "") : Disk)) by by vm_compute.
  assert (Hrb : reads_back (W := Disk)) by by intros path data w w' [= <-].
  destruct (save_then_load "config.yaml" _ _ _ Hrb Hs) as (data & Hm & _ & Hd).
  injection Hm as <-. split; [exact Hs|]. split; [|by vm_compute].
  apply (Hd "password: pa" "w"%char ["o"; "r"; "d"]%char "010"%char ""); [by vm_compute| | |by vm_compute..].
  - apply (bool_decide_unpack _). by vm_compute.
  - repeat constructor.
Defined.

Definition sample_srv : Srv := mkSrv (sample_config "secret") "config.yaml" false ("" : Disk).
Definition new_client (ntp : string) : settingsDTO :=
  mkDTO "gw-2" "Plant 2" "mqtt" " tcp://broker:1883" "client-2" "user" "" 1 "" "" 30 ntp "UTC" 300 1073741824 (of_Z 10) true.

Lemma rejected_save_half_applied_witness :
  let s' := (saveSettings (Some (new_client "two words")) sample_srv).2 in
  restarting s' = false /\
  exists url, check_dto (new_client "two words") = Ok url /\
  cfg s' = apply_identity (new_client "two words") (new_mqtt (MQTT (cfg sample_srv)) url (new_client "two words")) (cfg sample_srv) /\
  gw_ID (Gateway (cfg s')) = "gw-2" /\ ClientID (MQTT (cfg s')) = "client-2" /\
  Disabled (StoreForward (cfg s')) = false /\
  Time (cfg s') = Time (cfg sample_srv) /\ Queue (cfg s') = Queue (cfg sample_srv).
Proof.
  apply (rejected_save_half_applied (new_client "two words") sample_srv (NTPServerInvalid "two words")).
  destruct (saveSettings _ _) as [r s] eqn:E. f_equal. change r with (r, s).1. rewrite <- E. by vm_compute.
Defined.

Lemma normalizeNTPServer_name_witness :
  normalizeNTPServer " Server ntp.plant " = Ok "ntp.plant" /\
  TrimSpace "ntp.plant" = "ntp.plant" /\ (forall a, a ∈ blanks -> lacks a "ntp.plant") /\
  normalizeNTPServer "ntp.plant" = Ok "ntp.plant".
Proof.
  assert (Hn : normalizeNTPServer " Server ntp.plant " = Ok "ntp.plant") by by vm_compute.
  split; [exact Hn|]. exact (normalizeNTPServer_name _ _ Hn).
Defined.

