(* ===== verification/Sim.v ===== *)
(** The Modbus TCP simulator used in development (cmd/modbus-sim): its request
    loop over a byte stream, and its answers.  It is the one Modbus server whose
    source the repository holds, so it also serves as a concrete device for the
    assumptions the polling theorems make of one. *)

From S2P Require Import Prelude.
From S2P Require Import Float64.
From S2P Require Import Modbus.

Local Open Scope string_scope.
Local Open Scope list_scope.
Local Open Scope Z_scope.

Definition fcReadCoils : Z := 1.
Definition fcReadDiscreteInputs : Z := 2.
Definition fcReadHoldingRegisters : Z := 3.
Definition fcReadInputRegisters : Z := 4.
Definition exIllegalFunction : Z := 1.
Definition exIllegalDataAddr : Z := 2.

(** [binary.BigEndian.Uint16], and a register as two bytes. *)
Definition be16 (b : list Z) : Z := Int.u16 (256 * nth 0 b 0 + nth 1 b 0).
Definition put16 (v : Z) : list Z := [Int.u8 (v / 256); Int.u8 v].

(** * The registers *)

(** [putFloat32ABCD]; the argument is [math.Float32bits] of the value. *)
Definition putFloat32ABCD (addr : nat) (bits : Z) (regs : list Z) : list Z :=
  <[S addr := Int.u16 bits]> (<[addr := Int.u16 (bits / 65536)]> regs).

(** The two banks [main] seeds; 0x44BB9000 is 1500.5 as a float32. *)
Definition holding : list Z :=
  <[104%nat := 45]> (putFloat32ABCD 102 0x44BB9000 (<[101%nat := 1523]> (<[100%nat := 2302]> (replicate 200 0)))).
Definition input : list Z := replicate 200 0.

(** * One request *)

Definition exception (fc code : Z) : list Z := [Z.lor fc 128; code].

Section Answer.
Variables (holding input : list Z).

Definition handlePDU (pdu : list Z) : list Z :=
match pdu with
| [] => [128; exIllegalFunction]
| fc :: _ =>
  if (fc =? fcReadHoldingRegisters) || (fc =? fcReadInputRegisters) then
    if negb (length pdu =? 5)%nat then exception fc exIllegalDataAddr
    else
      let address := be16 (slice 1 3 pdu) in
      let quantity := be16 (slice 3 5 pdu) in
      let bank := if fc =? fcReadInputRegisters then input else holding in
      if (Z.of_nat (length bank) <? address + quantity) || (quantity =? 0) || (125 <? quantity)
      then exception fc exIllegalDataAddr
      else fc :: Int.u8 (Int.u16 (quantity * 2)) ::
           concat (map (fun i => put16 (nth (Z.to_nat (Int.u16 (address + i))) bank 0)) (seqZ 0 quantity))
  else if (fc =? fcReadCoils) || (fc =? fcReadDiscreteInputs) then
    if negb (length pdu =? 5)%nat then exception fc exIllegalDataAddr
    else
      let quantity := be16 (slice 3 5 pdu) in
      if (quantity =? 0) || (2000 <? quantity) then exception fc exIllegalDataAddr
      else
        let byteCount := Int.u16 (quantity + 7) / 8 in
        fc :: Int.u8 byteCount :: replicate (Z.to_nat byteCount) 0
  else exception fc exIllegalFunction
end.

(** * A connection *)

(** Why the loop of [handleConn] returned. *)
Inductive closed := Eof | HeaderTruncated | BadLength | PduTruncated | WriteFailed.

(** The reply to a frame: transaction, protocol 0, length, unit, response. *)
Definition reply (frame : list Z) : list Z :=
let resp := handlePDU (drop 7 frame) in
let respLen := Int.u16 (Z.of_nat (length resp) + 1) in
slice 0 2 frame ++ [0; 0] ++ [Int.u8 (respLen / 256); Int.u8 respLen] ++ [nth 6 frame 0] ++ resp.

(** [handleConn] on what the peer sends before it closes, when the first
    [writes] replies can be written. *)
Fixpoint handleConn (fuel writes : nat) (s : list Z) : option (list (list Z) * closed) :=
match fuel with
| O => None
| S k =>
  if bool_decide (s = []) then Some ([], Eof)
  else if (length s <? 7)%nat then Some ([], HeaderTruncated)
  else
    let len := be16 (slice 4 6 s) in
    if (len <? 1) || (253 <? len) then Some ([], BadLength)
    else
      let size := (7 + Z.to_nat (len - 1))%nat in
      if (length s <? size)%nat then Some ([], PduTruncated)
      else
        match writes with
        | O => Some ([], WriteFailed)
        | S w =>
          match handleConn k w (drop size s) with
          | Some (outs, c) => Some (reply (take size s) :: outs, c)
          | None => None
          end
        end
end.

(** [main]'s loop: every connection that [Accept] returns gets a [handleConn]
    of its own on the same registers, and a failed [Accept] is passed over. *)
Definition accept_loop (accepts : list (option (nat * list Z))) : list (option (list (list Z) * closed)) :=
map (fun '(writes, s) => handleConn (S (length s / 7)) writes s) (omap id accepts).
End Answer.

(** * Frames *)

(** A frame the loop accepts: a header whose length counts the unit and the
    PDU, and nothing after it. *)
Definition frame_len (f : list Z) : Z := be16 (slice 4 6 f).
Definition is_frame (f : list Z) : Prop :=
(7 <= length f)%nat /\ 1 <= frame_len f <= 253 /\ length f = (7 + Z.to_nat (frame_len f - 1))%nat.

(** What is left of a stream when the loop stops. *)
Definition stops (rest : list Z) (c : closed) : Prop :=
match c with
| Eof => rest = []
| HeaderTruncated => rest <> [] /\ (length rest < 7)%nat
| BadLength => (7 <= length rest)%nat /\ ~ 1 <= frame_len rest <= 253
| PduTruncated => (7 <= length rest)%nat /\ 1 <= frame_len rest <= 253 /\
                  (length rest < 7 + Z.to_nat (frame_len rest - 1))%nat
| WriteFailed => exists f rest', is_frame f /\ rest = f ++ rest'
end.

Lemma slice_app_l {A} lo hi (l k : list A) : (hi <= length l)%nat -> slice lo hi (l ++ k) = slice lo hi l.
Proof.
intros Hl. unfold slice. destruct (decide (lo <= length l)%nat).
- rewrite drop_app_le by lia. rewrite take_app_le; [done|]. rewrite length_drop. lia.
- replace (hi - lo)%nat with O by lia. by rewrite !take_0.
Qed.

Section Serve.
Variables (holding input : list Z).

(** C25. The simulator's loop ends, and answers every request once.  Whatever the
    bytes a peer sends, the loop stops after at most one round per seven of them;
    the stream splits into complete frames and a rest, each frame that could be
    answered got exactly its reply, in order, and the loop stopped for the
    reason the rest shows: the end of the stream, a truncated header or PDU, a
    length outside 1 to 253, or a reply that could not be written. *)
Theorem handleConn_answers writes s :
exists frames rest c,
s = concat frames ++ rest /\ Forall is_frame frames /\ (length frames <= writes)%nat /\
(c = WriteFailed -> length frames = writes) /\
handleConn holding input (S (length s / 7)) writes s = Some (map (reply holding input) frames, c) /\
stops rest c.
Proof.
assert (Hgen : forall fuel writes s, (length s < 7 * fuel)%nat ->
  exists frames rest c, s = concat frames ++ rest /\ Forall is_frame frames /\ (length frames <= writes)%nat /\
  (c = WriteFailed -> length frames = writes) /\
  handleConn holding input fuel writes s = Some (map (reply holding input) frames, c) /\ stops rest c).
{ clear. intros fuel. induction fuel as [|k IH]; intros writes s Hl; [lia|]. cbn [handleConn].
  destruct (bool_decide (s = [])) eqn:E0.
  { apply bool_decide_eq_true in E0 as ->. exists [], [], Eof. by split_and!; first [done|cbn; lia]. }
  apply bool_decide_eq_false in E0. destruct (length s <? 7)%nat eqn:E7.
  { apply Nat.ltb_lt in E7. exists [], s, HeaderTruncated. by split_and!; first [done|cbn; lia]. }
  apply Nat.ltb_ge in E7. fold (frame_len s). destruct ((frame_len s <? 1) || (253 <? frame_len s)) eqn:Eb.
  { exists [], s, BadLength. split_and!; first [done|cbn; lia]. }
  zbool. set (size := (7 + Z.to_nat (frame_len s - 1))%nat). destruct (length s <? size)%nat eqn:Es.
  { apply Nat.ltb_lt in Es. exists [], s, PduTruncated. split_and!; first [done|cbn; lia]. }
  apply Nat.ltb_ge in Es.
  assert (Hf : is_frame (take size s)).
  { assert (E : frame_len (take size s) = frame_len s).
    { unfold frame_len. f_equal. rewrite <- (take_drop size s) at 2. rewrite slice_app_l; [done|].
      rewrite length_take. unfold size. lia. }
    unfold is_frame. rewrite E, length_take. unfold size in *. lia. }
  destruct writes as [|w].
  { exists [], s, WriteFailed. split_and!; try first [done|cbn; lia]. exists (take size s), (drop size s).
    split; [done|by rewrite take_drop]. }
  destruct (IH w (drop size s)) as (fs & rest & c & Hs & Hfs & Hw & Hwf & He & Hst).
  { rewrite length_drop. unfold size in *. lia. }
  exists (take size s :: fs), rest, c. rewrite He. split_and!; [|by constructor|cbn; lia| |done|done].
  - cbn [concat]. by rewrite <- app_assoc, <- Hs, take_drop.
  - intros Hc. cbn. by rewrite Hwf. }
apply Hgen. pose proof (Nat.mod_upper_bound (length s) 7 ltac:(lia)). pose proof (Nat.div_mod (length s) 7 ltac:(lia)). lia.
Qed.
End Serve.

(** * The simulator as a device *)

(** The PDU of a read request, and the client library's reading of the answer
    (the Modbus application protocol: function code, byte count, data; or the
    function code with its top bit set). *)
Definition request (fc address quantity : Z) : list Z := fc :: put16 address ++ put16 quantity.
Definition read_answer (fc : Z) (pdu : list Z) : option (list Z) :=
  match pdu with
  | f :: n :: data => if (f =? fc) && (n =? Z.of_nat (length data)) then Some data else None
  | _ => None
  end.
Definition sim_read (holding input : list Z) (fc address quantity : Z) : option (list Z) :=
  read_answer fc (handlePDU holding input (request fc address quantity)).

Lemma be16_put16 v r : Int.is_u16 v -> be16 (put16 v ++ r) = v.
Proof.
  unfold Int.is_u16, be16, put16, Int.u8. intros Hv. cbn [app nth].
  rewrite (Z.mod_small (v / 256)) by (split; [apply Z.div_pos; lia|apply Z.div_lt_upper_bound; lia]).
  transitivity (Int.u16 v); [f_equal; pose proof (Z.div_mod v 256 ltac:(lia)); lia|].
  apply Int.u16_id. unfold Int.is_u16. lia.
Qed.

Lemma request_fields fc a q :
  Int.is_u16 a -> Int.is_u16 q ->
  length (request fc a q) = 5%nat /\ be16 (slice 1 3 (request fc a q)) = a /\ be16 (slice 3 5 (request fc a q)) = q.
Proof.
  intros Ha Hq. split_and!; [done| |].
  - change (slice 1 3 (request fc a q)) with (put16 a ++ []). by apply be16_put16.
  - change (slice 3 5 (request fc a q)) with (put16 q ++ []). by apply be16_put16.
Qed.

Lemma concat_put16_length (f : Z -> Z) n :
  0 <= n -> length (concat (map (fun i => put16 (f i)) (seqZ 0 n))) = Z.to_nat (2 * n).
Proof.
  intros Hn. assert (E : forall l, length (concat (map (fun i => put16 (f i)) l)) = (2 * length l)%nat).
  { induction l as [|x l IH]; [done|]. cbn [map concat]. rewrite length_app, IH. cbn. lia. }
  rewrite E, length_seqZ. lia.
Qed.

Lemma exception_none fc c : 0 <= fc < 128 -> read_answer fc (exception fc c) = None.
Proof.
  intros Hf. unfold exception, read_answer. assert (Z.lor fc 128 <> fc) as ->%Z.eqb_neq; [|done].
  intros E. assert (Hb : Z.testbit fc 7 = true).
  { rewrite <- E, Z.lor_spec. change (Z.testbit 128 7) with true. apply orb_true_r. }
  by rewrite (testbit_high fc 7 7) in Hb by (cbn; lia).
Qed.

(** The simulator is a legal Modbus server for the gateway's requests: a
    register request of 1 to 125 registers within the bank is answered with
    exactly the registers' bytes, high byte first, one outside it with an
    exception, and a request for coils or discrete inputs with one byte per
    eight, all zero. *)
Theorem sim_answers (h i : list Z) fc a q :
  Int.is_u16 a -> Int.is_u16 q -> Z.of_nat (length h) <= 65536 -> Z.of_nat (length i) <= 65536 ->
  (fc = fcReadHoldingRegisters \/ fc = fcReadInputRegisters ->
   let bank := if fc =? fcReadInputRegisters then i else h in
   sim_read h i fc a q =
   (if bool_decide (1 <= q <= 125 /\ a + q <= Z.of_nat (length bank))
    then Some (concat (map (fun k => put16 (nth (Z.to_nat (a + k)) bank 0)) (seqZ 0 q)))
    else None)) /\
  (fc = fcReadCoils \/ fc = fcReadDiscreteInputs ->
   sim_read h i fc a q =
   (if bool_decide (1 <= q <= 2000) then Some (replicate (Z.to_nat ((q + 7) / 8)) 0) else None)).
Proof.
  intros Ha Hq Hh Hi. destruct (request_fields fc a q Ha Hq) as (Hl & Ea & Eq). unfold Int.is_u16 in *.
  assert (Hr : exists r, request fc a q = fc :: r) by (by eexists). destruct Hr as [r Hr].
  unfold sim_read, handlePDU. rewrite Hr in *. rewrite Hl, Ea, Eq. cbn [Nat.eqb negb].
  split; intros Hfc.
  - replace ((fc =? fcReadHoldingRegisters) || (fc =? fcReadInputRegisters)) with true
      by (destruct Hfc as [->| ->]; done).
    cbv zeta. set (bank := if fc =? fcReadInputRegisters then i else h).
    assert (Hbank : Z.of_nat (length bank) <= 65536) by (unfold bank; destruct (_ =? _); lia).
    case_bool_decide as Hok.
    + rewrite (proj2 (Z.ltb_ge _ _)), (proj2 (Z.eqb_neq _ _)), (proj2 (Z.ltb_ge 125 _)) by lia. cbn [orb].
      unfold read_answer. rewrite Z.eqb_refl, (concat_put16_length (fun k => nth (Z.to_nat (Int.u16 (a + k))) bank 0)) by lia.
      rewrite (Int.u16_id (q * 2)), Int.u8_id by (unfold Int.is_u16, Int.is_u8; lia).
      rewrite (proj2 (Z.eqb_eq (q * 2) _)) by lia. cbn [andb]. do 2 f_equal. apply map_ext_in. intros k Hk.
      apply list_elem_of_In, elem_of_seqZ in Hk. by rewrite Int.u16_id by (unfold Int.is_u16; lia).
    + replace (_ || _ || _) with true; [by apply exception_none; destruct Hfc as [->| ->]|].
      symmetry. rewrite !orb_true_iff, !Z.ltb_lt, Z.eqb_eq. lia.
  - replace ((fc =? fcReadHoldingRegisters) || (fc =? fcReadInputRegisters)) with false
      by (destruct Hfc as [->| ->]; done).
    replace ((fc =? fcReadCoils) || (fc =? fcReadDiscreteInputs)) with true by (destruct Hfc as [->| ->]; done).
    case_bool_decide as Hok.
    + rewrite (proj2 (Z.eqb_neq q 0)), (proj2 (Z.ltb_ge 2000 q)) by lia. cbn [orb]. cbv zeta.
      rewrite (Int.u16_id (q + 7)) by (unfold Int.is_u16; lia).
      assert (0 <= (q + 7) / 8 < 256) by (split; [apply Z.div_pos; lia|apply Z.div_lt_upper_bound; lia]).
      unfold read_answer. rewrite Z.eqb_refl, length_replicate, Int.u8_id by (unfold Int.is_u8; lia).
      by rewrite (proj2 (Z.eqb_eq _ _)) by lia.
    + replace (_ || _) with true; [by apply exception_none; destruct Hfc as [->| ->]|].
      symmetry. rewrite orb_true_iff, Z.ltb_lt, Z.eqb_eq. lia.
Qed.

Lemma sim_answers_witness :
  let q := 5 in
  sim_read holding input fcReadHoldingRegisters 100 q =
  Some (concat (map (fun k => put16 (nth (Z.to_nat (100 + k)) holding 0)) (seqZ 0 q))) /\
  sim_read holding input fcReadCoils 0 12 = Some [0; 0].
Proof.
  assert (Hl : Z.of_nat (length holding) <= 65536 /\ Z.of_nat (length input) <= 65536) by by vm_compute.
  destruct Hl as [Hh Hi]. split.
  - refine (proj1 (sim_answers holding input fcReadHoldingRegisters 100 5 _ _ Hh Hi) _); [by vm_compute..|by left].
  - refine (proj2 (sim_answers holding input fcReadCoils 0 12 _ _ Hh Hi) _); [by vm_compute..|by left].
Defined.

(** The seeded device, read and decoded as the gateway does: 230.2 V with scale
    0.1, 1500.5 and 45. *)
Example sim_values :
  (fun raw => Decode raw Int16 "AB") <$> sim_read holding input FuncReadHoldingRegisters 100 1 = Some (Ok (of_Z 2302)) /\
  (fun raw => Decode raw Float32 "ABCD") <$> sim_read holding input FuncReadHoldingRegisters 102 2 =
    Some (Ok (fdiv (of_Z 3001) (of_Z 2))) /\
  (fun raw => Decode raw UInt16 "AB") <$> sim_read holding input FuncReadHoldingRegisters 104 1 = Some (Ok (of_Z 45)).
Proof. by vm_compute. Qed.
