(* ===== verification/Migrate.v ===== *)
(** Opening the configuration database (internal/storage/storage.go): the
    migration runner, statement by statement.

    The SQL engine is a parameter: what a script makes of the database, and
    whether a foreign key dangles.  Any statement may fail ([faults]); a
    transaction that is rolled back, or whose commit fails, leaves nothing. *)

From Stdlib Require Import Ascii.
From S2P Require Import Prelude.
From S2P Require Import GoText.
From S2P Require Import Config.
From stdpp Require Import sorting.

Local Open Scope string_scope.
Local Open Scope list_scope.

Class SqlEnv (S : Type) := {
  sql_exec : string -> S -> result string S;
  fk_violated : S -> bool
}.

(** The database file: the rows of [schema_migrations] ([None] before the table
    exists), everything else, the connection's foreign-key switch, and the
    faults to come. *)
Record Db (S : Type) := mkDb {
  versions : option (list string);
  content : S;
  fk_on : bool;
  faults : list bool
}.
Arguments mkDb {S}.
Arguments versions {S}.
Arguments content {S}.
Arguments fk_on {S}.
Arguments faults {S}.

(** A directory entry and the file system, which does not change. *)
Record Entry := mkEntry { e_Name : string; e_IsDir : bool }.
Record Files := mkFiles { dir_entries : result string (list Entry); file_text : string -> result string string }.

Section Migrate.
Context {S : Type} `{SqlEnv S}.

(** One statement reaches the database, or fails. *)
Definition statement : M string (Db S) unit :=
fun s => match faults s with
         | true :: f => (Err "disk I/O error", mkDb (versions s) (content s) (fk_on s) f)
         | _ :: f => (Ok tt, mkDb (versions s) (content s) (fk_on s) f)
         | [] => (Ok tt, s)
         end.

Definition context (text : string) {A} (m : M string (Db S) A) : M string (Db S) A :=
wrap (fun e => text +:+ ": " +:+ e) m.
Definition lift {A} (r : result string A) : M string (Db S) A := fun s => (r, s).

Definition create_table : M string (Db S) unit :=
_ ← statement;
modify (fun s => mkDb (Some (default [] (versions s))) (content s) (fk_on s) (faults s)).

(** [SELECT COUNT( * )] of a version. *)
Definition count_applied (name : string) : M string (Db S) nat :=
_ ← statement;
s ← get;
mret (length (filter (fun v => v = name) (default [] (versions s)))).

Definition set_foreign_keys (on : bool) : M string (Db S) unit :=
_ ← statement;
modify (fun s => mkDb (versions s) (content s) on (faults s)).

(** From [Begin] to [Commit]: the script and the version's row are written
    together or not at all. *)
Definition apply_tx (name sql : string) : M string (Db S) unit :=
_ ← context ("begin tx for " +:+ name) statement;
s ← get;
c ← context ("apply migration " +:+ name) (_ ← statement; lift (sql_exec sql (content s)));
_ ← context ("record migration " +:+ name) statement;
_ ← context ("commit migration " +:+ name) statement;
modify (fun s => mkDb (Some (default [] (versions s) ++ [name])) c (fk_on s) (faults s)).

Definition hasForeignKeyViolation : M string (Db S) bool :=
_ ← statement;
s ← get;
mret (fk_violated (content s)).

(** The loop's body. *)
Definition apply_one (fs : Files) (dir name : string) : M string (Db S) unit :=
applied ← context ("check migration " +:+ name) (count_applied name);
if decide (0 < applied)%nat then mret tt
else
  sql ← context ("read migration " +:+ name) (lift (file_text fs (JoinPath dir name)));
  _ ← context ("disable foreign_keys for migration " +:+ name) (set_foreign_keys false);
  _ ← apply_tx name sql;
  _ ← context ("re-enable foreign_keys after migration " +:+ name) (set_foreign_keys true);
  violation ← context ("check foreign keys after migration " +:+ name) hasForeignKeyViolation;
  if (violation : bool) then fail ("migration " +:+ name +:+ " introduced a foreign key violation") else mret tt.

Fixpoint apply_all (fs : Files) (dir : string) (names : list string) : M string (Db S) unit :=
match names with
| [] => mret tt
| name :: names => _ ← apply_one fs dir name; apply_all fs dir names
end.

(** [filepath.Ext]: from the last dot of the last component. *)
Definition Ext (name : string) : string :=
match last_index "."%char (GoStrings.bytes_of name), last_index slash (GoStrings.bytes_of name) with
| Some i, Some j => if (j <? i)%nat then GoStrings.of_bytes (drop i (GoStrings.bytes_of name)) else ""
| Some i, None => GoStrings.of_bytes (drop i (GoStrings.bytes_of name))
| None, _ => ""
end.

Definition string_le (a b : string) : Prop := String.leb a b = true.
#[global] Instance string_le_dec : RelDecision string_le.
Proof. intros a b. unfold string_le. apply _. Defined.

(** The scripts of a directory, in byte order of their names. *)
Definition migration_files (es : list Entry) : list string :=
merge_sort string_le (map e_Name (filter (fun e => e_IsDir e = false /\ Ext (e_Name e) = ".sql") es)).

Definition migrate (fs : Files) (dir : string) : M string (Db S) unit :=
_ ← context "create schema_migrations" create_table;
entries ← context "read migrations dir" (lift (dir_entries fs));
apply_all fs dir (migration_files entries).

(** [Open]: the parent directory, then the migrations; a database whose
    migration failed is closed. *)
Definition Open (mkdir : string -> option string) (fs : Files) (path migrationsDir : string) : M string (Db S) unit :=
fun s =>
match (if decide (Dir path = ".") then None else mkdir (Dir path)) with
| Some e => (Err ("create db directory: " +:+ e), s)
| None => migrate fs migrationsDir s
end.

(** * What a run does *)

Definition applied_versions (s : Db S) : list string := default [] (versions s).

(** The content after running scripts one by one. *)
Fixpoint exec_all (fs : Files) (dir : string) (names : list string) (c : S) : option S :=
match names with
| [] => Some c
| n :: ns =>
  match file_text fs (JoinPath dir n) with
  | Ok sql => match sql_exec sql c with Ok c' => exec_all fs dir ns c' | Err _ => None end
  | Err _ => None
  end
end.

Lemma statement_frame s r s' :
statement s = (r, s') -> versions s' = versions s /\ content s' = content s /\ fk_on s' = fk_on s.
Proof. unfold statement. destruct (faults s) as [|[] f]; by intros [= _ <-]. Qed.

Lemma context_inv {A} text (m : M string (Db S) A) s r s' :
context text m s = (r, s') -> exists r0, m s = (r0, s') /\ forall a, r = Ok a <-> r0 = Ok a.
Proof.
unfold context, wrap. destruct (m s) as [r0 s0]. intros [= <- <-]. exists r0. split; [done|].
intros a. destruct r0; cbn; [done|]. by split.
Qed.

(** Either nothing was applied, or exactly this migration. *)
Definition same_data (s s' : Db S) : Prop := versions s' = versions s /\ content s' = content s.

Lemma statement_same s r s' : statement s = (r, s') -> same_data s s'.
Proof. intros Hs. by destruct (statement_frame s r s' Hs) as (? & ? & _). Qed.
Lemma same_trans s1 s2 s3 : same_data s1 s2 -> same_data s2 s3 -> same_data s1 s3.
Proof. intros [H1 H2] [H3 H4]. split; congruence. Qed.

Lemma set_foreign_keys_same b s r s' : set_foreign_keys b s = (r, s') -> same_data s s'.
Proof.
unfold set_foreign_keys. intros [(u & s1 & H1 & H2)|(e & H1 & ->)]%bind_inv.
- apply statement_same in H1. unfold modify in H2. injection H2 as _ <-. by eapply same_trans; [exact H1|].
- by apply statement_same in H1.
Qed.

Lemma violation_same s r s' : hasForeignKeyViolation s = (r, s') -> same_data s s'.
Proof.
unfold hasForeignKeyViolation. intros [(u & s1 & H1 & H2)|(e & H1 & ->)]%bind_inv.
- apply statement_same in H1. by injection H2 as _ <-.
- by apply statement_same in H1.
Qed.

Lemma apply_tx_spec name sql s r s' :
apply_tx name sql s = (r, s') ->
(exists e, r = Err e /\ same_data s s') \/
(exists c, r = Ok tt /\ sql_exec sql (content s) = Ok c /\ content s' = c /\
           versions s' = Some (applied_versions s ++ [name])).
Proof.
unfold apply_tx. intros [(u1 & s1 & Hb & Hr)|(e & Hb & ->)]%bind_inv.
2: { apply context_inv in Hb as (r0 & Hb%statement_same & _). left. by eexists. }
apply context_inv in Hb as (r0 & Hb%statement_same & _).
apply bind_inv in Hr as [(x & sx & [= <- <-] & Hr)|(e & ? & _)]; [|done].
apply bind_inv in Hr as [(c & s2 & Hc & Hr)|(e & Hc & ->)].
2: { apply context_inv in Hc as (r1 & Hc & _). apply bind_inv in Hc as [(u & s2 & Hs%statement_same & [= _ <-])|(e' & Hs%statement_same & _)].
     - left. eexists. split; [done|]. by eapply same_trans.
     - left. eexists. split; [done|]. by eapply same_trans. }
apply context_inv in Hc as (r1 & Hc & Hr1). rewrite (proj1 (Hr1 c) eq_refl) in Hc.
apply bind_inv in Hc as [(u & s3 & Hs%statement_same & Hx)|(e' & ? & ?)]; [|done].
unfold lift in Hx. injection Hx as Hx ->.
apply bind_inv in Hr as [(u2 & s3 & Hc & Hr)|(e & Hc & ->)];
  apply context_inv in Hc as (r3 & Hc%statement_same & _).
2: { left. eexists. split; [done|]. eapply same_trans; [exact Hb|]. by eapply same_trans. }
apply bind_inv in Hr as [(u3 & s4 & Hc2 & Hr)|(e & Hc2 & ->)];
  apply context_inv in Hc2 as (r4 & Hc2%statement_same & _).
2: { left. eexists. split; [done|]. eapply same_trans; [exact Hb|]. eapply same_trans; [exact Hs|]. by eapply same_trans. }
unfold modify in Hr. injection Hr as <- <-. right. exists c.
destruct Hb as [Hb1 Hb2], Hs as [Hs1 Hs2], Hc as [Hv3 Hc3], Hc2 as [Hv4 Hc4]. split_and!; [done| |done|].
- by rewrite <- Hb2.
- cbn. unfold applied_versions. congruence.
Qed.

Lemma apply_one_spec fs dir name s r s' :
apply_one fs dir name s = (r, s') ->
(same_data s s' /\ (r = Ok tt -> name ∈ applied_versions s)) \/
(name ∉ applied_versions s /\ applied_versions s' = applied_versions s ++ [name] /\
 exec_all fs dir [name] (content s) = Some (content s')).
Proof.
unfold apply_one. intros [(n & s1 & Hc & Hr)|(e & Hc & ->)]%bind_inv.
2: { left. apply context_inv in Hc as (r0 & Hc & _). unfold count_applied in Hc.
     apply bind_inv in Hc as [(u & s2 & Hs%statement_same & Hg)|(e' & Hs%statement_same & _)]; [|done].
     apply bind_inv in Hg as [(x & sx & [= <- <-] & [= _ <-])|(e' & ? & _)]; done. }
assert (Hn : same_data s s1 /\ n = length (filter (fun v => v = name) (applied_versions s))).
{ apply context_inv in Hc as (r0 & Hc & Hr0). rewrite (proj1 (Hr0 n) eq_refl) in Hc. unfold count_applied in Hc.
  apply bind_inv in Hc as [(u & s2 & Hs%statement_same & Hg)|(e' & ? & ?)]; [|done].
  apply bind_inv in Hg as [(x & sx & [= <- <-] & [= <- <-])|(e' & ? & _)]; [|done]. split; [done|].
  unfold applied_versions. by rewrite (proj1 Hs). }
destruct Hn as [Hs1 ->]. clear Hc. case_decide as Hlen.
{ injection Hr as <- <-. left. split; [done|]. intros _.
  destruct (filter (fun v => v = name) (applied_versions s)) as [|v l] eqn:E; [cbn in Hlen; lia|].
  assert (Hv : v ∈ filter (fun v => v = name) (applied_versions s)) by (rewrite E; left).
  by apply list_elem_of_filter in Hv as [-> Hv]. }
assert (Hnot : name ∉ applied_versions s).
{ intros Hin. apply Hlen. destruct (filter (fun v => v = name) (applied_versions s)) as [|v l] eqn:E; [|cbn; lia].
  assert (Hv : name ∈ filter (fun v => v = name) (applied_versions s)) by by apply list_elem_of_filter.
  rewrite E in Hv. by apply elem_of_nil in Hv. }
apply bind_inv in Hr as [(sql & s2 & Hc & Hr)|(e & Hc & ->)].
2: { left. apply context_inv in Hc as (r0 & [= _ <-] & _). done. }
assert (Hsql : file_text fs (JoinPath dir name) = Ok sql /\ s2 = s1).
{ apply context_inv in Hc as (r0 & Hc & Hr0). rewrite (proj1 (Hr0 sql) eq_refl) in Hc. by injection Hc as -> ->. }
destruct Hsql as [Hsql ->]. clear Hc.
apply bind_inv in Hr as [(u & s2 & Hc & Hr)|(e & Hc & ->)];
  apply context_inv in Hc as (r0 & Hc%set_foreign_keys_same & _).
2: { left. split; [by eapply same_trans|done]. }
pose proof (same_trans _ _ _ Hs1 Hc) as Hs2. clear Hs1 Hc s1.
apply bind_inv in Hr as [(u2 & s3 & Ht & Hr)|(e & Ht & ->)]; apply apply_tx_spec in Ht as [(e' & Ht & Hsame)|(c & Ht & Hx & Hc & Hv)];
  try done.
2: { left. split; [by eapply same_trans|done]. }
assert (Hdone : applied_versions s3 = applied_versions s ++ [name] /\ exec_all fs dir [name] (content s) = Some (content s3)).
{ destruct Hs2 as [Hv2 Hc2]. split.
  - unfold applied_versions in *. rewrite Hv. cbn. by rewrite Hv2.
  - cbn. rewrite Hsql, <- Hc2, Hx. by subst. }
assert (Hfin : same_data s3 s').
{ apply bind_inv in Hr as [(u3 & s4 & Hc3 & Hr)|(e & Hc3 & ->)]; apply context_inv in Hc3 as (r3 & Hc3%set_foreign_keys_same & _); [|done].
  eapply same_trans; [exact Hc3|].
  apply bind_inv in Hr as [(v & s5 & Hc4 & Hr)|(e & Hc4 & ->)]; apply context_inv in Hc4 as (r4 & Hc4%violation_same & _); [|done].
  eapply same_trans; [exact Hc4|]. destruct v; unfold fail in Hr; by injection Hr as _ <-. }
right. split; [done|]. destruct Hfin as [Hv4 Hc4], Hdone as [Hd1 Hd2]. unfold applied_versions in *. by rewrite Hv4, Hc4.
Qed.

Lemma exec_all_app fs dir l k c c' :
exec_all fs dir l c = Some c' -> exec_all fs dir (l ++ k) c = exec_all fs dir k c'.
Proof.
revert c. induction l as [|n l IH]; intros c; cbn; [by intros [= ->]|].
destruct (file_text _ _) as [sql|]; [|done]. destruct (sql_exec sql c) as [c1|]; [|done]. apply IH.
Qed.

Lemma filter_same {A} (P Q : A -> Prop) `{!forall x, Decision (P x)} `{!forall x, Decision (Q x)} (l : list A) :
(forall x, x ∈ l -> (P x <-> Q x)) -> filter P l = filter Q l.
Proof.
induction l as [|a l IH]; intros Hpq; [done|]. rewrite !filter_cons.
assert (Ha : P a <-> Q a) by (apply Hpq; left). rewrite IH by (intros x Hx; apply Hpq; by right).
destruct (decide (P a)), (decide (Q a)); tauto.
Qed.

Lemma apply_all_spec fs dir names s r s' :
NoDup names -> apply_all fs dir names s = (r, s') ->
exists now later,
filter (fun n => n ∉ applied_versions s) names = now ++ later /\
applied_versions s' = applied_versions s ++ now /\
exec_all fs dir now (content s) = Some (content s') /\ (r = Ok tt -> later = []).
Proof.
revert s. induction names as [|n names IH]; intros s Hnd Hr; cbn [apply_all] in Hr.
{ injection Hr as <- <-. exists [], []. split_and!; [done|by rewrite app_nil_r|done|done]. }
apply NoDup_cons in Hnd as [Hn Hnd]. rewrite filter_cons.
apply bind_inv in Hr as [(u & s1 & H1 & Hr)|(e & H1 & ->)].
- destruct u. apply apply_one_spec in H1 as [[Hs Hin]|(Hni & Hv & Hx)].
  + specialize (Hin eq_refl). rewrite decide_False by tauto.
    destruct (IH s1 Hnd Hr) as (d & rest & Hf & Hv & Hx & Hok). destruct Hs as [Hsv Hsc].
    unfold applied_versions in *. rewrite Hsv in *. rewrite Hsc in Hx. by exists d, rest.
  + rewrite decide_True by done. destruct (IH s1 Hnd Hr) as (d & rest & Hf & Hv1 & Hx1 & Hok).
    exists (n :: d), rest. split_and!.
    * cbn. f_equal. rewrite <- Hf. apply filter_same. intros m Hm. rewrite Hv, elem_of_app, list_elem_of_singleton.
      split; [|tauto]. intros Hmv [?| ->]; done.
    * by rewrite Hv1, Hv, <- app_assoc.
    * change (n :: d) with ([n] ++ d). by rewrite (exec_all_app _ _ _ _ _ _ Hx).
    * done.
- apply apply_one_spec in H1 as [[[Hv Hx] _]|(Hni & Hv & Hx)].
  + eexists [], _. split_and!; [done| |cbn; by rewrite Hx|done].
    unfold applied_versions. by rewrite Hv, app_nil_r.
  + rewrite decide_True by done. eexists [n], _. split_and!; [done|done|done|done].
Qed.

Lemma migration_files_perm es :
migration_files es ≡ₚ map e_Name (filter (fun e => e_IsDir e = false /\ Ext (e_Name e) = ".sql") es).
Proof. apply merge_sort_Permutation. Qed.

(** C33. Every migration is applied exactly once, in order.  However a run of the
    migrations ends, the scripts it applied are the first of those not recorded
    yet, in byte order of their names; the database is what exactly these
    scripts make of it, one after the other, and exactly their names were
    recorded, each with its script or not at all.  A run that succeeds leaves
    none out; so a run after a failed one goes on where it stopped, and a run
    after a successful one changes nothing. *)
Theorem migrations_applied_once fs dir es s r s' :
dir_entries fs = Ok es -> NoDup (map e_Name es) -> migrate fs dir s = (r, s') ->
exists now later,
filter (fun n => n ∉ applied_versions s) (migration_files es) = now ++ later /\
applied_versions s' = applied_versions s ++ now /\
exec_all fs dir now (content s) = Some (content s') /\
filter (fun n => n ∉ applied_versions s') (migration_files es) = later /\
(r = Ok tt -> later = []).
Proof.
intros Hes Hnd. unfold migrate. intros Hr.
assert (Hfiles : NoDup (migration_files es)).
{ rewrite migration_files_perm. clear -Hnd. induction es as [|e es IH]; [done|]. cbn in Hnd.
  apply NoDup_cons in Hnd as [He Hnd]. rewrite filter_cons. case_decide; [|by apply IH]. cbn. constructor; [|by apply IH].
  intros Hin. apply He. apply list_elem_of_fmap in Hin as (x & -> & Hx). apply list_elem_of_filter in Hx as [_ Hx].
  by apply list_elem_of_fmap_2. }
assert (Hgen : forall s1, applied_versions s1 = applied_versions s -> content s1 = content s ->
  forall r1, apply_all fs dir (migration_files es) s1 = (r1, s') -> exists now later,
  filter (fun n => n ∉ applied_versions s) (migration_files es) = now ++ later /\
  applied_versions s' = applied_versions s ++ now /\ exec_all fs dir now (content s) = Some (content s') /\
  filter (fun n => n ∉ applied_versions s') (migration_files es) = later /\ (r1 = Ok tt -> later = [])).
{ intros s1 Hv Hc r1 Ha. apply apply_all_spec in Ha as (now & later & Hf & Hv' & Hx & Hok); [|done].
  rewrite Hv in Hf, Hv'. rewrite Hc in Hx. exists now, later. split_and!; [done|done|done| |done].
  assert (Hnl : NoDup (now ++ later)) by (rewrite <- Hf; by apply NoDup_filter).
  assert (E : filter (fun n => n ∉ applied_versions s') (migration_files es) =
              filter (fun n => n ∉ now) (filter (fun n => n ∉ applied_versions s) (migration_files es))).
  { rewrite list_filter_filter. apply filter_same. intros x _. rewrite Hv', elem_of_app. tauto. }
  rewrite E, Hf, filter_app. rewrite (filter_none _ now), (filter_all _ later); [done| |].
  - apply Forall_forall. intros x Hx2 Hn. apply NoDup_app in Hnl as (_ & Hd & _). by eapply Hd.
  - apply Forall_forall. intros x Hx2 Hn. by apply Hn. }
apply bind_inv in Hr as [(u & s1 & Ht & Hr)|(e & Ht & ->)]; apply context_inv in Ht as (r0 & Ht & Hr0);
  unfold create_table in Ht.
- assert (Hs1 : applied_versions s1 = applied_versions s /\ content s1 = content s).
  { apply bind_inv in Ht as [(u1 & s2 & H1%statement_same & H2)|(e & H1%statement_same & _)].
    - unfold modify in H2. injection H2 as _ <-. destruct H1 as [H1 H2]. unfold applied_versions. cbn. by rewrite H1.
    - unfold applied_versions. by destruct H1 as [-> ->]. }
  destruct Hs1 as [Hv Hc]. apply bind_inv in Hr as [(es' & s2 & Hl & Hr)|(e & Hl & ->)];
    apply context_inv in Hl as (r1 & Hl & Hr1); unfold lift in Hl; injection Hl as <- <-.
  + assert (es' = es) as -> by (specialize (proj1 (Hr1 es') eq_refl); congruence).
    by apply (Hgen s1 Hv Hc).
  + specialize (proj2 (Hr1 es) Hes). done.
- assert (Hs1 : same_data s s').
  { apply bind_inv in Ht as [(u1 & s2 & H1%statement_same & H2)|(e' & H1%statement_same & _)]; [|done].
    unfold modify in H2. injection H2 as <- _. by specialize (proj2 (Hr0 tt) eq_refl). }
  destruct Hs1 as [Hv Hc]. eexists [], _. unfold applied_versions. rewrite Hv, Hc.
  split_and!; [done|by rewrite app_nil_r|done|done|done].
Qed.
End Migrate.

(** * A directory of three migrations *)

(** The content is the list of scripts executed; one script makes a foreign key
    dangle. *)
#[local] Instance script_env : SqlEnv (list string) := {|
  sql_exec := fun sql c => Ok (c ++ [sql]);
  fk_violated := fun c => bool_decide ("DROP TABLE device" ∈ c)
|}.
Definition sample_entries : list Entry :=
  [mkEntry "0002_points.sql" false; mkEntry "README.md" false; mkEntry "0001_init.sql" false; mkEntry "old.sql" true].
Definition sample_files : Files :=
  mkFiles (Ok sample_entries) (fun p => Ok (if decide (p = "migrations/0002_points.sql") then "DROP TABLE device" else "CREATE")).
(** The second script's transaction fails to begin. *)
Definition sample_db : Db (list string) := mkDb None [] true (replicate 11 false ++ [true]).

Lemma migrations_applied_once_witness :
  let s' := (migrate sample_files "migrations" sample_db).2 in
  NoDup (map e_Name sample_entries) /\
  (exists now later,
   filter (fun n => n ∉ []) (migration_files sample_entries) = now ++ later /\
   applied_versions s' = [] ++ now /\ exec_all sample_files "migrations" now [] = Some (content s') /\
   filter (fun n => n ∉ applied_versions s') (migration_files sample_entries) = later /\
   ((migrate sample_files "migrations" sample_db).1 = Ok tt -> later = [])) /\
  applied_versions s' = ["0001_init.sql"].
Proof.
  cbv zeta. assert (Hnd : NoDup (map e_Name sample_entries)) by (apply (bool_decide_unpack _); by vm_compute).
  split; [exact Hnd|]. split; [|by vm_compute].
  destruct (migrate sample_files "migrations" sample_db) as [r s'] eqn:E.
  exact (migrations_applied_once sample_files "migrations" sample_entries sample_db r s' eq_refl Hnd E).
Defined.

(** A migration that leaves a dangling foreign key stops this start, and only
    this one: it is recorded by then, and the next start passes over it. *)
Example violation_reported_once :
  let s0 := mkDb None [] true [] in
  let '(r1, s1) := migrate sample_files "migrations" s0 in
  let '(r2, s2) := migrate sample_files "migrations" s1 in
  r1 = Err "migration 0002_points.sql introduced a foreign key violation" /\
  r2 = Ok tt /\ content s2 = content s1 /\ fk_violated (content s2) = true.
Proof. by vm_compute. Qed.
