(* ===== verification/Influx.v ===== *)
(** The reference server's InfluxDB backend (cmd/server-demo/influx.go): the
    line protocol it writes, and the calls that write it and keep the bucket.

    InfluxDB is a parameter ([do]); what its documentation says of the line
    protocol is the reader [parse_all], against which the writer is proved.
    [strconv.FormatFloat] is a parameter whose text holds no separator. *)

From Stdlib Require Import Ascii.
From S2P Require Import Prelude.
From S2P Require Import GoTime.
From S2P Require Import GoStrings.
From S2P Require Import GoText.
From S2P Require Import Wire.
From S2P Require Import ServerStore.
From S2P Require Import ServerSettings.

Local Open Scope string_scope.
Local Open Scope list_scope.
Local Open Scope Z_scope.

Definition quote : ascii := "034"%char.
Definition backslash : ascii := "\"%char.
Definition newline : ascii := "010"%char.

(** * Escaping *)

Definition replace_byte (f : ascii -> list ascii) (s : string) : list ascii := concat (map f (bytes_of s)).

(** [tagEscaper] and [fieldStringEscaper]. *)
Definition tag_byte (a : ascii) : list ascii :=
  if decide (a ∈ [","; "="; " "]%char) then [backslash; a] else [a].
Definition escapeTag (s : string) : list ascii := replace_byte tag_byte s.

Definition field_byte (a : ascii) : list ascii :=
  if decide (a = backslash \/ a = quote) then [backslash; a]
  else if decide (a = newline \/ a = "013"%char) then [" "%char] else [a].
Definition escapeFieldString (s : string) : list ascii := replace_byte field_byte s.

(** * The lines *)

Class LineEnv := {
  format_float : Z -> string;
  format_float_plain v : lacks "," (format_float v)
}.

(** [chunk %d: bad ts %q]. *)
Inductive line_error := BadTs (seq : Z) (ts : string).

Definition int_text (z : Z) : list ascii := bytes_of (Itoa z).
Definition quoted (s : list ascii) : list ascii := quote :: s ++ [quote].

Section Lines.
Context `{LineEnv}.

Definition reading_line (gw stream : list ascii) (seq : Z) (r : WireReading) (ms : Z) : list ascii :=
bytes_of "reading,gateway_id=" ++ gw ++ bytes_of ",device_id=" ++ int_text (wr_DeviceID r)
++ bytes_of ",datapoint_id=" ++ int_text (wr_DatapointID r) ++ [" "%char]
++ (match wr_Value r with Some v => bytes_of "value=" ++ bytes_of (format_float v) ++ [","%char] | None => [] end)
++ bytes_of "quality=" ++ quoted (escapeFieldString (wr_Quality r))
++ bytes_of ",seq=" ++ int_text seq
++ bytes_of "i,stream_id=" ++ quoted stream ++ [" "%char] ++ int_text ms ++ [newline].

Fixpoint reading_lines (gw stream : list ascii) (seq : Z) (rs : list WireReading) : result line_error (list ascii) :=
match rs with
| [] => Ok []
| r :: rs =>
  match parse_time (wr_Timestamp r) with
  | None => Err (BadTs seq (wr_Timestamp r))
  | Some t => rest ← reading_lines gw stream seq rs; mret (reading_line gw stream seq r (t / 1000000) ++ rest)
  end
end.

Fixpoint chunk_lines (gw stream : list ascii) (cs : list WireChunk) : result line_error (list ascii) :=
match cs with
| [] => Ok []
| c :: cs =>
  ls ← reading_lines gw stream (wc_Seq c) (wc_Readings c);
  rest ← chunk_lines gw stream cs;
  mret (ls ++ rest)
end.

Definition lineProtocol (gatewayID streamID : string) (chunks : list WireChunk) : result line_error (list ascii) :=
chunk_lines (escapeTag gatewayID) (escapeFieldString streamID) chunks.

(** [writeGap]'s and [writeMeta]'s lines. *)
Definition gap_line (g : gap) : list ascii :=
bytes_of "gap,gateway_id=" ++ escapeTag (gp_GatewayID g) ++ bytes_of " from_seq=" ++ int_text (gp_FromSeq g)
++ bytes_of "i,to_seq=" ++ int_text (gp_ToSeq g) ++ bytes_of "i,chunks=" ++ int_text (Int.i64 (gp_ToSeq g - gp_FromSeq g + 1))
++ bytes_of "i,stream_id=" ++ quoted (escapeFieldString (gp_StreamID g)) ++ [" "%char]
++ int_text (gp_At g / 1000000) ++ [newline].

Definition meta_line (now_ms : Z) (d : DatapointName) : list ascii :=
bytes_of "datapoint_meta,gateway_id=" ++ escapeTag (dn_GatewayID d) ++ bytes_of ",device_id=" ++ int_text (dn_DeviceID d)
++ bytes_of ",datapoint_id=" ++ int_text (dn_DatapointID d)
++ bytes_of " name=" ++ quoted (escapeFieldString (dn_Name d)) ++ bytes_of ",unit=" ++ quoted (escapeFieldString (dn_Unit d))
++ [" "%char] ++ int_text now_ms ++ [newline].
Definition meta_lines (now_ms : Z) (dps : list DatapointName) : list ascii := concat (map (meta_line now_ms) dps).
End Lines.

(** * The client *)

(** What InfluxDB answers to a request: an HTTP status and, for the two
    queries, the ids it lists; [None] when the request fails without one. *)
Inductive influx_error := Status (code : Z) | Transport (text : string).
Inductive request :=
| Write (bucket : string) (body : list ascii)
| FindBucket (name : string)
| FindOrg
| PatchBucket (id : string) (everySeconds : option Z)
| CreateBucket (orgID name : string) (everySeconds : option Z).

Class InfluxHTTP (W : Type) := { do : request -> W -> result influx_error (list string) * W }.

Record influxWriter (W : Type) := mkInflux { lastErr : option influx_error; iworld : W }.
Arguments mkInflux {W}.
Arguments lastErr {W}.
Arguments iworld {W}.

Inductive influx_failure := LineFailed (e : line_error) | RequestFailed (e : influx_error) | OrgNotFound.

Section Client.
Context {W : Type} `{InfluxHTTP W} `{LineEnv}.

Definition call (r : request) : M influx_failure (influxWriter W) (list string) :=
fun w => let '(a, wd) := do r (iworld w) in (map_err RequestFailed a, mkInflux (lastErr w) wd).

(** [writeLines]: an empty body is not sent; [lastErr] follows the outcome. *)
Definition writeLines (bucket : string) (body : list ascii) (w : influxWriter W) : result influx_failure unit * influxWriter W :=
if decide (body = []) then (Ok tt, w)
else
  let '(a, wd) := do (Write bucket body) (iworld w) in
  (match a with Ok _ => Ok tt | Err e => Err (RequestFailed e) end, mkInflux (err_of a) wd).

Definition writeChunks (bucket gatewayID streamID : string) (chunks : list WireChunk) (w : influxWriter W) :
  result influx_failure unit * influxWriter W :=
match lineProtocol gatewayID streamID chunks with
| Err e => (Err (LineFailed e), w)
| Ok body => writeLines bucket body w
end.
Definition writeGap (bucket : string) (g : gap) : influxWriter W -> result influx_failure unit * influxWriter W :=
writeLines bucket (gap_line g).
Definition writeMeta (bucket : string) (now_ms : Z) (dps : list DatapointName) :
  influxWriter W -> result influx_failure unit * influxWriter W :=
writeLines bucket (meta_lines now_ms dps).

Definition isNotFound (e : influx_error) : bool := match e with Status c => c =? 404 | Transport _ => false end.

Definition retention (days : Z) : option Z := if 0 <? days then Some (days * 86400) else None.

(** The second half of [ensureBucket]: the bucket does not exist. *)
Definition create_bucket (bucket : string) (retentionDays : Z) : M influx_failure (influxWriter W) unit :=
orgs ← call FindOrg;
match orgs with
| [] => fail OrgNotFound
| org :: _ => _ ← call (CreateBucket org bucket (retention retentionDays)); mret tt
end.

(** [ensureBucket]: patch the bucket if it exists, else create it in the
    organisation. *)
Definition ensureBucket (bucket : string) (retentionDays : Z) : M influx_failure (influxWriter W) unit :=
fun w =>
match call (FindBucket bucket) w with
| (Ok (id :: _), w) => (_ ← call (PatchBucket id (retention retentionDays)); mret tt) w
| (Ok [], w) => create_bucket bucket retentionDays w
| (Err (RequestFailed e), w) => if isNotFound e then create_bucket bucket retentionDays w else (Err (RequestFailed e), w)
| (Err e, w) => (Err e, w)
end.
End Client.

(** * Reading the line protocol *)

Definition lit (l : list ascii) (s : list ascii) : option (list ascii) :=
  if decide (l `prefix_of` s) then Some (drop (length l) s) else None.

(** A tag value: a backslash escapes a comma, an equals sign or a space and is
    itself otherwise; an unescaped comma, space or line end closes it. *)
Fixpoint read_tag (s : list ascii) : list ascii * list ascii :=
  match s with
  | [] => ([], [])
  | a :: r =>
    if decide (a = backslash) then
      match r with
      | c :: r' =>
        if decide (c ∈ [","; "="; " "]%char) then let '(v, rest) := read_tag r' in (c :: v, rest)
        else let '(v, rest) := read_tag r in (a :: v, rest)
      | [] => ([a], [])
      end
    else if decide (a ∈ [","%char; " "%char; newline]) then ([], s)
    else let '(v, rest) := read_tag r in (a :: v, rest)
  end.

(** A string field after its opening quote, up to the closing one. *)
Fixpoint read_string (s : list ascii) : option (list ascii * list ascii) :=
  match s with
  | [] => None
  | a :: r =>
    if decide (a = quote) then Some ([], r)
    else if decide (a = backslash) then
      match r with
      | c :: r' =>
        if decide (c = quote \/ c = backslash) then '(v, rest) ← read_string r'; Some (c :: v, rest)
        else '(v, rest) ← read_string r; Some (a :: v, rest)
      | [] => None
      end
    else '(v, rest) ← read_string r; Some (a :: v, rest)
  end.

(** A point of the measurement [reading], numbers as texts. *)
Record point := mkPoint {
  pt_gateway : list ascii;
  pt_device : list ascii;
  pt_datapoint : list ascii;
  pt_value : option (list ascii);
  pt_quality : list ascii;
  pt_seq : list ascii;
  pt_stream : list ascii;
  pt_time : list ascii
}.

(** The optional first field. *)
Definition parse_value (s : list ascii) : option (option (list ascii) * list ascii) :=
  match lit (bytes_of "value=") s with
  | Some s => '(v, s) ← cut_at "," s; Some (Some v, s)
  | None => Some (None, s)
  end.

(** Quality, seq, stream and timestamp, to the end of the line. *)
Definition parse_tail (s : list ascii) : option (list ascii * list ascii * list ascii * list ascii * list ascii) :=
  s ← lit (bytes_of "quality=" ++ [quote]) s;
  '(q, s) ← read_string s;
  s ← lit (bytes_of ",seq=") s;
  '(sq, s) ← cut_at "i" s;
  s ← lit (bytes_of ",stream_id=" ++ [quote]) s;
  '(st, s) ← read_string s;
  s ← lit [" "%char] s;
  '(t, s) ← cut_at newline s;
  Some (q, sq, st, t, s).

Definition parse_reading (s : list ascii) : option (point * list ascii) :=
  s ← lit (bytes_of "reading,gateway_id=") s;
  let '(g, s) := read_tag s in
  s ← lit (bytes_of ",device_id=") s;
  '(dev, s) ← cut_at "," s;
  s ← lit (bytes_of "datapoint_id=") s;
  '(dp, s) ← cut_at " " s;
  '(v, s) ← parse_value s;
  '(q, sq, st, t, s) ← parse_tail s;
  Some (mkPoint g dev dp v q sq st t, s).

Fixpoint parse_all (fuel : nat) (s : list ascii) : option (list point) :=
  match s, fuel with
  | [], _ => Some []
  | _, O => None
  | _, S k => '(p, s) ← parse_reading s; ps ← parse_all k s; Some (p :: ps)
  end.
