(* ===== verification/InfluxProps.v ===== *)
(** What InfluxDB reads of the lines the reference server writes, and how the
    bucket is kept. *)

From Stdlib Require Import Ascii.
From S2P Require Import Prelude.
From S2P Require Import GoTime.
From S2P Require Import GoStrings.
From S2P Require Import GoText.
From S2P Require Import Wire.
From S2P Require Import ServerStore.
From S2P Require Import ServerSettings.
From S2P Require Import Influx.

Local Open Scope string_scope.
Local Open Scope list_scope.
Local Open Scope Z_scope.

Lemma lit_app l s : lit l (l ++ s) = Some s.
Proof. unfold lit. rewrite decide_True by (by exists s). by rewrite drop_app_length. Qed.

Lemma replace_byte_cons f a s : replace_byte f (String a s) = f a ++ replace_byte f s.
Proof. done. Qed.

(** ** Unescaping *)

Definition stops (s : list ascii) : Prop :=
  match s with a :: _ => a = ","%char \/ a = " "%char \/ a = newline | [] => True end.

Lemma read_tag_stop s : stops s -> read_tag s = ([], s).
Proof. destruct s as [|a s]; [done|]. by intros [-> | [-> | ->]]. Qed.

Lemma read_tag_escape s r :
  lacks backslash s -> lacks newline s -> stops r -> read_tag (escapeTag s ++ r) = (bytes_of s, r).
Proof.
  intros Hb Hn Hr. unfold escapeTag. induction s as [|a s IH]; [by apply read_tag_stop|].
  rewrite replace_byte_cons, <- app_assoc. unfold lacks in *. change (bytes_of (String a s)) with (a :: bytes_of s) in *.
  apply not_elem_of_cons in Hb as [Hab Hb], Hn as [Han Hn]. specialize (IH Hb Hn).
  assert (E : tag_byte a = if decide (a ∈ [","; "="; " "]%char) then [backslash; a] else [a]) by done. rewrite E. clear E.
  destruct (decide (a ∈ [","; "="; " "]%char)) as [Ha|Ha].
  - cbn [app read_tag]. rewrite decide_True by done. rewrite decide_True by done. by rewrite IH.
  - cbn [app read_tag]. rewrite decide_False by done. rewrite decide_False; [by rewrite IH|].
    intros Hin. apply elem_of_cons in Hin as [->|Hin]; [by destruct Ha; left|].
    apply elem_of_cons in Hin as [->|Hin]; [by destruct Ha; right; right; left|].
    apply list_elem_of_singleton in Hin. by subst.
Qed.

(** A string field keeps its text, line ends turned into spaces. *)
Definition field_text (s : string) : list ascii :=
  map (fun a => if decide (a = newline \/ a = "013"%char) then " "%char else a) (bytes_of s).

Lemma read_string_escape s r : read_string (escapeFieldString s ++ quote :: r) = Some (field_text s, r).
Proof.
  unfold escapeFieldString, field_text. induction s as [|a s IH]; [done|].
  rewrite replace_byte_cons, <- app_assoc. change (bytes_of (String a s)) with (a :: bytes_of s). cbn [map].
  assert (E : field_byte a = if decide (a = backslash \/ a = quote) then [backslash; a]
    else if decide (a = newline \/ a = "013"%char) then [" "%char] else [a]) by done. rewrite E. clear E.
  destruct (decide (a = backslash \/ a = quote)) as [Ha|Ha].
  - cbn [app read_string]. rewrite (decide_False (P := backslash = quote)) by done.
    rewrite (decide_True (P := backslash = backslash)) by done. rewrite decide_True by tauto.
    rewrite IH. cbn [mbind option_bind]. rewrite decide_False by (destruct Ha as [-> | ->]; by intros [?|?]). done.
  - destruct (decide (a = newline \/ a = "013"%char)) as [Hn|Hn].
    + cbn [app read_string]. do 2 rewrite decide_False by done. by rewrite IH.
    + cbn [app read_string]. do 2 rewrite decide_False by tauto. by rewrite IH.
Qed.

Lemma cut_int c z r : lacks c (Itoa z) -> cut_at c (int_text z ++ c :: r) = Some (int_text z, r).
Proof. intros Hl. by apply cut_at_app. Qed.

Section RoundTrip.
Context `{LineEnv}.

(** The point a reading is. *)
Definition point_of (gw stream : string) (seq : Z) (r : WireReading) (ms : Z) : point :=
mkPoint (bytes_of gw) (int_text (wr_DeviceID r)) (int_text (wr_DatapointID r))
  ((fun v => bytes_of (format_float v)) <$> wr_Value r) (field_text (wr_Quality r)) (int_text seq) (field_text stream)
  (int_text ms).
Definition reading_points (gw stream : string) (seq : Z) (rs : list WireReading) : list point :=
omap (fun r => (fun t => point_of gw stream seq r (t / 1000000)) <$> parse_time (wr_Timestamp r)) rs.
Definition chunk_points (gw stream : string) (cs : list WireChunk) : list point :=
concat (map (fun c => reading_points gw stream (wc_Seq c) (wc_Readings c)) cs).

(** A tag InfluxDB reads back. *)
Definition plain_tag (s : string) : Prop := lacks backslash s /\ lacks newline s.

(** A literal that ends in the opening quote. *)
Lemma lit_quote l s : lit (l ++ [quote]) (l ++ quote :: s) = Some s.
Proof. change (quote :: s) with ([quote] ++ s). by rewrite app_assoc, lit_app. Qed.

Lemma parse_tail_line q seq stream ms rest :
parse_tail (bytes_of "quality=" ++ quoted (escapeFieldString q) ++ bytes_of ",seq=" ++ int_text seq
  ++ bytes_of "i,stream_id=" ++ quoted (escapeFieldString stream) ++ [" "%char] ++ int_text ms ++ [newline] ++ rest) =
Some (field_text q, int_text seq, field_text stream, int_text ms, rest).
Proof.
unfold parse_tail, quoted. cbn [app]. rewrite <- !app_assoc. cbn [app]. rewrite lit_quote. cbn [mbind option_bind].
rewrite read_string_escape. cbn [mbind option_bind]. rewrite lit_app. cbn [mbind option_bind].
change (bytes_of "i,stream_id=" ++ ?x) with ("i"%char :: (bytes_of ",stream_id=" ++ x)).
rewrite cut_int by (by apply Itoa_lacks). cbn [mbind option_bind]. rewrite lit_quote. cbn [mbind option_bind].
rewrite read_string_escape. cbn [mbind option_bind]. change (" "%char :: ?x) with ([" "%char] ++ x).
rewrite lit_app. cbn [mbind option_bind]. by rewrite cut_int by (by apply Itoa_lacks).
Qed.

Lemma parse_value_line v rest :
lit (bytes_of "value=") rest = None ->
parse_value ((match v with Some v => bytes_of "value=" ++ bytes_of (format_float v) ++ [","%char] | None => [] end) ++ rest) =
Some ((fun v => bytes_of (format_float v)) <$> v, rest).
Proof.
intros Hr. unfold parse_value. destruct v as [v|]; cbn [app].
- rewrite <- !app_assoc, lit_app. cbn [app]. by rewrite cut_at_app by apply format_float_plain.
- by rewrite Hr.
Qed.

Lemma parse_reading_line gw stream seq r ms rest :
plain_tag gw ->
parse_reading (reading_line (escapeTag gw) (escapeFieldString stream) seq r ms ++ rest) =
Some (point_of gw stream seq r ms, rest).
Proof.
intros [Hb Hn]. unfold reading_line. rewrite <- !app_assoc. set (tail := bytes_of "quality=" ++ _).
assert (Htail : parse_tail tail = Some (field_text (wr_Quality r), int_text seq, field_text stream, int_text ms, rest))
  by apply parse_tail_line.
assert (Hlit : lit (bytes_of "value=") tail = None)
  by (unfold lit; rewrite decide_False; [done|by intros [k [=]]]).
clearbody tail. unfold parse_reading. rewrite lit_app. cbn [mbind option_bind].
rewrite read_tag_escape by (done || by left). rewrite lit_app. cbn [mbind option_bind].
change (bytes_of ",datapoint_id=" ++ ?x) with (","%char :: (bytes_of "datapoint_id=" ++ x)).
rewrite cut_int by (by apply Itoa_lacks). cbn [mbind option_bind]. rewrite lit_app. cbn [mbind option_bind].
change ([" "%char] ++ ?x) with (" "%char :: x).
rewrite cut_int by (by apply Itoa_lacks). cbn [mbind option_bind].
rewrite parse_value_line by done. cbn [mbind option_bind]. by rewrite Htail.
Qed.

Lemma reading_line_length gw stream seq r ms : (0 < length (reading_line gw stream seq r ms))%nat.
Proof. unfold reading_line. rewrite length_app. cbn. lia. Qed.

Lemma parse_all_cons k p s rest : s <> [] -> parse_reading s = Some (p, rest) ->
parse_all (S k) s = ps ← parse_all k rest; Some (p :: ps).
Proof. destruct s as [|a s]; [done|]. intros _ Hp. cbn [parse_all]. by rewrite Hp. Qed.

Lemma reading_lines_parse gw stream seq rs body rest fuel ps :
plain_tag gw -> reading_lines (escapeTag gw) (escapeFieldString stream) seq rs = Ok body ->
parse_all fuel rest = Some ps ->
parse_all (length body + fuel) (body ++ rest) = Some (reading_points gw stream seq rs ++ ps).
Proof.
intros Hgw. revert body. induction rs as [|r rs IH]; intros body; cbn [reading_lines].
{ by intros [= <-]. }
destruct (parse_time (wr_Timestamp r)) as [t|] eqn:Et; [|done].
destruct (reading_lines _ _ seq rs) as [b|e]; res_simpl; [|done]. intros Hbody Hrest.
remember (reading_line (escapeTag gw) (escapeFieldString stream) seq r (t / 1000000)) as l eqn:Hl.
injection Hbody as <-. rewrite <- app_assoc, length_app.
pose proof (reading_line_length (escapeTag gw) (escapeFieldString stream) seq r (t / 1000000)) as Hpos.
rewrite <- Hl in Hpos.
assert (Hmore : forall k s ps, parse_all k s = Some ps -> forall j, parse_all (j + k) s = Some ps).
{ clear. induction k as [|k IH]; intros s ps Hp j; [destruct s; [by destruct (j + 0)%nat|done]|].
  rewrite Nat.add_succ_r. destruct s as [|a s]; [done|]. cbn [parse_all] in *.
  destruct (parse_reading (a :: s)) as [[p s']|]; [|done]. cbn [mbind option_bind] in *.
  destruct (parse_all k s') as [ps'|] eqn:E; [|done]. by rewrite (IH _ _ E). }
replace (length l + length b + fuel)%nat with (S (length l - 1 + (length b + fuel))) by lia.
rewrite (parse_all_cons _ (point_of gw stream seq r (t / 1000000)) _ (b ++ rest)).
- rewrite (Hmore _ _ _ (IH b eq_refl Hrest)). unfold reading_points. cbn [omap list_omap]. by rewrite Et.
- intros E. apply app_eq_nil in E as [E _]. rewrite E in Hpos. cbn in Hpos. lia.
- rewrite Hl. by apply parse_reading_line.
Qed.

(** C36. InfluxDB reads back exactly the readings.  Whenever lineProtocol succeeds,
    for a gateway id without backslash and line end, a reader of the line
    protocol finds in its text one point per reading, in order, with the ids,
    the value (none for a failed read), the seq, the time to the millisecond
    and the quality and stream id with line ends turned into spaces, whatever
    commas, quotes, spaces or equals signs they hold. *)
Theorem line_protocol_round_trip gw stream cs body :
plain_tag gw -> lineProtocol gw stream cs = Ok body ->
parse_all (length body) body = Some (chunk_points gw stream cs).
Proof.
intros Hgw. unfold lineProtocol, chunk_points. revert body. induction cs as [|c cs IH]; intros body; cbn [chunk_lines].
{ by intros [= <-]. }
destruct (reading_lines _ _ (wc_Seq c) (wc_Readings c)) as [ls|e] eqn:E; res_simpl; [|done].
destruct (chunk_lines _ _ cs) as [rest|e]; res_simpl; [|done]. intros [= <-]. rewrite length_app. cbn [map concat]. by eapply reading_lines_parse; [| |apply IH].
Qed.

(** A bad timestamp anywhere stops the whole message. *)
Lemma lineProtocol_error gw stream cs :
(exists body, lineProtocol gw stream cs = Ok body) <->
Forall (fun c => Forall (fun r => is_Some (parse_time (wr_Timestamp r))) (wc_Readings c)) cs.
Proof.
assert (Hr : forall g st q rs, (exists b, reading_lines g st q rs = Ok b) <->
             Forall (fun r => is_Some (parse_time (wr_Timestamp r))) rs).
{ intros g st q rs. induction rs as [|r rs IH]; cbn [reading_lines]; [split; [done|by eexists]|].
  rewrite Forall_cons, <- IH. destruct (parse_time (wr_Timestamp r)) as [t|].
  - destruct (reading_lines g st q rs) as [b|e]; res_simpl; split; try (by intros [? ?]); try (by intros [? [? ?]]).
    + intros _. split; by eexists.
    + intros _. by eexists.
  - split; [by intros [? ?]|by intros [[? ?] _]]. }
unfold lineProtocol. induction cs as [|c cs IH]; cbn [chunk_lines]; [split; [done|by eexists]|].
rewrite Forall_cons, <- IH, <- (Hr (escapeTag gw) (escapeFieldString stream) (wc_Seq c)).
destruct (reading_lines _ _ (wc_Seq c) (wc_Readings c)) as [ls|e]; res_simpl.
- destruct (chunk_lines _ _ cs) as [b|e]; res_simpl; split; try (by intros [? ?]); try (by intros [? [? ?]]).
  + intros _. split; by eexists.
  + intros _. by eexists.
- split; [by intros [? ?]|by intros [[? ?] _]].
Qed.
End RoundTrip.

(** * The bucket *)

Section Bucket.
Context {W : Type} `{InfluxHTTP W}.

Lemma call_inv r w ids w' :
call r w = (Ok ids, w') -> do r (iworld w) = (Ok ids, iworld w') /\ lastErr w' = lastErr w.
Proof. unfold call. destruct (do r (iworld w)) as [[x|e] wd]; cbn; [|done]. by intros [= <- <-]. Qed.

Lemma create_bucket_inv bucket days w w' :
create_bucket bucket days w = (Ok tt, w') ->
exists r id wd, do r wd = (Ok id, iworld w') /\ lastErr w' = lastErr w /\
exists org orgs, (do FindOrg (iworld w)).1 = Ok (org :: orgs) /\ r = CreateBucket org bucket (retention days).
Proof.
unfold create_bucket. intros [(orgs & w1 & [Hf Hl]%call_inv & Hr)|(e & _ & ?)]%bind_inv; [|done].
destruct orgs as [|org orgs]; [done|].
apply bind_inv in Hr as [(ids & w2 & [Hc Hl2]%call_inv & [= <-])|(e & _ & ?)]; [|done].
exists (CreateBucket org bucket (retention days)), ids, (iworld w1). split_and!; [done|congruence|].
exists org, orgs. by rewrite Hf.
Qed.

(** ensureBucket ends with the bucket there and its retention set, or says
    why not: it answers ok only when the last request was answered, and that
    request patched the bucket the server found or created it in the
    organisation it found; a failed query other than "not found" stops it. *)
Theorem ensure_bucket_sets bucket days w w' :
ensureBucket bucket days w = (Ok tt, w') ->
exists r id wd,
do r wd = (Ok id, iworld w') /\ lastErr w' = lastErr w /\
((exists b bs, (do (FindBucket bucket) (iworld w)).1 = Ok (b :: bs) /\ r = PatchBucket b (retention days)) \/
 (((do (FindBucket bucket) (iworld w)).1 = Ok [] \/ (do (FindBucket bucket) (iworld w)).1 = Err (Status 404)) /\
  exists org orgs, (do FindOrg (do (FindBucket bucket) (iworld w)).2).1 = Ok (org :: orgs) /\
  r = CreateBucket org bucket (retention days))).
Proof.
unfold ensureBucket. destruct (call (FindBucket bucket) w) as [a w1] eqn:Ef.
assert (Hf : do (FindBucket bucket) (iworld w) =
             (match a with Ok ids => Ok ids | Err (RequestFailed e) => Err e | Err _ => Err (Transport "") end, iworld w1)
             /\ lastErr w1 = lastErr w /\ (forall e, a = Err e -> exists e', e = RequestFailed e')).
{ unfold call in Ef. destruct (do (FindBucket bucket) (iworld w)) as [[ids|e] wd]; injection Ef as <- <-;
    (split_and!; [done|done|]); [done|]. intros e' [= <-]. by exists e. }
destruct Hf as (Hf & Hl & He). rewrite Hf. cbn [fst snd].
assert (Hc : create_bucket bucket days w1 = (Ok tt, w') -> exists r id wd, do r wd = (Ok id, iworld w') /\
  lastErr w' = lastErr w /\ exists org orgs, (do FindOrg (iworld w1)).1 = Ok (org :: orgs) /\
  r = CreateBucket org bucket (retention days)).
{ intros (r & id & wd & ? & Hl' & ?)%create_bucket_inv. exists r, id, wd. by rewrite Hl', Hl. }
destruct a as [[|b bs]|e].
- intros (r & id & wd & ? & ? & ?)%Hc. exists r, id, wd. split_and!; [done|done|]. right. by split; [left|].
- intros [(ids & w2 & [Hp Hl2]%call_inv & [= <-])|(e & _ & ?)]%bind_inv; [|done].
  exists (PatchBucket b (retention days)), ids, (iworld w1). split_and!; [done|congruence|]. left. by exists b, bs.
- destruct (He e eq_refl) as [e' ->]. destruct (isNotFound e') eqn:En; [|done].
  assert (e' = Status 404) as -> by (destruct e' as [c|]; [|done]; cbn in En; apply Z.eqb_eq in En; by subst).
  intros (r & id & wd & ? & ? & ?)%Hc. exists r, id, wd. split_and!; [done|done|]. right. by split; [right|].
Qed.
End Bucket.

(** * A message and a database *)

#[local] Instance line_env : LineEnv := {
  format_float := Itoa;
  format_float_plain := fun v => Itoa_lacks "," v eq_refl ltac:(done)
}.

Definition sample_chunk : WireChunk :=
  mkWireChunk 7 [mkWireReading 1 2 "2026-01-02T03:04:05.678Z" (Some 21) "GOOD";
                 mkWireReading 1 3 "2026-01-02T03:04:05.678Z" None "DEVICE, offline"].
Definition sample_body : list ascii :=
  match lineProtocol "plant a,b=1" "stream" [sample_chunk] with Ok b => b | Err _ => [] end.

Lemma line_protocol_round_trip_witness :
  plain_tag "plant a,b=1" /\ lineProtocol "plant a,b=1" "stream" [sample_chunk] = Ok sample_body /\
  parse_all (length sample_body) sample_body = Some (chunk_points "plant a,b=1" "stream" [sample_chunk]) /\
  length (chunk_points "plant a,b=1" "stream" [sample_chunk]) = 2%nat.
Proof.
  assert (Hp : plain_tag "plant a,b=1") by (split; apply (bool_decide_unpack _); by vm_compute).
  assert (Hl : lineProtocol "plant a,b=1" "stream" [sample_chunk] = Ok sample_body) by by vm_compute.
  split; [exact Hp|]. split; [exact Hl|]. split; [|by vm_compute].
  exact (line_protocol_round_trip _ _ _ _ Hp Hl).
Defined.

(** A gateway id that ends in a backslash takes the next tag into its value. *)
Example trailing_backslash :
  match lineProtocol "gw\" "stream" [sample_chunk] with
  | Ok body => parse_all (length body) body = None /\
               (read_tag (drop 19 body)).1 = bytes_of "gw,device_id=1"
  | Err _ => False
  end.
Proof. by vm_compute. Qed.

(** A database without the bucket, in one organisation. *)
#[local] Instance fresh_influx : InfluxHTTP (list request) := {|
  do := fun r w =>
    (match r with
     | FindBucket _ => Err (Status 404)
     | FindOrg => Ok ["org-1"]
     | _ => Ok []
     end, w ++ [r])
|}.

Lemma ensure_bucket_sets_witness :
  let w' := (ensureBucket "gateway" 30 (mkInflux None [])).2 in
  exists r id wd, do r wd = (Ok id, iworld w') /\ lastErr w' = None /\
  ((exists b bs, (do (FindBucket "gateway") ([] : list request)).1 = Ok (b :: bs) /\ r = PatchBucket b (retention 30)) \/
   (((do (FindBucket "gateway") ([] : list request)).1 = Ok [] \/
     (do (FindBucket "gateway") ([] : list request)).1 = Err (Status 404)) /\
    exists org orgs, (do FindOrg (do (FindBucket "gateway") ([] : list request)).2).1 = Ok (org :: orgs) /\
    r = CreateBucket org "gateway" (retention 30))).
Proof.
  apply (ensure_bucket_sets "gateway" 30 (mkInflux None [])). by vm_compute.
Defined.
