(* ===== verification/Gateway.v ===== *)
(** The gateway process (cmd/gateway: main.go, adapter.go; storage/diskusage.go):
    the environment's overrides, what the parts are configured with, the order
    in which they are opened and the errors that end the process, the callbacks
    that join polling to the stores, the return of the HTTP listener, and the
    shutdown.  Seeding demo data (SEED_DEMO_DEVICE) is in file Schema. *)

From S2P Require Import Prelude.
From S2P Require Import GoTime.
From S2P Require Import Float64.
From S2P Require Import GoStrings.
From S2P Require Import GoText.
From S2P Require Import Codec.
From S2P Require Import QueueDb.
From S2P Require Import QueueStore.
From S2P Require Import Forwarder.
From S2P Require Import Transports.
From S2P Require Import Inventory.
From S2P Require Import Observers.
From S2P Require Import Manager.
From S2P Require Import TimeService.
From S2P Require Import Migrate.
From S2P Require Import Config.
From S2P Require Import SettingsApi.

Local Open Scope string_scope.
Local Open Scope list_scope.
Local Open Scope Z_scope.

(** * Disk statistics (diskusage.go) *)

(** gopsutil's [disk.Usage]: used and free bytes and the used percentage of the
    volume of a directory, at a moment. *)
Class DiskEnv := { disk_Usage : string -> nat -> result string (Z * Z * f64) }.

Definition DiskUsagePercent `{DiskEnv} (dbPath : string) (t : nat) : result string f64 :=
  '(_, _, pct) ← disk_Usage (Dir dbPath) t; mret pct.
Definition DiskUsage `{DiskEnv} (path : string) (t : nat) : result string (Z * Z) :=
  '(used, free, _) ← disk_Usage (Dir path) t; mret (used, Int.u64 (used + free)).

(** * Configuration of the parts (main.go) *)

(** Environment variables that replace a setting when they are not empty. *)
Definition override (getenv : string -> string) (name v : string) : string :=
  if decide (getenv name = "") then v else getenv name.

Definition overrides (getenv : string -> string) (c : Config) : Config :=
  let f := Forwarder c in let m := MQTT c in let t := Time c in
  mkConfig (Gateway c) (API c) (Database c) (Queue c) (StoreForward c)
    (mkForwarderConfig (override getenv "FORWARDER_TRANSPORT" (Transport f))
       (override getenv "FORWARDER_SERVER_URL" (ServerURL f))
       (MaxReadingsPerMessage f) (PollIntervalMs f) (SendTimeoutMs f))
    (Log c)
    (mkMQTT (override getenv "MQTT_BROKER_URL" (BrokerURL m)) (ClientID m) (Username m) (Password m) (QoS m)
       (DataTopic m) (AckTopic m) (KeepAliveSec m) (ConnectTimeoutMs m) (PublishTimeoutMs m) (AckTimeoutMs m) (TLS m))
    (mkTimeConfig (override getenv "NTP_SERVER" (NTPServer t)) (Timezone t) (SyncIntervalSec t) (QueryTimeoutMs t)
       (RTCDevice t)).

(** [time.Duration(n) * time.Millisecond] and [* time.Second]. *)
Definition ms (n : Z) : Z := Int.i64 (n * millisecond).
Definition sec (n : Z) : Z := Int.i64 (n * second).

Definition queue_options `{DiskEnv} (c : Config) : Options :=
  let q := Queue c in
  mkOptions (q_MaxBytes q) (q_MinFreePercent q) (ms (q_FlushIntervalMs q)) (sec (q_MaintenanceIntervalSec q)) 0
    (Some (DiskUsage (q_Path q))).

Definition time_config (c : Config) : TimeService.Config :=
  let t := Time c in
  TimeService.mkConfig (NTPServer t) (sec (SyncIntervalSec t)) (ms (QueryTimeoutMs t)) (RTCDevice t).

Definition forwarder_config (c : Config) : Forwarder.Config :=
  Forwarder.mkConfig (gw_ID (Gateway c)) (MaxReadingsPerMessage (Forwarder c)) (ms (PollIntervalMs (Forwarder c))).

(** * The transport (adapter.go) *)

(** What [buildAdapter] returns: an HTTP adapter with its client's timeout, or
    an MQTT adapter with its publish and acknowledgement timeouts, connected or
    still trying in the background. *)
Inductive transport :=
| HTTPTransport (a : HTTPAdapter) (timeout : Z)
| MQTTTransport (c : MQTTAdapterConfig) (publish_timeout ack_timeout : Z) (connected : bool).

Inductive adapter_error := TLSFailed (e : string) | UnknownTransport (name : string).

Definition production_config (c : MQTTConfig) (tls : option TLSConfig) : MQTTAdapterConfig :=
  mkAdapterConfig (BrokerURL c) (ClientID c) (Username c) (Password c) (Int.u8 (QoS c)) (DataTopic c) (AckTopic c)
    (sec (KeepAliveSec c)) (ms (ConnectTimeoutMs c)) tls.

Section Build.
Context {W : Type} `{ConfigEnv W} `{TLSEnv W} `{MqttEnv W}.

Definition buildAdapter (c : Config) (w : W) : result adapter_error transport * W :=
let m := MQTT c in let f := Forwarder c in
if decide (Transport f = "" \/ Transport f = "http") then
  (Ok (HTTPTransport (mkHTTPAdapter (ServerURL f)) (ms (SendTimeoutMs f))), w)
else if decide (Transport f = "mqtt") then
  match BuildMQTTTLSConfig (TLS m) w with
  | Err e => (Err (TLSFailed ("mqtt tls config: " +:+ e)), w)
  | Ok tls =>
    let a := production_config m tls in
    let '(e, w) := mqtt_connect a (ms (ConnectTimeoutMs m)) w in
    (Ok (MQTTTransport a (ms (PublishTimeoutMs m)) (ms (AckTimeoutMs m)) (bool_decide (e = None))), w)
  end
else (Err (UnknownTransport (Transport f)), w).
End Build.

(** * The callbacks of the manager (main.go) *)

(** The reading callback looks at the shared configuration every time; without
    a queue [proc.Process] dereferences a nil store and the process dies
    ([None]). *)
Definition live_reading (c : Config) (r : Reading) (s : Sinks) : option Sinks :=
  let status' := status_Update (r_DeviceID r) (r_Quality r) (EventTimestamp r) (Observers.status s) in
  let latest' := latest_Update (r_DatapointID r)
                   (mkLatest (r_Value r) (r_Quality r) (r_Unit r) (EventTimestamp r)) (Observers.latest s) in
  if Disabled (StoreForward c) then Some (mkSinks status' latest' (Observers.queue s) (Observers.diag s))
  else match Observers.queue s with
       | None => None
       | Some q => Some (mkSinks status' latest' (Some (Process r q)) (Observers.diag s))
       end.

(** * Starting *)

Inductive exit_reason :=
| DatabaseFailed (e : string)
| QueueFailed (e : qerror)
| AdapterFailed (e : adapter_error).

Section Start.
Context {W : Type} `{ConfigEnv W} `{TLSEnv W} `{MqttEnv W} `{UrlEnv}.
Context `{SqlEnv Tables, InvEnv, Env, Flate, DiskEnv}.

(** The running process; the settings handlers and the reading callback share
    the configuration in [p_srv]. *)
Record Proc := mkProcess {
  p_srv : Srv (W := W);
  p_inv : Inv;
  p_manager : Manager;
  p_sinks : Sinks;
  p_time : TimeService.Service;
  p_forwarder : option (Forwarder.Config * transport)
}.

Inductive outcome :=
| Panicked (e : string)
| Exited (e : exit_reason)
| Started (p : Proc).

(** The machine a process starts on: the outside world, the directories and
    files of the migrations, the configuration database, the queue's database
    file, and the clock. *)
Record Machine := mkMachine {
  m_world : W;
  m_mkdir : string -> option string;
  m_files : Files;
  m_db : Migrate.Db Tables;
  m_queue : QueueDb.Db;
  m_clock : nat
}.

(** [queue.Open], or no queue at all. *)
Definition open_queue (c : Config) (m : Machine) : result qerror (option Store) :=
if Disabled (StoreForward c) then Ok None
else match QueueStore.Open (m_queue m) (m_clock m) (queue_options c) with
     | (Err e, _) => Err e
     | (Ok _, q) => Ok (Some q)
     end.

(** A failed first [Reload] is only logged. *)
Definition first_reload (inv : Inv) : Manager * Inv :=
match Reload NewManager inv with
| (Ok m, inv) => (m, inv)
| (Err _, inv) => (NewManager, inv)
end.

(** The forwarder and its adapter, unless Store & Forward is disabled. *)
Definition open_forwarder (c : Config) (w : W) : result adapter_error (option (Forwarder.Config * transport)) * W :=
if Disabled (StoreForward c) then (Ok None, w)
else match buildAdapter c w with
     | (Err e, w) => (Err e, w)
     | (Ok a, w) => (Ok (Some (new_config (forwarder_config c), a)), w)
     end.

Definition main (path migrations : string) (m : Machine) : outcome :=
match Load path (m_world m) with
| Err e => Panicked e
| Ok c0 =>
  match Migrate.Open (m_mkdir m) (m_files m) (db_Path (Database c0)) migrations (m_db m) with
  | (Err e, _) => Exited (DatabaseFailed e)
  | (Ok _, d) =>
    let c := overrides (getenv (m_world m)) c0 in
    match open_queue c m with
    | Err e => Exited (QueueFailed e)
    | Ok q =>
      let time := TimeService.New (time_config c) (Timezone (Time c)) in
      let '(manager, inv) := first_reload (mkInv (content d) 0) in
      match open_forwarder c (m_world m) with
      | (Err e, _) => Exited (AdapterFailed e)
      | (Ok fwd, w) =>
        Started (mkProcess (mkSrv c path false w) inv manager (mkSinks ∅ ∅ q new_diag) time fwd)
      end
    end
  end
end.

(** * Running *)

Definition set_srv (s : Srv) (p : Proc) : Proc :=
mkProcess s (p_inv p) (p_manager p) (p_sinks p) (p_time p) (p_forwarder p).
Definition set_sinks (s : Sinks) (p : Proc) : Proc :=
mkProcess (p_srv p) (p_inv p) (p_manager p) s (p_time p) (p_forwarder p).

(** How [ListenAndServe] returns: after [Shutdown], or because the address
    cannot be listened on. *)
Inductive listen_result := ServerClosed | ListenFailed (e : string).

(** A reading from a poller, a request to save settings, and the return of the
    API's listener; [None] is a process that died. *)
Inductive event := EvReading (r : Reading) | EvSave (body : option settingsDTO) | EvListen (r : listen_result).

Definition run_event (e : event) (p : Proc) : option Proc :=
match e with
| EvReading r => s ← live_reading (cfg (p_srv p)) r (p_sinks p); Some (set_sinks s p)
| EvSave body => Some (set_srv (saveSettings body (p_srv p)).2 p)
| EvListen ServerClosed => Some p
| EvListen (ListenFailed _) => None
end.

Fixpoint run_events (es : list event) (p : Proc) : option Proc :=
match es with
| [] => Some p
| e :: es => p ← run_event e p; run_events es p
end.

(** * Stopping *)

(** [manager.Wait()] lets the pollers finish, with the readings they still emit;
    then the deferred calls close the queue. *)
Definition shutdown (rest : list Reading) (p : Proc) : option (option (result qerror unit * Store)) :=
p ← run_events (map EvReading rest) p;
Some (QueueStore.Close <$> Observers.queue (p_sinks p)).
End Start.
Arguments Proc W : clear implicits.
Arguments outcome W : clear implicits.
Arguments Machine W : clear implicits.
