(* ===== verification/GatewayProps.v ===== *)
(** The gateway process as a whole: what starting needs and what it does not,
    that no accepted save keeps the gateway from starting again, what a
    rejected save does to the readings of the running process, and what is on
    disk after a shutdown. *)

From Stdlib Require Import Ascii.
From S2P Require Import Prelude.
From S2P Require Import GoTime.
From S2P Require Import Float64.
From S2P Require Import GoStrings.
From S2P Require Import GoText.
From S2P Require Import Codec.
From S2P Require Import QueueDb.
From S2P Require Import QueueStore.
From S2P Require Import QueueFacts.
From S2P Require Import QueueProps.
From S2P Require Import Forwarder.
From S2P Require Import Transports.
From S2P Require Import Inventory.
From S2P Require Import Observers.
From S2P Require Import Manager.
From S2P Require Import TimeService.
From S2P Require Import Migrate.
From S2P Require Import Config.
From S2P Require Import SettingsApi.
From S2P Require Import SettingsProps.
From S2P Require Import Gateway.

Local Open Scope string_scope.
Local Open Scope list_scope.
Local Open Scope Z_scope.

(** The switch in the configuration agrees with the parts that are there. *)
Definition switch_ok {W} `{ConfigEnv W} (p : Proc W) : Prop :=
  (Disabled (StoreForward (cfg (p_srv p))) = true -> Observers.queue (p_sinks p) = None /\ p_forwarder p = None) /\
  (Disabled (StoreForward (cfg (p_srv p))) = false ->
   is_Some (Observers.queue (p_sinks p)) /\ is_Some (p_forwarder p)).

Section Props.
Context {W : Type} `{ConfigEnv W} `{TLSEnv W} `{MqttEnv W} `{UrlEnv}.
Context `{SqlEnv Tables, InvEnv, Env, Flate, DiskEnv}.

Implicit Types (m : Machine W) (w : W) (c : Config) (p : Proc W).

(** * Starting *)

(** What the transport needs. *)
Definition transport_ok (c : Config) (w : W) : Prop :=
Transport (Forwarder c) = "" \/ Transport (Forwarder c) = "http" \/
(Transport (Forwarder c) = "mqtt" /\ exists tls, BuildMQTTTLSConfig (TLS (MQTT c)) w = Ok tls).

Lemma buildAdapter_ok c w :
(exists a w', buildAdapter c w = (Ok a, w')) <-> transport_ok c w.
Proof.
unfold buildAdapter, transport_ok. case_decide as Hh; [split; [intros _; tauto|intros _; by eexists _, _]|].
case_decide as Hm.
- destruct (BuildMQTTTLSConfig _ w) as [tls|e].
  + destruct (mqtt_connect _ _ w). split; [intros _; right; right; split; [done|by eexists]|by eexists _, _].
  + split; [by intros (? & ? & ?)|intros [?|[?|[_ [? ?]]]]; tauto || done].
- split; [by intros (? & ? & ?)|tauto].
Qed.

Lemma open_queue_ok c m :
(exists q, open_queue c m = Ok q) <->
Disabled (StoreForward c) = true \/ (QueueStore.Open (m_queue m) (m_clock m) (queue_options c)).1 = Ok tt.
Proof.
unfold open_queue. destruct (Disabled _); [split; [by left|intros _; by eexists]|].
destruct (QueueStore.Open _ _ _) as [[[]|e] q]; cbn; (split; [|intros [?|?]; try done; by eexists]).
- by right.
- by intros [? ?].
Qed.

Lemma open_forwarder_ok c w :
(exists f w', open_forwarder c w = (Ok f, w')) <-> Disabled (StoreForward c) = true \/ transport_ok c w.
Proof.
unfold open_forwarder. rewrite <- buildAdapter_ok. destruct (Disabled _).
{ split; [by left|intros _; by eexists _, _]. }
destruct (buildAdapter c w) as [[a|e] w']; (split; [intros (f & w1 & E)|intros [E|(a1 & w1 & E)]]); try done.
- right. by eexists _, _.
- by eexists _, _.
Qed.

Lemma queue_switch c m q :
open_queue c m = Ok q ->
(Disabled (StoreForward c) = true -> q = None) /\ (Disabled (StoreForward c) = false -> is_Some q).
Proof.
unfold open_queue. destruct (Disabled _); [by intros [= <-]|].
destruct (QueueStore.Open _ _ _) as [[]]; [|done]. intros [= <-]. by split.
Qed.
Lemma forwarder_switch c w f w' :
open_forwarder c w = (Ok f, w') ->
(Disabled (StoreForward c) = true -> f = None) /\ (Disabled (StoreForward c) = false -> is_Some f).
Proof.
unfold open_forwarder. destruct (Disabled _); [by intros [= <- _]|].
destruct (buildAdapter c w) as [[]]; [|done]. intros [= <- _]. by split.
Qed.

(** What a process that started holds. *)
Lemma main_started path mig m p :
main path mig m = Started p ->
exists c0 d q f w, Load path (m_world m) = Ok c0 /\
Migrate.Open (m_mkdir m) (m_files m) (db_Path (Database c0)) mig (m_db m) = (Ok tt, d) /\
let c := overrides (getenv (m_world m)) c0 in
open_queue c m = Ok q /\ open_forwarder c (m_world m) = (Ok f, w) /\
p_srv p = mkSrv c path false w /\ p_sinks p = mkSinks ∅ ∅ q new_diag /\ p_forwarder p = f /\
p_manager p = (first_reload (mkInv (content d) 0)).1.
Proof.
unfold main. destruct (Load path (m_world m)) as [c0|e]; [|done].
destruct (Migrate.Open _ _ _ _ _) as [[[]|e] d] eqn:Em; [|done]. cbv zeta.
destruct (open_queue _ m) as [q|e] eqn:Eq; [|done].
destruct (first_reload _) as [mg inv] eqn:Er. destruct (open_forwarder _ _) as [[f|e] w] eqn:Ef; [|done].
intros [= <-]. exists c0, d, q, f, w. split_and!; try done. by rewrite Er.
Qed.

Lemma main_starts path mig m c0 d :
Load path (m_world m) = Ok c0 ->
Migrate.Open (m_mkdir m) (m_files m) (db_Path (Database c0)) mig (m_db m) = (Ok tt, d) ->
let c := overrides (getenv (m_world m)) c0 in
(exists q, open_queue c m = Ok q) -> (exists f w, open_forwarder c (m_world m) = (Ok f, w)) ->
exists p, main path mig m = Started p.
Proof.
intros Hl Hm c [q Hq] (f & w & Hf). unfold main. rewrite Hl, Hm. cbv zeta. fold c. rewrite Hq.
destruct (first_reload _) as [mg inv]. rewrite Hf. by eexists.
Qed.

(** C18. What starting depends on.  The gateway starts exactly when its
    configuration loads, the migrations pass and, unless Store & Forward is
    disabled, the queue's file opens and the transport is http or mqtt with a
    TLS configuration that can be read: neither the broker nor the server nor a
    Modbus device nor an NTP server need answer, and a failed first reload only
    leaves nothing polled.  The process then serves the configuration with the
    environment's overrides, polls what a reload of the migrated tables asks
    for, and has a queue and a forwarder exactly when Store
    & Forward is enabled. *)
Theorem startup_outcome path mig m :
((exists p, main path mig m = Started p) <->
 exists c0 d, Load path (m_world m) = Ok c0 /\
 Migrate.Open (m_mkdir m) (m_files m) (db_Path (Database c0)) mig (m_db m) = (Ok tt, d) /\
 let c := overrides (getenv (m_world m)) c0 in
 Disabled (StoreForward c) = true \/
 ((QueueStore.Open (m_queue m) (m_clock m) (queue_options c)).1 = Ok tt /\ transport_ok c (m_world m))) /\
(forall p, main path mig m = Started p -> switch_ok p /\
 exists c0 d, Load path (m_world m) = Ok c0 /\ cfg (p_srv p) = overrides (getenv (m_world m)) c0 /\
 Migrate.Open (m_mkdir m) (m_files m) (db_Path (Database c0)) mig (m_db m) = (Ok tt, d) /\
 p_manager p = (first_reload (mkInv (content d) 0)).1).
Proof.
split; [split|].
- intros [p (c0 & d & q & f & w & Hl & Hm & Hq & Hf & _)%main_started]. exists c0, d.
  split; [done|]. split; [done|]. set (c := overrides _ c0) in *. cbv zeta.
  destruct (proj1 (open_queue_ok c m) (ex_intro _ _ Hq)) as [?|?]; [by left|].
  destruct (proj1 (open_forwarder_ok c (m_world m)) (ex_intro _ f (ex_intro _ w Hf))) as [?|?]; [by left|by right].
- intros (c0 & d & Hl & Hm & Hc). cbv zeta in Hc. apply (main_starts _ _ _ c0 d Hl Hm);
    [apply open_queue_ok|apply open_forwarder_ok]; tauto.
- intros p (c0 & d & q & f & w & Hl & Hm & Hq & Hf & Es & Ei & Ep & Emg)%main_started.
  apply queue_switch in Hq as [Hq1 Hq2]. apply forwarder_switch in Hf as [Hf1 Hf2].
  unfold switch_ok. rewrite Es, Ei, Ep. cbn. split; [|by exists c0, d]. split; intros Hd; auto.
Qed.

(** * Saving settings while the gateway runs *)

(** The variables [main] lets override the file. *)
Definition no_overrides (w : W) : Prop :=
Forall (fun n => getenv w n = "") ["FORWARDER_TRANSPORT"; "FORWARDER_SERVER_URL"; "MQTT_BROKER_URL"; "NTP_SERVER"].

Lemma overrides_none w c : no_overrides w -> overrides (getenv w) c = c.
Proof.
unfold no_overrides. rewrite !Forall_cons. intros (E1 & E2 & E3 & E4 & _).
unfold overrides, override. rewrite E1, E2, E3, E4. cbn. by destruct c as [? ? ? ? ? [] ? [] []].
Qed.

(** A save that succeeded: what was tested, and what was written. *)
Lemma saved_inv dto s s' :
saveSettings (Some dto) s = ((200, Ok tt), s') ->
exists url w ntp, check_dto dto = Ok url /\
(if dto_Enabled dto then testMQTTConnect (new_mqtt (MQTT (cfg s)) url dto) (dto_Transport dto) (world s)
 else (None, world s)) = (None, w) /\
cfg s' = apply_rest dto ntp (apply_identity dto (new_mqtt (MQTT (cfg s)) url dto) (cfg s)) /\
configPath s' = configPath s /\ Save (configPath s) (cfg s') w = (None, world s').
Proof.
intros [(e & _ & ? & _)|(url & failed & w & Hc & Ht & Hf)]%saveSettings_inv; [done|].
destruct failed as [e|]; [by destruct Hf|].
apply finish_save_inv in Hf as [(e & _ & ? & _)|(ntp & _ & E & Ep & [(_ & _ & _ & Hs)|(e & ? & _)])]; try done.
exists url, w, ntp. by split_and!.
Qed.

(** What the test connects with is what the next start builds its TLS from. *)
Lemma tested_transport dto s url w :
check_dto dto = Ok url -> dto_Enabled dto = true ->
testMQTTConnect (new_mqtt (MQTT (cfg s)) url dto) (dto_Transport dto) (world s) = (None, w) ->
dto_Transport dto = "http" \/
(dto_Transport dto = "mqtt" /\ exists tls, BuildMQTTTLSConfig (TLS (MQTT (cfg s))) (world s) = Ok tls).
Proof.
unfold check_dto. case_decide; [done|]. intros Hc Hen Ht. rewrite Hen in Hc.
destruct (normalizeBrokerURL _) as [u|e]; [|done]. res_simpl in Hc. case_decide as Htr; [|done].
destruct Htr as [Htr|Htr]; [by left|]. right. split; [done|]. unfold testMQTTConnect in Ht.
rewrite Htr, decide_False in Ht by tauto. cbn [TLS new_mqtt] in Ht.
destruct (BuildMQTTTLSConfig _ (world s)) as [tls|e]; [by eexists|done].
Qed.

(** C19. No accepted save keeps the gateway from starting again.  When the
    settings handler answers ok, and the files of the TLS configuration do not
    change, the database and the queue open as they do now, the text of the
    saved file has no dollar sign and no environment variable overrides it, the
    next start succeeds: it serves the saved configuration, with the transport
    that was submitted, or without forwarding when Store & Forward was switched
    off, and whether the broker answers by then or not. *)
Theorem accepted_save_starts dto s s' mig m d :
saveSettings (Some dto) s = ((200, Ok tt), s') ->
reads_back (W := W) -> m_world m = world s' -> no_overrides (world s') ->
(forall data, yaml_marshal (cfg s') = Ok data -> lacks "$" data /\ yaml_unmarshal data = Ok (cfg s')) ->
(forall t, BuildMQTTTLSConfig t (world s') = BuildMQTTTLSConfig t (world s)) ->
Migrate.Open (m_mkdir m) (m_files m) (db_Path (Database (cfg s))) mig (m_db m) = (Ok tt, d) ->
(QueueStore.Open (m_queue m) (m_clock m) (queue_options (with_defaults (cfg s')))).1 = Ok tt ->
exists p, main (configPath s) mig m = Started p /\ cfg (p_srv p) = with_defaults (cfg s') /\
(dto_Enabled dto = false -> p_forwarder p = None /\ Observers.queue (p_sinks p) = None) /\
(dto_Enabled dto = true -> exists fc t, p_forwarder p = Some (fc, t) /\ is_Some (Observers.queue (p_sinks p)) /\
 match t with
 | HTTPTransport a _ => dto_Transport dto = "http" /\ url a = ServerURL (Forwarder (cfg s))
 | MQTTTransport c _ _ _ => dto_Transport dto = "mqtt" /\ ac_BrokerURL c = TrimSpace (dto_BrokerURL dto)
 end).
Proof.
intros Hs Hrb Hmw Hno Hy Htls Hdb Hq.
destruct (saved_inv _ _ _ Hs) as (u & w & ntp & Hc & Ht & Ecfg & _ & Hsave).
destruct (Save_ok _ _ _ _ Hsave) as (data & Hm & Hw). destruct (Hy data Hm) as [Hd Hyd].
assert (Hl : Load (configPath s) (m_world m) = Ok (with_defaults (cfg s'))).
{ unfold Load. rewrite Hmw, (Hrb _ _ _ _ Hw). res_simpl. by rewrite ExpandEnv_plain, Hyd. }
assert (Hov : overrides (getenv (m_world m)) (with_defaults (cfg s')) = with_defaults (cfg s'))
  by (rewrite Hmw; by apply overrides_none).
assert (Edis : Disabled (StoreForward (with_defaults (cfg s'))) = negb (dto_Enabled dto)) by (by rewrite Ecfg).
assert (Etr : dto_Enabled dto = true -> Transport (Forwarder (with_defaults (cfg s'))) = dto_Transport dto /\
  (dto_Transport dto = "http" \/ (dto_Transport dto = "mqtt" /\
   exists tls, BuildMQTTTLSConfig (TLS (MQTT (with_defaults (cfg s')))) (m_world m) = Ok tls))).
{ intros Hen. rewrite Hen in Ht. pose proof (tested_transport _ _ _ _ Hc Hen Ht) as Hor. split.
  - rewrite Ecfg. cbn. apply default_string_id. by destruct Hor as [->|[-> _]].
  - destruct Hor as [?|[? [tls ?]]]; [by left|right]. split; [done|]. exists tls. by rewrite Hmw, Htls, Ecfg. }
assert (Eurl : dto_Enabled dto = true -> BrokerURL (MQTT (with_defaults (cfg s'))) = TrimSpace (dto_BrokerURL dto)).
{ intros Hen. rewrite Ecfg. cbn [with_defaults MQTT mqtt_defaults apply_rest apply_identity BrokerURL].
  by apply (new_mqtt_trimmed (MQTT (cfg s)) u dto Hc). }
assert (Esrv : ServerURL (Forwarder (with_defaults (cfg s'))) = ServerURL (Forwarder (cfg s))) by (by rewrite Ecfg).
assert (Edb : db_Path (Database (with_defaults (cfg s'))) = db_Path (Database (cfg s))) by (by rewrite Ecfg).
set (c := with_defaults (cfg s')) in *. clearbody c. rewrite <- Edb in Hdb. rewrite <- Hov in Hq.
destruct (main_starts (configPath s) mig m c d Hl Hdb) as [p Hp].
{ apply open_queue_ok. by right. }
{ rewrite Hov. apply open_forwarder_ok. destruct (dto_Enabled dto); [right|by left]. unfold transport_ok.
  destruct (Etr eq_refl) as [-> [?|?]]; tauto. }
exists p. split; [done|]. apply main_started in Hp as (c0 & d' & q & f & w' & Hl' & _ & Hq' & Hf & Es & Ei & Ep & _).
rewrite Hl in Hl'. injection Hl' as <-. rewrite Hov in *. rewrite Es, Ei, Ep. split; [done|]. cbn [Observers.queue].
destruct (queue_switch _ _ _ Hq') as [Hq1 Hq2]. destruct (forwarder_switch _ _ _ _ Hf) as [Hf1 _]. rewrite Edis in *.
split; intros Hen; rewrite Hen in *; cbn in Hq1, Hq2, Hf1; [by auto|].
unfold open_forwarder in Hf. rewrite Edis in Hf. cbn in Hf.
destruct (buildAdapter c (m_world m)) as [[t|e] w1] eqn:Eb; [|done]. injection Hf as <- <-.
eexists _, t. split; [done|]. split; [by apply Hq2|]. unfold buildAdapter in Eb. destruct (Etr eq_refl) as [Et Hor].
rewrite Esrv, Et in Eb. destruct Hor as [Ehttp|[Emqtt [tls Etls]]].
- rewrite Ehttp, decide_True in Eb by auto. injection Eb as <- _. by rewrite Ehttp.
- rewrite Emqtt, decide_False in Eb by (intros [?|?]; done). rewrite decide_True, Etls in Eb by done.
  destruct (mqtt_connect _ _ _) as [e w2]. injection Eb as <- _. split; [done|]. cbn. by apply Eurl.
Qed.

(** Readings with the switch off and on. *)
Lemma readings_off rs p :
Disabled (StoreForward (cfg (p_srv p))) = true ->
exists p', run_events (map EvReading rs) p = Some p' /\ p_srv p' = p_srv p /\
Observers.queue (p_sinks p') = Observers.queue (p_sinks p).
Proof.
revert p. induction rs as [|r rs IH]; intros p Hd; [by exists p|]. cbn [map run_events run_event].
unfold live_reading. rewrite Hd. cbn [mbind option_bind].
match goal with |- context [run_events _ ?p1] => destruct (IH p1 Hd) as (p' & Hr & Hs & Hq) end.
by exists p'.
Qed.
Lemma readings_on rs p q :
Disabled (StoreForward (cfg (p_srv p))) = false -> Observers.queue (p_sinks p) = Some q ->
exists p', run_events (map EvReading rs) p = Some p' /\ p_srv p' = p_srv p /\
Observers.queue (p_sinks p') = Some (foldl (fun q r => Process r q) q rs).
Proof.
revert p q. induction rs as [|r rs IH]; intros p q Hd Hq; [by exists p|]. cbn [map run_events run_event foldl].
unfold live_reading. rewrite Hd, Hq. cbn [mbind option_bind].
match goal with |- context [run_events _ ?p1] => exact (IH p1 (Process r q) Hd eq_refl) end.
Qed.

(** A save the NTP server's name made fail. *)
Lemma ntp_rejected_switch dto s raw s' :
saveSettings (Some dto) s = (reject 400 (NTPServerInvalid raw), s') ->
Disabled (StoreForward (cfg s')) = negb (dto_Enabled dto).
Proof.
intros [(e & Hc & Hr & ->)|(u & failed & w & _ & _ & Hf)]%saveSettings_inv.
- injection Hr as <-. unfold check_dto, normalizeBrokerURL in Hc.
  repeat first [case_decide | case_match | progress res_simpl in Hc]; simplify_eq.
- destruct failed as [te|]; [by destruct Hf|].
  by apply finish_save_inv in Hf as [(e & _ & _ & ->)|(ntp & _ & _ & _ & [(Hr & _)|(e' & Hr & _)])].
Qed.


(** * Stopping *)

Lemma process_all rs q :
let q' := foldl (fun q r => Process r q) q rs in
buf q' = buf q ++ map queue_reading rs /\ db q' = db q /\ unflushed q' = unflushed q /\ clk q' = clk q /\
dropped q' = dropped q /\ pendingChunks q' = pendingChunks q /\ pendingReadings q' = pendingReadings q.
Proof.
cbv zeta. revert q. induction rs as [|r rs IH]; intros q; cbn [foldl map]; [by rewrite app_nil_r|].
destruct (IH (Process r q)) as (-> & -> & -> & -> & -> & -> & ->). cbn. by rewrite <- app_assoc.
Qed.

(** The API's listener is not independent of acquisition: when its address is
    taken the process ends there, so nothing that would have been polled or
    queued after it is, and the deferred [Close] of the queue does not run. *)
Lemma listen_failure_stops_acquisition es e rest p : run_events (es ++ EvListen (ListenFailed e) :: rest) p = None.
Proof.
revert p. induction es as [|x es IH]; intros p; [done|]. cbn [app run_events].
destruct (run_event x p) as [p'|]; [apply IH|done].
Qed.

(** C21. An orderly shutdown loses nothing.  The pollers have all returned before
    the queue is closed; when its last write meets no fault, the queue's file
    then ends with everything that waited in memory and every reading the
    pollers emitted until they returned, in order and to the millisecond, and
    nothing was dropped. *)
Theorem shutdown_persists p q rest :
Observers.queue (p_sinks p) = Some q -> Disabled (StoreForward (cfg (p_srv p))) = false ->
Forall CodecFacts.wf_reading (buf q ++ map queue_reading rest) ->
Z.of_nat (length (buf q ++ map queue_reading rest)) < Int.two63 -> no_fault (clk q) ->
exists q' rows, shutdown rest p = Some (Some (Ok tt, q')) /\
chunk (db q') = chunk (db q) ++ rows /\
rows_readings rows = pend_readings (unflushed q) ++ map CodecFacts.truncate (buf q ++ map queue_reading rest) /\
buf q' = [] /\ unflushed q' = [] /\ dropped q' = dropped q.
Proof.
intros Eq Hd Hwf Hl Hn. unfold shutdown.
destruct (readings_on rest p q Hd Eq) as (p' & -> & _ & Hq). cbn [mbind option_bind]. rewrite Hq. cbn [fmap option_fmap option_map].
destruct (process_all rest q) as (Eb & Ed & Eu & Ec & Ex & _).
set (q1 := foldl _ q rest) in *. clearbody q1. destruct (Close q1) as [r q'] eqn:Ecl.
rewrite <- Eb in Hwf, Hl. rewrite <- Ec in Hn.
destruct (close_no_fault q1 r q' Hn Ecl) as [-> (q2 & Efl & ->)].
destruct (flush_spec q1 (Ok tt) q2 Hwf Hl Efl) as [_ Hr].
destruct Hr as [(B & U & X) (rows & C & R & _) _]. exists (tick q2), rows.
rewrite <- Ed, <- Eu, <- Ex, <- Eb. by split_and!.
Qed.
End Props.

(** * A gateway *)

#[local] Existing Instance disk_env.
#[local] Existing Instance disk_tls.
#[local] Existing Instance disk_mqtt.
#[local] Existing Instance disk_url.
#[local] Existing Instance no_faults.
#[local] Existing Instance sample_env.
#[local] Existing Instance stored_flate.
#[local] Instance sample_disk : DiskEnv := {| disk_Usage := fun _ _ => Ok (1, 9, of_Z 10) |}.
#[local] Instance no_scripts : SqlEnv Tables := {| sql_exec := fun _ t => Ok t; fk_violated := fun _ => false |}.

(** One RTU bus with a device, no migration left to apply, an empty queue. *)
Definition sample_machine (w : Disk) : Machine Disk :=
  mkMachine w (fun _ => None) (mkFiles (Ok []) (fun _ => Err "no such file"))
    (Migrate.mkDb None (tables (stored 1)) true []) empty_db 0.
Definition sample_file : Disk := "password: secret" +:+ String "010" "".
Definition started (o : outcome Disk) : option (Proc Disk) := match o with Started p => Some p | _ => None end.

Definition sample_process : Proc Disk :=
  mkProcess sample_srv (stored 1) (polling 1) (mkSinks ∅ ∅ (Some sample_store) new_diag)
    (TimeService.New (time_config (sample_config "secret")) "UTC")
    (Some (forwarder_config (sample_config "secret"), HTTPTransport (mkHTTPAdapter "") 0)).

Lemma main_sample p :
  started (main "config.yaml" "migrations" (sample_machine sample_file)) = Some p ->
  main "config.yaml" "migrations" (sample_machine sample_file) = Started p.
Proof. unfold started. destruct (main _ _ _); [done|done|]. by intros [= ->]. Qed.

Lemma startup_outcome_witness :
  exists p, main "config.yaml" "migrations" (sample_machine sample_file) = Started p /\ switch_ok p /\
  exists c0 d, Load "config.yaml" sample_file = Ok c0 /\ cfg (p_srv p) = overrides (fun _ => "") c0 /\
  Migrate.Open (fun _ => None) (mkFiles (Ok []) (fun _ => Err "no such file")) (db_Path (Database c0)) "migrations"
    (m_db (sample_machine sample_file)) = (Ok tt, d) /\
  p_manager p = (first_reload (mkInv (content d) 0)).1.
Proof.
  destruct (started (main "config.yaml" "migrations" (sample_machine sample_file))) as [p|] eqn:E; [|by vm_compute in E].
  exists p. apply main_sample in E. split; [exact E|].
  exact (proj2 (startup_outcome "config.yaml" "migrations" (sample_machine sample_file)) p E).
Defined.

(** Saving the settings one was shown, then starting again. *)
Lemma accepted_save_starts_witness :
  let dto := (getSettings sample_srv).2 in
  let s' := (saveSettings (Some dto) sample_srv).2 in
  exists p, main "config.yaml" "migrations" (sample_machine (world s')) = Started p /\
  cfg (p_srv p) = with_defaults (cfg s') /\
  (dto_Enabled dto = false -> p_forwarder p = None /\ Observers.queue (p_sinks p) = None) /\
  (dto_Enabled dto = true -> exists fc t, p_forwarder p = Some (fc, t) /\ is_Some (Observers.queue (p_sinks p)) /\
   match t with
   | HTTPTransport a _ => dto_Transport dto = "http" /\ url a = ServerURL (Forwarder (cfg sample_srv))
   | MQTTTransport c _ _ _ => dto_Transport dto = "mqtt" /\ ac_BrokerURL c = TrimSpace (dto_BrokerURL dto)
   end).
Proof.
  cbv zeta. set (r := saveSettings (Some (getSettings sample_srv).2) sample_srv).
  assert (Hc : cfg r.2 = sample_config "secret") by (by vm_compute).
  apply (accepted_save_starts _ sample_srv r.2 "migrations" (sample_machine (world r.2))
           (Migrate.mkDb (Some []) (tables (stored 1)) true [])).
  - change (r = ((200, Ok tt), r.2)). destruct r as [a s] eqn:E. f_equal. change a with (a, s).1. rewrite <- E. by vm_compute.
  - by intros path data w w' [= <-].
  - done.
  - repeat constructor.
  - intros data [= <-]. rewrite Hc. split; [apply (bool_decide_unpack _); by vm_compute|by vm_compute].
  - done.
  - by vm_compute.
  - by vm_compute.
Defined.

(** Store & Forward is off, and a client id with two words for an NTP server
    switches it on. *)
Definition off_process : Proc Disk :=
  mkProcess (mkSrv (apply_identity (mkDTO "gw-1" "Plant 1" "mqtt" "" "" "" "" 1 "" "" 30 "" "UTC" 300 0 (of_Z 10) false)
                      (MQTT (sample_config "secret")) (sample_config "secret")) "config.yaml" false "")
    (stored 1) (polling 1) (mkSinks ∅ ∅ None new_diag) (p_time sample_process) None.


Lemma shutdown_persists_witness :
  let rest := [mkReading 1 "sensor" 7 "level" (Some (of_Z 3)) "GOOD" "m" 9000000] in
  exists q' rows, shutdown rest sample_process = Some (Some (Ok tt, q')) /\
  chunk (db q') = chunk (db sample_store) ++ rows /\
  rows_readings rows = pend_readings (unflushed sample_store)
    ++ map CodecFacts.truncate (buf sample_store ++ map queue_reading rest) /\
  buf q' = [] /\ unflushed q' = [] /\ dropped q' = dropped sample_store.
Proof.
  apply shutdown_persists; [done|done| |by vm_compute|done].
  apply Forall_app. split; [exact sample_wf|]. vm_compute. repeat constructor; cbv; try done; discriminate.
Defined.
