(* ===== verification/NetworkApi.v ===== *)
(** The network handlers of the API (internal/api/network.go) over the
    confirm-or-revert service: every answer, and what it says about the change
    and its pending revert. *)

From S2P Require Import Prelude.
From S2P Require Import GoTime.
From S2P Require Import GoStrings.
From S2P Require Import GoText.
From S2P Require Import NetConfig.
From S2P Require Import NetConfigProps.
From S2P Require Import Nmcli.
From S2P Require Import NmcliModel.

Local Open Scope string_scope.
Local Open Scope list_scope.
Local Open Scope Z_scope.

Definition networkConfirmWindow : Z := 45 * second.

Record networkStatusDTO := mkNetworkStatus {
  ns_Supported : bool;
  ns_Pending : bool;
  ns_Info : Info
}.
Definition no_network : networkStatusDTO := mkNetworkStatus false false (mkInfo "" "" "" 0 "" []).

(** The decoded bodies; absent fields have their zero values. *)
Record applyNetworkRequest := mkApplyNetwork {
  req_Interface : string;
  req_Address : string;
  req_Prefix : Z;
  req_Gateway : string;
  req_DNS : list string
}.
Record applyNetworkDHCPRequest := mkApplyDHCP { dhcp_Interface : string }.

Inductive network_error := BadJSON | NetworkError (e : net_error).

(** [applied] with its [confirm_within_seconds]. *)
Definition applied : Type := Z.

Section Handlers.
Context {H : Type} `{Controller H}.

(** The service may be nil. *)
Abbreviation S := (option (Svc H)).

Definition getNetworkStatus (s : S) : (Z * result network_error networkStatusDTO) * S :=
match s with
| None => ((200, Ok no_network), s)
| Some v =>
  match svc_Current v with
  | (Err e, v) =>
    if is_unsupported e then ((200, Ok no_network), Some v) else ((500, Err (NetworkError e)), Some v)
  | (Ok info, v) => ((200, Ok (mkNetworkStatus true (Pending v) info)), Some v)
  end
end.

(** What both apply handlers answer. *)
Definition answer_apply (r : result net_error unit) : Z * result network_error applied :=
match r with
| Ok _ => (200, Ok (Z.quot networkConfirmWindow second))
| Err e => (if is_unsupported e then 503 else 400, Err (NetworkError e))
end.

Definition applyNetwork (body : option applyNetworkRequest) (s : S) : (Z * result network_error applied) * S :=
match s, body with
| None, _ => ((503, Err (NetworkError ErrUnsupported)), s)
| Some _, None => ((400, Err BadJSON), s)
| Some v, Some req =>
  let '(r, v) := NetConfig.Apply (mkStatic (req_Interface req) (req_Address req) (req_Prefix req) (req_Gateway req) (req_DNS req))
                   networkConfirmWindow v in
  (answer_apply r, Some v)
end.

Definition applyNetworkDHCP (body : option applyNetworkDHCPRequest) (s : S) : (Z * result network_error applied) * S :=
match s, body with
| None, _ => ((503, Err (NetworkError ErrUnsupported)), s)
| Some _, None => ((400, Err BadJSON), s)
| Some v, Some req =>
  let '(r, v) := svc_ApplyDHCP (dhcp_Interface req) networkConfirmWindow v in
  (answer_apply r, Some v)
end.

Definition confirmNetwork (s : S) : (Z * result network_error bool) * S :=
match s with
| None => ((503, Err (NetworkError ErrUnsupported)), s)
| Some v =>
  match Confirm v with
  | (Err e, v) => ((400, Err (NetworkError e)), Some v)
  | (Ok _, v) => ((200, Ok true), Some v)
  end
end.

(** * What the answers mean *)

Inductive network_post := PostStatic (r : applyNetworkRequest) | PostDHCP (r : applyNetworkDHCPRequest).
Definition serve_post (p : network_post) (s : S) : (Z * result network_error applied) * S :=
match p with
| PostStatic r => applyNetwork (Some r) s
| PostDHCP r => applyNetworkDHCP (Some r) s
end.
Definition post_change (p : network_post) : change :=
match p with
| PostStatic r => ToStatic (mkStatic (req_Interface r) (req_Address r) (req_Prefix r) (req_Gateway r) (req_DNS r))
| PostDHCP r => ToDHCP (dhcp_Interface r)
end.

Lemma serve_post_eq p v :
serve_post p (Some v) =
(let '(r, v) := applyAndArm networkConfirmWindow (run_change (post_change p)) v in (answer_apply r, Some v)).
Proof. by destruct p. Qed.
End Handlers.

(** What a request to change the network is answered, between calls that do
    not overlap.  It is answered ok exactly when the change was made and armed:
    then one revert is pending, 45 seconds ahead as the answer says, to the very
    configuration a status request just before would have shown, a status
    request says pending and a confirmation is accepted.  Otherwise it is
    answered 503 when the host cannot be configured and 400 with the error, and
    a revert that was pending before still is. *)
Theorem network_post_outcome {H} `{ControllerSpec H} (h0 : H) t0 os p :
  let v := run_ops os (new_service h0 t0) in
  net_ok (host v) ->
  let '(resp, s') := serve_post p (Some v) in
  exists v', s' = Some v' /\
  match resp with
  | (code, Ok secs) =>
    code = 200 /\ secs * second = networkConfirmWindow /\
    exists prev, (getNetworkStatus (Some v)).1 = (200, Ok (mkNetworkStatus true (Pending v) prev)) /\
    (run_change (post_change p) (host v)).1 = Ok tt /\ host v' = (run_change (post_change p) (host v)).2 /\
    armed v' = {[fresh_id v := mkTimer (now v + networkConfirmWindow) prev]} /\ Pending v' = true /\
    (confirmNetwork (Some v')).1 = (200, Ok true)
  | (code, Err e) =>
    timer v' = timer v /\ armed v' = armed v /\ previous v' = previous v /\
    exists ne, e = NetworkError ne /\ code = (if is_unsupported ne then 503 else 400) /\
    ((run_change (post_change p) (host v)).1 = Err ne \/
     exists ce, (Current (host v)).1 = Err ce /\ ne = WrapNet "read current network config" ce)
  end.
Proof.
  intros v Hok. assert (Hser : Serial v) by by apply Serial_ops, Serial_new.
  rewrite serve_post_eq, applyAndArm_eq. destruct (Current (host v)) as [[prev|e] h] eqn:Ec.
  - destruct (net_current (host v) _ _ Hok Ec) as [-> _].
    destruct (run_change (post_change p) (host v)) as [[[]|e] h'] eqn:Er.
    + pose (v0 := mkSvc h' (previous v) (timer v) (armed v) (fresh_id v) (now v)). assert (Hs0 : Serial v0) by exact (Serial_host _ v Hser).
      exists (arm networkConfirmWindow prev v0). split; [done|]. destruct (arm_fields networkConfirmWindow prev v0) as (Ht & _ & Hh & _).
      split; [done|]. split; [done|]. exists prev. split_and!; [|done|done| | |].
      * unfold getNetworkStatus, svc_Current. rewrite on_host_eq, Ec. done.
      * by rewrite (arm_armed networkConfirmWindow prev v0 Hs0).
      * unfold Pending. by rewrite Ht.
      * cbn [confirmNetwork]. unfold Confirm. by rewrite Ht.
    + eexists. split; [done|]. split_and!; [done..|]. exists e. split_and!; [done..|]. by left.
  - eexists. split; [done|]. split_and!; [done..|]. eexists. split_and!; [done..|]. right. by exists e.
Qed.

Lemma network_post_outcome_witness :
  let p := PostStatic (mkApplyNetwork "eth0" "192.168.1.99" 24 "192.168.1.1" ["8.8.8.8"]) in
  net_ok (host sample_service) /\
  exists v', (serve_post p (Some sample_service)).2 = Some v' /\
  (serve_post p (Some sample_service)).1 = (200, Ok 45) /\
  armed v' = {[0%nat := mkTimer networkConfirmWindow snapshot]} /\ Pending v' = true.
Proof.
  cbv zeta. set (p := PostStatic _). split; [exact sample_ok|].
  pose proof (network_post_outcome sample_host 0 [] p sample_ok) as Hp.
  assert (Hc : (serve_post p (Some sample_service)).1 = (200, Ok 45)) by (by vm_compute).
  cbn [run_ops foldl] in Hp. change (new_service sample_host 0) with sample_service in Hp.
  destruct (serve_post p (Some sample_service)) as [resp s']. cbn [fst snd] in Hc |- *. subst resp.
  destruct Hp as (v' & -> & _ & _ & prev & Hs & _ & _ & Ha & Hpend & _). exists v'. split_and!; [done|done| |done].
  rewrite Ha. assert (Hsnap : (getNetworkStatus (Some sample_service)).1 = (200, Ok (mkNetworkStatus true false snapshot))) by (by vm_compute).
  rewrite Hsnap in Hs. by injection Hs as <-.
Defined.
