(* ===== verification/TestActions.v ===== *)
(** The test actions of the API (internal/api/test.go): connect to a device
    once, or read one data point once, on a client of their own.

    The world is that of the poller (class [World]); a new client is the world
    with the client [BuildClient] configured. *)

From S2P Require Import Prelude.
From S2P Require Import GoTime.
From S2P Require Import Float64.
From S2P Require Import Modbus.
From S2P Require Import Inventory.
From S2P Require Import BlockPlan.
From S2P Require Import Observers.
From S2P Require Import Poller.
From S2P Require Import Manager.
From S2P Require Import Api.
From S2P Require Import Sim.

Local Open Scope string_scope.
Local Open Scope list_scope.
Local Open Scope Z_scope.

Inductive test_error :=
| BuildFailed (e : build_error)
| ModbusFailed (e : goerror)
| DecodeFailed (e : modbus_error).

Record testConnectionResult := mkTestConnection { tc_Quality : string; tc_Error : option test_error }.
Record testReadResult := mkTestRead {
  tr_Tag : string;
  tr_Value : option f64;
  tr_Unit : string;
  tr_Quality : string;
  tr_Error : option test_error
}.

Section Test.
Context {W : Type} `{World W, InvEnv}.
Variable open : client_config -> W -> W.

Definition testDeviceConnection (id : option Z) (a : Api) (w : W) : response testConnectionResult * Api * W :=
match id with
| None => ((400, ErrorBody BadID), a, w)
| Some id =>
  match run (device_Get id) a with
  | (Err e, a) => (writeDeviceRepoError e, a, w)
  | (Ok d, a) =>
    match run (connection_Get (ConnectionID d)) a with
    | (Err e, a) => (writeConnectionRepoError e, a, w)
    | (Ok conn, a) =>
      match BuildClient conn with
      | Err e => ((200, JSON (mkTestConnection Invalid (Some (BuildFailed e)))), a, w)
      | Ok cfg =>
        let w := SetUnitID (Int.u8 (SlaveID d)) (open cfg w) in
        let '(r, w) := Connect w in
        ((200, JSON (mkTestConnection (QualityFromError (err_of r)) (ModbusFailed <$> err_of r))), a, CloseConn w)
      end
    end
  end
end.

(** A result without a value. *)
Definition failed_read (dp : DataPoint) (q : string) (e : test_error) : testReadResult :=
mkTestRead (TagName dp) None (Unit dp) q (Some e).

(** From the read to the value; the deferred calls end the timeout, then close
    the client. *)
Definition read_point (conn : Connection) (dp : DataPoint) (qty : Z) (w : W) : testReadResult * W :=
let w := with_timeout (duration_ms (TimeoutMs conn)) w in
let '((raw, _, err), w) := ReadWithRetry (FunctionCode dp) (RegisterAddress dp) qty (c_Retry conn) w in
let w := CloseConn (cancel_timeout w) in
match err with
| Some e => (failed_read dp (QualityFromError (Some e)) (ModbusFailed e), w)
| None =>
  match Decode raw (DataType dp) (ByteOrder dp) with
  | Err e => (failed_read dp Invalid (DecodeFailed e), w)
  | Ok decoded =>
    (mkTestRead (TagName dp) (Some (ApplyScale decoded (Scale dp) (Offset dp))) (Unit dp) Good None, w)
  end
end.

(** From the client to the result. *)
Definition test_read (conn : Connection) (d : Device) (dp : DataPoint) (w : W) : testReadResult * W :=
match BuildClient conn with
| Err e => (failed_read dp Invalid (BuildFailed e), w)
| Ok cfg =>
  let w := SetUnitID (Int.u8 (SlaveID d)) (open cfg w) in
  match Connect w with
  | (Err e, w) => (failed_read dp (QualityFromError (Some e)) (ModbusFailed e), w)
  | (Ok _, w) =>
    match RegisterCount (DataType dp) with
    | Err e => (failed_read dp Invalid (DecodeFailed e), CloseConn w)
    | Ok qty => read_point conn dp qty w
    end
  end
end.

Definition testDataPointRead (id : option Z) (a : Api) (w : W) : response testReadResult * Api * W :=
match id with
| None => ((400, ErrorBody BadID), a, w)
| Some id =>
  match run (datapoint_Get id) a with
  | (Err e, a) => (writeDataPointRepoError e, a, w)
  | (Ok dp, a) =>
    match run (device_Get (dp_DeviceID dp)) a with
    | (Err e, a) => (writeDeviceRepoError e, a, w)
    | (Ok d, a) =>
      match run (connection_Get (ConnectionID d)) a with
      | (Err e, a) => (writeConnectionRepoError e, a, w)
      | (Ok conn, a) => let '(r, w) := test_read conn d dp w in ((200, JSON r), a, w)
      end
    end
  end
end.
End Test.

(** * A test read and a polled reading *)

(** What a result says that a reading says too. *)
Definition agrees (r : testReadResult) (x : Reading) : Prop :=
  tr_Tag r = r_Tag x /\ tr_Value r = r_Value x /\ tr_Unit r = r_Unit x /\ tr_Quality r = r_Quality x.

(** Decoding a whole response and decoding its point within a block agree,
    unless the response is longer than the request. *)
Lemma decode_agrees d dp raw t qty :
  RegisterCount (DataType dp) = Ok qty -> Z.of_nat (length raw) <= 2 * qty ->
  decoded_reading d dp raw (RegisterAddress dp) t =
  match Decode raw (DataType dp) (ByteOrder dp) with
  | Err _ => badReading d dp t Invalid
  | Ok v => mkReading (d_ID d) (d_Name d) (dp_ID dp) (TagName dp) (Some (ApplyScale v (Scale dp) (Offset dp))) Good (Unit dp) t
  end.
Proof.
  intros (w & Hw & Hq & _)%register_count Hl. unfold decoded_reading. rewrite Hw.
  replace (RegisterAddress dp - RegisterAddress dp) with 0 by lia. change (Int.u16 0 * 2) with 0. rewrite !Z.add_0_l.
  change (0 <? 0) with false. cbn [orb]. destruct (Z.of_nat (length raw) <? w) eqn:E; zbool.
  - unfold Decode. rewrite Hw. res_simpl. rewrite bool_decide_true by lia. done.
  - change (Z.to_nat 0) with 0%nat. unfold slice. rewrite drop_0, Nat.sub_0_r, take_ge by lia. done.
Qed.

(** A test read says what polling would.  Once the client is connected and
    the point's type is known, its result agrees, in tag, value, unit and
    quality, with the reading the poller makes of the outcome of the same
    request in a block of its own; the only difference is the connection's
    retries, which polling does not use.  The client is closed again whatever
    happened, and only the tables were read. *)
Theorem test_read_agrees {W} `{World W} (open : client_config -> W -> W) conn d dp w w1 cfg b t :
  BuildClient conn = Ok cfg -> Connect (SetUnitID (Int.u8 (SlaveID d)) (open cfg w)) = (Ok tt, w1) ->
  single_block (FunctionCode dp) dp = Some b ->
  let '((raw, attempts, err), w2) :=
    ReadWithRetry (functionCode b) (startAddress b) (quantity b) (c_Retry conn)
                  (with_timeout (duration_ms (TimeoutMs conn)) w1) in
  (err = None -> Z.of_nat (length raw) <= 2 * quantity b) ->
  let '(r, w3) := test_read open conn d dp w in
  w3 = CloseConn (cancel_timeout w2) /\
  exists x, block_readings d t b raw err = [x] /\ agrees r x.
Proof.
  intros Hb Hc. unfold single_block. destruct (RegisterCount (DataType dp)) as [qty|e] eqn:Eq; [|done].
  intros [= <-]. cbn [functionCode startAddress quantity]. unfold test_read. rewrite Hb, Hc, Eq. unfold read_point.
  destruct (ReadWithRetry _ _ _ _ _) as [[[raw k] err] w2]. intros Hl.
  unfold block_readings. cbn [points map startAddress]. destruct err as [e|].
  - split; [done|]. eexists. by split.
  - rewrite (decode_agrees d dp raw t qty Eq (Hl eq_refl)).
    destruct (Decode raw _ _) as [v|e]; (split; [done|]); eexists; by split.
Qed.

(** * Against the simulator *)

(** The clock, and a client of the simulator. *)
#[local] Instance sim_client : Client Z := {|
  Connect := fun w => (Ok tt, w); CloseConn := fun w => w; SetUnitID := fun _ w => w;
  Read := fun fc a q w =>
    (match sim_read holding input fc a q with
     | Some bs => Ok bs
     | None => Err (mkError false false false "modbus: exception '2' (illegal data address)")
     end, w + 1);
  ctx_err := fun _ => None |}.
#[local] Instance sim_world : World Z := {|
  Now := fun w => (w, w + 1); with_timeout := fun _ w => w; cancel_timeout := fun w => w;
  cancelled := fun _ => false; sleep := fun d w => (true, w + d) |}.

Definition sim_link : Connection := mkConnection 1 "sim" TCP "" "modbus-sim" 502 1000 3 true 250 0 0 "" 0.
Definition sim_device : Device := mkDevice 1 "PM001" 1 1 true.
(** Active_Power, a float in registers 102 and 103. *)
Definition active_power : DataPoint :=
  mkDataPoint 2 1 "Active_Power" 3 102 Float32 "ABCD" "" (of_Z 1) (of_Z 0) "W" true.

Lemma test_read_agrees_witness :
  let b := mkBlock 3 102 2 [active_power] in
  let '(r, w) := test_read (fun _ w => w) sim_link sim_device active_power 0 in
  tr_Quality r = Good /\ feq (default (of_Z 0) (tr_Value r)) (fdiv (of_Z 3001) (of_Z 2)) = true /\
  exists x, block_readings sim_device 7 b (default [] (sim_read holding input 3 102 2)) None = [x] /\ agrees r x.
Proof.
  cbv zeta.
  pose proof (test_read_agrees (fun _ w => w) sim_link sim_device active_power 0 0
                (TCPConfig "modbus-sim:502" 1000000000) (mkBlock 3 102 2 [active_power]) 7 eq_refl eq_refl eq_refl) as Ht.
  set (b := mkBlock 3 102 2 [active_power]) in *.
  match type of Ht with context [@ReadWithRetry ?T ?K ?f ?a ?q ?n ?w] =>
    assert (Hr : @ReadWithRetry T K f a q n w = ((default [] (sim_read holding input 3 102 2), 1, None), 1)) by by vm_compute
  end.
  rewrite Hr in Ht.
  assert (Hq : tr_Quality (test_read (fun _ w => w) sim_link sim_device active_power 0).1 = Good) by by vm_compute.
  assert (Hv : feq (default (of_Z 0) (tr_Value (test_read (fun _ w => w) sim_link sim_device active_power 0).1))
                   (fdiv (of_Z 3001) (of_Z 2)) = true) by by vm_compute.
  destruct (test_read _ _ _ _ _) as [r w]. split; [exact Hq|]. split; [exact Hv|].
  apply Ht. intros _. by vm_compute.
Defined.
