(* ===== verification/ServerStatus.v ===== *)
(** The reference server's page and its process (cmd/server-demo: snapshot of
    store.go, handleStatus, handlePutSettings and refreshMeta of server.go, the
    consumer of mqtt.go, main.go).

    The MQTT client library is outside: a client is what it was created with,
    and [live] lists those that have not been disconnected. *)

From Stdlib Require Import Ascii.
From S2P Require Import Prelude.
From S2P Require Import GoTime.
From S2P Require Import GoStrings.
From S2P Require Import GoText.
From S2P Require Import Codec.
From S2P Require Import Wire.
From S2P Require Import ServerStore.
From S2P Require Import ServerSettings.
From S2P Require Import Server.
From S2P Require Import Influx.

Local Open Scope string_scope.
Local Open Scope list_scope.
Local Open Scope Z_scope.

(** * The routes (server.go) *)

Inductive page := PIngest | PReceived | PStatus | PGetSettings | PPutSettings | PIndex.

(** A pattern is a method and a path; [/{$}] is the path "/" alone. *)
Definition server_routes : list (string * string * page) := [
  ("POST", "/ingest", PIngest);
  ("GET", "/received", PReceived);
  ("GET", "/api/status", PStatus);
  ("GET", "/api/settings", PGetSettings);
  ("PUT", "/api/settings", PPutSettings);
  ("GET", "/", PIndex)].

(** [ServeMux]: a pattern for GET also takes HEAD. *)
Definition takes (m path : string) (r : string * string * page) : Prop :=
  r.1.2 = path /\ (r.1.1 = m \/ (r.1.1 = "GET" /\ m = "HEAD")).
#[export] Instance takes_dec m path r : Decision (takes m path r).
Proof. unfold takes. apply _. Defined.
Definition page_for (m path : string) : option page := snd <$> head (filter (takes m path) server_routes).

(** * The snapshot (store.go) *)

Definition gateway_le (a b : gatewayStats) : Prop := String.leb (gw_ID a) (gw_ID b) = true.
#[export] Instance gateway_le_dec : RelDecision gateway_le.
Proof. intros a b. unfold gateway_le. apply _. Defined.
#[export] Instance gateway_le_total : Total gateway_le.
Proof. intros a b. unfold gateway_le. apply String.leb_total. Qed.

Definition datapoint_le (a b : datapointSeen) : Prop :=
  if decide (ds_GatewayID a = ds_GatewayID b) then
    if decide (ds_DeviceID a = ds_DeviceID b) then ds_DatapointID a <= ds_DatapointID b
    else ds_DeviceID a < ds_DeviceID b
  else String.leb (ds_GatewayID a) (ds_GatewayID b) = true.
#[export] Instance datapoint_le_dec : RelDecision datapoint_le.
Proof. intros a b. unfold datapoint_le. repeat case_decide; apply _. Defined.
#[export] Instance datapoint_le_total : Total datapoint_le.
Proof.
  intros a b. unfold datapoint_le. destruct (decide (ds_GatewayID a = ds_GatewayID b)) as [E|E].
  - rewrite (decide_True (P := ds_GatewayID b = ds_GatewayID a)) by congruence.
    destruct (decide (ds_DeviceID a = ds_DeviceID b)) as [E2|E2].
    + rewrite (decide_True (P := ds_DeviceID b = ds_DeviceID a)) by congruence. lia.
    + rewrite decide_False by congruence. lia.
  - rewrite decide_False by congruence. apply String.leb_total.
Qed.

(** [snapshot]: the maps' values, sorted for display. *)
Definition snapshot (s : store) : list gatewayStats * list datapointSeen * list gap :=
  (merge_sort gateway_le (map snd (map_to_list (gateways s))),
   merge_sort datapoint_le (map snd (map_to_list (datapoints s))), gaps s).

(** * The status page (server.go) *)

Record gatewayStatus := mkGatewayStatus { gs_Stats : gatewayStats; gs_Name : string; gs_Registered : bool }.
Record datapointStatus := mkDatapointStatus { dps_Seen : datapointSeen; dps_Name : string; dps_Unit : string }.

(** A registered gateway that has not sent anything, and a named datapoint that
    has not been seen. *)
Definition silent_gateway (id : string) : gatewayStats := mkGateway id 0 0 0 0 0 0 0 "" ∅.
Definition unseen (d : DatapointName) : datapointSeen :=
  mkSeen (dn_GatewayID d) (dn_DeviceID d) (dn_DatapointID d) "" None "".

Definition dp_key (d : datapointSeen) : dpKey := (ds_GatewayID d, ds_DeviceID d, ds_DatapointID d).
Definition name_key (d : DatapointName) : dpKey := (dn_GatewayID d, dn_DeviceID d, dn_DatapointID d).

Definition gateway_list (set : Settings) (gws : list gatewayStats) : list gatewayStatus :=
  map (fun g => mkGatewayStatus g (default "" (gatewayName (gw_ID g) set))
                  (bool_decide (is_Some (gatewayName (gw_ID g) set)))) gws
  ++ map (fun e => mkGatewayStatus (silent_gateway (ge_ID e)) (ge_Name e) true)
       (filter (fun e => ge_ID e ∉ map gw_ID gws) (Gateways set)).

(** The last name given to a datapoint counts. *)
Definition names_of (set : Settings) : gmap dpKey DatapointName :=
  foldl (fun m d => <[name_key d := d]> m) ∅ (Datapoints set).

Definition named_seen (names : gmap dpKey DatapointName) (d : datapointSeen) : datapointStatus :=
  match names !! dp_key d with
  | Some n => mkDatapointStatus d (dn_Name n) (dn_Unit n)
  | None => mkDatapointStatus d "" ""
  end.

(** [delete(names, k)] while the seen datapoints are listed leaves the names of
    the others. *)
Definition datapoint_list (set : Settings) (dps : list datapointSeen) : list datapointStatus :=
  let names := names_of set in
  let left := foldl (fun m d => delete (dp_key d) m) names dps in
  map (named_seen names) dps
  ++ map (fun n => mkDatapointStatus (unseen n) (dn_Name n) (dn_Unit n))
       (filter (fun n => is_Some (left !! name_key n)) (Datapoints set)).

(** * The MQTT consumer (mqtt.go) *)

(** A client of a broker, subscribed to a topic once connected. *)
Record mqttClient := mkClient { mc_broker : string; mc_topic : string }.
Record mqttConsumer := mkConsumer {
  client : option nat;
  broker : string;
  topic : string;
  live : gmap nat mqttClient;
  next_client : nat
}.
Definition new_consumer : mqttConsumer := mkConsumer None "" "" ∅ 0.

Definition mqtt_apply (b t : string) (c : mqttConsumer) : mqttConsumer :=
  if decide (b = broker c /\ t = topic c) then c
  else
    let live := match client c with Some k => delete k (live c) | None => live c end in
    if decide (b = "") then mkConsumer None b t live (next_client c)
    else mkConsumer (Some (next_client c)) b t (<[next_client c := mkClient b t]> live) (S (next_client c)).

(** [status]; whether the client's connection is open is the library's. *)
Definition mqtt_status (open : nat -> bool) (c : mqttConsumer) : string * string * bool :=
  (broker c, topic c, match client c with Some k => open k | None => false end).

(** * The settings endpoint (server.go) *)

#[export] Instance InfluxSettings_eq_dec : EqDecision InfluxSettings.
Proof. solve_decision. Defined.

Section Site.
Context {W : Type} `{InfluxHTTP W, LineEnv, SettingsEnv}.

(** [server], with the settings store and the writer it shares with the store. *)
Record site := mkSite {
  s_settings : settingsStore;
  s_store : store;
  s_influx : option (influxWriter W);
  s_mqtt : mqttConsumer
}.

Inductive put_error :=
| BadBody
| Rejected (e : string)
| BucketFailed (e : influx_failure)
| NotSaved (e : string).

(** The bucket check before the settings change: only for a new bucket or
    retention, and only with InfluxDB. *)
Definition ensure_new_bucket (next : Settings) (sv : site) : result influx_failure unit * site :=
match s_influx sv with
| None => (Ok tt, sv)
| Some w =>
  if decide (Influx next = Influx (cur (s_settings sv))) then (Ok tt, sv)
  else
    let '(r, w) := ensureBucket (Bucket (Influx next)) (RetentionDays (Influx next)) w in
    (r, mkSite (s_settings sv) (s_store sv) (Some w) (s_mqtt sv))
end.

(** Names are written again; a failure is only logged. *)
Definition write_names (now_ms : Z) (sv : site) : site :=
match s_influx sv with
| None => sv
| Some w =>
  let set := cur (s_settings sv) in
  let '(_, w) := writeMeta (Bucket (Influx set)) now_ms (Datapoints set) w in
  mkSite (s_settings sv) (s_store sv) (Some w) (s_mqtt sv)
end.

(** What follows a successful save. *)
Definition follow (saved : Settings) (sv : site) : site :=
mkSite (s_settings sv) (s_store sv) (s_influx sv)
  (mqtt_apply (BrokerURL (MQTT saved)) (DataTopic (MQTT saved)) (s_mqtt sv)).

Definition handlePutSettings (now_ms : Z) (body : option Settings) (sv : site) : (Z * result put_error Settings) * site :=
match body with
| None => ((400, Err BadBody), sv)
| Some next =>
  let next := normalize next in
  match validate next with
  | Err e => ((400, Err (Rejected e)), sv)
  | Ok _ =>
    match ensure_new_bucket next sv with
    | (Err e, sv) => ((502, Err (BucketFailed e)), sv)
    | (Ok _, sv) =>
      match ServerSettings.set next (s_settings sv) with
      | (Err e, st) => ((500, Err (NotSaved e)), mkSite st (s_store sv) (s_influx sv) (s_mqtt sv))
      | (Ok saved, st) =>
        let sv := follow saved (mkSite st (s_store sv) (s_influx sv) (s_mqtt sv)) in
        ((200, Ok saved), write_names now_ms sv)
      end
    end
  end
end.

(** One round of [refreshMeta]. *)
Definition refresh_round (now_ms : Z) (sv : site) : site := write_names now_ms sv.

(** [handleStatus]: the lists it shows. *)
Definition handleStatus (sv : site) : list gatewayStatus * list datapointStatus * list gap :=
let set := cur (s_settings sv) in
let '(gws, dps, gaps) := snapshot (s_store sv) in
(gateway_list set gws, datapoint_list set dps, gaps).

(** * The process (main.go) *)

Definition envOr (env : string -> string) (key fallback : string) : string :=
if decide (env key = "") then fallback else env key.

Definition default_settings (env : string -> string) (mqttBroker mqttDataTopic : string) : Settings :=
let retention := match Atoi (env "INFLUX_RETENTION_DAYS") with (v, None) => v | _ => 30 end in
mkSettings (mkFault faultNone 0) false [] []
  (ServerSettings.mkMQTT (envOr env "MQTT_BROKER_URL" mqttBroker) mqttDataTopic)
  (ServerSettings.mkInflux (envOr env "INFLUX_BUCKET" "gateway") retention).

(** From the settings to the consumer; [None] is [log.Fatalf]. *)
Definition server_main (env : string -> string) (mqttBroker mqttDataTopic : string) (file : file_read) (wd : W) :
  option site :=
match loadSettings (env "SETTINGS_PATH") (default_settings env mqttBroker mqttDataTopic) file with
| Err _ => None
| Ok st =>
  let set := cur st in
  let influx :=
    if decide (env "INFLUX_URL" = "") then None
    else Some (ensureBucket (Bucket (Influx set)) (RetentionDays (Influx set)) (Influx.mkInflux None wd)).2 in
  Some (mkSite st (newStore (bool_decide (is_Some influx))) influx
          (mqtt_apply (BrokerURL (MQTT set)) (DataTopic (MQTT set)) new_consumer))
end.
End Site.
Arguments site W : clear implicits.
