(* ===== verification/ServerStatusProps.v ===== *)
(** The reference server's page: the status lists everything once under its
    name, and saving settings keeps the consumer, the bucket and the file in
    step with them or changes nothing. *)

From Stdlib Require Import Ascii.
From S2P Require Import Prelude.
From S2P Require Import GoTime.
From S2P Require Import GoStrings.
From S2P Require Import GoText.
From S2P Require Import Codec.
From S2P Require Import Wire.
From S2P Require Import ServerStore.
From S2P Require Import ServerSettings.
From S2P Require Import Server.
From S2P Require Import Influx.
From S2P Require Import InfluxProps.
From S2P Require Import ServerStatus.

Local Open Scope string_scope.
Local Open Scope list_scope.
Local Open Scope Z_scope.

(** * Values know their keys *)

(** Every entry of the two maps carries its key. *)
Definition keyed (s : store) : Prop :=
  (forall id g, gateways s !! id = Some g -> gw_ID g = id) /\
  (forall k d, datapoints s !! k = Some d -> dp_key d = k).

Lemma keyed_new b : keyed (newStore b).
Proof. split; intros k x; cbn [gateways datapoints newStore]; by rewrite lookup_empty. Qed.

Lemma keyed_gw id s : keyed s -> gw_ID (gw id s) = id.
Proof. intros [Hg _]. unfold gw. destruct (gateways s !! id) as [g|] eqn:E; [by apply Hg|done]. Qed.

Lemma keyed_update_gw id f s : (forall g, gw_ID (f g) = gw_ID g) -> keyed s -> keyed (update_gw id f s).
Proof.
  intros Hf Hk. split; [|apply Hk]. intros id' g. cbn [update_gw set_gateways gateways].
  intros [[<- <-]|[_ Hl]]%lookup_insert_Some; [by rewrite Hf, keyed_gw|by apply Hk].
Qed.

Section Keyed.
Context `{ServerEnv}.

(** Only the two maps matter. *)
Lemma keyed_same s s' : gateways s' = gateways s -> datapoints s' = datapoints s -> keyed s -> keyed s'.
Proof. intros Hg Hd [H1 H2]. split; by rewrite ?Hg, ?Hd. Qed.

Lemma keyed_note_gap m q s : keyed s -> keyed (note_gap m q s).
Proof.
intros Hk. unfold note_gap. destruct (lastSeq s !! _) as [last|]; [|done]. destruct (_ >? _); [|done]. cbv zeta.
set (s1 := update_gw _ _ (server_tick s)). assert (Hk1 : keyed s1) by (apply keyed_update_gw; [done|by apply keyed_same with s]).
clearbody s1. destruct (out _); by apply keyed_same with s1.
Qed.

Lemma keyed_note_seq m q s : keyed s -> keyed (note_seq m q s).
Proof.
intros Hk. unfold note_seq. destruct (_ >? _); [|done]. apply keyed_update_gw; [done|by apply keyed_same with s].
Qed.

Lemma keyed_note_reading m q s r : keyed s -> keyed (note_reading m q s r).
Proof.
intros [Hg Hd]. split; [exact Hg|]. intros k d. cbn [note_reading set_datapoints set_received datapoints].
intros [[<- <-]|[_ Hl]]%lookup_insert_Some; [|by apply Hd].
destruct (datapoints s !! _) as [d0|] eqn:E; cbn [default from_option id]; [|by destruct (String.leb _ _)].
apply Hd in E. by destruct (String.leb _ _).
Qed.

Lemma keyed_fold {A} (f : store -> A -> store) l s :
(forall s a, keyed s -> keyed (f s a)) -> keyed s -> keyed (foldl f s l).
Proof. intros Hf. revert s. induction l as [|a l IH]; intros s Hk; [done|]. by apply IH, Hf. Qed.

Lemma keyed_ingest m s : keyed s -> keyed (ingest m s).2.
Proof.
intros Hk. unfold ingest. set (s1 := update_gw _ _ s). assert (Hk1 : keyed s1) by by apply keyed_update_gw.
clearbody s1. destruct (write_out m _ s1) as [[e|] s2] eqn:Ew.
- apply keyed_update_gw; [done|]. unfold write_out in Ew. destruct (_ && _); [|done].
  destruct (writeChunks_err _); [|done]. injection Ew as _ <-. by apply keyed_same with s1.
- assert (Hk2 : keyed s2).
  { unfold write_out in Ew. destruct (_ && _); [|by injection Ew as <-].
    destruct (writeChunks_err _); [done|]. injection Ew as <-. by apply keyed_same with s1. }
  cbn [snd]. set (s3 := update_gw _ _ (foldl _ s2 _)).
  apply keyed_same with s3; [done|done|]. apply keyed_update_gw; [done|]. apply keyed_fold; [|done].
  intros s0 c Hk0. unfold store_chunk. apply keyed_fold; [intros; by apply keyed_note_reading|].
  by apply keyed_note_seq, keyed_note_gap, keyed_same with s0.
Qed.

(** The store after any messages, under any settings. *)
Definition serve_all (ms : list (Settings * Message)) (s : store) : store :=
foldl (fun s '(set, m) => sstore (process m (mkServer set s)).2) s ms.

Lemma keyed_process set m s : keyed s -> keyed (sstore (process m (mkServer set s)).2).
Proof.
intros Hk. unfold process. cbn [sstore settings set_store].
assert (Hn : keyed (noteMessage (m_GatewayID m) s)) by (apply keyed_update_gw; [done|by apply keyed_same with s]).
set (s1 := noteMessage _ s) in *. clearbody s1.
assert (Hr : forall reason, keyed (noteRejected (m_GatewayID m) reason s1)) by (intros; by apply keyed_update_gw).
destruct (_ =? faultIgnore)%string; [apply Hr|]. destruct (_ && _); [apply Hr|].
destruct (_ =? faultErrorAck)%string; [apply Hr|]. pose proof (keyed_ingest m s1 Hn) as Hi.
destruct (ingest m s1) as [[[a d] [e|]] s2]; [done|]. by destruct (_ =? faultDropAck)%string.
Qed.

Lemma keyed_serve_all ms s : keyed s -> keyed (serve_all ms s).
Proof. apply keyed_fold. intros s0 [set m]. apply keyed_process. Qed.
End Keyed.

(** * Lists made of maps *)

Lemma elem_of_map {A B} (f : A -> B) l b : b ∈ map f l <-> exists a, b = f a /\ a ∈ l.
Proof. apply list_elem_of_fmap. Qed.
Lemma map_inj {A B} (f : A -> B) l x y : NoDup (map f l) -> x ∈ l -> y ∈ l -> f x = f y -> x = y.
Proof.
  induction l as [|a l IH]; [by intros _ ?%elem_of_nil|]. cbn. intros [Ha Hn]%NoDup_cons.
  intros [->|Hx]%elem_of_cons [->|Hy]%elem_of_cons E; [done| | |by apply IH].
  - destruct Ha. rewrite E. apply elem_of_map. by exists y.
  - destruct Ha. rewrite <- E. apply elem_of_map. by exists x.
Qed.

Lemma sorted_keys {K V} `{Countable K} (key : V -> K) (R : V -> V -> Prop) `{RelDecision V V R} (m : gmap K V) :
  (forall k v, m !! k = Some v -> key v = k) ->
  let l := merge_sort R (map snd (map_to_list m)) in
  NoDup (map key l) /\ (forall k, k ∈ map key l <-> is_Some (m !! k)) /\
  (forall v, v ∈ l <-> m !! key v = Some v).
Proof.
  intros Hk l. assert (Hp : l ≡ₚ map snd (map_to_list m)) by apply merge_sort_Permutation.
  assert (Hm : map key (map snd (map_to_list m)) = (map_to_list m).*1).
  { rewrite map_map. apply map_ext_in. intros [k v] Hin%list_elem_of_In%elem_of_map_to_list. by apply Hk. }
  assert (Hv : forall v, v ∈ l <-> m !! key v = Some v).
  { intros v. rewrite Hp. change (map snd ?x) with (x.*2). rewrite list_elem_of_fmap. split.
    - intros ([k v'] & -> & Hin%elem_of_map_to_list). cbn. by rewrite (Hk k v' Hin).
    - intros Hv. exists (key v, v). split; [done|]. by apply elem_of_map_to_list. }
  split_and!; [| |exact Hv].
  - rewrite Hp, Hm. apply NoDup_fst_map_to_list.
  - intros k. change (map key l) with (key <$> l). rewrite list_elem_of_fmap. split.
    + intros (v & -> & Hin%Hv). by eexists.
    + intros [v Hl]. pose proof (Hk k v Hl) as Hkv. exists v. rewrite Hkv. split; [done|]. apply Hv. by rewrite Hkv.
Qed.

Lemma filter_members {A} (P Q : A -> Prop) `{forall x, Decision (P x)} `{forall x, Decision (Q x)} (l : list A) :
  (forall x, x ∈ l -> P x <-> Q x) -> filter P l = filter Q l.
Proof.
  induction l as [|a l IH]; intros HPQ; [done|]. rewrite !filter_cons, IH by (intros; apply HPQ; by constructor).
  pose proof (HPQ a ltac:(by constructor)). destruct (decide (P a)), (decide (Q a)); tauto.
Qed.

Lemma lookup_delete_all (dps : list datapointSeen) (m : gmap dpKey DatapointName) k :
  foldl (fun m d => delete (dp_key d) m) m dps !! k = if decide (k ∈ map dp_key dps) then None else m !! k.
Proof.
  revert m. induction dps as [|d dps IH]; intros m; cbn [foldl map]; [by rewrite decide_False by apply not_elem_of_nil|].
  rewrite IH. destruct (decide (k = dp_key d)) as [->|Hn].
  - rewrite lookup_delete_eq, (decide_True (P := dp_key d ∈ dp_key d :: _)) by constructor. by case_decide.
  - rewrite lookup_delete_ne by done. destruct (decide (k ∈ map dp_key dps)) as [Hin|Hin].
    + by rewrite decide_True by by apply list_elem_of_further.
    + rewrite decide_False; [done|]. by intros [?|?]%elem_of_cons.
Qed.

(** The fold of [names_of], from any map. *)
Lemma names_other (ns : list DatapointName) (m : gmap dpKey DatapointName) k :
  k ∉ map name_key ns -> foldl (fun m d => <[name_key d := d]> m) m ns !! k = m !! k.
Proof.
  revert m. induction ns as [|n ns IH]; intros m Hk; [done|]. apply not_elem_of_cons in Hk as [Hn Hk]. cbn [foldl].
  rewrite IH by done. by rewrite lookup_insert_ne.
Qed.
Lemma names_dom (ns : list DatapointName) (m : gmap dpKey DatapointName) k :
  is_Some (foldl (fun m d => <[name_key d := d]> m) m ns !! k) <-> k ∈ map name_key ns \/ is_Some (m !! k).
Proof.
  revert m. induction ns as [|n ns IH]; intros m; cbn [foldl map].
  { split; [by right|]. by intros [?%elem_of_nil|?]. }
  rewrite IH, elem_of_cons. destruct (decide (k = name_key n)) as [->|Hn].
  - rewrite lookup_insert_eq. split; [by auto|]. intros _. right. by eexists.
  - rewrite lookup_insert_ne by done. tauto.
Qed.
Lemma names_unique (ns : list DatapointName) (m : gmap dpKey DatapointName) n :
  NoDup (map name_key ns) -> n ∈ ns -> foldl (fun m d => <[name_key d := d]> m) m ns !! name_key n = Some n.
Proof.
  revert m. induction ns as [|x ns IH]; intros m; cbn [foldl map]; [by intros _ ?%elem_of_nil|].
  intros [Hx Hnd]%NoDup_cons [->|Hin]%elem_of_cons; [|by apply IH].
  rewrite names_other by done. apply lookup_insert_eq.
Qed.

(** * The status page *)

Lemma gatewayName_some id set n :
  gatewayName id set = Some n -> exists e, e ∈ Gateways set /\ ge_ID e = id /\ ge_Name e = n.
Proof.
  unfold gatewayName. rewrite fmap_Some. intros (e & He & ->).
  assert (Hf : e ∈ filter (fun g => ge_ID g = id) (Gateways set)).
  { destruct (filter (fun g => ge_ID g = id) (Gateways set)) as [|e' l]; [done|]. injection He as ->. constructor. }
  apply list_elem_of_filter in Hf as [<- Hf]. by exists e.
Qed.
Lemma gatewayName_is_some id set : is_Some (gatewayName id set) <-> id ∈ map ge_ID (Gateways set).
Proof.
  rewrite elem_of_map. split; [intros [n (e & ? & <- & _)%gatewayName_some]; by exists e|].
  intros (e & -> & He). unfold gatewayName. rewrite fmap_is_Some.
  assert (Hf : e ∈ filter (fun g => ge_ID g = ge_ID e) (Gateways set)) by (by apply list_elem_of_filter).
  destruct (filter (fun g => ge_ID g = ge_ID e) (Gateways set)) as [|e' l]; [by apply elem_of_nil in Hf|by eexists].
Qed.
Lemma gatewayName_at e set :
  NoDup (map ge_ID (Gateways set)) -> e ∈ Gateways set -> gatewayName (ge_ID e) set = Some (ge_Name e).
Proof.
  intros Hnd He. destruct (gatewayName (ge_ID e) set) as [n|] eqn:E.
  - apply gatewayName_some in E as (e' & He' & Hid & <-). by rewrite (map_inj ge_ID _ e' e Hnd).
  - apply eq_None_not_Some in E. destruct E. apply gatewayName_is_some, elem_of_map. by exists e.
Qed.

Section Page.
Context {W : Type} `{InfluxHTTP W, LineEnv, SettingsEnv, ServerEnv}.

(** The gateways' half. *)
Lemma gateway_list_ok set gws (m : gmap string gatewayStats) :
NoDup (map gw_ID gws) -> (forall id, id ∈ map gw_ID gws <-> is_Some (m !! id)) ->
(forall g, g ∈ gws <-> m !! gw_ID g = Some g) -> NoDup (map ge_ID (Gateways set)) ->
NoDup (map (fun x => gw_ID (gs_Stats x)) (gateway_list set gws)) /\
(forall id, id ∈ map (fun x => gw_ID (gs_Stats x)) (gateway_list set gws) <->
            is_Some (m !! id) \/ id ∈ map ge_ID (Gateways set)) /\
(forall x, x ∈ gateway_list set gws ->
   let id := gw_ID (gs_Stats x) in
   gs_Stats x = default (silent_gateway id) (m !! id) /\ gs_Name x = default "" (gatewayName id set) /\
   gs_Registered x = bool_decide (id ∈ map ge_ID (Gateways set))).
Proof.
intros Hnd Hin Hv Hreg. set (rest := filter (fun e => ge_ID e ∉ map gw_ID gws) (Gateways set)).
assert (Hids : map (fun x => gw_ID (gs_Stats x)) (gateway_list set gws) = map gw_ID gws ++ map ge_ID rest).
{ unfold gateway_list. rewrite map_app, !map_map. reflexivity. }
assert (Hrest : forall id, id ∈ map ge_ID rest <-> id ∈ map ge_ID (Gateways set) /\ id ∉ map gw_ID gws).
{ intros id. rewrite !(elem_of_map ge_ID). unfold rest. split.
  - intros (e & -> & [Hn He]%list_elem_of_filter). split; [by exists e|done].
  - intros [(e & -> & He) Hn]. exists e. split; [done|]. by apply list_elem_of_filter. }
rewrite Hids. split_and!.
- apply NoDup_app. split; [done|]. split; [intros id Hi Hr; apply Hrest in Hr; by destruct Hr|]. unfold rest.
  eapply sublist_NoDup; [exact Hreg|]. apply fmap_sublist, sublist_filter.
- intros id. rewrite elem_of_app, Hrest, Hin. destruct (decide (is_Some (m !! id))); tauto.
- intros x. unfold gateway_list. rewrite elem_of_app, !elem_of_map.
  intros [(g & -> & Hg)|(e & -> & He)]; cbn [gs_Stats gs_Name gs_Registered gw_ID silent_gateway].
  + split_and!; [by rewrite (proj1 (Hv g) Hg)|done|]. apply bool_decide_ext, gatewayName_is_some.
  + apply list_elem_of_filter in He as [Hn He]. split_and!.
    * assert (Hno : m !! ge_ID e = None) by (apply eq_None_not_Some; by rewrite <- Hin). by rewrite Hno.
    * by rewrite gatewayName_at.
    * symmetry. apply bool_decide_eq_true. apply elem_of_map. by exists e.
Qed.

(** The datapoints' half. *)
Lemma left_names (set : Settings) (dps : list datapointSeen) (n : DatapointName) :
n ∈ Datapoints set ->
is_Some (foldl (fun m d => delete (dp_key d) m) (names_of set) dps !! name_key n) <-> name_key n ∉ map dp_key dps.
Proof.
intros Hn. rewrite lookup_delete_all. destruct (decide (name_key n ∈ map dp_key dps)) as [Hin|Hin].
- split; [by intros []|done].
- split; [done|]. intros _. apply names_dom. left. apply elem_of_map. by exists n.
Qed.
Lemma datapoint_list_ok (set : Settings) (dps : list datapointSeen) (m : gmap dpKey datapointSeen) :
NoDup (map dp_key dps) -> (forall k, k ∈ map dp_key dps <-> is_Some (m !! k)) ->
(forall d, d ∈ dps <-> m !! dp_key d = Some d) ->
(NoDup (map name_key (Datapoints set)) -> NoDup (map (fun x => dp_key (dps_Seen x)) (datapoint_list set dps))) /\
(forall k, k ∈ map (fun x => dp_key (dps_Seen x)) (datapoint_list set dps) <->
           is_Some (m !! k) \/ k ∈ map name_key (Datapoints set)) /\
(forall x d, x ∈ datapoint_list set dps -> m !! dp_key (dps_Seen x) = Some d -> dps_Seen x = d) /\
(forall n, NoDup (map name_key (Datapoints set)) -> n ∈ Datapoints set ->
   mkDatapointStatus (default (unseen n) (m !! name_key n)) (dn_Name n) (dn_Unit n) ∈ datapoint_list set dps).
Proof.
intros Hnd Hin Hv. set (rest := filter (fun n => name_key n ∉ map dp_key dps) (Datapoints set)).
assert (Hl : datapoint_list set dps = map (named_seen (names_of set)) dps ++
  map (fun n => mkDatapointStatus (unseen n) (dn_Name n) (dn_Unit n)) rest).
{ unfold datapoint_list, rest. do 2 f_equal. apply filter_members. intros n Hn. by apply left_names. }
assert (Hs : forall d, dps_Seen (named_seen (names_of set) d) = d).
{ intros d. unfold named_seen. by destruct (names_of set !! dp_key d). }
assert (Hk : map (fun x => dp_key (dps_Seen x)) (datapoint_list set dps) = map dp_key dps ++ map name_key rest).
{ rewrite Hl, map_app, !map_map. f_equal. apply map_ext. intros d. by rewrite Hs. }
assert (Hr : forall k, k ∈ map name_key rest <-> k ∈ map name_key (Datapoints set) /\ k ∉ map dp_key dps).
{ intros k. rewrite !(elem_of_map name_key). unfold rest. split.
  - intros (n & -> & [Hn Hd]%list_elem_of_filter). split; [by exists n|done].
  - intros [(n & -> & Hd) Hn]. exists n. split; [done|]. by apply list_elem_of_filter. }
rewrite Hk. split_and!.
- intros Hdn. apply NoDup_app. split; [done|]. split; [intros k Hi Hx; apply Hr in Hx; by destruct Hx|].
  eapply sublist_NoDup; [exact Hdn|]. apply fmap_sublist, sublist_filter.
- intros k. rewrite elem_of_app, Hr, Hin. destruct (decide (is_Some (m !! k))); tauto.
- intros x d. rewrite Hl, elem_of_app, !elem_of_map. intros [(d' & -> & Hd')|(n & -> & Hn)].
  + rewrite Hs, (proj1 (Hv d') Hd'). by intros [= <-].
  + apply list_elem_of_filter in Hn as [Hno _]. cbn [dps_Seen]. intros Hm. destruct Hno. apply Hin. by exists d.
- intros n Hdn Hn. rewrite Hl, elem_of_app. destruct (m !! name_key n) as [d|] eqn:Em; cbn [default from_option id].
  + left. apply elem_of_map. exists d. assert (Hd : d ∈ dps /\ dp_key d = name_key n).
    { assert (He : name_key n ∈ map dp_key dps) by (apply Hin; by exists d). apply elem_of_map in He as (d' & Ek & Hd').
      pose proof (proj1 (Hv d') Hd') as Hm. rewrite <- Ek, Em in Hm. by injection Hm as ->. }
    destruct Hd as [Hd Ek]. split; [|done]. unfold named_seen. rewrite Ek. unfold names_of. by rewrite names_unique.
  + right. apply elem_of_map. exists n. split; [done|]. unfold rest. apply list_elem_of_filter. split; [|done].
    rewrite Hin, Em. by intros [].
Qed.
End Page.

(** * The consumer *)

(** The client is the only live one, on the broker and topic set; without a
    broker none is live. *)
Definition consumer_ok (c : mqttConsumer) : Prop :=
  match client c with
  | Some k => broker c <> "" /\ live c = {[k := mkClient (broker c) (topic c)]}
  | None => broker c = "" /\ live c = ∅
  end.

Lemma consumer_new : consumer_ok new_consumer.
Proof. done. Qed.
Lemma mqtt_apply_ok b t c :
  consumer_ok c -> consumer_ok (mqtt_apply b t c) /\ broker (mqtt_apply b t c) = b /\ topic (mqtt_apply b t c) = t.
Proof.
  unfold mqtt_apply. destruct (decide (b = broker c /\ t = topic c)) as [[-> ->]|_]; [done|]. intros Hc.
  assert (He : match client c with Some k => delete k (live c) | None => live c end = ∅).
  { unfold consumer_ok in Hc. destruct (client c); destruct Hc as [_ ->]; [apply delete_singleton_eq|done]. }
  rewrite He. by destruct (decide (b = "")).
Qed.

(** * The page *)

Section Site.
Context {W : Type} `{InfluxHTTP W, LineEnv, SettingsEnv, ServerEnv}.

(** The status page lists every gateway and every datapoint: after any
    messages under any settings, each gateway that sent something or is
    registered is there exactly once, with its counters (zero if it was
    silent), its name, and whether it is registered; each datapoint that was
    seen or is named is there with what was last seen of it, and a named
    one under its name and unit; once each, unless the settings name a
    datapoint twice. *)
Theorem status_lists_everything ms b (sv : site W) gws dps gs :
s_store sv = serve_all ms (newStore b) -> settings_ok (cur (s_settings sv)) -> handleStatus sv = (gws, dps, gs) ->
let s := s_store sv in
let set := cur (s_settings sv) in
(NoDup (map (fun x => gw_ID (gs_Stats x)) gws) /\
 (forall id, id ∈ map (fun x => gw_ID (gs_Stats x)) gws <->
    is_Some (gateways s !! id) \/ id ∈ map ge_ID (Gateways set)) /\
 (forall x, x ∈ gws -> let id := gw_ID (gs_Stats x) in
    gs_Stats x = default (silent_gateway id) (gateways s !! id) /\
    gs_Name x = default "" (gatewayName id set) /\ gs_Registered x = bool_decide (id ∈ map ge_ID (Gateways set)))) /\
((forall k, k ∈ map (fun x => dp_key (dps_Seen x)) dps <->
    is_Some (datapoints s !! k) \/ k ∈ map name_key (Datapoints set)) /\
 (forall x d, x ∈ dps -> datapoints s !! dp_key (dps_Seen x) = Some d -> dps_Seen x = d) /\
 (NoDup (map name_key (Datapoints set)) ->
    NoDup (map (fun x => dp_key (dps_Seen x)) dps) /\
    forall n, n ∈ Datapoints set ->
      mkDatapointStatus (default (unseen n) (datapoints s !! name_key n)) (dn_Name n) (dn_Unit n) ∈ dps)) /\
gs = gaps s.
Proof.
intros Hs Hok Hh s set. unfold handleStatus, snapshot in Hh. injection Hh as <- <- <-.
assert (Hk : keyed s) by (unfold s; rewrite Hs; apply keyed_serve_all, keyed_new). destruct Hk as [Hg Hd].
destruct (sorted_keys gw_ID gateway_le (gateways s) Hg) as (Hg1 & Hg2 & Hg3).
destruct (sorted_keys dp_key datapoint_le (datapoints s) Hd) as (Hd1 & Hd2 & Hd3).
split; [|split; [|done]].
- apply (gateway_list_ok set _ (gateways s)); [done|exact Hg2|exact Hg3|apply Hok].
- destruct (datapoint_list_ok set _ (datapoints s) Hd1 Hd2 Hd3) as (Ho & Hk2 & Hk3 & Hnm).
  split_and!; [exact Hk2|exact Hk3|]. intros Hn. split; [by apply Ho|]. intros n. by apply Hnm.
Qed.

(** The bucket check touches only the writer. *)
Lemma ensure_new_bucket_frame next (sv : site W) r sv' :
ensure_new_bucket next sv = (r, sv') ->
s_settings sv' = s_settings sv /\ s_store sv' = s_store sv /\ s_mqtt sv' = s_mqtt sv /\
match s_influx sv with
| None => sv' = sv /\ r = Ok tt
| Some w => if decide (Influx next = Influx (cur (s_settings sv))) then sv' = sv /\ r = Ok tt
            else exists w', ensureBucket (Bucket (Influx next)) (RetentionDays (Influx next)) w = (r, w') /\
                            s_influx sv' = Some w'
end.
Proof.
unfold ensure_new_bucket. destruct (s_influx sv) as [w|]; [|by intros [= <- <-]].
destruct (decide _); [by intros [= <- <-]|]. destruct (ensureBucket _ _ w) as [r' w'] eqn:E.
intros [= <- <-]. split_and!; try done. by exists w'.
Qed.

(** C40. Saving the settings is all or nothing for the settings, their file and
    the consumer: any answer but 200 leaves the three and the stored readings
    as they were, and a 400 leaves everything as it was; a 200 makes the
    normalised, valid settings current and writes them to the file, leaves the
    consumer with one live client of the new broker and topic (none without
    a broker), and comes after InfluxDB confirmed the new bucket if
    the bucket settings changed. *)
Theorem put_settings_outcome now_ms body (sv sv' : site W) code r :
handlePutSettings now_ms body sv = ((code, r), sv') -> consumer_ok (s_mqtt sv) ->
s_store sv' = s_store sv /\ consumer_ok (s_mqtt sv') /\
match r with
| Err e =>
  code = (match e with BadBody | Rejected _ => 400 | BucketFailed _ => 502 | NotSaved _ => 500 end) /\
  cur (s_settings sv') = cur (s_settings sv) /\ file (s_settings sv') = file (s_settings sv) /\
  s_mqtt sv' = s_mqtt sv /\ (code = 400 -> sv' = sv)
| Ok saved =>
  code = 200 /\ saved = normalize (default saved body) /\ is_Some body /\ settings_ok saved /\
  cur (s_settings sv') = saved /\ (path (s_settings sv) <> "" -> file (s_settings sv') = Some saved) /\
  broker (s_mqtt sv') = BrokerURL (MQTT saved) /\ topic (s_mqtt sv') = DataTopic (MQTT saved) /\
  (forall w, s_influx sv = Some w -> Influx saved <> Influx (cur (s_settings sv)) ->
     (ensureBucket (Bucket (Influx saved)) (RetentionDays (Influx saved)) w).1 = Ok tt)
end.
Proof.
intros Hp Hc. unfold handlePutSettings in Hp. destruct body as [next|]; [|by injection Hp as <- <- <-].
destruct (validate (normalize next)) as [[]|e]; [|by injection Hp as <- <- <-].
destruct (ensure_new_bucket (normalize next) sv) as [rb sv1] eqn:Eb.
apply ensure_new_bucket_frame in Eb as (Hset & Hsto & Hmq & Hin).
destruct rb as [[]|e]; [|injection Hp as <- <- <-; by rewrite Hset, Hsto, Hmq].
rewrite Hset, Hsto, Hmq in Hp.
destruct (ServerSettings.set (normalize next) (s_settings sv)) as [rs st] eqn:Es.
apply set_settings in Es as [_ Es]. destruct rs as [saved|e].
2:{ injection Hp as <- <- <-. cbn [s_settings s_store s_mqtt]. destruct Es as [-> ->]. split_and!; done. }
destruct Es as (Hn & Hcur & _ & Hok & Hf). rewrite normalize_idem in Hn. injection Hp as <- <- Hsv.
destruct (mqtt_apply_ok (BrokerURL (MQTT saved)) (DataTopic (MQTT saved)) (s_mqtt sv) Hc) as (Hc' & Hb & Ht).
assert (Hw : s_settings sv' = st /\ s_store sv' = s_store sv /\
  s_mqtt sv' = mqtt_apply (BrokerURL (MQTT saved)) (DataTopic (MQTT saved)) (s_mqtt sv)).
{ rewrite <- Hsv. unfold write_names, follow. cbn [s_influx s_settings s_store s_mqtt].
  destruct (s_influx sv1) as [w|]; [|done]. by destruct (writeMeta _ _ _ w). }
destruct Hw as (-> & -> & ->). split_and!; try done. intros w Hi Hne. rewrite Hi in Hin. rewrite Hn in Hne |- *.
rewrite decide_False in Hin by done. by destruct Hin as (w' & -> & _).
Qed.
End Site.

(** * A site *)

#[local] Existing Instance sample_server.
#[local] Existing Instance sample_settings_env.
#[local] Existing Instance line_env.
#[local] Existing Instance fresh_influx.

(** One gateway registered and silent, one named datapoint never seen. *)
Definition page_settings : Settings :=
  mkSettings (mkFault faultNone 0) false [mkEntry "GW1" "one"] [mkName "GW1" 1 2 "pressure" "bar"]
    (mkMQTT "tcp://host:1883" "gateway/+/data") (ServerSettings.mkInflux "gateway" 30).
Definition page_message : Message := mkMessage "GW2" "s" 7 7 [sample_chunk].
Definition page_traffic : list (Settings * Message) := [(page_settings, page_message); (page_settings, page_message)].
Definition page_site : site (list request) :=
  mkSite (mkSettingsStore "/data/settings.json" page_settings (Some page_settings))
    (serve_all page_traffic (newStore false)) None
    (mqtt_apply "tcp://host:1883" "gateway/+/data" new_consumer).

Lemma triple_eta {A B C} (p : A * B * C) : p = (p.1.1, p.1.2, p.2).
Proof. by destruct p as [[]]. Qed.
Lemma page_store : s_store page_site = serve_all page_traffic (newStore false).
Proof. unfold page_site. cbn [s_store]. reflexivity. Qed.
Lemma page_settings_ok : settings_ok page_settings.
Proof. by apply validate_ok. Qed.

Lemma status_lists_everything_witness :
  NoDup (map (fun x => gw_ID (gs_Stats x)) (handleStatus page_site).1.1) /\
  map (fun x => (gw_ID (gs_Stats x), gs_Name x, gs_Registered x, gw_Readings (gs_Stats x))) (handleStatus page_site).1.1
    = [("GW2", "", false, 2); ("GW1", "one", true, 0)] /\
  map (fun x => (dp_key (dps_Seen x), dps_Name x)) (handleStatus page_site).1.2
    = [(("GW2", 1, 2), ""); (("GW2", 1, 3), ""); (("GW1", 1, 2), "pressure")].
Proof.
  split; [|by vm_compute].
  exact (proj1 (proj1 (status_lists_everything page_traffic false
    page_site _ _ _ page_store page_settings_ok (triple_eta (handleStatus page_site))))).
Defined.

(** Names are not checked for duplicates: a datapoint named twice that has not
    been seen is listed twice. *)
Example named_twice :
  let set := mkSettings (mkFault faultNone 0) false [] [mkName "GW1" 1 2 "pressure" "bar"; mkName "GW1" 1 2 "p" ""]
    (mkMQTT "" "gateway/+/data") (ServerSettings.mkInflux "gateway" 30) in
  validate set = Ok tt /\
  map (fun x => (dp_key (dps_Seen x), dps_Name x)) (datapoint_list set []) = [(("GW1", 1, 2), "pressure"); (("GW1", 1, 2), "p")].
Proof. by vm_compute. Qed.

(** A broker is taken away while InfluxDB is on, and the retention changed. *)
Definition next_settings : Settings :=
  mkSettings (mkFault " none" 0) false [mkEntry "GW1 " "one"] [] (mkMQTT "" "gateway/+/data")
    (ServerSettings.mkInflux "gateway" 90).
Definition influx_site : site (list request) :=
  mkSite (s_settings page_site) (s_store page_site) (Some (Influx.mkInflux None [])) (s_mqtt page_site).

Definition next_saved : Settings :=
  mkSettings (mkFault faultNone 0) false [mkEntry "GW1" "one"] [] (mkMQTT "" "gateway/+/data")
    (ServerSettings.mkInflux "gateway" 90).
Definition influx_next : site (list request) := (handlePutSettings 0 (Some next_settings) influx_site).2.

Lemma put_next : handlePutSettings 0 (Some next_settings) influx_site = ((200, Ok next_saved), influx_next).
Proof. by vm_compute. Qed.
Lemma influx_site_consumer : consumer_ok (s_mqtt influx_site).
Proof. by vm_compute. Qed.
Lemma influx_site_writer : s_influx influx_site = Some (Influx.mkInflux None []).
Proof. unfold influx_site. cbn [s_influx]. reflexivity. Qed.
Lemma next_differs : Influx next_saved <> Influx (cur (s_settings influx_site)).
Proof. unfold influx_site, page_site. cbn [s_settings cur]. discriminate. Qed.

Lemma put_settings_outcome_witness :
  (ensureBucket "gateway" 90 (Influx.mkInflux None ([] : list request))).1 = Ok tt /\
  broker (s_mqtt influx_next) = "" /\ consumer_ok (s_mqtt influx_next).
Proof.
  destruct (put_settings_outcome 0 (Some next_settings) influx_site influx_next 200 (Ok next_saved)
    put_next influx_site_consumer) as (_ & Hc & _ & _ & _ & _ & _ & _ & Hb & _ & Hw).
  split; [|split; [exact Hb|exact Hc]]. exact (Hw _ influx_site_writer next_differs).
Defined.
