(* ===== verification/Logging.v ===== *)
(** The logger (internal/logger) and its page (internal/api/logs.go): levels,
    the handler that keeps the last records, the loggers derived from it, and
    what the page shows.

    The two handlers of log/slog that print to standard output are a list of
    what they were given.  slog drops a record whose level is not enabled
    before any handler sees it. *)

From S2P Require Import Prelude.
From S2P Require Import GoStrings.
From S2P Require Import GoText.
From S2P Require Import Observers.

Local Open Scope string_scope.
Local Open Scope list_scope.
Local Open Scope Z_scope.

Inductive Level := LevelDebug | LevelInfo | LevelWarn | LevelError.
#[export] Instance Level_eq_dec : EqDecision Level.
Proof. solve_decision. Defined.

(** slog's numbers and texts. *)
Definition level_num (l : Level) : Z :=
  match l with LevelDebug => -4 | LevelInfo => 0 | LevelWarn => 4 | LevelError => 8 end.
Definition level_String (l : Level) : string :=
  match l with LevelDebug => "DEBUG" | LevelInfo => "INFO" | LevelWarn => "WARN" | LevelError => "ERROR" end.

(** The level and the format the configuration names. *)
Definition parse_level (level : string) : Level :=
  if decide (ToLower level = "debug") then LevelDebug
  else if decide (ToLower level = "warn") then LevelWarn
  else if decide (ToLower level = "error") then LevelError
  else LevelInfo.
Definition is_json (format : string) : bool := bool_decide (ToLower format = "json").

Section Logger.
Context {V : Type}.

Record record := mkRecord { rec_Time : Z; rec_Level : Level; rec_Message : string; rec_Attrs : list (string * V) }.
Record Entry := mkLogEntry { e_Time : Z; e_Level : string; e_Message : string; e_Attrs : gmap string V }.

(** What a derived logger has bound, in order. *)
Inductive binding := WithAttrs (attrs : list (string * V)) | WithGroup (name : string).

(** A [RingBuffer]: the level and format of [next] and what was bound to it. *)
Record handler := mkHandler { h_level : Level; h_json : bool; h_bound : list binding }.

(** What the handlers share: the storage and standard output. *)
Record Logs := mkLogs { storage : ringStorage Entry; stdout : list (bool * list binding * record) }.

Definition NewWithRingBuffer (level format : string) (capacity : Z) : handler * Logs :=
let capacity := if capacity <=? 0 then 1 else capacity in
(mkHandler (parse_level level) (is_json format) [], mkLogs (mkRing [] capacity) []).

(** [New]: without the buffer. *)
Definition New (level format : string) : handler := (NewWithRingBuffer level format 0).1.

(** [Entries]. *)
Definition Entries (l : Logs) : list Entry := ring_snapshot (storage l).

Definition derive (b : binding) (h : handler) : handler := mkHandler (h_level h) (h_json h) (h_bound h ++ [b]).

Definition Enabled (h : handler) (l : Level) : bool := level_num (h_level h) <=? level_num l.

(** [Handle]'s entry: a later attribute replaces an earlier one of its key. *)
Definition log_entry (r : record) : Entry :=
mkLogEntry (rec_Time r) (level_String (rec_Level r)) (rec_Message r)
  (foldl (fun m '(k, v) => <[k := v]> m) ∅ (rec_Attrs r)).

Definition Handle (h : handler) (r : record) (l : Logs) : option Logs :=
s ← ring_add (log_entry r) (storage l);
Some (mkLogs s (stdout l ++ [(h_json h, h_bound h, r)])).

(** One call of a logger. *)
Definition log (h : handler) (r : record) (l : Logs) : option Logs :=
if Enabled h (rec_Level r) then Handle h r l else Some l.

Fixpoint log_all (hrs : list (handler * record)) (l : Logs) : option Logs :=
match hrs with
| [] => Some l
| (h, r) :: hrs => l ← log h r l; log_all hrs l
end.

(** * The page *)

Definition log_limit (query : string) : Z :=
if decide (query = "") then 200
else match Atoi query with
     | (n, None) => if 0 <? n then n else 200
     | _ => 200
     end.

Definition getLogs (buf : option (ringStorage Entry)) (query : string) : list Entry :=
match buf with
| None => []
| Some r => recent (log_limit query) (ring_snapshot r)
end.

(** * Facts *)

(** The last [n] elements. *)
Definition last_n {A} (n : Z) (l : list A) : list A := drop (length l - Z.to_nat n) l.

Lemma log_limit_pos q : 0 < log_limit q.
Proof.
unfold log_limit. case_decide; [lia|]. destruct (Atoi q) as [n [e|]]; [lia|].
destruct (0 <? n) eqn:E; zbool; lia.
Qed.
Lemma last_n_all {A} n (l : list A) : Z.of_nat (length l) <= n -> last_n n l = l.
Proof. intros Hn. unfold last_n. by replace (length l - Z.to_nat n)%nat with 0%nat by lia. Qed.
Lemma last_n_last_n {A} m n (l : list A) : last_n m (last_n n l) = last_n (Z.min m n) l.
Proof. unfold last_n. rewrite length_drop, drop_drop. f_equal. lia. Qed.
Lemma last_n_snoc {A} n (l : list A) x : 1 <= n -> last_n n (last_n n l ++ [x]) = last_n n (l ++ [x]).
Proof.
intros Hn. unfold last_n. rewrite !length_app, length_drop. cbn [length].
rewrite <- (drop_app_le l [x] (length l - Z.to_nat n)) by lia. rewrite drop_drop. f_equal. lia.
Qed.
Lemma recent_last_n {A} n (l : list A) : 0 <= n -> recent n l = last_n n l.
Proof.
intros Hn. unfold recent. destruct (n <? _) eqn:E; zbool; [|by rewrite last_n_all by lia].
unfold last_n. f_equal. lia.
Qed.

(** The records that are enabled, in order. *)
Definition logged (hrs : list (handler * record)) : list (handler * record) :=
filter (fun '(h, r) => Enabled h (rec_Level r)) hrs.

Lemma logged_cons h r hrs :
logged ((h, r) :: hrs) = if Enabled h (rec_Level r) then (h, r) :: logged hrs else logged hrs.
Proof.
unfold logged. rewrite filter_cons. case_decide as E; [by rewrite (Is_true_true_1 _ E)|].
apply Is_true_false_1 in E. by rewrite E.
Qed.

Lemma ring_add_last (e : Entry) (es : list Entry) c :
1 <= c -> ring_add e (mkRing (last_n c es) c) = Some (mkRing (last_n c (es ++ [e])) c).
Proof.
intros Hc. rewrite <- last_n_snoc by done. unfold ring_add. cbn [entries capacity].
destruct (c <? _) eqn:E; zbool; [|by rewrite (last_n_all c (last_n c es ++ [e])) by lia].
rewrite (proj2 (Z.ltb_ge c 0)) by lia. set (x := last_n c es ++ [e]) in *. unfold last_n. do 3 f_equal. lia.
Qed.

Lemma log_all_ring hrs (es : list Entry) c so :
1 <= c -> log_all hrs (mkLogs (mkRing (last_n c es) c) so) =
Some (mkLogs (mkRing (last_n c (es ++ map (fun p => log_entry p.2) (logged hrs))) c)
        (so ++ map (fun p => (h_json p.1, h_bound p.1, p.2)) (logged hrs))).
Proof.
intros Hc. revert es so. induction hrs as [|[h r] hrs IH]; intros es so; [by rewrite !app_nil_r|].
cbn [log_all]. unfold log. rewrite logged_cons. destruct (Enabled h (rec_Level r)).
- unfold Handle. cbn [storage stdout]. rewrite ring_add_last by done.
  cbn [mbind option_bind]. rewrite IH. cbn [map fst snd]. by rewrite <- !app_assoc.
- cbn [mbind option_bind]. apply IH.
Qed.

(** The log page shows the newest records: whatever is logged through the
    logger and those derived from it, logging never panics; standard output
    gets every enabled record, once and in order; and the page returns exactly
    the last of them, oldest first, as many as asked for, at most the capacity
    (one for a capacity that is not positive). *)
Theorem logs_latest level format cap hrs q :
exists l', log_all hrs (NewWithRingBuffer level format cap).2 = Some l' /\
stdout l' = map (fun p => (h_json p.1, h_bound p.1, p.2)) (logged hrs) /\
getLogs (Some (storage l')) q =
  last_n (Z.min (log_limit q) (Z.max 1 cap)) (map (fun p => log_entry p.2) (logged hrs)).
Proof.
unfold NewWithRingBuffer. set (c := if cap <=? 0 then 1 else cap).
assert (Hc : 1 <= c /\ c = Z.max 1 cap) by (unfold c; destruct (cap <=? 0) eqn:E; zbool; lia).
destruct Hc as [Hc Hmax]. cbn [snd]. change (mkRing [] c) with (mkRing (last_n c ([] : list Entry)) c).
rewrite log_all_ring by done. eexists. split; [done|]. split; [done|]. cbn [getLogs storage ring_snapshot entries].
rewrite recent_last_n by (pose proof (log_limit_pos q); lia). by rewrite last_n_last_n, Hmax.
Qed.
End Logger.
Arguments record V : clear implicits.
Arguments handler V : clear implicits.
Arguments Logs V : clear implicits.

(** A buffer that was to be disabled keeps the last record. *)
Example disabled_buffer_keeps_one :
  let '(h, l) := @NewWithRingBuffer string "info" "text" 0 in
  (l' ← log_all [(h, mkRecord 1 LevelInfo "a" []); (h, mkRecord 2 LevelDebug "b" []);
                 (derive (WithAttrs [("device", "PM001")]) h, mkRecord 3 LevelError "c" [("k", "v")])] l;
   Some (map e_Message (getLogs (Some (storage l')) ""), length (stdout l'))) = Some (["c"], 2%nat).
Proof. by vm_compute. Qed.
