(* ===== verification/Panels.v ===== *)
(** The routes of the API and the pages that only show state (internal/api:
    router.go, dashboard.go, diagnostics.go, storeforward.go; internal/system).

    The chi router and the operating system's statistics (gopsutil, the serial
    port library) are outside: chi's matching of a pattern is written out as it
    is documented (a segment in braces stands for any one segment), and the
    statistics are a class. *)

From S2P Require Import Prelude.
From S2P Require Import GoTime.
From S2P Require Import Float64.
From S2P Require Import GoStrings.
From S2P Require Import QueueDb.
From S2P Require Import QueueStore.
From S2P Require Import Forwarder.
From S2P Require Import Inventory.
From S2P Require Import Observers.
From S2P Require Import Api.
From S2P Require Import ConfigIo.
From S2P Require Import TimeService.
From S2P Require Import Config.
From S2P Require Import Gateway.
From S2P Require Import Poller.

Local Open Scope string_scope.
Local Open Scope list_scope.
Local Open Scope Z_scope.

(** * Routes (router.go) *)

(** The handlers, by name. *)
Inductive endpoint :=
| GetSystem | GetSerialPorts | GetTime
| ListConnections | CreateConnection | UpdateConnection | DeleteConnection
| ListDevices | CreateDevice | UpdateDevice | DeleteDevice
| ListDataPoints | CreateDataPoint | UpdateDataPoint | DeleteDataPoint
| TestDeviceConnection | TestDataPointRead
| GetStoreForwardStatus | GetStoreForwardStatistics | GetDiagnostics | GetDashboardSummary | GetLogs
| ExportConfig | ImportConfig | GetSettings | SaveSettings
| GetNetworkStatus | ApplyNetwork | ApplyNetworkDHCP | ConfirmNetwork.

Inductive segment := Lit (s : string) | Param.
Record route := mkRoute { rt_method : string; rt_pattern : list segment; rt_handler : endpoint }.

Definition routes : list route := [
  mkRoute "GET" [Lit "system"] GetSystem;
  mkRoute "GET" [Lit "system"; Lit "serial-ports"] GetSerialPorts;
  mkRoute "GET" [Lit "time"] GetTime;
  mkRoute "GET" [Lit "connections"] ListConnections;
  mkRoute "POST" [Lit "connections"] CreateConnection;
  mkRoute "PUT" [Lit "connections"; Param] UpdateConnection;
  mkRoute "DELETE" [Lit "connections"; Param] DeleteConnection;
  mkRoute "GET" [Lit "devices"] ListDevices;
  mkRoute "POST" [Lit "devices"] CreateDevice;
  mkRoute "PUT" [Lit "devices"; Param] UpdateDevice;
  mkRoute "DELETE" [Lit "devices"; Param] DeleteDevice;
  mkRoute "GET" [Lit "devices"; Param; Lit "datapoints"] ListDataPoints;
  mkRoute "POST" [Lit "devices"; Param; Lit "datapoints"] CreateDataPoint;
  mkRoute "PUT" [Lit "datapoints"; Param] UpdateDataPoint;
  mkRoute "DELETE" [Lit "datapoints"; Param] DeleteDataPoint;
  mkRoute "POST" [Lit "devices"; Param; Lit "test"] TestDeviceConnection;
  mkRoute "POST" [Lit "datapoints"; Param; Lit "test"] TestDataPointRead;
  mkRoute "GET" [Lit "store-forward"; Lit "status"] GetStoreForwardStatus;
  mkRoute "GET" [Lit "store-forward"; Lit "statistics"] GetStoreForwardStatistics;
  mkRoute "GET" [Lit "diagnostics"] GetDiagnostics;
  mkRoute "GET" [Lit "dashboard"; Lit "summary"] GetDashboardSummary;
  mkRoute "GET" [Lit "logs"] GetLogs;
  mkRoute "GET" [Lit "config"; Lit "export"] ExportConfig;
  mkRoute "POST" [Lit "config"; Lit "import"] ImportConfig;
  mkRoute "GET" [Lit "config"; Lit "settings"] GetSettings;
  mkRoute "PUT" [Lit "config"; Lit "settings"] SaveSettings;
  mkRoute "GET" [Lit "system"; Lit "network"] GetNetworkStatus;
  mkRoute "POST" [Lit "system"; Lit "network"] ApplyNetwork;
  mkRoute "POST" [Lit "system"; Lit "network"; Lit "dhcp"] ApplyNetworkDHCP;
  mkRoute "POST" [Lit "system"; Lit "network"; Lit "confirm"] ConfirmNetwork
].

(** A request below /api by its method and path segments. *)
Fixpoint matches (p : list segment) (path : list string) : bool :=
  match p, path with
  | [], [] => true
  | Lit s :: p, x :: path => (s =? x)%string && matches p path
  | Param :: p, x :: path => negb (x =? "")%string && matches p path
  | _, _ => false
  end.
Definition answers (m : string) (path : list string) (r : route) : Prop :=
  rt_method r = m /\ matches (rt_pattern r) path = true.
#[export] Instance answers_dec m path r : Decision (answers m path r).
Proof. unfold answers. apply _. Defined.
Definition dispatch (m : string) (path : list string) : list endpoint :=
  map rt_handler (filter (answers m path) routes).

(** Two patterns that no path matches both of. *)
Fixpoint apart (p q : list segment) : bool :=
  match p, q with
  | [], [] => false
  | Lit s :: p, Lit t :: q => negb (s =? t)%string || apart p q
  | _ :: p, _ :: q => apart p q
  | _, _ => true
  end.
Lemma apart_matches p q path : apart p q = true -> matches p path = true -> matches q path = true -> False.
Proof.
  revert q path. induction p as [|[s|] p IH]; intros [|[t|] q] [|x path]; cbn; try done.
  - intros Ha [Es%String.eqb_eq Hp]%andb_prop [Et%String.eqb_eq Hq]%andb_prop. subst.
    rewrite String.eqb_refl in Ha. cbn in Ha. by eapply IH.
  - intros Ha [_ Hp]%andb_prop [_ Hq]%andb_prop. by eapply IH.
  - intros Ha [_ Hp]%andb_prop [_ Hq]%andb_prop. by eapply IH.
  - intros Ha [_ Hp]%andb_prop [_ Hq]%andb_prop. by eapply IH.
Qed.
Definition distinct_routes (r r' : route) : Prop :=
  rt_method r <> rt_method r' \/ apart (rt_pattern r) (rt_pattern r') = true.
#[export] Instance distinct_routes_dec r r' : Decision (distinct_routes r r').
Proof. unfold distinct_routes. apply _. Defined.
Fixpoint pairwise (rs : list route) : bool :=
  match rs with [] => true | r :: rs => bool_decide (Forall (distinct_routes r) rs) && pairwise rs end.

(** At most one handler answers a request, so the order in which the routes
    are registered does not matter. *)
Theorem routes_unambiguous m path : (length (dispatch m path) <= 1)%nat.
Proof.
  assert (Hp : pairwise routes = true) by (by vm_compute). unfold dispatch. rewrite length_map. revert Hp.
  generalize routes. intros rs. induction rs as [|r rs IH]; [cbn; lia|].
  cbn [pairwise]. intros [Hf%bool_decide_eq_true Hp]%andb_prop. rewrite filter_cons. case_decide as Hr; [|by apply IH].
  enough (filter (answers m path) rs = []) as -> by (cbn; lia).
  clear IH Hp. induction Hf as [|r' rs Hd Hf IH]; [done|]. rewrite filter_cons, decide_False; [done|].
  intros [Hm' Hp']. destruct Hr as [Hm Hp]. destruct Hd as [Hd|Hd]; [congruence|]. by eapply apart_matches.
Qed.

(** [NewRouter]: the API below /api, and the files of the page for any other
    path when there is a directory for them; the router answers 404 or 405 by
    itself. *)
Inductive target := ToEndpoint (e : endpoint) | ToStaticFiles | Refused.
Definition NewRouter (static_dir m : string) (path : list string) : target :=
  match path with
  | "api" :: rest => match dispatch m rest with e :: _ => ToEndpoint e | [] => Refused end
  | _ => if (static_dir =? "")%string then Refused else ToStaticFiles
  end.

(** * Host statistics (internal/system) *)

(** What gopsutil, the Go runtime and the file system report; [Err] is a call
    that failed. *)
Record MemStat := mkMem { vm_UsedPercent : f64; vm_Total : Z; vm_Used : Z }.
Record DiskStat := mkDisk { du_UsedPercent : f64; du_Total : Z; du_Used : Z }.
Record Runtime := mkRuntime { rt_Uptime : f64; rt_Version : string; rt_Goroutines : Z; rt_NumCPU : Z }.
Class HostEnv := {
  host_runtime : Runtime;
  cpu_Percent : result string (list f64);
  mem_VirtualMemory : result string MemStat;
  host_disk : string -> result string DiskStat;
  file_size : string -> option Z;
  net_IOCounters : result string (list (Z * Z));
  serial_ports : result string (option (list string))
}.

Record SystemInfo := mkSystemInfo {
  si_Status : string;
  UptimeSec : f64;
  GoVersion : string;
  Goroutines : Z;
  NumCPU : Z;
  CPUPercent : option f64;
  si_Mem : option (f64 * f64 * f64);
  si_Disk : option (f64 * f64 * f64);
  si_Net : option (Z * Z);
  DBSizeBytes : option Z
}.

Definition ok_value {E A} (r : result E A) : option A := match r with Ok a => Some a | Err _ => None end.
Definition in_units (unit n : Z) : f64 := fdiv (of_Z n) (of_Z unit).

Section Host.
Context `{HostEnv}.

(** The size of the database with its -wal and -shm files, those that exist. *)
Definition db_size (path : string) : option Z :=
let sizes := omap (fun suffix => file_size (path +:+ suffix)) [""; "-wal"; "-shm"] in
match sizes with [] => None | _ => Some (foldl (fun n s => Int.i64 (n + s)) 0 sizes) end.

(** [Current]; each statistic that fails is left out by itself. *)
Definition system_Current (diskPath : string) : SystemInfo :=
let rt := host_runtime in
mkSystemInfo "ok" (rt_Uptime rt) (rt_Version rt) (rt_Goroutines rt) (rt_NumCPU rt)
  (pct ← ok_value cpu_Percent; head pct)
  (vm ← ok_value mem_VirtualMemory;
   Some (vm_UsedPercent vm, in_units 1048576 (vm_Total vm), in_units 1048576 (vm_Used vm)))
  (if decide (diskPath = "") then None
   else du ← ok_value (host_disk diskPath);
        Some (du_UsedPercent du, in_units 1073741824 (du_Total du), in_units 1073741824 (du_Used du)))
  (io ← ok_value net_IOCounters; head io)
  (if decide (diskPath = "") then None else db_size diskPath).

Definition getSystem (c : Config) : Z * SystemInfo := (200, system_Current (db_Path (Database c))).

Definition ListSerialPorts : result string (list string) :=
match serial_ports with Err e => Err e | Ok ports => Ok (default [] ports) end.
Definition getSerialPorts : Z * result string (list string) :=
match ListSerialPorts with Err e => (500, Err e) | Ok ports => (200, Ok ports) end.
End Host.

(** * Time panel (router.go) *)

Record timeDTO := mkTimeDTO {
  t_SystemTime : Z;
  t_Timezone : string;
  t_NTPServer : string;
  t_NTPStatus : bool;
  t_LastSync : option Z;
  t_ClockOffsetMs : option f64;
  t_RTCStatus : bool;
  t_RTCTime : option Z;
  t_TimeQuality : Quality
}.

Definition getTime {W} `{TimeEnv W} (c : Config) (svc : option TimeService.Service) (w : W) : timeDTO * W :=
  match svc with
  | None =>
    let '(now, w) := TimeService.time_now w in
    (mkTimeDTO now (Config.Timezone (Time c)) "" false None None false None QualityUnsynced, w)
  | Some svc =>
    let '(st, w) := get_Status svc w in
    (mkTimeDTO (SystemTime st) (TimeService.Timezone st) (st_NTPServer st) (NTPSynced st) (LastSync st)
       (in_units millisecond <$> ClockOffset st) (RTCAvailable st) (RTCTimeRead st) (TimeQuality st), w)
  end.

(** * Dashboard and diagnostics (dashboard.go, diagnostics.go) *)

Record dashboardSummaryDTO := mkDashboard { DeviceCount : Z; EnabledDeviceCount : Z; DataPointCount : Z }.

Definition getDashboardSummary `{InvEnv} (a : Api) : response dashboardSummaryDTO * Api :=
  match run device_Count a with
  | (Err e, a) => ((500, ErrorBody (RepoFailed e)), a)
  | (Ok (total, enabled), a) =>
    match run datapoint_CountAll a with
    | (Err e, a) => ((500, ErrorBody (RepoFailed e)), a)
    | (Ok points, a) => ((200, JSON (mkDashboard total enabled points)), a)
    end
  end.

Definition queueWriteRatePerSec (q : option Store) : f64 :=
  match q with None => of_Z 0 | Some q => st_WriteRatePerSec (stats q) end.

Definition no_results : Snapshot := mkSnapshot 0 0 0 0 0 (of_Z 0).
Definition getDiagnostics (d : option Diag) (q : option Store) : Snapshot * f64 :=
  (match d with None => no_results | Some d => diag_Snapshot d end, queueWriteRatePerSec q).

(** * Store and forward (storeforward.go) *)

Record storeForwardStatusDTO := mkStoreForward {
  sf_Enabled : bool;
  sf_Queue : Stats;
  StorageUsedPercent : option f64;
  sf_StorageLevel : option StorageLevel;
  ServerConnected : bool;
  ServerLastError : string;
  ServerLastSentAt : option Z
}.

(** The zero values, but for the configured limit. *)
Definition no_queue (c : Config) : Stats :=
  mkStats "" 0 0 0 None None 0 (q_MaxBytes (Queue c)) 0 0 (of_Z 0) (of_Z 0).

Definition getStoreForwardStatus `{DiskEnv} (c : Config) (q : option Store) (fwd : option Forwarder.Status) (t : nat) :
  storeForwardStatusDTO :=
  let pct := ok_value (DiskUsagePercent (q_Path (Queue c)) t) in
  let st := default (Forwarder.mkStatus false "" None None) fwd in
  mkStoreForward (bool_decide (is_Some q)) (from_option stats (no_queue c) q) pct
    ((fun p => ClassifyStorageLevel p (fsub (of_Z 100) (q_MinFreePercent (Queue c)))) <$> pct)
    (Connected st) (Forwarder.LastError st) (LastSuccessAt st).
Definition getStoreForwardStatistics `{DiskEnv} := getStoreForwardStatus.

(** ** Facts *)

(** A query that is answered reads the tables and changes nothing. *)
Lemma select_answered `{InvEnv} {A} (f : Tables -> A) a x a' :
  run (select f) a = (Ok x, a') -> x = f (tables (inv a)) /\ tables (inv a') = tables (inv a).
Proof.
  unfold run, select, statement. destruct (inv_fault (stmts (inv a))); [done|]. by intros [= <- <-].
Qed.

(** The dashboard counts what is stored, or answers 500: the three counts are
    those of the tables, and the enabled devices are among the devices. *)
Theorem dashboard_counts `{InvEnv} a r a' :
  getDashboardSummary a = (r, a') ->
  let t := tables (inv a) in
  tables (inv a') = t /\
  match r with
  | (200, JSON d) =>
    DeviceCount d = Z.of_nat (length (t_device t)) /\ DataPointCount d = Z.of_nat (length (t_datapoint t)) /\
    0 <= EnabledDeviceCount d <= DeviceCount d
  | (500, ErrorBody (RepoFailed RepoSql)) => True
  | _ => False
  end.
Proof.
  unfold getDashboardSummary, device_Count, datapoint_CountAll.
  assert (Hf : forall A (f : Tables -> A) b e b', run (select f) b = (Err e, b') -> e = RepoSql /\ tables (inv b') = tables (inv b)).
  { intros A f b e b'. unfold run, select, statement. by destruct (inv_fault (stmts (inv b))); intros [= <- <-]. }
  destruct (run (select (fun t => (Z.of_nat _, _))) a) as [[[n k]|e] a1] eqn:E1.
  2:{ apply Hf in E1 as [-> Ht]. intros [= <- <-]. by rewrite Ht. }
  apply select_answered in E1 as [[= -> ->] Ht1]. destruct (run (select _) a1) as [[pts|e] a2] eqn:E2.
  2:{ apply Hf in E2 as [-> Ht]. intros [= <- <-]. by rewrite Ht, Ht1. }
  apply select_answered in E2 as [-> Ht2]. intros [= <- <-]. rewrite Ht2, Ht1. cbn [DeviceCount DataPointCount EnabledDeviceCount].
  split_and!; try done; [lia|]. apply inj_le. apply length_filter.
Qed.

(** * The exported file (configio.go) *)

(** The sections of config.yaml an export shows; [importConfig] ignores them. *)
Record gatewayExportDTO := mkGatewayExport { ge_ID : string; ge_Name : string }.
Record forwarderExportDTO := mkForwarderExport {
  fe_Transport : string;
  fe_ServerURL : string;
  fe_MaxReadingsPerMessage : Z;
  fe_PollIntervalMs : Z;
  fe_SendTimeoutMs : Z
}.
Record mqttExportDTO := mkMQTTExport {
  me_BrokerURL : string;
  me_ClientID : string;
  me_Username : string;
  me_QoS : Z;
  me_DataTopic : string;
  me_AckTopic : string;
  me_KeepAliveSec : Z;
  me_TLSEnabled : bool
}.
Record timeExportDTO := mkTimeExport { te_NTPServer : string; te_Timezone : string }.
Record configExportDTO := mkConfigExport {
  ce_ExportedAt : Z;
  ce_Gateway : gatewayExportDTO;
  ce_Forwarder : forwarderExportDTO;
  ce_MQTT : mqttExportDTO;
  ce_Time : timeExportDTO;
  ce_Inventory : configExport
}.

Definition export_file (now : Z) (c : Config) (inventory : configExport) : configExportDTO :=
  let f := Config.Forwarder c in let m := Config.MQTT c in
  mkConfigExport now (mkGatewayExport (gw_ID (Config.Gateway c)) (gw_Name (Config.Gateway c)))
    (mkForwarderExport (Transport f) (ServerURL f) (MaxReadingsPerMessage f) (PollIntervalMs f) (SendTimeoutMs f))
    (mkMQTTExport (BrokerURL m) (ClientID m) (Username m) (QoS m) (DataTopic m) (AckTopic m) (KeepAliveSec m)
       (Enabled (TLS m)))
    (mkTimeExport (Config.NTPServer (Time c)) (Config.Timezone (Time c))) inventory.

Definition download `{InvEnv} (now : Z) (c : Config) (a : Api) : response configExportDTO * Api :=
  match exportConfig a with
  | ((200, JSON inventory), a) => ((200, JSON (export_file now c inventory)), a)
  | ((code, ErrorBody e), a) => ((code, ErrorBody e), a)
  | ((code, _), a) => ((code, NoContent), a)
  end.
