(* ===== verification/Plant.v ===== *)
(** A gateway and its server running: the queue's interleaved steps
    (file QueueSteps) with the forwarder's transport, a network and the
    reference server in the place of the abstract send.

    The network is what was ever put on it: a message that was published or
    posted may reach the server any number of times, late, in any order, or
    never, and so may every acknowledgement and response on the way back.  In
    between pollers append, the flusher writes, the maintenance loop evicts,
    statements fail, the gateway's process dies and is started again, the
    MQTT connection comes and goes, other gateways send to the same server, and
    somebody changes the server's settings.  What [Send] makes of the
    acknowledgements is the adapters' own code. *)

From S2P Require Import Prelude.
From S2P Require Import Codec.
From S2P Require Import QueueDb.
From S2P Require Import QueueStore.
From S2P Require Import QueueFacts.
From S2P Require Import QueueSteps.
From S2P Require Import Wire.
From S2P Require Import MqttAdapter.
From S2P Require Import Transports.
From S2P Require Import ServerStore.
From S2P Require Import ServerSettings.
From S2P Require Import Server.

Local Open Scope string_scope.
Local Open Scope list_scope.
Local Open Scope Z_scope.

(** The gateway's queue and goroutines, its MQTT adapter, the messages ever put
    on the network, the acknowledgements and HTTP responses the server ever
    gave, and the server. *)
Record Plant := mkPlant {
  gateway : Sys;
  adapter : MQTTAdapter;
  sent : list Message;
  acks_given : list AckMsg;
  responses : list (Message * (Z * string));
  far_end : server
}.

Definition set_gateway (S : Sys) (P : Plant) : Plant :=
  mkPlant S (adapter P) (sent P) (acks_given P) (responses P) (far_end P).
Definition set_adapter (a : MQTTAdapter) (P : Plant) : Plant :=
  mkPlant (gateway P) a (sent P) (acks_given P) (responses P) (far_end P).
Definition add_sent (m : Message) (P : Plant) : Plant :=
  mkPlant (gateway P) (adapter P) (sent P ++ [m]) (acks_given P) (responses P) (far_end P).
Definition set_far_end (v : server) (P : Plant) : Plant :=
  mkPlant (gateway P) (adapter P) (sent P) (acks_given P) (responses P) v.
Definition add_ack (a : option AckMsg) (P : Plant) : Plant :=
  mkPlant (gateway P) (adapter P) (sent P) (acks_given P ++ option_list a) (responses P) (far_end P).
Definition add_response (m : Message) (r : http_reply) (P : Plant) : Plant :=
  mkPlant (gateway P) (adapter P) (sent P) (acks_given P)
    (match r with Response code text => responses P ++ [(m, (code, text))] | Closed => responses P end) (far_end P).

(** The sender is waiting in [Send] for chunks [cs]; what it does when [Send]
    returns. *)
Definition returned (cs : list Chunk) (r : result string unit) (S : Sys) : Sys :=
  match r with
  | Ok _ => mkSys (st S) (fl S) (RArrived cs) (ev S) (hist S) (arrived S ++ cs) (crashes S)
  | Err _ => mkSys (st S) (fl S) RIdle (ev S) (hist S) (arrived S) (crashes S)
  end.

(** One HTTP exchange whose answer is [w]. *)
#[local] Instance answered : HttpWorld (result string (Z * string)) :=
  {| post := fun _ _ w => (w, w); http_now := fun _ => 0 |}.

Section Plant.
Context `{Env, Flate, ServerEnv}.
(** The gateway's id, and its HTTP adapter. *)
Context (gid : string) (http : HTTPAdapter).

(** The message for chunks [cs]. *)
Definition outgoing (S : Sys) (cs : list Chunk) : Message := buildMessage gid (streamID (st S)) cs.

Inductive plant_step : Plant -> Plant -> Prop :=
(* Anything the gateway does but send and die *)
| ps_gateway P S :
  step (gateway P) S -> arrived S = arrived (gateway P) -> crashes S = crashes (gateway P) ->
  plant_step P (set_gateway S P)
(* The process dies and is started again on the same file *)
| ps_restart P t o s c now :
  Open (db (st (gateway P))) t o = (Ok tt, s) -> quiet t ->
  plant_step P (set_adapter (NewMQTTAdapter c now)
    (set_gateway (mkSys s FIdle RIdle EIdle (hist (gateway P)) (arrived (gateway P)) (Datatypes.S (crashes (gateway P)))) P))
(* The message goes out: published, or posted *)
| ps_send P cs m :
  rd (gateway P) = RSend cs -> marshal (outgoing (gateway P) cs) = Ok m ->
  plant_step P (add_sent m P)
(* It reaches the server *)
| ps_mqtt_in P m ack sv :
  m ∈ sent P -> handleMQTT (Some m) (far_end P) = (ack, sv) ->
  plant_step P (add_ack ack (set_far_end sv P))
| ps_http_in P m resp sv :
  m ∈ sent P -> handleIngest (Ok m) (far_end P) = (resp, sv) ->
  plant_step P (add_response m resp (set_far_end sv P))
(* Another gateway's message does, or another stream's; or the settings change *)
| ps_other P m r sv :
  (m_GatewayID m, m_StreamID m) <> (gid, new_uuid) -> distinct_seqs m -> process m (far_end P) = (r, sv) ->
  plant_step P (set_far_end sv P)
| ps_settings P s :
  plant_step P (set_far_end (mkServer s (sstore (far_end P))) P)
(* [Send] returns, over MQTT after any events, over HTTP after any answer *)
| ps_mqtt_out P cs evs connected r a :
  rd (gateway P) = RSend cs ->
  (forall ack, AckArrives (Some ack) ∈ evs -> ack ∈ acks_given P) ->
  MqttAdapter.Send connected (outgoing (gateway P) cs) evs (adapter P) = (Some r, a) ->
  plant_step P (set_adapter a (set_gateway (returned cs r (gateway P)) P))
| ps_http_out P cs answer r w :
  rd (gateway P) = RSend cs ->
  (forall reply, answer = Ok reply -> (outgoing (gateway P) cs, reply) ∈ responses P) ->
  http_Send http (outgoing (gateway P) cs) answer = (r, w) ->
  plant_step P (set_gateway (returned cs r (gateway P)) P)
(* Acknowledgements nobody waits for, and the MQTT connection *)
| ps_late_ack P p :
  plant_step P (set_adapter (handleAck p (adapter P)) P)
| ps_connection P e :
  plant_step P (set_adapter (conn_step e (adapter P)).2 P).

(** A new gateway, and a server with a database that knows nothing of its
  stream. *)
Inductive plant_boot : Plant -> Prop :=
| pb_new S c now sv :
  boot S -> out (sstore sv) = true -> store_ok (sstore sv) ->
  (forall x, x ∈ written (sstore sv) -> (sc_key x).1 <> (gid, new_uuid)) ->
  plant_boot (mkPlant S (NewMQTTAdapter c now) [] [] [] sv).

Definition plant_reachable (P : Plant) : Prop := exists P0, plant_boot P0 /\ rtc plant_step P0 P.
End Plant.
