(* ===== verification/PlantProps.v ===== *)
(** What a gateway and its server guarantee together: every reading ever
    appended is in the server's database exactly once, or counted as
    evicted, dropped or lost, or still queued. *)

From S2P Require Import Prelude.
From S2P Require Import Codec.
From S2P Require Import QueueDb.
From S2P Require Import QueueStore.
From S2P Require Import QueueFacts.
From S2P Require Import QueueSteps.
From S2P Require Import QueueInvariant.
From S2P Require Import QueueProps.
From S2P Require Import QueueSource.
From S2P Require Import Wire.
From S2P Require Import MqttAdapter.
From S2P Require Import Transports.
From S2P Require Import ServerStore.
From S2P Require Import ServerSettings.
From S2P Require Import Server.
From S2P Require Import Pipeline.
From S2P Require Import Plant.

Local Open Scope string_scope.
Local Open Scope list_scope.
Local Open Scope Z_scope.

(** * What a step of the gateway makes of the chunks it knows *)

(** The chunks the sender holds, and all the gateway can still send. *)
Definition in_flight `{Env, Flate} (r : sender) : list Chunk :=
  match r with
  | RDeliver raw acc | RDiscarded _ raw acc => acc ++ map row_chunk raw
  | RSend cs | RArrived cs => cs
  | _ => []
  end.
Definition known `{Env, Flate} (S : Sys) : list Chunk := map row_chunk (chunk (db (st S))) ++ in_flight (rd S).

Definition ascending (cs : list Chunk) : Prop := StronglySorted (fun a b => Seq a < Seq b) cs.

(** The queue's stream is the one of its file. *)
Definition stream_ok `{Env} (s : Store) : Prop :=
  streamID s = new_uuid /\ meta (db s) !! "stream_id" = Some (VText new_uuid).

Section Frame.
Context `{Env, Flate}.

(** New rows come above all that was there, and the stream stays. *)
Record evolves (s s' : Store) : Prop := {
  ev_grows : grows (db s) (db s');
  ev_stream : stream_ok s -> stream_ok s'
}.

Lemma evolves_refl s : evolves s s.
Proof. split; [|done]. split; [lia|done]. Qed.

Lemma evolves_same s s' : db s' = db s -> streamID s' = streamID s -> evolves s s'.
Proof. intros Hd Hs. split; unfold stream_ok; rewrite Hd, ?Hs; [|done]. split; [lia|done]. Qed.

Lemma same_mem_stream s s' : same_mem s s' -> streamID s' = streamID s.
Proof. by intros ->. Qed.

Lemma add_meta_stream k v d : k <> "stream_id" -> meta (add_meta k v d) !! "stream_id" = meta d !! "stream_id".
Proof. intros Hk. unfold add_meta. cbn. destruct (meta d !! k) as [[]|]; by rewrite lookup_insert_ne. Qed.

Lemma insert_meta b d : meta (db_insert b d) !! "stream_id" = meta d !! "stream_id".
Proof. unfold db_insert. rewrite !add_meta_stream by done. by rewrite insert_all_eq. Qed.

Lemma delete_meta q k d : delete_key k -> meta (db_delete q k d) !! "stream_id" = meta d !! "stream_id".
Proof.
unfold delete_key, db_delete. intros [-> | ->]; cbn [String.eqb Ascii.eqb Bool.eqb];
  rewrite !add_meta_stream by done; done.
Qed.

Lemma evolves_insert b s r s' : insertChunks b s = (r, s') -> evolves s s'.
Proof.
intros (Hm & Hd)%insertChunks_inv. pose proof (same_mem_stream _ _ Hm) as Hs.
destruct Hd as [(e & _ & Hd)|[_ Hd]]; [by apply evolves_same|].
split; unfold stream_ok; rewrite Hd; [apply db_insert_grows|]. by rewrite insert_meta, Hs.
Qed.

Lemma evolves_delete q k s r s' : delete_key k -> deleteThrough q k s = (r, s') -> evolves s s'.
Proof.
intros Hk (Hm & Hd)%deleteThrough_inv. pose proof (same_mem_stream _ _ Hm) as Hs.
destruct Hd as [(e & _ & Hd)|[(_ & Hd & _)|[_ Hd]]]; [by apply evolves_same..|].
split; unfold stream_ok; rewrite Hd; [apply db_delete_grows|]. by rewrite delete_meta, Hs.
Qed.

Lemma evolves_query {A} (f : Db -> A) s r s' : query f s = (r, s') -> evolves s s'.
Proof. intros (Hm & Hd & _)%query_inv. apply evolves_same; [done|by apply same_mem_stream]. Qed.

(** Opening the file again keeps the stream; opening a new one makes it. *)
Lemma open_stream d t o r s :
quiet t -> Open d t o = (r, s) ->
meta d !! "stream_id" = None \/ meta d !! "stream_id" = Some (VText new_uuid) ->
stream_ok s.
Proof.
intros Hq. unfold Open, init. rewrite (bind_ok _ _ _ _ _ (setup_ok d t (with_defaults o) Hq)).
assert (Hread : meta d !! "stream_id" = None \/ meta d !! "stream_id" = Some (VText new_uuid) ->
  exists n d', (n <= 2)%nat /\ meta d' !! "stream_id" = Some (VText new_uuid) /\
  read_streamID (fresh d (t + 4)%nat (with_defaults o)) =
    (Ok tt, set_streamID new_uuid (fresh d' (t + 4 + n)%nat (with_defaults o)))).
{ intros Hm. unfold read_streamID, wrap, modify, mbind, M_bind.
  rewrite query_quiet by (apply Hq; cbn; lia). cbn [map_err fresh db].
  destruct Hm as [Hm|Hm]; rewrite Hm; cbv beta iota.
  - rewrite exec_quiet by (apply Hq; cbn; lia). cbn.
    exists 2%nat, (mkDb (chunk d) (seq_hi d) (<["stream_id" := VText new_uuid]> (meta d))).
    split_and!; [lia|cbn; apply lookup_insert_eq|]. by rewrite (Nat.add_comm _ 2).
  - exists 1%nat, d. split_and!; [lia|done|]. cbn. by rewrite Nat.add_1_r. }
intros Ho Hm. destruct (Hread Hm) as (n & d' & Hn & Hd' & Hr). rewrite (bind_ok _ _ _ _ _ Hr) in Ho.
do 3 (rewrite bind_modify, metaInt_quiet in Ho by (apply Hq; cbn; lia); cbv beta iota in Ho).
unfold modify in Ho. injection Ho as _ <-. unfold stream_ok.
set (s0 := set_evicted _ _). pose proof (key_refreshSize (refreshBounds s0)) as (-> & _)%key_eq.
pose proof (key_refreshBounds s0) as (-> & _)%key_eq.
rewrite streamID_refreshSize, streamID_refreshBounds. by split.
Qed.
End Frame.

Section Known.
Context `{Env, Flate}.

Lemma opened_grows d s : opened d s -> grows d (db s).
Proof. intros ((Hc & Hh & _) & _). unfold grows. rewrite Hc, Hh. split; [lia|done]. Qed.

Lemma evolves_step S S' : Inv S -> step S S' -> evolves (st S) (st S').
Proof.
intros Hi. destruct 1; sys; try apply evolves_refl.
- by apply evolves_same.
- pose proof (QueueProps.flush_collect_eq s) as (_ & Hd & _). apply evolves_same; [done|].
  unfold flush_collect. destruct (buf s); [done|]. by destruct (encodeChunk _).
- by eapply evolves_insert.
- pose proof (flush_written_eq b s) as (_ & _ & Hd & _). apply evolves_same; [done|apply streamID_flush_written].
- destruct (flush_failed_eq s) as [k ->]. by apply evolves_same.
- by apply evolves_same.
- by eapply evolves_query.
- destruct (i_sender _ Hi) as (Hok & _). apply Forall_inv in Hok as (rs & Hd & _). congruence.
- by destruct (i_sender _ Hi).
- by eapply evolves_delete; [left|].
- by apply evolves_same.
- pose proof (key_excessBytes _ _ _ H1) as (Hd & _)%key_eq. apply evolves_same; [done|].
  unfold excessBytes in H1. destruct (DiskUsage (opts s)); injection H1 as _ <-; done.
- by eapply evolves_query.
- by eapply evolves_delete; [right|].
- by apply evolves_same.
- pose proof (key_refreshBounds s) as (Hd & _)%key_eq. by apply evolves_same, streamID_refreshBounds.
- pose proof (key_compact s) as (Hd & _)%key_eq. by apply evolves_same, streamID_compact.
- pose proof (open_inv _ _ _ _ _ H2 H1) as [_ Ho]. split; [by apply opened_grows|].
  intros [_ Hm]. eapply open_stream; [exact H2|exact H1|by right].
Qed.

Lemma ascending_rows d : db_ok d -> ascending (map row_chunk (chunk d)).
Proof. intros Hok. destruct (ok_seqs _ Hok) as [Hs _]. by apply sorted_map_row_chunk. Qed.

(** The sender holds chunks it held before or that are in the table. *)
Lemma flight_step S S' :
Inv S -> step S S' -> ascending (in_flight (rd S)) ->
ascending (in_flight (rd S')) /\ in_flight (rd S') ⊆ known S.
Proof.
intros Hi Hstep Hs. assert (Hsub : in_flight (rd S) ⊆ known S) by (unfold known; set_solver).
assert (Hnil : forall r, in_flight r = [] -> ascending (in_flight r) /\ in_flight r ⊆ known S)
  by (intros r ->; split; [constructor|set_solver]).
destruct Hstep; sys; try done; try (by apply Hnil).
- apply query_inv in H1 as (_ & _ & [?|Hraw]); [done|]. injection Hraw as ->. cbn [in_flight app].
  destruct (read_rows m (db s)) as [[rest Hp] _]. pose proof (ascending_rows _ (i_db _ Hi)) as Ha. sys.
  rewrite Hp, map_app in Ha. split; [by eapply StronglySorted_app_1_l|].
  unfold known. sys. rewrite Hp at 2. rewrite map_app. set_solver.
- cbn [in_flight] in *. assert (E : row_chunk x = mkChunk (seq x) rs) by (unfold row_chunk, decoded; by rewrite H1).
  rewrite <- E, <- app_assoc. done.
- destruct (i_sender _ Hi) as (Hok & _). apply Forall_inv in Hok as (rs & Hd & _). congruence.
- destruct acc as [|c0 acc]; [by apply Hnil|]. cbn [batched in_flight map] in *. by rewrite app_nil_r in *.
- apply Hnil. by destruct res as [[]|].
Qed.

(** New chunks are above the old high-water mark, and nothing above the new. *)
Lemma known_hi S c : Inv S -> Forall (fun c => Seq c <= seq_hi (db (st S))) (in_flight (rd S)) ->
c ∈ known S -> Seq c <= seq_hi (db (st S)).
Proof.
intros Hi Hf Hc. apply elem_of_app in Hc as [Hc|Hc]; [|rewrite Forall_forall in Hf; by apply Hf].
apply list_elem_of_fmap in Hc as (x & -> & Hx). destruct (ok_seqs _ (i_db _ Hi)) as [_ Hh].
rewrite Forall_forall in Hh. by apply Hh.
Qed.

Lemma known_step S S' c :
Inv S -> step S S' -> ascending (in_flight (rd S)) -> c ∈ known S' ->
c ∈ known S \/ seq_hi (db (st S)) < Seq c /\ c ∈ map row_chunk (chunk (db (st S'))).
Proof.
intros Hi Hstep Hs Hc. destruct (flight_step _ _ Hi Hstep Hs) as [_ Hsub].
apply elem_of_app in Hc as [Hc|Hc]; [|left; by apply Hsub].
destruct (decide (Seq c <= seq_hi (db (st S)))) as [Hle|]; [|right; split; [lia|done]].
left. apply list_elem_of_fmap in Hc as (x & -> & Hx). apply elem_of_app. left. apply list_elem_of_fmap_2.
destruct (ev_grows _ _ (evolves_step _ _ Hi Hstep)) as [_ Hin]. by apply Hin.
Qed.
End Known.

(** * The invariant *)

#[local] Existing Instance answered.

Section Invariant.
Context `{Env, Flate, ServerEnv}.
Context (gid : string) (http : HTTPAdapter).

(** A message on the network: the gateway built it, and it holds everything
    the gateway still knows up to its last seq. *)
Record sent_ok (S : Sys) (m : Message) : Prop := {
so_id : m_GatewayID m = gid /\ m_StreamID m = new_uuid;
so_hi : m_ToSeq m <= seq_hi (db (st S));
so_distinct : distinct_seqs m;
so_covers : forall c, c ∈ known S -> Seq c <= m_ToSeq m -> wire_chunk c ∈ m_Chunks m
}.

(** [all]: every chunk the gateway ever had in its table. *)
Record plant_ok (all : list Chunk) (P : Plant) : Prop := {
po_queue : Inv (gateway P);
po_stream : stream_ok (st (gateway P));
po_flight : ascending (in_flight (rd (gateway P)));
po_all : forall c, c ∈ known (gateway P) -> c ∈ all;
po_all_hi : forall c, c ∈ all -> Seq c <= seq_hi (db (st (gateway P)));
po_all_once : forall c c', c ∈ all -> c' ∈ all -> Seq c = Seq c' -> c = c';
po_idle : pending (adapter P) = ∅ /\ pendingStream (adapter P) = ∅;
po_store : store_ok (sstore (far_end P)) /\ out (sstore (far_end P)) = true;
po_sent : forall m, m ∈ sent P -> sent_ok (gateway P) m /\
  forall w, w ∈ m_Chunks m -> exists c, c ∈ all /\ w = wire_chunk c;
po_acks : forall a, a ∈ acks_given P -> a_Error a = "" ->
  exists m, m ∈ sent P /\ a_ToSeq a = m_ToSeq m /\ has_message m (sstore (far_end P));
po_responses : forall m code text, (m, (code, text)) ∈ responses P -> 200 <= code < 300 ->
  has_message m (sstore (far_end P));
po_own : forall x, x ∈ written (sstore (far_end P)) -> (sc_key x).1 = (gid, new_uuid) ->
  exists c, c ∈ all /\ x = chunk_of gid new_uuid c;
po_arrived : forall c, c ∈ arrived (gateway P) -> c ∈ all /\ chunk_of gid new_uuid c ∈ written (sstore (far_end P))
}.

(** Bringing the ghost list up to date. *)
Definition learn (S S' : Sys) (all : list Chunk) : list Chunk :=
all ++ filter (fun c => seq_hi (db (st S)) < Seq c) (map row_chunk (chunk (db (st S')))).

Lemma all_rows_once d c c' : db_ok d -> c ∈ map row_chunk (chunk d) -> c' ∈ map row_chunk (chunk d) ->
Seq c = Seq c' -> c = c'.
Proof.
intros Hok (x & -> & Hx)%list_elem_of_fmap (y & -> & Hy)%list_elem_of_fmap Hs. cbn in Hs.
destruct (filter_seq_unique _ _ _ x (ok_seqs _ Hok) Hx eq_refl) as (l & k & Hl & Hf).
destruct (decide (y = x)) as [->|Hne]; [done|]. exfalso.
pose proof (ok_seqs _ Hok) as [Hss _]. rewrite Hl in Hss, Hy.
apply StronglySorted_app in Hss as (Hlt & _ & Hss). apply StronglySorted_inv in Hss as [_ Hk].
rewrite Forall_forall in Hk.
apply elem_of_app in Hy as [Hy|[->|Hy]%elem_of_cons]; [|done|].
- specialize (Hlt y x Hy ltac:(left)). cbn in Hlt. lia.
- specialize (Hk y Hy). cbn in Hk. lia.
Qed.

(** A change of the gateway alone. *)
Lemma plant_gateway all P S' :
step (gateway P) S' ->
(forall c, c ∈ arrived S' -> c ∈ arrived (gateway P) \/
   c ∈ all /\ chunk_of gid new_uuid c ∈ written (sstore (far_end P))) ->
plant_ok all P -> plant_ok (learn (gateway P) S' all) (set_gateway S' P).
Proof.
intros Hstep Ha [P1 P2 P3 P4 P5 P6 P7 P8 P9 P10 P11 P12 P13].
pose proof (inv_step _ _ Hstep P1) as I'. destruct (evolves_step _ _ P1 Hstep) as [[Hhi Hg] Hstr].
destruct (flight_step _ _ P1 Hstep P3) as [F1 F2].
assert (Hlearn : forall c, c ∈ learn (gateway P) S' all <-> c ∈ all \/
  seq_hi (db (st (gateway P))) < Seq c /\ c ∈ map row_chunk (chunk (db (st S')))).
{ intros c. unfold learn. by rewrite elem_of_app, list_elem_of_filter. }
assert (Hk : forall c, c ∈ known S' -> c ∈ known (gateway P) \/
  seq_hi (db (st (gateway P))) < Seq c /\ c ∈ map row_chunk (chunk (db (st S'))))
  by (intros c; by apply known_step).
split; cbn [set_gateway gateway adapter sent acks_given responses far_end]; try done.
- by apply Hstr.
- intros c [Hc|Hc]%Hk; apply Hlearn; [left; by apply P4|by right].
- intros c [Hc|[_ Hc]]%Hlearn; [specialize (P5 c Hc); lia|].
  apply list_elem_of_fmap in Hc as (x & -> & Hx). destruct (ok_seqs _ (i_db _ I')) as [_ Hh].
  rewrite Forall_forall in Hh. by apply Hh.
- intros c c' [Hc|[Hc1 Hc2]]%Hlearn [Hc'|[Hc1' Hc2']]%Hlearn Hs; [by apply P6| | |].
  + specialize (P5 c Hc). lia.
  + specialize (P5 c' Hc'). lia.
  + by apply (all_rows_once _ _ _ (i_db _ I')).
- intros m Hm. destruct (P9 m Hm) as [[S1 S2 S3 S4] Hw]. split.
  + split; [done|lia|done|]. intros c [Hc|[Hc _]]%Hk Hle; [by apply S4|lia].
  + intros w Hin. destruct (Hw w Hin) as (c & Hc & ->). exists c. split; [|done]. apply Hlearn. by left.
- intros x Hx Hkey. destruct (P12 x Hx Hkey) as (c & Hc & ->). exists c. split; [|done]. apply Hlearn. by left.
- intros c Hc. destruct (Ha c Hc) as [Hc'|[Hc' ?]]; [destruct (P13 c Hc') as [Hc'' ?]|];
    (split; [apply Hlearn; by left|done]).
Qed.

(** The server handles something: it forgets nothing, and what it writes of
    our stream it was sent. *)
Lemma plant_server all P m r sv acks resps :
process m (far_end P) = (r, sv) -> distinct_seqs m ->
(m ∈ sent P \/ (m_GatewayID m, m_StreamID m) <> (gid, new_uuid)) ->
(forall a, a ∈ acks -> a ∈ acks_given P \/ a_Error a <> "" \/
   m ∈ sent P /\ a_ToSeq a = m_ToSeq m /\ has_message m (sstore sv)) ->
(forall m0 code text, (m0, (code, text)) ∈ resps -> (m0, (code, text)) ∈ responses P \/ ~ 200 <= code < 300 \/
   m0 = m /\ has_message m (sstore sv)) ->
plant_ok all P -> plant_ok all (mkPlant (gateway P) (adapter P) (sent P) acks resps sv).
Proof.
intros Hp Hd Hm Hacks Hresps [P1 P2 P3 P4 P5 P6 P7 [P8 P8'] P9 P10 P11 P12 P13].
pose proof (process_grows _ _ _ _ Hp) as Hg. pose proof (process_ok _ _ _ _ Hd P8 Hp) as Hok.
pose proof (process_cases _ _ _ _ Hp) as (_ & Ho & Hc).
assert (Hhas : forall m0, has_message m0 (sstore (far_end P)) -> has_message m0 (sstore sv))
  by (intros m0 Hm0 c Hin; by apply Hg, Hm0).
assert (Hwr : forall x, x ∈ written (sstore sv) -> x ∈ written (sstore (far_end P)) \/
  exists w, w ∈ m_Chunks m /\ x = mkStored (chunk_key m w) (wc_Readings w)).
{ intros x Hx. destruct Hc as [(_ & Hw & _)|(_ & _ & Hw & _)]; rewrite Hw in Hx; [by left|].
  apply elem_of_app in Hx as [Hx|Hx]; [by left|]. right. destruct (out _); [|by apply elem_of_nil in Hx].
  apply list_elem_of_fmap in Hx as (w & -> & Hw'). apply list_elem_of_filter in Hw' as [_ Hw']. by exists w. }
assert (Hkeep : forall x, x ∈ written (sstore (far_end P)) -> x ∈ written (sstore sv)).
{ intros x Hx. destruct Hc as [(_ & Hw & _)|(_ & _ & Hw & _)]; rewrite Hw; [done|]. apply elem_of_app. by left. }
split; cbn [gateway adapter sent acks_given responses far_end]; try done.
- split; [done|congruence].
- intros a Ha He. destruct (Hacks a Ha) as [Hin|[?|(? & ? & ?)]]; [|done|by exists m].
  destruct (P10 a Hin He) as (m0 & ? & ? & ?). exists m0. split_and!; [done|done|by apply Hhas].
- intros m0 code text Hin Hcode. destruct (Hresps _ _ _ Hin) as [Hr|[?|[-> ?]]]; [|done|done].
  by eapply Hhas, P11.
- intros x Hx Hkey. destruct (Hwr x Hx) as [Hx'|(w & Hw & ->)]; [by apply P12|]. cbn in Hkey.
  destruct Hm as [Hm|Hm]; [|done]. destruct (P9 m Hm) as [[[S1 S2] _ _ _] Hall].
  destruct (Hall w Hw) as (c & Hc' & ->). exists c. split; [done|]. unfold chunk_of, chunk_key. by rewrite S1, S2.
- intros c Hin. destruct (P13 c Hin). split; [done|by apply Hkeep].
Qed.
(** The adapter's maps stay empty. *)
Lemma plant_adapter all P a :
pending a = ∅ -> pendingStream a = ∅ -> plant_ok all P -> plant_ok all (set_adapter a P).
Proof. intros Ha Hs []. by split. Qed.

Lemma conn_step_maps e a :
pending (conn_step e a).2 = pending a /\ pendingStream (conn_step e a).2 = pendingStream a.
Proof.
destruct e as [now later o oa| |now]; try done. cbn. unfold checkAndForceReconnect.
destruct o; [done|]. destruct (disconnectedAt a); [|done]. destruct (_ <? _); [done|]. by destruct oa.
Qed.

(** ** Sending *)

Lemma to_seq_le cs c : ascending cs -> c ∈ cs -> Seq c <= to_seq cs.
Proof.
unfold to_seq. intros Hs. destruct cs as [|x cs _] using rev_ind; [by intros ?%elem_of_nil|].
rewrite last_snoc. apply StronglySorted_app in Hs as (Hl & _ & _).
intros [Hc| ->%list_elem_of_singleton]%elem_of_app; [|cbn; lia].
specialize (Hl c x Hc ltac:(left)). cbn in *. lia.
Qed.

Lemma to_seq_in cs : cs <> [] -> exists c, c ∈ cs /\ to_seq cs = Seq c.
Proof.
unfold to_seq. destruct cs as [|x cs _] using rev_ind; [done|]. intros _. rewrite last_snoc.
exists x. split; [|done]. apply elem_of_app. right. left.
Qed.

Lemma outgoing_to_seq S cs : m_ToSeq (outgoing gid S cs) = to_seq cs.
Proof. done. Qed.

(** The message about to be sent holds everything known up to its last seq. *)
Lemma outgoing_ok S cs :
Inv S -> stream_ok (st S) -> rd S = RSend cs -> ascending cs -> sent_ok S (outgoing gid S cs).
Proof.
intros Hi [Hstr _] Hrd Hasc. pose proof (i_sender _ Hi) as Hs. rewrite Hrd in Hs.
destruct Hs as (Hne & q & Hq & Hrows & Hle & _). destruct (to_seq_in cs Hne) as (c0 & Hc0 & Hts).
rewrite Forall_forall in Hle. pose proof (Hle c0 Hc0) as Hc0q. cbn in Hc0q.
split.
- split; [done|exact Hstr].
- rewrite outgoing_to_seq. lia.
- by apply build_distinct.
- rewrite outgoing_to_seq. intros c Hc Hcl. unfold known in Hc. rewrite Hrd in Hc.
  cbn [outgoing buildMessage m_Chunks]. apply list_elem_of_fmap_2.
  apply elem_of_app in Hc as [Hc|Hc]; [|done].
  apply list_elem_of_fmap in Hc as (x & -> & Hx). cbn in Hcl.
  destruct (Hrows x Hx) as [|Hno]; [lia|done|by apply elem_of_nil in Hno].
Qed.

Lemma plant_send all P cs m :
rd (gateway P) = RSend cs -> marshal (outgoing gid (gateway P) cs) = Ok m ->
plant_ok all P -> plant_ok all (add_sent m P).
Proof.
intros Hrd ->%marshal_ok [P1 P2 P3 P4 P5 P6 P7 P8 P9 P10 P11 P12 P13].
assert (Hin : forall c, c ∈ cs -> c ∈ all).
{ intros c Hc. apply P4. unfold known. rewrite Hrd. apply elem_of_app. by right. }
rewrite Hrd in P3. cbn [in_flight] in P3.
split; cbn [add_sent gateway adapter sent acks_given responses far_end]; try done; [by rewrite Hrd|..].
- intros m [Hm| ->%list_elem_of_singleton]%elem_of_app; [by apply P9|].
  split; [by apply outgoing_ok|]. intros w (c & -> & Hc)%list_elem_of_fmap. exists c. split; [by apply Hin|done].
- intros a Ha He. destruct (P10 a Ha He) as (m & ? & ? & ?). exists m. split_and!; [|done..].
  apply elem_of_app. by left.
Qed.

(** ** [Send] returns *)

Lemma stored_key all P c :
plant_ok all P -> c ∈ all -> (gid, new_uuid, Seq c) ∈ seen (sstore (far_end P)) ->
chunk_of gid new_uuid c ∈ written (sstore (far_end P)).
Proof.
intros [P1 P2 P3 P4 P5 P6 P7 [P8 P8'] P9 P10 P11 P12 P13] Hc Hk.
apply (so_seen _ P8 P8') in Hk. apply list_elem_of_fmap in Hk as (x & Hx & Hin).
destruct (P12 x Hin) as (c' & Hc' & ->); [by rewrite <- Hx|]. injection Hx as Hseq.
by rewrite (P6 c c' Hc Hc' Hseq).
Qed.

(** What the server holds of a message covers what the gateway knows up to its
  last seq. *)
Lemma covered all P m c :
plant_ok all P -> sent_ok (gateway P) m -> has_message m (sstore (far_end P)) ->
c ∈ known (gateway P) -> Seq c <= m_ToSeq m ->
c ∈ all /\ chunk_of gid new_uuid c ∈ written (sstore (far_end P)).
Proof.
intros Hok [[S1 S2] _ _ S4] Hhas Hc Hle. pose proof (po_all _ _ Hok c Hc) as Hall.
split; [done|]. apply (stored_key all); [done..|]. specialize (Hhas _ (S4 c Hc Hle)).
unfold chunk_key in Hhas. by rewrite S1, S2 in Hhas.
Qed.

(** A return: the sender goes on to acknowledge only what was stored. *)
Lemma plant_returned all P cs r :
rd (gateway P) = RSend cs ->
(r = Ok tt -> forall c, c ∈ cs -> c ∈ all /\ chunk_of gid new_uuid c ∈ written (sstore (far_end P))) ->
plant_ok all P -> exists all', plant_ok all' (set_gateway (returned cs r (gateway P)) P).
Proof.
intros Hrd Hcs Hok. eexists. apply plant_gateway; [| |exact Hok].
- destruct (gateway P) as [s f rd0 e h a k]. cbn in Hrd. subst rd0.
  destruct r as [[]|e0]; [apply step_arrive|apply step_send_failed].
- destruct r as [[]|e0]; cbn [returned arrived]; [|auto].
  intros c [Hc|Hc]%elem_of_app; [by left|right; by apply Hcs].
Qed.

Lemma plant_mqtt_out all P cs evs connected r a :
rd (gateway P) = RSend cs ->
(forall ack, AckArrives (Some ack) ∈ evs -> ack ∈ acks_given P) ->
MqttAdapter.Send connected (outgoing gid (gateway P) cs) evs (adapter P) = (Some r, a) ->
plant_ok all P -> exists all', plant_ok all' (set_adapter a (set_gateway (returned cs r (gateway P)) P)).
Proof.
intros Hrd Hacks Hsend Hok. destruct (po_idle _ _ Hok) as [Hp Hps].
destruct (Send_acked _ _ _ _ _ _ Hp Hps Hsend) as [(M1 & M2 & _) Hr].
assert (Hstored : r = Ok tt -> forall c, c ∈ cs ->
  c ∈ all /\ chunk_of gid new_uuid c ∈ written (sstore (far_end P))).
{ intros ->. destruct (Hr eq_refl) as (ack & Hin & [Hts _] & He).
  destruct (po_acks _ _ Hok _ (Hacks _ Hin) He) as (m & Hm & Ht & Hhas). intros c Hc.
  pose proof (po_flight _ _ Hok) as Hasc. rewrite Hrd in Hasc. cbn in Hasc.
  apply (covered all P m); [done|by apply (po_sent _ _ Hok)|done| |].
  - unfold known. rewrite Hrd. apply elem_of_app. by right.
  - rewrite <- Ht, Hts, outgoing_to_seq. by apply to_seq_le. }
destruct (plant_returned all P cs r Hrd Hstored Hok) as [all' Hok'].
exists all'. by apply plant_adapter; [congruence..|].
Qed.

Lemma plant_http_out all P cs (answer : result string (Z * string)) r w :
rd (gateway P) = RSend cs ->
(forall reply, answer = Ok reply -> (outgoing gid (gateway P) cs, reply) ∈ responses P) ->
http_Send http (outgoing gid (gateway P) cs) answer = (r, w) ->
plant_ok all P -> exists all', plant_ok all' (set_gateway (returned cs r (gateway P)) P).
Proof.
intros Hrd Hresp Hsend Hok. apply (plant_returned all); [done| |done]. intros -> c Hc.
set (m := outgoing gid (gateway P) cs) in *.
assert (Hhas : has_message m (sstore (far_end P))).
{ revert Hsend. unfold http_Send. destruct (marshal m); [|done]. cbn [post answered].
  destruct answer as [[code text]|]; [|done]. destruct (_ || _) eqn:Hcode; [done|]. intros _.
  apply orb_false_iff in Hcode as [? ?]. zbool. apply (po_responses _ _ Hok m code text); [by apply Hresp|lia]. }
pose proof (po_flight _ _ Hok) as Hasc. rewrite Hrd in Hasc. cbn in Hasc.
apply (covered all P m); [done|by apply outgoing_ok; try apply Hok|done| |].
- unfold known. rewrite Hrd. apply elem_of_app. by right.
- by apply to_seq_le.
Qed.
(** ** The server's answers *)

Lemma plant_mqtt_in all P m ack sv :
m ∈ sent P -> handleMQTT (Some m) (far_end P) = (ack, sv) ->
plant_ok all P -> plant_ok all (add_ack ack (set_far_end sv P)).
Proof.
intros Hm Hh Hok. destruct (po_sent _ _ Hok m Hm) as [[_ _ Hd _] _].
unfold handleMQTT in Hh. destruct (process m (far_end P)) as [r sv'] eqn:Ep. injection Hh as <- <-.
apply (plant_server all P m r sv'); [exact Ep|exact Hd|by left| |by left|exact Hok].
intros a [Ha|Ha]%elem_of_app; [by left|right].
destruct (reply r) eqn:Hr; [|by apply elem_of_nil in Ha]. apply list_elem_of_singleton in Ha as ->. cbn.
apply process_cases in Ep as (_ & _ & [(_ & _ & [?|[? _]])|(Hhas & He & _)]); [congruence|by left|right].
by split_and!.
Qed.

Lemma plant_http_in all P m resp sv :
m ∈ sent P -> handleIngest (Ok m) (far_end P) = (resp, sv) ->
plant_ok all P -> plant_ok all (add_response m resp (set_far_end sv P)).
Proof.
intros Hm Hh Hok. destruct (po_sent _ _ Hok m Hm) as [[_ _ Hd _] _].
pose proof (handleIngest_stored _ _ _ _ Hh) as Hst.
unfold handleIngest in Hh. destruct (process m (far_end P)) as [r sv'] eqn:Ep. injection Hh as Hresp <-.
apply (plant_server all P m r sv'); [exact Ep|exact Hd|by left|by left| |exact Hok].
intros m0 code text Hin. destruct resp as [code1 text1|]; cbn [responses] in Hin; [|by left].
apply elem_of_app in Hin as [Hin|Hin]; [by left|right]. apply list_elem_of_singleton in Hin.
injection Hin as -> -> ->. destruct (decide (200 <= code1 < 300)); [right|by left].
split; [done|]. apply Hst. eauto.
Qed.

(** ** Every state *)

Lemma plant_ok_step all P P' : plant_step gid http P P' -> plant_ok all P -> exists all', plant_ok all' P'.
Proof.
intros Hstep Hok. destruct Hstep as [P S Hs Ha _|P t o s c now Ho Hq|P cs m|P m ack sv|P m resp sv
  |P m r sv Hid Hd Hp|P s|P cs evs b r a|P cs answer r w|P p|P e].
- eexists. apply plant_gateway; [exact Hs| |exact Hok]. intros x. rewrite Ha. by left.
- eexists. apply plant_adapter; [done..|]. apply plant_gateway; [| |exact Hok]; [|by left].
  destruct (gateway P) as [s0 f r e h a k] eqn:Eg. cbn in *. by eapply step_crash.
- exists all. by apply (plant_send all P cs m).
- exists all. by apply (plant_mqtt_in all P m).
- exists all. by apply (plant_http_in all P m resp).
- exists all. apply (plant_server all P m r sv); [exact Hp|exact Hd|by right|by left|by left|exact Hok].
- exists all. destruct Hok. by split.
- by eapply plant_mqtt_out.
- by eapply plant_http_out.
- exists all. destruct (po_idle _ _ Hok). destruct (handleAck_frame p (adapter P)) as (Hp & Hs & _).
  apply plant_adapter; [congruence..|done].
- exists all. destruct (po_idle _ _ Hok). destruct (conn_step_maps e (adapter P)) as [Hp Hs].
  apply plant_adapter; [congruence..|done].
Qed.

Lemma plant_boot_ok P : plant_boot gid P -> plant_ok (map row_chunk (chunk (db (st (gateway P))))) P.
Proof.
intros [S c now sv Hb Hout Hst Hnew]. pose proof (inv_boot _ Hb) as Hi.
assert (Hstr : stream_ok (st S)).
{ destruct Hb as [t o s Ho Hq]. eapply open_stream; [exact Hq|exact Ho|by left]. }
assert (Hrest : in_flight (rd S) = [] /\ arrived S = []) by by destruct Hb.
destruct Hrest as [Hf Ha].
split; cbn [gateway adapter sent acks_given responses far_end]; try done.
- rewrite Hf. constructor.
- intros x. unfold known. by rewrite Hf, app_nil_r.
- intros x Hx. apply (known_hi S); [done|by rewrite Hf|]. unfold known. apply elem_of_app. by left.
- intros x y. apply all_rows_once, Hi.
- intros m Hm. by apply elem_of_nil in Hm.
- intros m Hm. by apply elem_of_nil in Hm.
- intros m code text Hm. by apply elem_of_nil in Hm.
- intros x Hx Hk. by destruct (Hnew x Hx).
- rewrite Ha. intros x Hx. by apply elem_of_nil in Hx.
Qed.

Lemma plant_inv P : plant_reachable gid http P -> exists all, plant_ok all P.
Proof.
intros (P0 & Hb & Hs). apply plant_boot_ok in Hb.
assert (Hex : exists all, plant_ok all P0) by by eexists. clear Hb.
induction Hs as [P|P P1 P2 Hstep _ IH]; [done|]. destruct Hex as [all Hok].
apply IH. by eapply plant_ok_step.
Qed.
End Invariant.

(** C2. Every reading is accounted for, to the far end: in every state a gateway
    and its server can reach -- any interleaving of the pollers, the flusher,
    the sending loop and the maintenance loop, process restarts, SQL faults,
    both transports, messages and answers lost, late, repeated and out of order,
    stray acknowledgements, connection losses, other gateways' traffic, every
    server setting -- the readings ever appended are exactly those in chunks that
    are in the server's database, those counted as evicted, those counted as
    dropped, those lost by restarts, and those still queued; and the database
    holds no chunk twice. *)
Theorem every_reading_accounted `{Env, Flate, ServerEnv} gid http P :
  plant_reachable gid http P ->
  NoDup (map sc_key (written (sstore (far_end P)))) /\
  exists A E D L, ledger (gateway P) A E D L /\
    forall c, c ∈ A -> chunk_of gid new_uuid c ∈ written (sstore (far_end P)).
Proof.
  intros [all Hok]%plant_inv. split; [apply (po_store _ _ _ Hok)|].
  destruct (i_ledger _ (po_queue _ _ _ Hok)) as (A & E & D & L & Hl). exists A, E, D, L.
  split; [done|]. intros c Hc. apply (po_arrived _ _ _ Hok), (led_acked _ _ _ _ _ Hl), Hc.
Qed.

(** * Witness *)

#[local] Existing Instance sample_env.
#[local] Existing Instance stored_flate.
#[local] Existing Instance sample_server.

(** One reading's life over MQTT, with a repeated delivery: the queue's run of
    QueueProps, sent, stored twice over, and acknowledged. *)
Definition life_http : HTTPAdapter := mkHTTPAdapter "http://server:9000/ingest".
Definition life_server : server := mkServer (normalize sample_settings) (newStore true).
Definition life_adapter : MQTTAdapter := NewMQTTAdapter (mkMQTTConfig "tcp://broker:1883" 0 0) 1000.
Definition life_hist : list Reading := [mkReading 3 9 None "GOOD" 0].
Definition life_message : Message := buildMessage "GW1" (streamID run5) [run_chunk].
Definition life_in1 : option AckMsg * server := handleMQTT (Some life_message) life_server.
Definition life_in2 : option AckMsg * server := handleMQTT (Some life_message) life_in1.2.
Definition life_events : list event :=
  [AckArrives life_in2.1; AckArrives None; PublishDone None; AckArrives life_in1.1].
Definition life_send : option (result string unit) * MQTTAdapter :=
  MqttAdapter.Send true life_message life_events life_adapter.
Definition life_end : Plant :=
  mkPlant (mkSys run7 FIdle RIdle EIdle life_hist [run_chunk] 0) life_send.2 [life_message]
    (option_list life_in1.1 ++ option_list life_in2.1) [] life_in2.2.

(** A step of the queue alone. *)
Lemma gateway_steps P P' S :
  step (gateway P) S -> arrived S = arrived (gateway P) -> crashes S = crashes (gateway P) ->
  rtc (plant_step "GW1" life_http) (set_gateway S P) P' -> rtc (plant_step "GW1" life_http) P P'.
Proof. intros Hs Ha Hc. apply rtc_l. by apply ps_gateway. Qed.

Definition life_start : Plant :=
  mkPlant (mkSys run0 FIdle RIdle EIdle [] [] 0) life_adapter [] [] [] life_server.

Lemma life_boot : plant_boot "GW1" life_start.
Proof.
  apply pb_new; [by eapply (boot_new 0 sample_opts); [vm_compute; reflexivity|]|done|apply store_ok_new|].
  intros x Hx. by apply elem_of_nil in Hx.
Qed.

Lemma life_steps : rtc (plant_step "GW1" life_http) life_start life_end.
Proof.
  eapply gateway_steps; [apply (step_append run0 _ _ _ _ _ _ (mkReading 3 9 None "GOOD" 0))|done|done|].
  { repeat constructor; cbv; try done; discriminate. }
  { vm_compute. reflexivity. }
  eapply gateway_steps; [apply (step_collect run1)|done|done|].
  replace (collected (flush_collect run1)) with (FInsert (unflushed run2)) by (vm_compute; reflexivity).
  eapply gateway_steps; [apply (step_insert run2 _ _ _ _ _ _ (Ok tt) run3); vm_compute; reflexivity|done|done|].
  eapply gateway_steps; [apply (step_written run3)|done|done|]. fold run4.
  eapply gateway_steps; [apply (step_read run4 _ _ _ _ _ 10 [run_row] run5); vm_compute; reflexivity|done|done|].
  eapply gateway_steps; [apply (step_row run5 _ _ _ _ _ _ _ _ (Readings run_chunk)); vm_compute; reflexivity|done|done|].
  eapply gateway_steps; [apply step_batch|done|done|].
  eapply rtc_l; [apply (ps_send _ _ _ [run_chunk] life_message); [reflexivity|vm_compute; reflexivity]|].
  eapply rtc_l; [apply (ps_mqtt_in _ _ _ life_message life_in1.1 life_in1.2); [left|by rewrite <- surjective_pairing]|].
  eapply rtc_l; [apply (ps_mqtt_in _ _ _ life_message life_in2.1 life_in2.2); [left|by rewrite <- surjective_pairing]|].
  eapply rtc_l; [apply (ps_mqtt_out _ _ _ [run_chunk] life_events true (Ok tt) life_send.2); [reflexivity| |]|].
  { intros ack Hin. vm_compute in Hin |- *. set_solver. }
  { vm_compute. reflexivity. }
  eapply gateway_steps; [apply (step_ack run5 _ _ _ _ _ _ (Ok (1, 1)) run6); vm_compute; reflexivity|done|done|].
  eapply gateway_steps; [apply step_count|done|done|].
  apply rtc_refl.
Qed.

Lemma life_reachable : plant_reachable "GW1" life_http life_end.
Proof. exists life_start. split; [exact life_boot|exact life_steps]. Qed.

Lemma every_reading_accounted_witness :
  NoDup (map sc_key (written (sstore (far_end life_end)))) /\
  exists A E D L, ledger (gateway life_end) A E D L /\
    forall c, c ∈ A -> chunk_of "GW1" new_uuid c ∈ written (sstore (far_end life_end)).
Proof. apply (every_reading_accounted "GW1" life_http life_end). exact life_reachable. Defined.
