(* ===== verification/GapProps.v ===== *)
(** What the reference server reports as missing (the gaps of
    cmd/server-demo/store.go), in the system of file Plant: a gap is a run of
    chunks the gateway evicted.  And the limits of the report: what was evicted
    before the first message of a stream is not reported, and what is
    reported may arrive all the same. *)

From S2P Require Import Prelude.
From S2P Require Import Codec.
From S2P Require Import QueueDb.
From S2P Require Import QueueStore.
From S2P Require Import QueueFacts.
From S2P Require Import QueueSteps.
From S2P Require Import QueueInvariant.
From S2P Require Import QueueProps.
From S2P Require Import QueueSeqs.
From S2P Require Import QueueSource.
From S2P Require Import Wire.
From S2P Require Import MqttAdapter.
From S2P Require Import Transports.
From S2P Require Import ServerStore.
From S2P Require Import ServerSettings.
From S2P Require Import Server.
From S2P Require Import Pipeline.
From S2P Require Import Plant.
From S2P Require Import PlantProps.

Local Open Scope string_scope.
Local Open Scope list_scope.
Local Open Scope Z_scope.

(** * Gaps of one stream *)

Definition in_gap (g : gap) (q : Z) : Prop := gp_FromSeq g <= q <= gp_ToSeq g.
Definition gap_stream (g : gap) : string * string := (gp_GatewayID g, gp_StreamID g).
Definition message_stream (m : Message) : string * string := (m_GatewayID m, m_StreamID m).

Section Stream.
Context `{ServerEnv}.
Context (K : string * string).

(** What was stored of the stream is not above its last seq, which is positive. *)
Definition low (s : store) : Prop :=
(forall q, (K, q) ∈ seen s -> q <= default 0 (lastSeq s !! K)) /\
(forall last, lastSeq s !! K = Some last -> 0 < last).

(** A gap that is new since [s], reported for message [m], names nothing the
  server has and ends below a chunk of the message. *)
Definition gap_new (m : Message) (s s' : store) (cs : list WireChunk) (g : gap) : Prop :=
message_stream m = K /\ (exists c, c ∈ cs /\ gp_ToSeq g < wc_Seq c) /\ 0 < gp_FromSeq g <= gp_ToSeq g /\
forall q, in_gap g q -> (K, q) ∉ seen s'.

Lemma note_gap_gaps m q s g :
g ∈ gaps (note_gap m q s) -> g ∈ gaps s \/
exists last, lastSeq s !! message_stream m = Some last /\ last + 1 < q /\
  gap_stream g = message_stream m /\ gp_FromSeq g = last + 1 /\ gp_ToSeq g = q - 1.
Proof.
unfold note_gap, message_stream. destruct (lastSeq s !! _) as [last|]; [|by left].
rewrite Z.gtb_ltb. destruct (last + 1 <? q) eqn:E; [|by left]. zbool. set (gp := mkGap _ _ _ _ _).
assert (Hin : g ∈ take 100 (gp :: gaps s) -> g ∈ gaps s \/ g = gp).
{ intros Hg. apply (subseteq_take 100) in Hg. apply elem_of_cons in Hg as [->|]; auto. }
intros Hg. destruct Hin as [?| ->]; [destruct (out _); exact Hg|by left|right].
exists last. by split_and!.
Qed.

Lemma store_chunk_shape m s c :
let s1 := set_seen ({[chunk_key m c]} ∪ seen s) s in
lastSeq (store_chunk m s c) = lastSeq (note_seq m (wc_Seq c) (note_gap m (wc_Seq c) s1)) /\
gaps (store_chunk m s c) = gaps (note_gap m (wc_Seq c) s1).
Proof.
intros s1. unfold store_chunk. fold s1.
destruct (note_readings_frame m (wc_Seq c) (wc_Readings c)
  (note_seq m (wc_Seq c) (note_gap m (wc_Seq c) s1))) as (_ & _ & _ & -> & -> & _).
split; [done|]. by destruct (note_seq_frame m (wc_Seq c) (note_gap m (wc_Seq c) s1)) as (_ & _ & _ & _ & ->).
Qed.

Lemma store_chunk_last m s c :
default 0 (lastSeq (store_chunk m s c) !! K) =
if decide (message_stream m = K) then Z.max (default 0 (lastSeq s !! K)) (wc_Seq c)
else default 0 (lastSeq s !! K).
Proof.
destruct (store_chunk_shape m s c) as [-> _]. set (s1 := set_seen _ s).
destruct (note_gap_frame m (wc_Seq c) s1) as (_ & _ & _ & Hl & _).
unfold note_seq. rewrite Hl. change (lastSeq s1) with (lastSeq s). fold (message_stream m).
rewrite Z.gtb_ltb. destruct (default 0 (lastSeq s !! message_stream m) <? wc_Seq c) eqn:E; zbool.
- cbn [lastSeq update_gw set_gateways set_lastSeq]. case_decide as Hk.
  + rewrite Hk, lookup_insert_eq. cbn. rewrite Hk in E. lia.
  + by rewrite lookup_insert_ne.
- rewrite Hl. change (lastSeq s1) with (lastSeq s). case_decide as Hk; [rewrite Hk in E; lia|done].
Qed.

Lemma chunk_key_stream m c : chunk_key m c = (message_stream m, wc_Seq c).
Proof. done. Qed.

Lemma low_store_chunk m s c : low s -> low (store_chunk m s c).
Proof.
intros [Hl Hp]. split.
- intros q. destruct (store_chunk_frame m s c) as (_ & _ & ->). rewrite store_chunk_last, chunk_key_stream.
  intros [Hq%elem_of_singleton|Hq%Hl]%elem_of_union.
  + injection Hq as <- ->. rewrite decide_True by done. lia.
  + case_decide; lia.
- destruct (store_chunk_shape m s c) as [-> _]. set (s1 := set_seen _ s).
  destruct (note_gap_frame m (wc_Seq c) s1) as (_ & _ & _ & Hls & _).
  unfold note_seq. rewrite Hls. change (lastSeq s1) with (lastSeq s). rewrite Z.gtb_ltb.
  destruct (_ <? _) eqn:E; zbool; [|by rewrite Hls]. fold (message_stream m) in E |- *.
  cbn [lastSeq update_gw set_gateways set_lastSeq].
  intros last [[Hk <-]|[_ ?]]%lookup_insert_Some; [|by apply Hp].
  rewrite Hk in E. destruct (lastSeq s !! K) as [old|] eqn:Eo; cbn in E; [specialize (Hp old eq_refl)|]; lia.
Qed.

(** The chunks of a message, ascending when it is one of the stream. *)
Definition sorted_for (m : Message) (cs : list WireChunk) : Prop :=
message_stream m = K -> StronglySorted Z.lt (map wc_Seq cs).

Lemma store_chunks_gaps m cs : forall s,
sorted_for m cs -> low s ->
low (foldl (store_chunk m) s cs) /\
forall g, g ∈ gaps (foldl (store_chunk m) s cs) -> gap_stream g = K ->
  g ∈ gaps s \/ gap_new m s (foldl (store_chunk m) s cs) cs g.
Proof.
induction cs as [|c cs IH]; intros s Hs Hl; [split; [done|by left]|]. cbn [foldl].
assert (Hs' : sorted_for m cs) by (intros Hk; specialize (Hs Hk); cbn in Hs; by apply StronglySorted_inv in Hs as [? _]).
destruct (IH (store_chunk m s c) Hs') as [Hl' Hg]; [by apply low_store_chunk|]. split; [done|].
intros g Hin Hgk. destruct (Hg g Hin Hgk) as [Hold|(Hk & (c' & Hc' & Hto) & Hr & Hun)].
2:{ right. split; [done|]. split; [exists c'; split; [by right|done]|]. by split. }
destruct (store_chunk_shape m s c) as [_ Hgaps]. rewrite Hgaps in Hold.
apply note_gap_gaps in Hold as [Hold|(last & Hlast & Hlt & Hk & Hf & Ht)]; [by left|right].
rewrite Hgk in Hk. change (lastSeq (set_seen _ s)) with (lastSeq s) in Hlast. rewrite <- Hk in Hlast.
specialize (Hs (eq_sym Hk)). cbn [map] in Hs. apply StronglySorted_inv in Hs as [_ Habove].
split; [done|]. split; [exists c; split; [left|lia]|].
destruct Hl as [Hseen Hpos]. specialize (Hpos last Hlast). split; [lia|].
intros q Hq Hin'. change (foldl (store_chunk m) (store_chunk m s c) cs) with (foldl (store_chunk m) s (c :: cs)) in Hin'.
destruct (store_chunks_frame m (c :: cs) s) as (_ & _ & Hf'). rewrite Hf' in Hin'. unfold in_gap in Hq.
apply elem_of_union in Hin' as [Hin'|Hin'].
- apply elem_of_list_to_set, list_elem_of_fmap in Hin' as (x & Hx & Hin'). rewrite chunk_key_stream in Hx.
  injection Hx as _ ->. apply elem_of_cons in Hin' as [->|Hin']; [lia|].
  rewrite Forall_forall in Habove. specialize (Habove (wc_Seq x) (list_elem_of_fmap_2 wc_Seq cs x Hin')). lia.
- apply Hseen in Hin'. rewrite Hlast in Hin'. cbn in Hin'. lia.
Qed.

(** ** A whole message *)

Lemma low_eq s s' : seen s' = seen s -> lastSeq s' = lastSeq s -> low s -> low s'.
Proof. unfold low. by intros -> ->. Qed.

Lemma sorted_fresh m s : sorted_for m (m_Chunks m) -> sorted_for m (fresh_chunks m s).
Proof.
intros Hs Hk. specialize (Hs Hk). unfold fresh_chunks. induction (m_Chunks m) as [|c cs IH]; [constructor|].
cbn [map] in Hs. apply StronglySorted_inv in Hs as [Hs Hf]. rewrite filter_cons. case_decide; [|by apply IH].
cbn [map]. constructor; [by apply IH|]. apply Forall_forall. intros q (x & -> & Hx)%list_elem_of_fmap.
apply list_elem_of_filter in Hx as [_ Hx]. rewrite Forall_forall in Hf. by apply Hf, list_elem_of_fmap_2.
Qed.

Lemma ingest_gaps m s r s' :
sorted_for m (m_Chunks m) -> low s -> ingest m s = (r, s') ->
low s' /\ forall g, g ∈ gaps s' -> gap_stream g = K -> g ∈ gaps s \/ has_message m s' /\ gap_new m s s' (m_Chunks m) g.
Proof.
intros Hs Hl Hi. destruct r as [[a d] [e|]].
{ apply ingest_error in Hi as (_ & Hm & _). unfold memory in Hm. injection Hm as H1 H2 _ _ H5.
  split; [by eapply low_eq|]. rewrite H5. by left. }
assert (Hall : has_message m s') by (intros c; by eapply ingest_all_seen).
unfold ingest in Hi. destruct (write_out m _ _) as [[e1|] s1] eqn:Ew; [done|].
apply write_out_frame in Ew as (_ & Hm & _). unfold memory in Hm. injection Hm as M1 M2 _ _ M5.
injection Hi as _ _ <-.
destruct (store_chunks_gaps m (fresh_chunks m s) s1) as [Hl' Hg]; [by apply sorted_fresh|by eapply low_eq|].
cbn [gaps set_received update_gw set_gateways]. split; [exact Hl'|].
intros g Hin Hgk. destruct (Hg g Hin Hgk) as [Hold|(Hk & (c & Hc & Hto) & Hr & Hun)]; [left|right].
{ rewrite M5 in Hold. exact Hold. }
split; [exact Hall|]. split; [done|]. split; [|by split].
exists c. split; [|done]. by apply list_elem_of_filter in Hc as [_ ?].
Qed.

Lemma process_gaps m sv r sv' :
sorted_for m (m_Chunks m) -> low (sstore sv) -> process m sv = (r, sv') ->
low (sstore sv') /\ forall g, g ∈ gaps (sstore sv') -> gap_stream g = K ->
  g ∈ gaps (sstore sv) \/ has_message m (sstore sv') /\ gap_new m (sstore sv) (sstore sv') (m_Chunks m) g.
Proof.
intros Hs Hl. unfold process. set (s0 := noteMessage _ _).
assert (M5 : gaps s0 = gaps (sstore sv)) by done.
assert (Hl0 : low s0) by by apply (low_eq (sstore sv)).
assert (Hrej : forall reason s, s = noteRejected (m_GatewayID m) reason s0 -> low s /\
  forall g, g ∈ gaps s -> gap_stream g = K ->
  g ∈ gaps (sstore sv) \/ has_message m s /\ gap_new m (sstore sv) s (m_Chunks m) g).
{ intros reason s ->. split; [by eapply low_eq|]. cbn [noteRejected update_gw set_gateways gaps]. rewrite M5. by left. }
destruct (_ =? faultIgnore)%string; [intros [= _ <-]; by eapply Hrej|].
destruct (_ && _); [intros [= _ <-]; by eapply Hrej|].
destruct (_ =? faultErrorAck)%string; [intros [= _ <-]; by eapply Hrej|].
cbn [sstore set_store]. destruct (ingest m s0) as [[[a d] e] s] eqn:Ei.
destruct (ingest_gaps _ _ _ _ Hs Hl0 Ei) as [Hl' Hg].
assert (Hend : low s /\ forall g, g ∈ gaps s -> gap_stream g = K ->
  g ∈ gaps (sstore sv) \/ has_message m s /\ gap_new m (sstore sv) s (m_Chunks m) g).
{ split; [done|]. intros g Hin Hk. destruct (Hg g Hin Hk) as [?|[? ?]]; [left; by rewrite <- M5|by right]. }
destruct e; [intros [= _ <-]; exact Hend|]. destruct (_ =? faultDropAck)%string; intros [= _ <-]; exact Hend.
Qed.
End Stream.

(** * In the running system *)

#[local] Existing Instance answered.

Section Running.
Context `{Env, Flate, ServerEnv}.
Context (gid : string) (http : HTTPAdapter).

Definition stream : string * string := (gid, new_uuid).

Lemma ascending_seqs cs : ascending cs -> StronglySorted Z.lt (map Seq cs).
Proof.
induction 1 as [|c cs _ IH Hf]; cbn [map]; constructor; [done|].
apply Forall_forall. intros q (x & -> & Hx)%list_elem_of_fmap. rewrite Forall_forall in Hf. by apply Hf.
Qed.

(** A gap of our stream names chunks the gateway had in its file, none of which
  it still has, is sending, or knows to have arrived. *)
Definition gap_lost (S : Sys) (g : gap) : Prop :=
0 < gp_FromSeq g <= gp_ToSeq g /\ gp_ToSeq g <= seq_hi (db (st S)) /\
forall c, c ∈ known S ++ arrived S -> ~ in_gap g (Seq c).

Record gaps_ok (P : Plant) : Prop := {
go_low : low stream (sstore (far_end P));
go_sent : forall m, m ∈ sent P -> StronglySorted Z.lt (map wc_Seq (m_Chunks m)) /\
  forall c, c ∈ m_Chunks m -> wc_Seq c <= m_ToSeq m;
go_gaps : forall g, g ∈ gaps (sstore (far_end P)) -> gap_stream g = stream -> gap_lost (gateway P) g
}.

(** What the gateway has lost it never gets back. *)
Lemma gap_lost_step S S' g :
Inv S -> step S S' -> ascending (in_flight (rd S)) -> arrived S' ⊆ known S ++ arrived S ->
gap_lost S g -> gap_lost S' g.
Proof.
intros Hi Hstep Hs Ha (Hr & Hh & Hc). destruct (evolves_step _ _ Hi Hstep) as [[Hhi _] _].
split; [done|]. split; [lia|]. intros c [Hk|Hk]%elem_of_app; [|by apply Hc, Ha].
destruct (known_step _ _ _ Hi Hstep Hs Hk) as [Hk'|[Hgt _]]; [by apply Hc, elem_of_app; left|].
unfold in_gap. lia.
Qed.

Lemma gaps_gateway all P S' :
plant_ok gid all P -> step (gateway P) S' -> arrived S' ⊆ known (gateway P) ++ arrived (gateway P) ->
gaps_ok P -> gaps_ok (set_gateway S' P).
Proof.
intros Hok Hstep Ha [G1 G2 G3]. split; [done|done|]. intros g Hg Hk.
apply (gap_lost_step (gateway P)); [apply Hok|done|apply Hok|done|by apply G3].
Qed.

Lemma gaps_adapter P a : gaps_ok P -> gaps_ok (set_adapter a P).
Proof. by intros []. Qed.

Lemma gaps_returned all P cs r :
rd (gateway P) = RSend cs -> plant_ok gid all P -> gaps_ok P -> gaps_ok (set_gateway (returned cs r (gateway P)) P).
Proof.
intros Hrd Hok. eapply gaps_gateway; [exact Hok| |].
- destruct (gateway P) as [s f rd0 e h a k]. cbn in Hrd. subst rd0.
  destruct r as [[]|e0]; [apply step_arrive|apply step_send_failed].
- unfold known. rewrite Hrd. cbn [in_flight]. destruct r; cbn [returned arrived]; set_solver.
Qed.

(** A message reaches the server. *)
Lemma gaps_server all P m r sv :
plant_ok gid all P -> gaps_ok P -> process m (far_end P) = (r, sv) ->
m ∈ sent P \/ message_stream m <> stream ->
forall acks resps, gaps_ok (mkPlant (gateway P) (adapter P) (sent P) acks resps sv).
Proof.
intros Hok [G1 G2 G3] Hp Hm acks resps.
assert (Hs : sorted_for stream m (m_Chunks m)) by (intros Hk; destruct Hm as [Hm|Hm]; [by apply G2|done]).
destruct (process_gaps _ _ _ _ _ Hs G1 Hp) as [Hl Hg]. split; [done|done|]. cbn [far_end gateway].
intros g Hin Hk. destruct (Hg g Hin Hk) as [Hold|(Hhas & Hid & (w & Hw & Hto) & Hr & Hun)]; [by apply G3|].
destruct Hm as [Hm|Hm]; [|done]. destruct (po_sent _ _ _ Hok m Hm) as [[_ Shi _ Scov] _].
destruct (G2 m Hm) as [_ Hle]. specialize (Hle w Hw). split; [done|]. split; [lia|].
intros c Hc Hgap. apply (Hun _ Hgap). apply elem_of_app in Hc as [Hc|Hc].
- assert (Hle' : Seq c <= m_ToSeq m) by (unfold in_gap in Hgap; lia).
  specialize (Hhas _ (Scov c Hc Hle')). rewrite chunk_key_stream, Hid in Hhas. exact Hhas.
- destruct (po_arrived _ _ _ Hok c Hc) as [_ Hwr]. destruct (po_store _ _ _ Hok) as [Hst Ho].
  eapply process_grows; [exact Hp|]. apply (so_seen _ Hst Ho).
  change (stream, Seq c) with (sc_key (chunk_of gid new_uuid c)). by apply list_elem_of_fmap_2.
Qed.

Lemma gaps_ok_step all P P' : plant_step gid http P P' -> plant_ok gid all P -> gaps_ok P -> gaps_ok P'.
Proof.
intros Hstep Hok Hg. destruct Hstep as [P S Hs Ha _|P t o s c now Ho Hq|P cs m Hrd Hm|P m ack sv Hm Hh|P m resp sv Hm Hh
  |P m r sv Hid Hd Hp|P s|P cs evs b r a Hrd _ _|P cs answer r w Hrd _ _|P p|P e].
- eapply gaps_gateway; [done..| |done]. rewrite Ha. set_solver.
- apply gaps_adapter. eapply gaps_gateway; [done| | |done]; [|set_solver].
  destruct (gateway P) as [s0 f r e h a k] eqn:Eg. cbn in *. by eapply step_crash.
- apply marshal_ok in Hm as ->. destruct Hg as [G1 G2 G3]. split; [done| |done].
  intros m [Hm| ->%list_elem_of_singleton]%elem_of_app; [by apply G2|].
  pose proof (po_flight _ _ _ Hok) as Hasc. rewrite Hrd in Hasc. cbn [in_flight] in Hasc.
  rewrite outgoing_to_seq. cbn [outgoing buildMessage m_Chunks]. split.
  + rewrite map_map. cbn [wire_chunk wc_Seq]. by apply ascending_seqs.
  + intros w (c & -> & Hc)%list_elem_of_fmap. by apply to_seq_le.
- unfold handleMQTT in Hh. destruct (process m (far_end P)) as [r sv'] eqn:Ep. injection Hh as <- <-.
  apply (gaps_server all P m r sv' Hok Hg Ep). by left.
- unfold handleIngest in Hh. destruct (process m (far_end P)) as [r sv'] eqn:Ep. injection Hh as <- <-.
  apply (gaps_server all P m r sv' Hok Hg Ep). by left.
- apply (gaps_server all P m r sv Hok Hg Hp). by right.
- by destruct Hg.
- apply gaps_adapter. by eapply gaps_returned.
- by eapply gaps_returned.
- by apply gaps_adapter.
- by apply gaps_adapter.
Qed.

Lemma ledger_step P P' A V :
plant_step gid http P P' -> Inv (gateway P) -> seq_ledger (gateway P) A V -> exists A' V', seq_ledger (gateway P') A' V'.
Proof.
intros Hstep Hi Hl.
assert (Hq : forall S', step (gateway P) S' -> exists A' V', seq_ledger S' A' V').
{ intros S' Hs. destruct (seq_ledger_step _ _ _ _ Hi Hs Hl) as (A' & V' & ? & _). by exists A', V'. }
destruct Hstep as [P S Hs _ _|P t o s c now Ho Hqt|P cs m Hrd Hm|P m ack sv Hm Hh|P m resp sv Hm Hh
  |P m r sv Hid Hd Hp|P s|P cs evs b r a Hrd _ _|P cs answer r w Hrd _ _|P p|P e];
  cbn [gateway set_gateway set_adapter set_far_end add_sent add_ack add_response]; try (by exists A, V);
  apply Hq; [done|..]; destruct (gateway P) as [s0 f r0 e h a0 k]; cbn in *; subst;
  try (by eapply step_crash); destruct r as [[]|]; constructor.
Qed.

(** A server that has not heard of the stream. *)
Definition unheard (s : store) : Prop :=
lastSeq s !! stream = None /\ Forall (fun g => gap_stream g <> stream) (gaps s).

Lemma gaps_ok_boot P : plant_boot gid P -> unheard (sstore (far_end P)) -> gaps_ok P.
Proof.
intros [S c now sv Hb Hout Hst Hnew] [Hl Hn]. cbn [far_end] in *. split; cbn [far_end sent].
- split; [|by intros last; rewrite Hl]. intros q Hq. apply (so_seen _ Hst Hout) in Hq.
  apply list_elem_of_fmap in Hq as (x & Hx & Hin). destruct (Hnew x Hin). by rewrite <- Hx.
- intros m Hm. by apply elem_of_nil in Hm.
- intros g Hg Hk. rewrite Forall_forall in Hn. by destruct (Hn g Hg).
Qed.

Lemma gaps_inv P0 P :
plant_boot gid P0 -> unheard (sstore (far_end P0)) -> rtc (plant_step gid http) P0 P ->
gaps_ok P /\ (exists all, plant_ok gid all P) /\ exists A V, seq_ledger (gateway P) A V.
Proof.
intros Hb Hu Hs. assert (Hinv : gaps_ok P0 /\ (exists all, plant_ok gid all P0) /\ exists A V, seq_ledger (gateway P0) A V).
{ split; [by apply gaps_ok_boot|]. split; [eexists; by apply plant_boot_ok|]. exists [], [].
  apply seq_ledger_boot. by destruct Hb. }
clear Hb Hu. induction Hs as [P|P P1 P2 Hstep _ IH]; [done|]. apply IH.
destruct Hinv as (Hg & [all Hok] & A & V & Hl).
split; [by eapply gaps_ok_step|]. split; [by eapply plant_ok_step|]. eapply ledger_step; [done|apply Hok|done].
Qed.
End Running.

(** C3. What the server reports missing was evicted: in every state a gateway
    and a server that had not heard of its stream can reach (the steps of
    [every_reading_accounted]: restarts, SQL faults, lost, late, repeated and
    reordered messages), every gap the server reports for the stream is a
    non-empty run of seqs, and each of them is the seq of a chunk the gateway
    evicted.  The evicted chunks are those whose readings the counter
    "evicted_readings" counts; with the acknowledged ones, all of which are in
    the server's database, and the rows still in the table they are all the
    seqs the gateway ever gave out, each once.  (Rows damaged on disk, which
    [ReadBatch] discards, do not arise in these runs.) *)
Theorem reported_gaps_were_evicted `{Env, Flate, ServerEnv} gid http P0 P g :
  plant_boot gid P0 -> unheard gid (sstore (far_end P0)) -> rtc (plant_step gid http) P0 P ->
  g ∈ gaps (sstore (far_end P)) -> gap_stream g = (gid, new_uuid) ->
  gp_FromSeq g <= gp_ToSeq g /\
  exists A V, seq_ledger (gateway P) A V /\
    (forall c, c ∈ A -> chunk_of gid new_uuid c ∈ written (sstore (far_end P))) /\
    forall q, in_gap g q -> q ∈ map Seq V.
Proof.
  intros Hb Hu Hs Hg Hk. destruct (gaps_inv gid http P0 P Hb Hu Hs) as ([_ _ Hgaps] & [all Hok] & A & V & Hl).
  destruct (Hgaps g Hg Hk) as (Hr & Hhi & Hlost). split; [lia|]. exists A, V. split; [done|].
  destruct Hl as [_ Hseqs Hacked _]. split; [intros c Hc; by apply (po_arrived _ _ _ Hok), Hacked|].
  intros q Hq. pose proof Hq as Hq'. unfold in_gap in Hq'.
  assert (Hin : q ∈ seqZ 1 (seq_hi (db (st (gateway P))))) by (apply elem_of_seqZ; lia).
  rewrite <- Hseqs in Hin. apply elem_of_app in Hin as [Hin|[Hin|Hin]%elem_of_app]; [|done|]; exfalso;
    apply list_elem_of_fmap in Hin as (x & -> & Hx).
  - apply (Hlost x); [|done]. apply elem_of_app. right. by apply Hacked.
  - apply (Hlost (row_chunk x)); [|done]. apply elem_of_app. left. apply elem_of_app. left. by apply list_elem_of_fmap_2.
Qed.

(** * Witness *)

#[local] Existing Instance sample_env.
#[local] Existing Instance stored_flate.
#[local] Existing Instance sample_server.

(** The life of PlantProps goes on: a second chunk is sent, but the exchange
    fails, and it is evicted (the file is over its limit of a page); a third
    is sent and arrives, and the second is reported missing. *)
Definition gap_reading : Reading := mkReading 3 9 None "GOOD" 0.
Definition flushed (s : Store) : Store :=
  let s := flush_collect (Append gap_reading s) in flush_written (unflushed s) (insertChunks (unflushed s) s).2.
Definition evicting (q : Z) (s : Store) : Store :=
  count_evicted 1 1 (deleteThrough q "evicted_readings" (query (nth_seq 0) s).2).2.
Definition gap_chunk (q : Z) : Chunk := mkChunk q [gap_reading].
Definition gap_message (q : Z) : Message := buildMessage "GW1" "stream" [gap_chunk q].
Definition gap1 : Store := tick (compact (flushed run7)).
Definition gap2 : Store := evicting 2 gap1.
Definition gap3 : Store := tick (compact (flushed gap2)).
Definition gap_in : option AckMsg * server := handleMQTT (Some (gap_message 3)) (far_end life_end).
Definition gap_gateway : Sys :=
  mkSys gap3 FIdle (RSend [gap_chunk 3]) EIdle (life_hist ++ [gap_reading; gap_reading]) [run_chunk] 0.
Definition gap_end : Plant :=
  mkPlant gap_gateway (adapter life_end) [life_message; gap_message 2; gap_message 3]
    (acks_given life_end ++ option_list gap_in.1) [] gap_in.2.

(** Appended and flushed, at one go; read and batched; evicted. *)
Lemma flushed_steps s h a c P P' :
  gateway P = mkSys s FIdle RIdle EIdle h a c ->
  Z.of_nat (length (buf s)) + 1 < Int.two63 ->
  let s1 := flush_collect (Append gap_reading s) in
  collected s1 = FInsert (unflushed s1) -> (insertChunks (unflushed s1) s1).1 = Ok tt ->
  rtc (plant_step "GW1" life_http)
    (set_gateway (mkSys (compact (flushed s)) FIdle RIdle EIdle (h ++ [gap_reading]) a c) P) P' ->
  rtc (plant_step "GW1" life_http) P P'.
Proof.
  intros Hg Hb s1 Hc Hi Hrest.
  eapply gateway_steps; [rewrite Hg; apply (step_append s _ _ _ _ _ _ gap_reading)|by rewrite Hg..|]; [|done|].
  { repeat constructor; cbv; try done; discriminate. }
  eapply gateway_steps; [apply (step_collect (Append gap_reading s))|done|done|]. fold s1. rewrite Hc.
  eapply gateway_steps;
    [apply (step_insert s1 _ _ _ _ _ _ (Ok tt) (insertChunks (unflushed s1) s1).2)|done|done|].
  { rewrite <- Hi. apply surjective_pairing. }
  eapply gateway_steps; [apply step_written|done|done|].
  eapply gateway_steps; [apply step_compact|done|done|]. exact Hrest.
Qed.

Lemma read_steps x rs s s' h a c P P' :
  gateway P = mkSys s FIdle RIdle EIdle h a c ->
  query (fun d => scan_rows 10 0 (take readBatchScanLimit (chunk d))) s = (Ok [x], s') ->
  decodeChunk (row_data x) = Ok rs ->
  rtc (plant_step "GW1" life_http)
    (set_gateway (mkSys s' FIdle (RSend [mkChunk (seq x) rs]) EIdle h a c) P) P' ->
  rtc (plant_step "GW1" life_http) P P'.
Proof.
  intros Hg Hq Hx Hrest.
  eapply gateway_steps; [rewrite Hg; by eapply step_read|by rewrite Hg..|].
  eapply gateway_steps; [by eapply step_row|done|done|].
  eapply gateway_steps; [apply step_batch|done|done|]. exact Hrest.
Qed.

Lemma evict_steps x q s s1 s2 h a c P P' :
  gateway P = mkSys s FIdle RIdle EIdle h a c ->
  excessBytes s = (x, s) -> 0 < x -> 0 < pendingChunks s ->
  query (nth_seq (evict_target x (pendingChunks s) (dbBytes s) - 1)) s = (Ok (Some q), s1) ->
  deleteThrough q "evicted_readings" s1 = (Ok (1, 1), s2) ->
  rtc (plant_step "GW1" life_http)
    (set_gateway (mkSys (count_evicted 1 1 s2) FIdle RIdle EIdle h a c) P) P' ->
  rtc (plant_step "GW1" life_http) P P'.
Proof.
  intros Hg He Hx Hp Hq Hd Hrest.
  eapply gateway_steps; [rewrite Hg; by apply (step_evict s _ _ _ _ _ x s)|by rewrite Hg..|].
  eapply gateway_steps; [by eapply step_cut|done|done|].
  eapply gateway_steps; [by eapply step_evict_tx|done|done|].
  eapply gateway_steps; [apply step_evicted|done|done|]. exact Hrest.
Qed.

Local Ltac projections := cbn [set_gateway gateway adapter sent acks_given responses far_end].
Local Ltac arrived_at P' :=
  match goal with |- rtc _ ?P _ => replace P with P' by (vm_compute; reflexivity) end; apply rtc_refl.

Lemma gap_steps : rtc (plant_step "GW1" life_http) life_end gap_end.
Proof.
  eapply (flushed_steps run7); [reflexivity|vm_compute; reflexivity..|]. projections.
  eapply (read_steps _ [gap_reading] _ gap1); [reflexivity|vm_compute; reflexivity..|]. projections.
  eapply rtc_l; [apply (ps_send _ _ _ [gap_chunk 2] (gap_message 2)); vm_compute; reflexivity|].
  eapply rtc_l; [by apply (ps_http_out _ _ _ [gap_chunk 2] (Err "timeout") (Err "timeout") (Err "timeout"))|]. projections.
  eapply (evict_steps 4096 2 gap1); [reflexivity|vm_compute; reflexivity..|]. projections.
  eapply (flushed_steps gap2); [reflexivity|vm_compute; reflexivity..|]. projections.
  eapply (read_steps _ [gap_reading] _ gap3); [reflexivity|vm_compute; reflexivity..|]. projections.
  eapply rtc_l; [apply (ps_send _ _ _ [gap_chunk 3] (gap_message 3)); vm_compute; reflexivity|].
  eapply rtc_l; [apply (ps_mqtt_in _ _ _ (gap_message 3) gap_in.1 gap_in.2)|].
  { apply elem_of_app. right. left. }
  { vm_compute. reflexivity. }
  arrived_at gap_end.
Qed.

Definition life_gap : gap := mkGap "GW1" "stream" 2 2 5.

Lemma life_gap_reported : life_gap ∈ gaps (sstore (far_end gap_end)).
Proof. vm_compute. left. Qed.

Lemma reported_gaps_were_evicted_witness :
  2 <= 2 /\ exists A V, seq_ledger (gateway gap_end) A V /\
    (forall c, c ∈ A -> chunk_of "GW1" new_uuid c ∈ written (sstore (far_end gap_end))) /\
    forall q, in_gap life_gap q -> q ∈ map Seq V.
Proof.
  apply (reported_gaps_were_evicted "GW1" life_http life_start gap_end life_gap).
  - exact life_boot.
  - by split.
  - etransitivity; [exact life_steps|exact gap_steps].
  - exact life_gap_reported.
  - reflexivity.
Defined.

(** * The limits of the report *)

(** The lost exchange's message turns up after all: the chunk is stored, and
    still reported missing. *)
Definition late_in : option AckMsg * server := handleMQTT (Some (gap_message 2)) gap_in.2.
Definition late_end : Plant :=
  mkPlant gap_gateway (adapter life_end) [life_message; gap_message 2; gap_message 3]
    (acks_given gap_end ++ option_list late_in.1) [] late_in.2.

Lemma late_steps : rtc (plant_step "GW1" life_http) gap_end late_end.
Proof.
  eapply rtc_l; [apply (ps_mqtt_in _ _ _ (gap_message 2) late_in.1 late_in.2)|].
  { right. left. }
  { vm_compute. reflexivity. }
  arrived_at late_end.
Qed.

(** What the server reports missing may arrive all the same: a message the
    gateway gave up on is delivered after a later one, and its chunk is both in
    the database and reported missing. *)
Theorem reported_gap_may_arrive :
  plant_reachable "GW1" life_http late_end /\
  exists g c, g ∈ gaps (sstore (far_end late_end)) /\ in_gap g (Seq c) /\
    chunk_of "GW1" "stream" c ∈ written (sstore (far_end late_end)).
Proof.
  split.
  - exists life_start. split; [exact life_boot|]. etransitivity; [exact life_steps|].
    etransitivity; [exact gap_steps|exact late_steps].
  - exists life_gap, (gap_chunk 2). split_and!; [vm_compute; left|by split|].
    vm_compute. right. right. left.
Qed.

(** A gateway whose first chunk is evicted before it is ever sent. *)
Definition first1 : Store := compact (flushed run0).
Definition first2 : Store := evicting 1 first1.
Definition first3 : Store := tick (compact (flushed first2)).
Definition first_in : option AckMsg * server := handleMQTT (Some (gap_message 2)) life_server.
Definition first_end : Plant :=
  mkPlant (mkSys first3 FIdle (RSend [gap_chunk 2]) EIdle [gap_reading; gap_reading] [] 0)
    life_adapter [gap_message 2] (option_list first_in.1) [] first_in.2.

Lemma first_steps : rtc (plant_step "GW1" life_http) life_start first_end.
Proof.
  eapply (flushed_steps run0); [reflexivity|vm_compute; reflexivity..|]. projections.
  eapply (evict_steps 4096 1 first1); [reflexivity|vm_compute; reflexivity..|]. projections.
  eapply (flushed_steps first2); [reflexivity|vm_compute; reflexivity..|]. projections.
  eapply (read_steps _ [gap_reading] _ first3); [reflexivity|vm_compute; reflexivity..|]. projections.
  eapply rtc_l; [apply (ps_send _ _ _ [gap_chunk 2] (gap_message 2)); vm_compute; reflexivity|].
  eapply rtc_l; [apply (ps_mqtt_in _ _ _ (gap_message 2) first_in.1 first_in.2)|].
  { apply elem_of_app. right. left. }
  { vm_compute. reflexivity. }
  arrived_at first_end.
Qed.

(** What is evicted before a stream's first message arrives is never reported:
    the gateway has counted an eviction, the server has the chunk after it, and
    there is no gap. *)
Theorem first_eviction_unreported :
  plant_reachable "GW1" life_http first_end /\
  counter "evicted_readings" (db (st (gateway first_end))) = 1 /\
  written (sstore (far_end first_end)) = [chunk_of "GW1" "stream" (gap_chunk 2)] /\
  gaps (sstore (far_end first_end)) = [].
Proof.
  split; [exists life_start; split; [exact life_boot|exact first_steps]|]. vm_compute. by split_and!.
Qed.
