(* ===== verification/ManagerRace.v ===== *)
(** Reloads that overlap (internal/acquisition/manager.go, run by several API
    requests at once).  [Reload] reads the tables statement by statement and
    only then takes its mutex, so between two of its statements other requests
    write, read and apply.  Here every request's reload is a thread, a step is
    one statement or the section under the mutex, and the steps of all threads
    interleave. *)

From S2P Require Import Prelude Float64.
From S2P Require Import Modbus.
From S2P Require Import Inventory.
From S2P Require Import BlockPlan.
From S2P Require Import Poller.
From S2P Require Import Manager.
From S2P Require Import InventoryProps.

Local Open Scope string_scope.
Local Open Scope list_scope.
Local Open Scope Z_scope.

(** Where a [Reload] is: before listing the devices, the connections, or the
    points of the next device; before taking the mutex; returned. *)
Inductive phase :=
| PDevices
| PConns (devices : list Device)
| PPoints (conns : gmap Z Connection) (devices : list Device) (wanted : gmap Z Wanted)
| PApply (wanted : gmap Z Wanted)
| PReturned (r : result repo_error unit).

(** The database, the manager, and the reloads started so far. *)
Record Race := mkRace { r_inv : Inv; r_manager : Manager; r_threads : list phase }.

Section Race.
Context `{InvEnv}.

(** One statement of a reload, or its locked section. *)
Definition advance (p : phase) (s : Inv) (m : Manager) : phase * Inv * Manager :=
match p with
| PDevices =>
  match device_ListEnabled s with
  | (Ok ds, s) => (PConns ds, s, m)
  | (Err e, s) => (PReturned (Err e), s, m)
  end
| PConns ds =>
  match connection_ListEnabled s with
  | (Ok cs, s) => (PPoints (connByID cs) ds ∅, s, m)
  | (Err e, s) => (PReturned (Err e), s, m)
  end
| PPoints conns [] wanted => (PApply wanted, s, m)
| PPoints conns (d :: ds) wanted =>
  match collect conns [d] wanted s with
  | (Ok wanted, s) => (PPoints conns ds wanted, s, m)
  | (Err e, s) => (PReturned (Err e), s, m)
  end
| PApply wanted => (PReturned (Ok tt), s, apply_wanted wanted m)
| PReturned r => (PReturned r, s, m)
end.

(** A reload takes a step. *)
Inductive thread_step : Race -> Race -> Prop :=
| ts_advance s m ts i p p' s' m' :
  ts !! i = Some p -> advance p s m = (p', s', m') ->
  thread_step (mkRace s m ts) (mkRace s' m' (<[i := p']> ts)).

(** A request saves and goes on to reload; one saves without reloading (one of
    many writes of an import, or a write that fails); a reload takes a step. *)
Inductive race_step : Race -> Race -> Prop :=
| rs_save s m ts op :
  race_step (mkRace s m ts) (mkRace (run_op op s) m (ts ++ [PDevices]))
| rs_write s m ts op :
  race_step (mkRace s m ts) (mkRace (run_op op s) m ts)
| rs_advance R R' : thread_step R R' -> race_step R R'.

Definition race_reachable (R : Race) : Prop :=
exists s, rtc race_step (mkRace s NewManager []) R.

(** ** Run alone, the steps are [Reload] *)

Fixpoint advance_n (n : nat) (c : phase * Inv * Manager) : phase * Inv * Manager :=
match n with
| O => c
| S n => let '(p, s, m) := c in advance_n n (advance p s m)
end.

Lemma collect_cons conns d ds wanted :
  forall s, collect conns (d :: ds) wanted s = (collect conns [d] wanted ≫= collect conns ds) s.
Proof.
  intros s. cbn [collect]. destruct (conns !! ConnectionID d); [|done].
  unfold mbind, M_bind. by destruct (datapoint_ListEnabledByDevice _ s) as [[]].
Qed.

(** What a return of [Reload] leaves. *)
Definition reloaded (c : result repo_error Manager * Inv) (m : Manager) : phase * Inv * Manager :=
match c with
| (Ok m', s) => (PReturned (Ok tt), s, m')
| (Err e, s) => (PReturned (Err e), s, m)
end.

Lemma advance_returned n r s m : advance_n n (PReturned r, s, m) = (PReturned r, s, m).
Proof. by induction n. Qed.

Lemma advance_points conns m ds : forall wanted s,
  advance_n (length ds + 2) (PPoints conns ds wanted, s, m) =
  reloaded ((wanted ← collect conns ds wanted; mret (apply_wanted wanted m)) s) m.
Proof.
  induction ds as [|d ds IH]; intros wanted s; [done|]. cbn [length Nat.add advance_n advance].
  unfold mbind at 1, M_bind at 1. rewrite (collect_cons conns d ds). unfold mbind at 1, M_bind at 1.
  destruct (collect conns [d] wanted s) as [[w|e] s']; [apply IH|].
  by rewrite advance_returned.
Qed.

(** ** One poller a connection, whatever the interleaving *)

(** What a thread has read so far has the keys it should. *)
Definition phase_keys (p : phase) : Prop :=
match p with
| PPoints conns _ wanted =>
  (forall i c, conns !! i = Some c -> c_ID c = i) /\ (forall i w, wanted !! i = Some w -> c_ID w.1 = i)
| PApply wanted => forall i w, wanted !! i = Some w -> c_ID w.1 = i
| _ => True
end.

Lemma no_wanted_keys i w : (∅ : gmap Z Wanted) !! i = Some w -> c_ID w.1 = i.
Proof. by rewrite lookup_empty. Qed.

(** Reading changes no table, faults included. *)
Lemma read_tables {A B} (f : Tables -> A) (g : A -> result repo_error B) s r s' :
  (rows ← select f; lift (g rows)) s = (r, s') -> tables s' = tables s.
Proof.
  unfold select, statement, lift, mbind, M_bind. destruct (inv_fault _); by intros [= _ <-].
Qed.

Lemma collect_one_tables conns d wanted s r s' :
  collect conns [d] wanted s = (r, s') -> tables s' = tables s.
Proof.
  cbn [collect]. destruct (conns !! ConnectionID d); [|by intros [= _ <-]].
  unfold mbind at 1, M_bind at 1. destruct (datapoint_ListEnabledByDevice _ s) as [[pts|e] s1] eqn:E;
    apply read_tables in E; by intros [= _ <-].
Qed.

Lemma advance_keys p s m p' s' m' :
  advance p s m = (p', s', m') -> phase_keys p -> manager_ok m ->
  phase_keys p' /\ manager_ok m' /\ tables s' = tables s.
Proof.
  intros Ha Hp Hm. destruct p as [|ds|conns [|d ds] wanted|wanted|r]; cbn [advance] in Ha.
  - destruct (device_ListEnabled s) as [[ds|e] s1] eqn:E; apply read_tables in E; by injection Ha as <- <- <-.
  - destruct (connection_ListEnabled s) as [[cs|e] s1] eqn:E; apply read_tables in E;
      injection Ha as <- <- <-; [|done]. split; [|done]. split; [|apply no_wanted_keys].
    intros i c. apply connByID_ids. intros j c0. by rewrite lookup_empty.
  - injection Ha as <- <- <-. destruct Hp as [_ Hp]. by split.
  - destruct (collect conns [d] wanted s) as [[w|e] s1] eqn:E; apply collect_one_tables in E as Ht;
      injection Ha as <- <- <-; [|done]. destruct Hp as [Hc Hw].
    destruct (collect_ids _ _ _ _ _ _ Hc Hw E). done.
  - injection Ha as <- <- <-. split; [done|]. split; [|done]. by apply apply_wanted_spec.
  - by injection Ha as <- <- <-.
Qed.
Record race_ok (R : Race) : Prop := {
ro_manager : manager_ok (r_manager R);
ro_threads : Forall phase_keys (r_threads R)
}.

Lemma race_ok_thread R R' : thread_step R R' -> race_ok R -> race_ok R'.
Proof.
  intros [s m ts i p p' s' m' Hi Ha] [Hm Ht]. cbn in *.
  destruct (advance_keys _ _ _ _ _ _ Ha) as (Hp' & Hm' & _); [by eapply Forall_lookup_1|done|].
  split; [done|]. by apply Forall_insert.
Qed.

Lemma race_ok_step R R' : race_step R R' -> race_ok R -> race_ok R'.
Proof.
  intros Hs Hok. destruct Hs as [s m ts op|s m ts op|R R' Hs]; [..|by eapply race_ok_thread];
    destruct Hok as [Hm Ht]; split; cbn in *; try done.
  apply Forall_app. by repeat constructor.
Qed.

Lemma race_inv R : race_reachable R -> race_ok R.
Proof.
  intros [s Hs]. assert (H0 : race_ok (mkRace s NewManager [])) by (split; [apply manager_ok_new|constructor]).
  revert H0. induction Hs as [|R1 R2 R3 Hstep _ IH]; [done|]. intros H1. by eapply IH, race_ok_step.
Qed.

(** ** Reloads that began after the last write *)

(** What a thread has read is what tables [t] hold. *)
Definition up_to_date (t : Tables) (p : phase) : Prop :=
match p with
| PDevices | PReturned _ => True
| PConns ds => ds = enabled_devices t
| PPoints conns ds wanted => conns = enabled_connections t /\
    exists read, enabled_devices t = read ++ ds /\
    forall id, wanted !! id = match conns !! id with
                              | None => None
                              | Some c => with_groups None c (groups_on t read id)
                              end
| PApply wanted => forall id, wanted !! id = configured t id
end.

(** The pollers are those the tables ask for. *)
Definition matches (t : Tables) (m : Manager) : Prop :=
forall id, match running m !! id, configured t id with
           | None, None => True
           | Some rc, Some w => (rc_conn rc, rc_devices rc) = w \/ unchanged rc w = true
           | _, _ => False
           end.

(** Applying what the tables ask for. *)
Lemma apply_matches t (wanted : gmap Z Wanted) m :
  manager_ok m -> (forall i w, wanted !! i = Some w -> c_ID w.1 = i) ->
  (forall id, wanted !! id = configured t id) -> matches t (apply_wanted wanted m).
Proof.
  intros Hm Hk Hc id. destruct (apply_wanted_spec wanted m Hm Hk) as [_ Hspec].
  destruct (Hspec id) as [Hid _]. rewrite <- Hc. destruct (running _ !! id); destruct (wanted !! id); try done.
  destruct Hid as [|[_ ?]]; [by left|by right].
Qed.

Lemma with_groups_app old c g1 g2 :
  with_groups (with_groups old c g1) c g2 = with_groups old c (g1 ++ g2).
Proof.
  destruct old as [[c0 g]|]; cbn; [by rewrite app_assoc|]. destruct g1 as [|x g1]; [done|]. cbn. done.
Qed.

Lemma groups_on_app t ds es id : groups_on t (ds ++ es) id = groups_on t ds id ++ groups_on t es id.
Proof. unfold groups_on. by rewrite filter_app, map_app. Qed.

Lemma advance_up_to_date p s m p' s' m' :
  advance p s m = (p', s', m') -> phase_keys p -> up_to_date (tables s) p -> manager_ok m ->
  up_to_date (tables s') p' /\ (matches (tables s) m -> matches (tables s') m') /\
  (p' = PReturned (Ok tt) -> p = p' \/ matches (tables s') m').
Proof.
  intros Ha Hk Hu Hm. destruct p as [|ds|conns [|d ds] wanted|wanted|r]; cbn [advance] in Ha.
  - destruct (device_ListEnabled s) as [[ds|e] s1] eqn:E; [apply devices_ok in E as [E Ht]|apply read_tables in E as Ht];
      injection Ha as <- <- <-; rewrite Ht; [|done]. split; [|done].
    cbn. unfold enabled_devices. by rewrite E.
  - destruct (connection_ListEnabled s) as [[cs|e] s1] eqn:E; [apply ids_of_list_ok in E as [E Ht]|apply read_tables in E as Ht];
      injection Ha as <- <- <-; rewrite Ht; [|done]. split; [|done].
    cbn in *. split; [unfold enabled_connections; by rewrite E|]. exists []. split; [done|].
    intros id. rewrite lookup_empty. unfold groups_on. cbn. by destruct (connByID cs !! id).
  - injection Ha as <- <- <-. split; [|done]. destruct Hu as (-> & read & Hr & Hw). rewrite app_nil_r in Hr.
    cbn. intros id. rewrite Hw. unfold configured. by rewrite Hr.
  - destruct (collect conns [d] wanted s) as [[w|e] s1] eqn:E; apply collect_one_tables in E as Ht;
      injection Ha as <- <- <-; rewrite Ht; [|done]. split; [|done].
    destruct Hu as (-> & read & Hr & Hw), Hk as [Hc _]. cbn. split; [done|]. exists (read ++ [d]).
    rewrite <- app_assoc. split; [done|]. intros id. rewrite (collect_spec _ _ _ _ _ _ id Hc E), Hw.
    destruct (enabled_connections (tables s) !! id); [|done]. by rewrite with_groups_app, groups_on_app.
  - injection Ha as <- <- <-. pose proof (apply_matches _ wanted m Hm Hk Hu) as Hmt.
    split; [done|]. split; [done|]. by right.
  - injection Ha as <- <- <-. split; [done|]. split; [done|]. by left.
Qed.

(** Every thread has read the present tables, and one has applied them. *)
Definition reloads_current (t : Tables) (n : nat) (R : Race) : Prop :=
tables (r_inv R) = t /\ race_ok R /\ Forall (up_to_date t) (r_threads R) /\
(r_threads R !! n = Some (PReturned (Ok tt)) -> matches t (r_manager R)).

Lemma reloads_current_step t n R R' : thread_step R R' -> reloads_current t n R -> reloads_current t n R'.
Proof.
  intros Hs (Ht & Hok & Hu & Hn). pose proof (race_ok_thread _ _ Hs Hok) as Hok'.
  destruct Hs as [s m ts i p p' s' m' Hi Ha], Hok as [Hm Hk]. cbn in *. subst t.
  destruct (advance_keys _ _ _ _ _ _ Ha) as (_ & _ & Ht); [by eapply Forall_lookup_1|done|].
  destruct (advance_up_to_date _ _ _ _ _ _ Ha) as (Hu' & Hmt & Happ); [by eapply Forall_lookup_1|
    by eapply Forall_lookup_1|done|]. rewrite Ht in *.
  split; [done|]. split; [done|]. split; [by apply Forall_insert|]. cbn.
  intros [(<- & -> & _)|[_ Hl]]%list_lookup_insert_Some; [|by apply Hmt, Hn].
  destruct (Happ eq_refl) as [->|?]; [|done]. by apply Hmt, Hn.
Qed.
End Race.

(** Run alone, the statements of a reload and its locked section are exactly
    [Reload]. *)
Theorem reload_alone `{InvEnv} m s : exists n, advance_n n (PDevices, s, m) = reloaded (Reload m s) m.
Proof.
  unfold Reload. unfold mbind at 1, M_bind at 1.
  destruct (device_ListEnabled s) as [[ds|e] s1] eqn:E1; [|exists 1%nat; cbn [advance_n advance]; by rewrite E1].
  unfold mbind at 1, M_bind at 1.
  destruct (connection_ListEnabled s1) as [[cs|e] s2] eqn:E2; [|exists 2%nat; cbn [advance_n advance]; rewrite E1; cbn [advance]; by rewrite E2].
  exists (S (S (length ds + 2))). cbn [advance_n advance]. rewrite E1. cbn [advance]. rewrite E2. apply advance_points.
Qed.

(** C17. Overlapping reloads: whatever the interleaving of saves, statements and
    locked sections, the pollers that are not cancelled are exactly the ones the
    manager runs, one a connection; and when the reloads in progress all start
    reading after the last write, then once one of them has succeeded, and from
    then on whatever the order in which the others apply, the pollers are those the
    tables ask for. *)
Theorem concurrent_reloads `{InvEnv} R :
  race_reachable R ->
  manager_ok (r_manager R) /\
  forall R' i, rtc thread_step R R' ->
    Forall (fun p => p = PDevices \/ exists r, p = PReturned r) (r_threads R) ->
    r_threads R !! i = Some PDevices -> r_threads R' !! i = Some (PReturned (Ok tt)) ->
    tables (r_inv R') = tables (r_inv R) /\ matches (tables (r_inv R')) (r_manager R').
Proof.
  intros Hr%race_inv. split; [apply Hr|]. intros R' i Hs Hall Hi Hi'.
  assert (Hc : reloads_current (tables (r_inv R)) i R).
  { split; [done|]. split; [done|]. split; [|congruence].
    eapply Forall_impl; [exact Hall|]. by intros p [->|[r ->]]. }
  clear Hi Hall Hr. remember (tables (r_inv R)) as t eqn:Et. clear Et.
  induction Hs as [R|R R1 R2 Hstep _ IH]; [|by eapply IH, reloads_current_step].
  destruct Hc as (-> & _ & _ & Hm). split; [done|]. by apply Hm.
Qed.

(** * A schedule, and the stale reload *)

Inductive action := Save (op : repo_op) | Step (i : nat).

Definition act `{InvEnv} (R : Race) (x : action) : Race :=
  match x with
  | Save op => mkRace (run_op op (r_inv R)) (r_manager R) (r_threads R ++ [PDevices])
  | Step i =>
    match r_threads R !! i with
    | None => R
    | Some p => let '(p', s', m') := advance p (r_inv R) (r_manager R) in mkRace s' m' (<[i := p']> (r_threads R))
    end
  end.

Lemma act_steps `{InvEnv} R x : rtc race_step R (act R x).
Proof.
  destruct R as [s m ts], x as [op|i]; cbn; [apply rtc_once, rs_save|].
  destruct (ts !! i) as [p|] eqn:E; [|apply rtc_refl].
  destruct (advance p s m) as [[p' s'] m'] eqn:Ea. by eapply rtc_once, rs_advance, ts_advance.
Qed.

Lemma schedule_reachable `{InvEnv} s xs : race_reachable (foldl act (mkRace s NewManager []) xs).
Proof.
  exists s. generalize (mkRace s NewManager []). induction xs as [|x xs IH]; intros R; [apply rtc_refl|].
  cbn [foldl]. etrans; [apply act_steps|apply IH].
Qed.

#[local] Instance steady : InvEnv := {| inv_fault := fun _ => false |}.

(** The device's slave id is saved as 2, then as 3; the first save's reload has
    read 2 when the second save's reload applies 3, and applies last. *)
Definition two_saves : list action :=
  [Save (UpdateDevice 1 (sensor_with 2)); Step 0; Step 0; Step 0; Step 0;
   Save (UpdateDevice 1 (sensor_with 3)); Step 1; Step 1; Step 1; Step 1; Step 1; Step 0].
Definition raced : Race := foldl act (mkRace (stored 1) NewManager []) two_saves.

Lemma raced_state :
  r_threads raced = [PReturned (Ok tt); PReturned (Ok tt)] /\
  rc_devices <$> running (r_manager raced) !! 1 = Some [mkGroup (sensor_with 2) [level_point]] /\
  configured (tables (r_inv raced)) 1 = Some (bus, [mkGroup (sensor_with 3) [level_point]]).
Proof. vm_compute. done. Qed.

(** Both saves and both reloads have succeeded, and the gateway polls by the
    older configuration: [Reload] reads outside its mutex. *)
Lemma stale_reload_wins :
  exists R, race_reachable R /\ Forall (eq (PReturned (Ok tt))) (r_threads R) /\
    ~ matches (tables (r_inv R)) (r_manager R).
Proof.
  exists raced. split; [apply schedule_reachable|]. destruct raced_state as (Ht & Hr & Hc).
  split; [rewrite Ht; by repeat constructor|]. intros Hm. specialize (Hm 1). rewrite Hc in Hm.
  destruct (running _ !! 1) as [rc|]; [|done]. injection Hr as Hr. rewrite Hr in Hm.
  destruct Hm as [[=]|Hu]. unfold unchanged in Hu. rewrite Hr in Hu.
  apply andb_prop in Hu as [_ Hu]. by vm_compute in Hu.
Qed.

(** Two reloads that both start after both saves. *)
Definition settled_start : Race :=
  foldl act (mkRace (stored 1) NewManager []) [Save (UpdateDevice 1 (sensor_with 2)); Save (UpdateDevice 1 (sensor_with 3))].
Definition settled_steps : list action := [Step 0; Step 1; Step 0; Step 0; Step 0; Step 1; Step 0].
Definition settled : Race := foldl act settled_start settled_steps.

Lemma settled_threads : rtc thread_step settled_start settled.
Proof.
  unfold settled, settled_steps. generalize settled_start as R. cbn [foldl].
  assert (Hs : forall R i, rtc thread_step R (act R (Step i))).
  { intros [s m ts] i. cbn. destruct (ts !! i) as [p|] eqn:E; [|apply rtc_refl].
    destruct (advance p s m) as [[p' s'] m'] eqn:Ea. by eapply rtc_once, ts_advance. }
  intros R. do 7 (etrans; [apply Hs|]). apply rtc_refl.
Qed.

Lemma settled_state :
  r_threads settled_start = [PDevices; PDevices] /\ r_threads settled !! 0%nat = Some (PReturned (Ok tt)).
Proof. by vm_compute. Qed.

Lemma concurrent_reloads_witness :
  tables (r_inv settled) = tables (r_inv settled_start) /\ matches (tables (r_inv settled)) (r_manager settled).
Proof.
  destruct (concurrent_reloads settled_start (schedule_reachable _ _)) as [_ Hc].
  destruct settled_state as [Hs Hd].
  apply (Hc settled 0%nat settled_threads); [|by rewrite Hs|exact Hd].
  rewrite Hs. by repeat constructor; left.
Defined.
