(* ===== verification/ApiPollers.v ===== *)
(** The configuration API and the acquisition manager together
    (internal/api's handlers and internal/acquisition/manager.go): a request
    that writes reloads, one that is refused writes nothing, so the pollers
    follow the tables. *)

From S2P Require Import Prelude Float64.
From S2P Require Import Modbus.
From S2P Require Import Inventory.
From S2P Require Import Observers.
From S2P Require Import BlockPlan.
From S2P Require Import Poller.
From S2P Require Import Manager.
From S2P Require Import InventoryProps.
From S2P Require Import Api.
From S2P Require Import ConfigIo.
From S2P Require Import ConfigIoProps.
From S2P Require Import ManagerRace.

Local Open Scope string_scope.
Local Open Scope list_scope.
Local Open Scope Z_scope.

(** * A call that fails leaves the tables as they were *)

Lemma update_none {R} (key : R -> Z) id f rows : affected key id rows = [] -> update_row key id f rows = rows.
Proof.
  intros Ha. unfold update_row. rewrite <- (map_id rows) at 2. apply map_ext_in. intros r Hr%list_elem_of_In.
  destruct (key r =? id) eqn:E; [|done]. zbool. by destruct (affected_elem key id rows r Hr E).
Qed.

Lemma delete_none {R} (key : R -> Z) id rows : affected key id rows = [] -> delete_row key id rows = rows.
Proof. intros Ha. apply filter_all, Forall_forall. intros r Hr E. by destruct (affected_elem key id rows r Hr E). Qed.

Section Failing.
Context `{InvEnv}.

Definition stays {A} (m : M repo_error Inv A) : Prop :=
forall s e s', tables_ok (tables s) -> m s = (Err e, s') -> tables s' = tables s.

Lemma stays_reads {A} (m : M repo_error Inv A) : reads m -> stays m.
Proof. intros Hm s e s' _. apply Hm. Qed.

Lemma stays_statement {A} (f : Tables -> result repo_error (A * Tables)) : stays (statement f).
Proof.
  intros s e s' _. unfold statement. destruct (inv_fault (stmts s)); [by intros [= _ <-]|].
  by destruct (f (tables s)) as [[a t]|x]; intros [= _ <-].
Qed.

(** The statement may have run and affected no row. *)
Lemma stays_checked {A} e (f : Tables -> result repo_error (list A * Tables)) :
  (forall t t', tables_ok t -> f t = Ok ([], t') -> t' = t) ->
  stays (rows ← statement f; checkRowsAffected e rows).
Proof.
  intros Hf s x s' Hk Hr. step_inv Hr; [|by eapply stays_statement].
  destruct x0 as [|r rows]; [|by cbn in Hr]. injection Hr as _ <-. revert H0. unfold statement.
  destruct (inv_fault (stmts s)); [done|].
  destruct (f (tables s)) as [[a t]|y] eqn:E; intros [= -> <-]. by apply Hf.
Qed.

Lemma connection_Update_stays id c : stays (connection_Update id c).
Proof.
  apply stays_checked. intros t t' _. cbv zeta. destruct (bool_decide _ && _); [done|].
  intros [= Ha <-]. rewrite update_none by done. by destruct t.
Qed.
Lemma connection_Delete_stays id : stays (connection_Delete id).
Proof.
  intros s e s' Hk Hr. unfold connection_Delete in Hr. step_inv Hr; [|by eapply reads_select].
  apply reads_select in H0 as Ht. destruct (0 <? x); [by injection Hr as _ <-|].
  rewrite <- Ht in *. revert Hr. apply stays_checked; [|done]. intros t t' _. cbv zeta.
  destruct (bool_decide _ && _); [done|]. intros [= Ha <-]. rewrite delete_none by done. by destruct t.
Qed.
Lemma device_Update_stays id d : stays (device_Update id d).
Proof.
  apply stays_checked. intros t t' _. cbv zeta. destruct (bool_decide _ && _); [done|].
  intros [= Ha <-]. rewrite update_none by done. by destruct t.
Qed.

(** No data point refers to a device that is not there, so none is cascaded. *)
Lemma device_Delete_stays id : stays (device_Delete id).
Proof.
  apply stays_checked. intros t t' Hk [= Ha <-]. rewrite delete_none by done.
  rewrite filter_all; [by destruct t|]. apply Forall_forall. intros p Hp E. destruct (ok_datapoint_fk _ Hk p Hp) as (d & Hd & Hid).
  apply (affected_elem dr_id id _ d Hd); [congruence|done].
Qed.
Lemma datapoint_Update_stays id dp : stays (datapoint_Update id dp).
Proof.
  apply stays_checked. intros t t' _. cbv zeta. destruct (bool_decide _ && _); [done|].
  intros [= Ha <-]. rewrite update_none by done. by destruct t.
Qed.
Lemma datapoint_Delete_stays id : stays (datapoint_Delete id).
Proof. apply stays_checked. intros t t' _ [= Ha <-]. rewrite delete_none by done. by destruct t. Qed.
Lemma datapoint_Create_stays dp : stays (datapoint_Create dp).
Proof. apply stays_statement. Qed.
Lemma device_Get_reads id : reads (device_Get id).
Proof. apply reads_bind; [apply reads_select|intros; apply reads_get]. Qed.
Lemma datapoint_Get_reads id : reads (datapoint_Get id).
Proof. apply reads_bind; [apply reads_select|intros; apply reads_get]. Qed.
End Failing.

(** * Over a database that works, [Reload] succeeds *)

Section Working.
Context `{InvEnv} (no_fault : forall n, inv_fault n = false).

Lemma collect_runs conns ds : forall wanted s,
  stored_valid (tables s) -> exists w s', collect conns ds wanted s = (Ok w, s').
Proof.
  induction ds as [|d ds IH]; intros wanted s Hv; cbn [collect]; [by do 2 eexists|].
  destruct (conns !! ConnectionID d) as [c|]; [|by apply IH].
  destruct (list_found no_fault (fun t => filter (fun r => pr_device_id r = d_ID d /\ pr_enabled r = 1) (t_datapoint t))
              scanDataPoint dp_of s) as [n E].
  { apply Forall_filter. eapply Forall_impl; [apply Hv|]. intros r (_ & _ & Hr & _). by apply scan_point. }
  unfold datapoint_ListEnabledByDevice. erewrite bind_ok by exact E. by apply IH.
Qed.

Lemma Reload_runs m s : stored_valid (tables s) -> exists m' s', Reload m s = (Ok m', s').
Proof.
  intros Hv. unfold Reload, device_ListEnabled, connection_ListEnabled.
  destruct (list_found no_fault (fun t => filter (fun r => dr_enabled r = 1) (t_device t)) scanDevice dev_of s) as [n E];
    [by apply Forall_forall|]. erewrite bind_ok by exact E. clear E.
  destruct (list_found no_fault (fun t => filter (fun r => cr_enabled r = 1) (t_connection t)) scanConnection conn_of
              (mkInv (tables s) n)) as [n' E]; [by apply Forall_forall|]. erewrite bind_ok by exact E.
  edestruct collect_runs as (w & s' & Ew); [|erewrite bind_ok by exact Ew; by do 2 eexists]. exact Hv.
Qed.
End Working.

(** * What a request does *)

Section Requests.
Context `{InvEnv}.

(** The status code of the answer. *)
Definition status_of (q : request) (a : Api) : Z :=
match q with
| CreateConnectionReq dto => (createConnection dto a).1.1
| UpdateConnectionReq id dto => (updateConnection id dto a).1.1
| DeleteConnectionReq id => (deleteConnection id a).1.1
| CreateDeviceReq dto => (createDevice dto a).1.1
| UpdateDeviceReq id dto => (updateDevice id dto a).1.1
| DeleteDeviceReq id => (deleteDevice id a).1.1
| CreateDataPointReq device dto => (createDataPoint device dto a).1.1
| UpdateDataPointReq id dto => (updateDataPoint id dto a).1.1
| DeleteDataPointReq id => (deleteDataPoint id a).1.1
| ImportReq payload => (importConfig payload a).1.1
end.

(** Refused with nothing changed, or accepted and ended by [reload]. *)
Definition answered (a : Api) (status : Z) (a' : Api) : Prop :=
(300 <= status /\ tables (inv a') = tables (inv a) /\ manager a' = manager a) \/
(status < 300 /\ exists b, a' = reload b /\ manager b = manager a).

Lemma refused {B} a status (e : body B) : 300 <= status -> answered a (status, e).1 a.
Proof. by left. Qed.

Lemma run_same {A} (m : M repo_error Inv A) a r a' :
  run m a = (r, a') -> manager a' = manager a /\ m (inv a) = (r, inv a').
Proof. unfold run. destruct (m (inv a)) as [r0 s]. by intros [= -> <-]. Qed.

(** What a handler's last repository call leaves, started from what its reads
    left. *)
Lemma accepted {A} (m : M repo_error Inv A) a b v a' status :
  manager b = manager a -> status < 300 -> run m b = (Ok v, a') -> answered a status (reload a').
Proof. intros Hm Hs [Hn _]%run_same. right. split; [done|]. exists a'. split; [done|congruence]. Qed.

Lemma call_failed {A} (m : M repo_error Inv A) a b e a' status :
  stays m -> tables_ok (tables (inv a)) -> tables (inv b) = tables (inv a) -> manager b = manager a ->
  300 <= status -> run m b = (Err e, a') -> answered a status a'.
Proof.
  intros Hm Hk Ht Hn Hs [Hn' Hr]%run_same. left. split; [done|]. split; [|congruence].
  rewrite <- Ht in *. by eapply Hm.
Qed.

(** The last call of a handler, from [b]. *)
Ltac last_call lem :=
  match goal with |- context [run ?m ?b] =>
    let E := fresh in
    destruct (run m b) as [[?|?e] ?] eqn:E; cbn [fst snd];
    [by eapply accepted, E|eapply call_failed, E; [apply lem|done..|first [done|by destruct e]]]
  end.

Lemma serve_outcome q a : api_ok a -> answered a (status_of q a) (serve q a).
Proof.
  intros [Hk _].
  destruct q as [[c|]|[id|] [c|]|[id|]|[d|]|[id|] [d|]|[id|]|[dev|] dto|[id|] dto|[id|]|[p|]];
    cbn [serve status_of]; try (by left).
  - unfold createConnection. destruct (validate_connection c); [|by left]. last_call (@stays_statement).
  - unfold updateConnection. destruct (validate_connection _); [|by left]. last_call connection_Update_stays.
  - unfold deleteConnection. last_call connection_Delete_stays.
  - unfold createDevice. destruct (validate_device d); [|by left]. last_call (@stays_statement).
  - unfold updateDevice. destruct (validate_device _); [|by left]. last_call device_Update_stays.
  - unfold deleteDevice. last_call device_Delete_stays.
  - unfold createDataPoint. destruct (run (device_Get dev) a) as [[d|e] b] eqn:E.
    2:{ eapply call_failed, E; [apply stays_reads, device_Get_reads|done..|by destruct e]. }
    apply run_same in E as [Hm Ht%device_Get_reads]. destruct dto as [dp|]; [|by left].
    destruct (validate_datapoint _); [|by left]. last_call datapoint_Create_stays.
  - unfold updateDataPoint. destruct (run (datapoint_Get id) a) as [[d|e] b] eqn:E.
    2:{ eapply call_failed, E; [apply stays_reads, datapoint_Get_reads|done..|by destruct e]. }
    apply run_same in E as [Hm Ht%datapoint_Get_reads]. destruct dto as [dp|]; [|by left].
    destruct (validate_datapoint _); [|by left]. last_call datapoint_Update_stays.
  - unfold deleteDataPoint. last_call datapoint_Delete_stays.
  - unfold importConfig. destruct (payload_errors p); [|by left]. destruct (restore p (inv a)) as [r s].
    right. split; [done|]. by eexists.
Qed.

(** The pollers are those the tables ask for, one a connection. *)
Definition synced (a : Api) : Prop :=
exists m, manager a = Some m /\ manager_ok m /\ matches (tables (inv a)) m.

(** A gateway whose tables are valid and whose manager is sound. *)
Definition supervised (a : Api) : Prop :=
api_ok a /\ exists m, manager a = Some m /\ manager_ok m.

Lemma outcome_synced a status a' :
  (forall n, inv_fault n = false) -> supervised a -> api_ok a' -> answered a status a' ->
  supervised a' /\ (synced a \/ status < 300 -> synced a').
Proof.
  intros Hf [_ (m & Hm & Hok)] Ha' [(Hs & Ht & Hm')|(Hs & b & -> & Hb)].
  - split; [split; [done|]; exists m; split; [congruence|done]|]. unfold synced. rewrite Ht, Hm'.
    intros [?|?]; [done|lia].
  - assert (Hsy : synced (reload b)); [|by destruct Hsy as (m' & ? & ? & ?); split; [split; [done|]; by exists m'|by exists m']].
    unfold api_ok in Ha'. rewrite reload_tables in Ha'. unfold synced. rewrite reload_tables. unfold reload, run.
    rewrite Hb, Hm. destruct (Reload_runs Hf m (inv b) (proj2 Ha')) as (m' & s' & E). rewrite E. cbn.
    apply reload_applies in E as (_ & wanted & -> & Hw & Hc). eexists. split; [done|].
    split; [by apply apply_wanted_spec|by apply apply_matches].
Qed.
End Requests.

(** * The property *)

Definition serve_requests `{InvEnv} (qs : list request) (a : Api) : Api := foldl (fun a q => serve q a) a qs.

(** Some request of the list is answered with success. *)
Fixpoint some_accepted `{InvEnv} (qs : list request) (a : Api) : Prop :=
  match qs with
  | [] => False
  | q :: qs => status_of q a < 300 \/ some_accepted qs (serve q a)
  end.

(** C16. The pollers follow the configuration API. On a gateway with valid
    tables and a database that works, whatever requests are served, refused
    ones and imports included: if the pollers were those the tables ask for
    before the requests they are after them, one a connection, and if they
    were not (an earlier reload had failed) they are as soon as one request
    has been accepted. *)
Theorem pollers_follow_api `{InvEnv} qs a :
  (forall n, inv_fault n = false) -> Forall typed_request qs -> supervised a ->
  synced a \/ some_accepted qs a -> synced (serve_requests qs a).
Proof.
  intros Hf Hq. revert a. induction Hq as [|q qs Hq _ IH]; intros a Ha Hs; [by destruct Hs|].
  destruct (outcome_synced a (status_of q a) (serve q a) Hf Ha) as [Ha' Hs'];
    [by apply serve_ok, Ha|apply serve_outcome, Ha|].
  apply IH; [done|]. destruct Hs as [Hs|[Hs|Hs]]; [left; by apply Hs'; left|left; by apply Hs'; right|by right].
Qed.

#[local] Instance working : InvEnv := {| inv_fault := fun _ => false |}.

(** A gateway that has just started on empty tables gets a bus with two
    devices, loses one again, and is sent a device on a bus it does not have
    and a slave id out of range. *)
Definition started : Api := mkApi (mkInv empty_tables 0) (Some NewManager) ∅ None.
Definition day_requests : list request :=
  plant_requests ++ [DeleteDeviceReq (Some 2); CreateDeviceReq (Some (mkDevice 0 "stray" 9 1 true));
                     UpdateDeviceReq (Some 1) (Some (mkDevice 1 "boiler" 1 248 true)); DeleteDeviceReq (Some 2)].

Lemma pollers_follow_api_witness :
  synced (serve_requests day_requests started) /\
  (fun rc => map (fun g => d_Name (device g)) (rc_devices rc)) <$>
    (m ← manager (serve_requests day_requests started); running m !! 1) = Some ["boiler"].
Proof.
  split; [|by vm_compute]. apply (@pollers_follow_api working day_requests started); [done|..].
  - repeat constructor; by vm_compute.
  - split; [split; [apply tables_ok_empty|by repeat constructor]|]. exists NewManager. split; [done|apply manager_ok_new].
  - right. left. by vm_compute.
Defined.
