(* ===== verification/EndToEnd.v ===== *)
(** From the register to the database: one polling pass, the queue, the
    sending loop and the server, each as its own file models it, run one after
    the other on a healthy day. *)

From S2P Require Import Prelude.
From S2P Require Import Float64.
From S2P Require Import GoTime.
From S2P Require Import Codec.
From S2P Require Import QueueDb.
From S2P Require Import QueueStore.
From S2P Require Import QueueFacts.
From S2P Require Import QueueProps.
From S2P Require Import Wire.
From S2P Require Import Forwarder.
From S2P Require Import QueueSource.
From S2P Require Import Transports.
From S2P Require Import ServerStore.
From S2P Require Import ServerSettings.
From S2P Require Import Server.
From S2P Require Import Pipeline.
From S2P Require Modbus.
From S2P Require Inventory.
From S2P Require BlockPlan.
From S2P Require Observers.
From S2P Require Poller.
From S2P Require PollerProps.

Local Open Scope string_scope.
Local Open Scope list_scope.
Local Open Scope Z_scope.

(** ** A healthy far end *)

(** The server answers this gateway: no simulated fault, and the gateway is
    registered or need not be. *)
Definition answering_to (gid : string) (sv : server) : Prop :=
  Mode (Fault (settings sv)) = faultNone /\
  (gatewayName gid (settings sv) <> None \/ RejectUnknownGateways (settings sv) = false).

(** JSON carries every value of the chunk. *)
Definition sendable (r : Reading) : Prop := forall b, Value r = Some b -> finite b = true.
Definition sendable_chunk (c : Chunk) : Prop := Forall sendable (Readings c).

Section Healthy.
Context `{ServerEnv, Network}.
Hypothesis network_up : forall n, net n = Delivered.
Hypothesis database_up : forall n, writeChunks_err n = None.

Lemma process_answering m sv :
  answering_to (m_GatewayID m) sv ->
  exists a d sv', process m sv = (mkVerdict true "" StatusOK a d, sv') /\ settings sv' = settings sv.
Proof.
  intros [Hf Hg]. unfold process. rewrite Hf. cbn [String.eqb faultNone faultIgnore faultErrorAck faultDropAck Ascii.eqb Bool.eqb].
  assert (Hreg : bool_decide (gatewayName (m_GatewayID m) (settings sv) = None) && RejectUnknownGateways (settings sv) = false).
  { destruct Hg as [Hg|Hg]; [by rewrite bool_decide_false|by rewrite Hg, andb_false_r]. }
  rewrite Hreg. cbn [sstore set_store]. destruct (ingest m _) as [[[a d] [e|]] s] eqn:Ei; [|by eexists _, _, _].
  exfalso. unfold ingest, write_out in Ei. destruct (_ && _) in Ei; [rewrite database_up in Ei|]; done.
Qed.

Lemma post_answering m w :
  answering_to (m_GatewayID m) (srv w) ->
  exists w', post_ingest m w = (Ok (200, "OK"), w') /\ settings (srv w') = settings (srv w).
Proof.
  intros Ha. unfold post_ingest. rewrite network_up. unfold handleIngest.
  destruct (process_answering m (srv w) Ha) as (a & d & sv & -> & Hs). cbn.
  by eexists.
Qed.

Lemma marshal_sendable gid sid cs : Forall sendable_chunk cs -> marshal (buildMessage gid sid cs) = Ok (buildMessage gid sid cs).
Proof.
  intros Hcs. unfold marshal. rewrite filter_none; [done|]. apply Forall_forall. intros b Hb.
  unfold message_values, buildMessage in Hb. cbn [m_Chunks] in Hb. rewrite map_map in Hb.
  apply list_elem_of_join in Hb as (l & Hb & Hl). apply list_elem_of_fmap in Hl as (c & -> & Hc).
  cbn [wire_chunk wc_Readings] in Hb. apply list_elem_of_omap in Hb as (wr & Hwr & Hb).
  apply list_elem_of_fmap in Hwr as (r & -> & Hr). cbn in Hb.
  rewrite Forall_forall in Hcs. pose proof (Hcs c Hc) as Hcc. unfold sendable_chunk in Hcc.
  rewrite Forall_forall in Hcc. rewrite (Hcc r Hr b Hb). by intros [].
Qed.

Lemma http_working gid sid chunks :
  Forall sendable_chunk chunks -> working (fun w => answering_to gid (srv w)) gid sid chunks.
Proof.
  intros Hs cs w Hcs Ha. cbn. unfold http_Send. rewrite marshal_sendable.
  2:{ apply Forall_forall. intros c Hc. rewrite Forall_forall in Hs. by apply Hs, Hcs. }
  unfold post. cbn. destruct (post_answering (buildMessage gid sid cs) w Ha) as (w' & -> & Hset).
  cbn. exists w'. split; [done|]. unfold answering_to. by rewrite Hset.
Qed.
End Healthy.

(** ** What a flush makes deliverable *)

Section Flushed.
Context `{Env, Flate}.

(** A stored reading is in a row that decodes. *)
Lemma reading_delivered s r :
  r ∈ rows_readings (chunk (db s)) -> exists c, c ∈ deliverable s /\ r ∈ Readings c.
Proof.
  intros Hr. unfold rows_readings in Hr. apply list_elem_of_join in Hr as (l & Hl & Hr).
  apply list_elem_of_fmap in Hr as (x & -> & Hx). exists (row_chunk x). split; [|done].
  unfold deliverable. apply list_elem_of_fmap_2, list_elem_of_filter. split; [|done].
  unfold readable, decoded in *. destruct (decodeChunk (row_data x)); [done|]. by apply elem_of_nil in Hl.
Qed.

Lemma delivered_reading s c r : c ∈ deliverable s -> r ∈ Readings c -> r ∈ rows_readings (chunk (db s)).
Proof.
  intros (x & -> & [_ Hx]%list_elem_of_filter)%list_elem_of_fmap Hr. unfold rows_readings.
  apply list_elem_of_join. exists (decoded (row_data x)). split; [done|].
  by apply (list_elem_of_fmap_2 (fun r => decoded (row_data r))).
Qed.

Lemma sendable_all s :
  Forall sendable (rows_readings (chunk (db s))) -> Forall sendable_chunk (deliverable s).
Proof.
  intros Hs. apply Forall_forall. intros c Hc. apply Forall_forall. intros r Hr.
  rewrite Forall_forall in Hs. apply Hs. by eapply delivered_reading.
Qed.
End Flushed.

(** ** The pass *)

(** The queue at the gateway's callbacks is [q] with more in its buffer. *)
Definition feeding (q : Store) (s : Observers.Sinks) : Prop :=
  exists q', Observers.queue s = Some q' /\
    db q' = db q /\ unflushed q' = unflushed q /\ clk q' = clk q /\ streamID q' = streamID q.

#[export] Instance feeding_observes q :
  PollerProps.Observes PollerProps.gateway_poller (feeding q) PollerProps.queued Observers.queue_reading.
Proof.
  split.
  - intros r [st l [q'|] dg] (q1 & Hq & Hs); [|done]. injection Hq as <-. split; [|done].
    by exists (Observers.Process r q').
  - by intros g k e a o [= <-].
  - by intros g d t n b o [= <-].
Qed.

#[local] Existing Instance Poller.world_client.

Section EndToEnd.
Context `{Env, Flate, ServerEnv, Network} {V : Type} `{Poller.World V, BlockPlan.GoOrder}.
(** The device: its registers, and when it answers. *)
Context (reg : Z -> Z -> list Z) (online : V -> Prop).
Hypothesis reg_width : forall fc a, length (reg fc a) = 2%nat.
Hypothesis answers : forall fc a q w,
  online w -> fc <> Modbus.FuncReadCoils -> fc <> Modbus.FuncReadDiscreteInputs -> 0 <= a -> 1 <= q <= 125 -> a + q <= 65536 ->
  exists w', Modbus.Read fc a q w = (Ok (PollerProps.bytes_at reg fc a q), w') /\ online w'.
Hypothesis stays_online : forall w t,
  online w -> online (Poller.Now w).2 /\ online (Poller.with_timeout t w) /\ online (Poller.cancel_timeout w).
Hypothesis network_up : forall n, net n = Delivered.
Hypothesis database_up : forall n, writeChunks_err n = None.

(** The value of a point now, as the queue stores it. *)
Definition register_reading (d : Inventory.Device) (t : Z) (dp : Inventory.DataPoint) : Reading :=
Observers.queue_reading (PollerProps.dedicated_reading reg d t dp).

(** The readings of the queue, and those the pass adds. *)
Definition readings_then (q : Store) (d : Inventory.Device) (pts : list Inventory.DataPoint) (t : Z) : list Reading :=
rows_readings (chunk (db q)) ++ pend_readings (unflushed q) ++ buf q ++
map (register_reading d t) (filter BlockPlan.known pts).

(** What a healthy day is: the queue consistent and its file writable, values
  that JSON carries, and points the poller can plan. *)
Record ready (q : Store) (d : Inventory.Device) (pts : list Inventory.DataPoint) (t : Z) : Prop := {
rd_db : db_ok (db q);
rd_sql : no_fault 0;
rd_buf : Forall CodecFacts.wf_reading (buf q ++ map (register_reading d t) (filter BlockPlan.known pts));
rd_length : Z.of_nat (length (buf q) + length pts) < Int.two63;
rd_sendable : Forall sendable (readings_then q d pts t);
rd_points : Forall BlockPlan.addressable pts;
rd_registers : Forall (fun dp => Inventory.FunctionCode dp <> Modbus.FuncReadCoils /\
  Inventory.FunctionCode dp <> Modbus.FuncReadDiscreteInputs) pts
}.

(** The pass puts the points' values in the buffer, and touches nothing else. *)
Lemma pass_fills d pts timeout t v s q r v' s' :
ready q d pts t -> online v -> Observers.queue s = Some q ->
Poller.readDevice PollerProps.gateway_poller d pts timeout t v s = (r, (v', s')) ->
exists q' rs, Observers.queue s' = Some q' /\ db q' = db q /\ unflushed q' = unflushed q /\ clk q' = clk q /\
  streamID q' = streamID q /\ buf q' = buf q ++ rs /\ rs ≡ₚ map (register_reading d t) (filter BlockPlan.known pts).
Proof.
  intros Hr Hv Hq Hp. destruct r as [rc br].
  destruct (PollerProps.dedicated_pass reg reg_width PollerProps.gateway_poller (feeding q) PollerProps.queued
    Observers.queue_reading online answers stays_online d pts timeout t v s rc br v' s') as [Hl (rs & Hobs & Hperm)];
    [by exists q|done|apply Hr|apply Hr|done|].
  destruct Hl as (q' & Hq' & D & U & C & S1). exists q', (map Observers.queue_reading rs).
  unfold PollerProps.queued in Hobs. rewrite Hq, Hq' in Hobs. split_and!; try done.
  etrans; [by apply Permutation_map|]. by rewrite map_map.
Qed.

(** The flush after it puts everything that waited in the file. *)
Lemma pass_flushed d pts timeout t v s q r v' s' q' :
ready q d pts t -> online v -> Observers.queue s = Some q ->
Poller.readDevice PollerProps.gateway_poller d pts timeout t v s = (r, (v', s')) ->
Observers.queue s' = Some q' ->
exists q1 rows rs, Flush q' = (Ok tt, q1) /\ db_ok (db q1) /\ no_fault (clk q1) /\ streamID q1 = streamID q /\
  chunk (db q1) = chunk (db q) ++ rows /\
  rows_readings rows = pend_readings (unflushed q) ++ map CodecFacts.truncate (buf q ++ rs) /\
  rs ≡ₚ map (register_reading d t) (filter BlockPlan.known pts).
Proof.
  intros Hr Hv Hq Hp Hq'. destruct (pass_fills d pts timeout t v s q r v' s' Hr Hv Hq Hp)
    as (q2 & rs & Hq2 & D & U & C & S1 & B & Hperm). rewrite Hq' in Hq2. injection Hq2 as <-.
  assert (Hwf : Forall CodecFacts.wf_reading (buf q')).
  { pose proof (rd_buf _ _ _ _ Hr) as [? ?]%Forall_app. rewrite B. apply Forall_app. split; [done|by rewrite Hperm]. }
  assert (Hlen : Z.of_nat (length (buf q')) < Int.two63).
  { rewrite B, length_app, Hperm, length_map. pose proof (rd_length _ _ _ _ Hr).
    pose proof (length_filter BlockPlan.known pts). lia. }
  destruct (Flush q') as [rf q1] eqn:EF. destruct (flush_spec _ _ _ Hwf Hlen EF) as [Hok Hout].
  rewrite Hok in Hout, EF |- * by (eapply no_fault_le; [apply Hr|lia]). destruct Hout as [_ (rows & Hrows & Hrr & _) Hdb].
  exists q1, rows, rs. split; [done|]. split; [apply Hdb; rewrite D; apply Hr|].
  split; [by eapply no_fault_le; [apply Hr|lia]|].
  pose proof (streamID_Flush q') as HS. rewrite EF in HS. cbn in HS.
  split; [congruence|]. by rewrite Hrows, Hrr, D, U, B.
Qed.

(** The readings of the flushed queue are sendable. *)
Lemma flushed_sendable q q1 rows rs d pts t :
ready q d pts t -> chunk (db q1) = chunk (db q) ++ rows ->
rows_readings rows = pend_readings (unflushed q) ++ map CodecFacts.truncate (buf q ++ rs) ->
rs ≡ₚ map (register_reading d t) (filter BlockPlan.known pts) -> Forall sendable_chunk (deliverable q1).
Proof.
  intros Hr Hc Hrr Hperm. apply sendable_all. rewrite Hc, rows_readings_app, Hrr.
  pose proof (rd_sendable _ _ _ _ Hr) as [Hs1 [Hs2 [Hs3 Hs4]%Forall_app]%Forall_app]%Forall_app.
  apply Forall_app. split; [done|]. apply Forall_app. split; [done|].
  assert (Hs : Forall sendable (buf q ++ rs)) by (apply Forall_app; split; [done|by rewrite Hperm]).
  rewrite Forall_forall in Hs. apply Forall_forall. intros x (y & -> & Hy)%list_elem_of_fmap. exact (Hs y Hy).
Qed.

Lemma world_ok_more gid sid all all' w : all ⊆ all' -> world_ok gid sid all w -> world_ok gid sid all' w.
Proof.
  intros Hsub [W1 W2 W3 W4 W5]. split; try done. intros x Hx Hk. destruct (W5 x Hx Hk) as (c & Hc & ->).
  exists c. split; [by apply Hsub|done].
Qed.

Lemma deliverable_more q q1 rows : chunk (db q1) = chunk (db q) ++ rows -> deliverable q ⊆ deliverable q1.
Proof.
  intros Hc. unfold deliverable. rewrite Hc, filter_app, map_app. by apply list_subseteq_app_l.
Qed.

(** C4. From the register to the database: on a healthy day -- the device answers,
    the queue's file and the server's database accept writes, the network
    delivers, JSON can carry the values -- after one pass over a device, a flush
    and as many turns of the sending loop as the queue has rows, nothing is left
    to deliver, the server's database holds no chunk twice, and for every data
    point of a known type it holds, under the gateway's and the queue's names,
    the value its own registers had: decoded, scaled, stamped and encoded. *)
Theorem register_to_database d pts timeout t v s q r v' s' gid w cfg st failed :
  ready q d pts t -> online v -> Observers.queue s = Some q ->
  Poller.readDevice PollerProps.gateway_poller d pts timeout t v s = (r, (v', s')) ->
  cfg_GatewayID cfg = gid -> answering_to gid (srv w) -> world_ok gid (streamID q) (deliverable q) w ->
  exists q', Observers.queue s' = Some q' /\
  let q1 := (Flush q').2 in
  forall n, (length (chunk (db q1)) <= n)%nat ->
  let f' := (Run n (mkFwd q1 w cfg st failed)).2 in
  let stored := written (sstore (srv (world f'))) in
  deliverable (src f') = [] /\ NoDup (map sc_key stored) /\
  forall dp, dp ∈ pts -> BlockPlan.known dp ->
    exists c, c ∈ stored /\ (sc_key c).1 = (gid, streamID q) /\
      wire_reading (CodecFacts.truncate (register_reading d t dp)) ∈ sc_readings c.
Proof.
  intros Hr Hv Hq Hp Hgid Ha Hw.
  destruct (pass_fills d pts timeout t v s q r v' s' Hr Hv Hq Hp) as (q' & _ & Hq' & _).
  exists q'. split; [done|].
  destruct (pass_flushed d pts timeout t v s q r v' s' q' Hr Hv Hq Hp Hq')
    as (q1 & rows & rs & EF & Hdb & Hnf & Hsid & Hrows & Hrr & Hperm).
  rewrite EF. cbv zeta. cbn [snd]. intros n Hn. set (f := mkFwd q1 w cfg st failed). set (f' := (Run n f).2).
  pose proof (flushed_sendable q q1 rows rs d pts t Hr Hrows Hrr Hperm) as Hsend.
  assert (Hdone : deliverable (src f') = []).
  { change (held (src (Run n f).2) = []). apply (run_drains (fun w => answering_to gid (srv w)) n f); [|by split|done|exact Hn].
    cbn. rewrite Hgid. by apply http_working. }
  destruct (run_once n f gid (streamID q) Hdb Hgid Hsid) as [Hw' (gone & Hg & Hall)].
  { eapply world_ok_more; [|exact Hw]. by eapply deliverable_more. }
  fold f' in Hw', Hg, Hall. rewrite Hdone, app_nil_r in Hg. subst gone.
  split; [done|]. split; [apply Hw'|]. intros dp Hdp Hk.
  assert (Hin : CodecFacts.truncate (register_reading d t dp) ∈ rows_readings (chunk (db q1))).
  { rewrite Hrows, rows_readings_app, Hrr. apply elem_of_app. right. apply elem_of_app. right.
    apply (list_elem_of_fmap_2 CodecFacts.truncate), elem_of_app. right. rewrite Hperm.
    by apply (list_elem_of_fmap_2 (register_reading d t)), list_elem_of_filter. }
  destruct (reading_delivered q1 _ Hin) as (c & Hc & Hcr). exists (chunk_of gid (streamID q) c).
  rewrite Forall_forall in Hall. split; [by apply Hall|]. split; [done|].
  by apply (list_elem_of_fmap_2 wire_reading).
Qed.
End EndToEnd.

(** * Witness *)

#[local] Existing Instance sample_env.
#[local] Existing Instance stored_flate.
#[local] Existing Instance BlockPlan.stable_order.
#[local] Existing Instance PollerProps.memory_client.
#[local] Existing Instance PollerProps.memory_world.

#[local] Existing Instance sample_server.
#[local] Instance day_network : Network := {| net := fun _ => Delivered; net_now := fun n => Z.of_nat n |}.

(** A device with four points, a queue with two chunks and a reading waiting,
    and a server that knows the gateway. *)
Definition day_sinks : Observers.Sinks := Observers.mkSinks ∅ ∅ (Some sample_store) Observers.new_diag.
Definition day_world : World := mkWorld (mkServer (normalize sample_settings) (newStore true)) 0 [].
Definition day_config : Config := new_config (mkConfig "GW1" 2 0).
Definition day_status : Status := mkStatus false "" None None.

Lemma sendable_bool rs :
  forallb (fun r => from_option finite true (Value r)) rs = true -> Forall sendable rs.
Proof.
  intros Hf. rewrite forallb_forall in Hf. apply Forall_forall. intros r Hr b Hb.
  specialize (Hf r ltac:(by apply list_elem_of_In)). by rewrite Hb in Hf.
Qed.

Lemma day_ready : ready PollerProps.own_address sample_store PollerProps.sensor BlockPlan.four_tags 1000000.
Proof.
  split.
  - exact sample_db_ok.
  - done.
  - vm_compute. repeat constructor; cbv; try done; discriminate.
  - vm_compute. reflexivity.
  - apply sendable_bool. vm_compute. reflexivity.
  - repeat constructor; by vm_compute.
  - repeat constructor; by vm_compute.
Qed.

Lemma register_to_database_witness :
  exists q', Observers.queue (Poller.readDevice PollerProps.gateway_poller PollerProps.sensor BlockPlan.four_tags 0
                               1000000 0 day_sinks).2.2 = Some q' /\
  let q1 := (Flush q').2 in
  forall n, (length (chunk (db q1)) <= n)%nat ->
  let f' := (Run n (mkFwd q1 day_world day_config day_status 0)).2 in
  let stored := written (sstore (srv (world f'))) in
  deliverable (src f') = [] /\ NoDup (map sc_key stored) /\
  forall dp, dp ∈ BlockPlan.four_tags -> BlockPlan.known dp ->
    exists c, c ∈ stored /\ (sc_key c).1 = ("GW1", streamID sample_store) /\
      wire_reading (CodecFacts.truncate (register_reading PollerProps.own_address PollerProps.sensor 1000000 dp)) ∈ sc_readings c.
Proof.
  destruct (Poller.readDevice PollerProps.gateway_poller PollerProps.sensor BlockPlan.four_tags 0 1000000 0 day_sinks)
    as [r [v' s']] eqn:E.
  apply (register_to_database PollerProps.own_address (fun _ => True)) with (d := PollerProps.sensor)
    (timeout := 0) (t := 1000000) (v := 0) (s := day_sinks) (r := r) (v' := v').
  - done.
  - intros fc a q w _ H1 H2 _ _ _. exists (w + 1). split; [|done].
    cbn [Modbus.Read Poller.world_client PollerProps.memory_world PollerProps.memory_client].
    apply Z.eqb_neq in H1 as ->. by apply Z.eqb_neq in H2 as ->.
  - done.
  - done.
  - done.
  - exact day_ready.
  - done.
  - done.
  - exact E.
  - done.
  - split; [by vm_compute|left; by vm_compute].
  - split; [apply store_ok_new|done|constructor|constructor|]. intros x Hx. by apply elem_of_nil in Hx.
Defined.
