(* ===== verification/Schema.v ===== *)
(** The schema of gateway.db: what the migration scripts (src/migrations) make
    of the tables, whether the statements of the repositories fit it, what
    script 0004 makes of the devices of a version 1 gateway, and why the demo
    device (cmd/gateway/devseed.go) is never inserted.

    A script is its statements on the schema; SQLite's rules for them are
    [exec_ddl]'s. *)

From Stdlib Require Import Ascii.
From stdpp Require Import pretty.
From S2P Require Import Prelude.
From S2P Require Import Inventory.
From S2P Require Migrate.

Local Open Scope string_scope.
Local Open Scope list_scope.
Local Open Scope Z_scope.

(** * Schemas *)

(** A column: its [INTEGER PRIMARY KEY] is filled in when left out. *)
Record column := mkCol {
  col_name : string;
  is_key : bool;
  not_null : bool;
  has_default : bool;
  references : option string
}.

(** The tables, and the indexes by name with their table and columns. *)
Record schema := mkSchema {
  tables_of : gmap string (list column);
  indexes : gmap string (string * list string)
}.
Definition empty_schema : schema := mkSchema ∅ ∅.

Definition key (n : string) : column := mkCol n true false false None.
Definition required (n : string) : column := mkCol n false true false None.
Definition defaulted (n : string) : column := mkCol n false true true None.
Definition optional (n : string) : column := mkCol n false false false None.
Definition parent (n t : string) : column := mkCol n false true false (Some t).

(** The statements the scripts use, less their effect on rows. *)
Inductive ddl :=
| CreateTable (if_not_exists : bool) (t : string) (cols : list column)
| AddColumn (t : string) (c : column)
| DropColumn (t n : string)
| DropTable (if_exists : bool) (t : string)
| RenameTable (t u : string)
| CreateIndex (if_not_exists : bool) (i t : string) (cols : list string)
| InsertSelect (t : string) (cols : list string) (from : list (string * list string)).

Definition find_col (n : string) (cols : list column) : option column :=
  head (filter (fun c => col_name c = n) cols).
Definition has_cols (s : schema) (t : string) (ns : list string) : bool :=
  match tables_of s !! t with
  | None => false
  | Some cols => forallb (fun n => bool_decide (n ∈ map col_name cols)) ns
  end.

(** Every column left out of an insertion has a value. *)
Definition insertable (s : schema) (t : string) (ns : list string) : bool :=
  has_cols s t ns && bool_decide (NoDup ns) &&
  forallb (fun c => bool_decide (col_name c ∈ ns) || is_key c || has_default c || negb (not_null c))
    (default [] (tables_of s !! t)).

Definition set_table (t : string) (cols : list column) (s : schema) : schema :=
  mkSchema (<[t := cols]> (tables_of s)) (indexes s).

(** [None]: SQLite refuses the statement. *)
Definition exec_ddl (d : ddl) (s : schema) : option schema :=
  match d with
  | CreateTable if_not_exists t cols =>
    match tables_of s !! t with
    | Some _ => if if_not_exists then Some s else None
    | None => Some (set_table t cols s)
    end
  | AddColumn t c =>
    match tables_of s !! t with
    | None => None
    | Some cols =>
      if bool_decide (col_name c ∈ map col_name cols) || is_key c || (not_null c && negb (has_default c)) then None
      else Some (set_table t (cols ++ [c]) s)
    end
  | DropColumn t n =>
    match tables_of s !! t with
    | None => None
    | Some cols =>
      match find_col n cols with
      | None => None
      | Some c =>
        if is_key c || bool_decide (references c <> None) ||
           existsb (fun '(_, (u, ns)) => bool_decide (u = t) && bool_decide (n ∈ ns)) (map_to_list (indexes s))
        then None
        else Some (set_table t (filter (fun c => col_name c <> n) cols) s)
      end
    end
  | DropTable if_exists t =>
    match tables_of s !! t with
    | None => if if_exists then Some s else None
    | Some _ => Some (mkSchema (delete t (tables_of s)) (filter (fun '(_, (u, _)) => u <> t) (indexes s)))
    end
  | RenameTable t u =>
    match tables_of s !! t, tables_of s !! u with
    | Some cols, None =>
      Some (mkSchema (<[u := cols]> (delete t (tables_of s)))
              ((fun '(v, ns) => (if decide (v = t) then u else v, ns)) <$> indexes s))
    | _, _ => None
    end
  | CreateIndex if_not_exists i t cols =>
    match indexes s !! i with
    | Some _ => if if_not_exists then Some s else None
    | None => if has_cols s t cols then Some (mkSchema (tables_of s) (<[i := (t, cols)]> (indexes s))) else None
    end
  | InsertSelect t cols from =>
    if insertable s t cols && forallb (fun '(u, ns) => has_cols s u ns) from then Some s else None
  end.

Definition exec_script (ds : list ddl) (s : schema) : option schema :=
  foldl (fun r d => r ≫= exec_ddl d) (Some s) ds.

(** * The scripts *)

(** A table with a key of its own. *)
Definition stamps : list column := [defaulted "created_at"; defaulted "updated_at"].

Definition init_0001 : list ddl := [
  CreateTable true "gateway" [mkCol "id" false false false None; required "name"; defaulted "last_sequence"; defaulted "created_at"];
  CreateTable true "device" ([key "id"; required "name"; required "protocol"; optional "interface"; optional "ip_address";
    optional "slave_id"; optional "port"; defaulted "polling_interval_ms"; defaulted "timeout_ms"; defaulted "retry";
    defaulted "enabled"] ++ stamps);
  CreateTable true "datapoint" ([key "id"; parent "device_id" "device"; required "tag_name"; required "function_code";
    required "register_address"; required "data_type"; defaulted "byte_order"; defaulted "word_order"; defaulted "scale";
    defaulted "offset"; optional "unit"; defaulted "polling_interval_ms"; defaulted "priority"; defaulted "enabled"] ++ stamps);
  CreateIndex true "idx_datapoint_device_id" "datapoint" ["device_id"];
  CreateTable true "data_queue" [key "id"; required "gateway_id"; required "sequence_id"; required "device_id";
    required "datapoint_id"; optional "value"; required "quality"; required "event_timestamp"; defaulted "created_at";
    defaulted "status"; defaulted "retry_count"; optional "sent_at"; optional "last_error"; defaulted "priority"];
  CreateIndex true "idx_data_queue_gateway_sequence" "data_queue" ["gateway_id"; "sequence_id"];
  CreateIndex true "idx_data_queue_status" "data_queue" ["status"];
  CreateTable true "system_config" [mkCol "key" false false false None; required "value"; defaulted "updated_at"];
  CreateTable true "audit_log" [key "id"; required "action"; optional "detail"; defaulted "created_at"]].

Definition device_rtu_params_0002 : list ddl :=
  map (fun n => AddColumn "device" (defaulted n)) ["baud_rate"; "data_bits"; "parity"; "stop_bits"].

Definition data_queue_retry_0003 : list ddl := [
  AddColumn "data_queue" (defaulted "next_attempt_at");
  CreateIndex true "idx_data_queue_pending_dispatch" "data_queue" ["status"; "next_attempt_at"]].

(** What is copied from a version 1 device to its connection. *)
Definition link_columns : list string :=
  ["name"; "protocol"; "interface"; "ip_address"; "port"; "baud_rate"; "data_bits"; "parity"; "stop_bits"; "timeout_ms"; "retry"].

Definition connection_split_0004 : list ddl := [
  CreateTable false "connection" ([key "id"; required "name"; required "protocol"; optional "interface"; optional "ip_address";
    optional "port"; defaulted "baud_rate"; defaulted "data_bits"; defaulted "parity"; defaulted "stop_bits";
    defaulted "timeout_ms"; defaulted "retry"; defaulted "enabled"] ++ stamps);
  InsertSelect "connection" link_columns [("device", "id" :: link_columns)];
  CreateTable false "device_new" ([key "id"; required "name"; parent "connection_id" "connection"; optional "slave_id";
    defaulted "polling_interval_ms"; defaulted "enabled"] ++ stamps);
  InsertSelect "device_new"
    ["id"; "name"; "connection_id"; "slave_id"; "polling_interval_ms"; "enabled"; "created_at"; "updated_at"]
    [("device", ["id"; "name"; "slave_id"; "polling_interval_ms"; "enabled"; "created_at"; "updated_at"]);
     ("connection", ["id"; "name"])];
  DropTable false "device";
  RenameTable "device_new" "device";
  CreateIndex false "idx_device_connection_id" "device" ["connection_id"]].

Definition scan_polling_0005 : list ddl := [
  AddColumn "connection" (defaulted "next_device_delay_ms");
  DropColumn "datapoint" "polling_interval_ms";
  DropColumn "device" "polling_interval_ms"].
Definition event_timestamp_index_0006 : list ddl :=
  [CreateIndex true "idx_data_queue_event_timestamp" "data_queue" ["event_timestamp"]].
Definition priority_eviction_index_0007 : list ddl :=
  [CreateIndex true "idx_data_queue_priority_event_timestamp" "data_queue" ["priority"; "event_timestamp"]].
Definition drop_data_queue_0008 : list ddl := [DropTable true "data_queue"; DropColumn "datapoint" "priority"].

(** The directory, by file name. *)
Definition scripts : list (string * list ddl) := [
  ("0001_init.sql", init_0001);
  ("0002_device_rtu_params.sql", device_rtu_params_0002);
  ("0003_data_queue_retry.sql", data_queue_retry_0003);
  ("0004_connection_split.sql", connection_split_0004);
  ("0005_scan_polling.sql", scan_polling_0005);
  ("0006_data_queue_event_timestamp_index.sql", event_timestamp_index_0006);
  ("0007_data_queue_priority_eviction_index.sql", priority_eviction_index_0007);
  ("0008_v2_drop_data_queue_and_priority.sql", drop_data_queue_0008)].

(** The migration runner on this directory: a file's text is its statements,
    found by its path. *)
Definition script_at (path : string) : list ddl :=
  match filter (fun '(n, _) => Config.JoinPath "migrations" n = path) scripts with (_, ds) :: _ => ds | [] => [] end.
#[export] Instance schema_engine : Migrate.SqlEnv schema := {|
  Migrate.sql_exec := fun path s =>
    match exec_script (script_at path) s with Some s' => Ok s' | None => Err "SQL logic error" end;
  Migrate.fk_violated := fun _ => false
|}.
Definition script_files : Migrate.Files :=
  Migrate.mkFiles (Ok (map (fun '(n, _) => Migrate.mkEntry n false) scripts)) (fun path => Ok path).

(** * The repositories' statements *)

Inductive statement :=
| Select (t : string) (cols : list string)
| InsertInto (t : string) (cols : list string)
| UpdateSet (t : string) (cols : list string)
| DeleteFrom (t : string) (cols : list string).

(** SQLite accepts the statement. *)
Definition fits (s : schema) (q : statement) : bool :=
  match q with
  | Select t cols | UpdateSet t cols | DeleteFrom t cols => has_cols s t cols
  | InsertInto t cols => insertable s t cols
  end.

Definition connection_columns : list string :=
  ["name"; "protocol"; "interface"; "ip_address"; "port"; "timeout_ms"; "retry"; "enabled"; "next_device_delay_ms";
   "baud_rate"; "data_bits"; "parity"; "stop_bits"].
Definition connection_statements : list statement := [
  Select "connection" ("id" :: connection_columns);
  InsertInto "connection" connection_columns;
  UpdateSet "connection" (connection_columns ++ ["updated_at"; "id"]);
  Select "device" ["connection_id"];
  DeleteFrom "connection" ["id"]].

Definition device_columns : list string := ["name"; "connection_id"; "slave_id"; "enabled"].
Definition device_statements : list statement := [
  Select "device" ("id" :: device_columns);
  InsertInto "device" device_columns;
  UpdateSet "device" (device_columns ++ ["updated_at"; "id"]);
  DeleteFrom "device" ["id"]].

Definition datapoint_columns : list string :=
  ["tag_name"; "function_code"; "register_address"; "data_type"; "byte_order"; "word_order"; "scale"; "offset"; "unit"; "enabled"].
Definition datapoint_statements : list statement := [
  Select "datapoint" ("id" :: "device_id" :: datapoint_columns);
  InsertInto "datapoint" ("device_id" :: datapoint_columns);
  UpdateSet "datapoint" (datapoint_columns ++ ["updated_at"; "id"]);
  DeleteFrom "datapoint" ["id"]].

Definition repository_statements : list statement :=
  connection_statements ++ device_statements ++ datapoint_statements.

(** * The demo device (devseed.go) *)

Definition seed_device : statement :=
  InsertInto "device"
    ["name"; "protocol"; "ip_address"; "slave_id"; "port"; "polling_interval_ms"; "timeout_ms"; "retry"; "enabled"].
Definition seed_point : statement :=
  InsertInto "datapoint"
    ["device_id"; "tag_name"; "function_code"; "register_address"; "data_type"; "byte_order"; "scale"; "unit";
     "polling_interval_ms"; "enabled"].
Definition demo_tags : list string := ["Voltage_L1"; "Active_Power"; "Current_L1"].

(** What it logs last, and what it inserted: the device, and points by tag. *)
Inductive seed_log :=
| SeedCheckFailed
| SeedNotNeeded
| SeedDeviceFailed
| SeedIDFailed
| SeedDone.
Record seeded := mkSeeded { last_log : seed_log; device_inserted : bool; points_inserted : list string }.

(** [count] is the number of devices, [last_id] the driver's answer, [fault]
    whether insertion number [n] fails for a reason of its own. *)
Definition seedDemoDevice (count last_id : option Z) (fault : nat -> bool) (s : schema) : seeded :=
  match count with
  | None => mkSeeded SeedCheckFailed false []
  | Some count =>
    if 0 <? count then mkSeeded SeedNotNeeded false []
    else if fault 0%nat || negb (fits s seed_device) then mkSeeded SeedDeviceFailed false []
    else match last_id with
         | None => mkSeeded SeedIDFailed true []
         | Some _ =>
           mkSeeded SeedDone true
             (map snd (filter (fun '(i, _) => negb (fault (S i) || negb (fits s seed_point))) (imap pair demo_tags)))
         end
  end.

(** * Every schema the scripts can leave *)

(** The schema after the first [k] scripts. *)
Definition schema_after (k : nat) : option schema := exec_script (mjoin (map snd (take k scripts))) empty_schema.

(** A database on which the first [k] scripts have been run. *)
Definition upgraded (k : nat) (s : schema) : Migrate.Db schema :=
  Migrate.mkDb (Some (map fst (take k scripts))) s true [].

(** The columns of the three tables of the configuration. *)
Definition configuration_columns (s : schema) : list (string * option (list string)) :=
  map (fun t => (t, map col_name <$> tables_of s !! t)) ["connection"; "device"; "datapoint"; "data_queue"].

(** What they are after all scripts. *)
Definition final_columns : list (string * option (list string)) := [
  ("connection", Some ["id"; "name"; "protocol"; "interface"; "ip_address"; "port"; "baud_rate"; "data_bits"; "parity";
                       "stop_bits"; "timeout_ms"; "retry"; "enabled"; "created_at"; "updated_at"; "next_device_delay_ms"]);
  ("device", Some ["id"; "name"; "connection_id"; "slave_id"; "enabled"; "created_at"; "updated_at"]);
  ("datapoint", Some ["id"; "device_id"; "tag_name"; "function_code"; "register_address"; "data_type"; "byte_order";
                      "word_order"; "scale"; "offset"; "unit"; "enabled"; "created_at"; "updated_at"]);
  ("data_queue", None)].

Definition run_scripts (s : Migrate.Db schema) : result string unit * Migrate.Db schema :=
  Migrate.Open (fun _ => None) script_files "data/gateway.db" "migrations" s.

(** The upgrade from version [k], checked by computation. *)
Definition lands (k : nat) : bool :=
  match schema_after k with
  | None => false
  | Some s =>
    match run_scripts (upgraded k s) with
    | (Ok _, s') =>
      bool_decide (Migrate.applied_versions s' = map fst scripts) &&
      forallb (fits (Migrate.content s')) repository_statements &&
      bool_decide (configuration_columns (Migrate.content s') = final_columns) &&
      negb (fits (Migrate.content s') seed_device)
    | (Err _, _) => false
    end
  end.

Lemma all_land : forallb lands (seq 0 9) = true.
Proof. vm_compute. reflexivity. Qed.

Lemma lands_spec k :
  lands k = true -> exists s s', schema_after k = Some s /\ run_scripts (upgraded k s) = (Ok tt, s') /\
    Migrate.applied_versions s' = map fst scripts /\
    Forall (fun q => fits (Migrate.content s') q = true) repository_statements /\
    configuration_columns (Migrate.content s') = final_columns /\ fits (Migrate.content s') seed_device = false.
Proof.
  unfold lands. destruct (schema_after k) as [s|]; [|done].
  destruct (run_scripts (upgraded k s)) as [[[]|e] s'] eqn:E; [|done].
  intros [[[Hv Hf]%andb_prop Hc]%andb_prop Hd]%andb_prop. exists s, s'. split_and!; [done|done| | | |].
  - by apply bool_decide_eq_true in Hv.
  - apply Forall_forall. intros q Hq. rewrite forallb_forall in Hf. by apply Hf, list_elem_of_In.
  - by apply bool_decide_eq_true in Hc.
  - by apply negb_true_iff in Hd.
Qed.

Lemma lands_all k : (k <= 8)%nat -> lands k = true.
Proof. intros Hk. pose proof all_land as Ha. rewrite forallb_forall in Ha. apply Ha, in_seq. lia. Qed.


(** Seeding the demo device never inserts anything: from every version, on the
    schema the migrations leave, the insertion names columns that scripts 0004
    and 0005 removed, so SQLite refuses it whatever else happens. *)
Theorem demo_device_never_seeded k count last_id fault :
  (k <= 8)%nat ->
  exists s s', schema_after k = Some s /\ run_scripts (upgraded k s) = (Ok tt, s') /\
    let r := seedDemoDevice count last_id fault (Migrate.content s') in
    device_inserted r = false /\ points_inserted r = [] /\ (count = Some 0 -> last_log r = SeedDeviceFailed).
Proof.
  intros Hk. destruct (lands_spec k (lands_all k Hk)) as (s & s' & Hs & Hr & _ & _ & _ & Hd). exists s, s'.
  split; [done|]. split; [done|]. cbv zeta. unfold seedDemoDevice. destruct count as [c|]; [|done].
  destruct (0 <? c) eqn:E; [split_and!; [done..|]; intros [= ->]; discriminate E|]. rewrite Hd. cbn [negb]. rewrite orb_true_r. by split_and!.
Qed.

(** * The rows of script 0004 *)

(** A device of version 1, with its link parameters. *)
Record V1Device := mkV1 {
  v1_id : Z;
  v1_name : string;
  v1_protocol : string;
  v1_interface : option string;
  v1_ip_address : option string;
  v1_slave_id : option Z;
  v1_port : option Z;
  v1_timeout_ms : Z;
  v1_retry : Z;
  v1_enabled : Z;
  v1_baud_rate : Z;
  v1_data_bits : Z;
  v1_parity : string;
  v1_stop_bits : Z
}.

(** [name || ' (auto-migrated #' || id || ')']. *)
Definition auto_name (d : V1Device) : string := v1_name d +:+ " (auto-migrated #" +:+ pretty (v1_id d) +:+ ")".

(** The first INSERT ... SELECT: ids count up from 1, [enabled] and (script
    0005) [next_device_delay_ms] take their defaults. *)
Definition split_connection (id : Z) (d : V1Device) : ConnRow :=
  mkConnRow id (auto_name d) (v1_protocol d) (v1_interface d) (v1_ip_address d) (v1_port d) (v1_timeout_ms d)
    (v1_retry d) 1 250 (v1_baud_rate d) (v1_data_bits d) (v1_parity d) (v1_stop_bits d).
Definition split_connections (ds : list V1Device) : list ConnRow :=
  imap (fun i d => split_connection (Z.of_nat i + 1) d) ds.

(** The second: every device with every connection of its name. *)
Definition split_devices (ds : list V1Device) (cs : list ConnRow) : list DevRow :=
  mjoin (map (fun d =>
    map (fun c => mkDevRow (v1_id d) (v1_name d) (cr_id c) (v1_slave_id d) (v1_enabled d))
      (filter (fun c => cr_name c = auto_name d) cs)) ds).

(** ** The joining names tell the devices apart *)

Lemma last_split {A} (x : A) (l1 k1 l2 k2 : list A) :
  l1 ++ x :: k1 = l2 ++ x :: k2 -> x ∉ k1 -> x ∉ k2 -> k1 = k2.
Proof.
  revert l2. induction l1 as [|a l1 IH]; intros [|b l2]; cbn [app].
  - by intros [= ->].
  - intros [= <- ->] H1 _. destruct H1. apply elem_of_app. right. left.
  - intros [= -> <-] _ H2. destruct H2. apply elem_of_app. right. left.
  - intros [= -> H]. by apply (IH l2).
Qed.

Lemma list_ascii_app a b : String.list_ascii_of_string (a +:+ b) = String.list_ascii_of_string a ++ String.list_ascii_of_string b.
Proof. induction a as [|c a IH]; [done|]. apply (f_equal (cons c)), IH. Qed.

(** Decimal digits and a sign: no hash. *)
Definition hash : Ascii.ascii := "#"%char.
Lemma pretty_N_char_hash n : pretty_N_char n <> hash.
Proof. unfold pretty_N_char. by repeat case_match. Qed.
Lemma pretty_N_go_hash n (s : string) :
  hash ∉ String.list_ascii_of_string s -> hash ∉ String.list_ascii_of_string (pretty_N_go n s).
Proof.
  revert s. induction (N.lt_wf_0 n) as [n _ IH]; intros s Hs.
  destruct (decide (n = 0%N)) as [->|Hn]; [by rewrite pretty_N_go_0|].
  rewrite pretty_N_go_step by lia. apply IH; [apply N.div_lt; lia|].
  cbn. apply not_elem_of_cons. split; [|done]. apply not_eq_sym, pretty_N_char_hash.
Qed.
Lemma pretty_hash (z : Z) : hash ∉ String.list_ascii_of_string (pretty z).
Proof.
  assert (Hn : forall n : N, hash ∉ String.list_ascii_of_string (pretty n)).
  { intros n. unfold pretty, pretty_N. case_decide; [by apply (bool_decide_unpack _)|].
    apply pretty_N_go_hash. by intros ?%elem_of_nil. }
  destruct z as [|p|p]; [by apply (bool_decide_unpack _)|apply (Hn (Npos p))|].
  change (pretty (Z.neg p)) with ("-" +:+ pretty (Npos p)). rewrite list_ascii_app.
  apply not_elem_of_app. split; [by apply (bool_decide_unpack _)|apply Hn].
Qed.

Lemma auto_name_id d e : auto_name d = auto_name e -> v1_id d = v1_id e.
Proof.
  intros Hd. apply (f_equal String.list_ascii_of_string) in Hd. unfold auto_name in Hd. rewrite !list_ascii_app in Hd.
  assert (Hsplit : forall n p : list Ascii.ascii,
    n ++ String.list_ascii_of_string " (auto-migrated #" ++ p ++ String.list_ascii_of_string ")" =
    (n ++ String.list_ascii_of_string " (auto-migrated ") ++ hash :: (p ++ [")"%char]))
    by (intros n p; cbn; by rewrite <- app_assoc).
  rewrite !Hsplit in Hd. apply last_split in Hd.
  - apply app_inj_tail in Hd as [Hp _]. apply (inj pretty).
    rewrite <- (String.string_of_list_ascii_of_string (pretty (v1_id d))), Hp.
    apply String.string_of_list_ascii_of_string.
  - apply not_elem_of_app. split; [apply pretty_hash|by apply (bool_decide_unpack _)].
  - apply not_elem_of_app. split; [apply pretty_hash|by apply (bool_decide_unpack _)].
Qed.

Lemma join_singletons {A B} (g : A -> list B) (h : nat -> A -> B) (l : list A) :
  (forall i x, l !! i = Some x -> g x = [h i x]) -> mjoin (map g l) = imap h l.
Proof.
  revert h. induction l as [|a l IH]; intros h Hg; [done|]. change (g a ++ mjoin (map g l) = h 0%nat a :: imap (h ∘ S) l).
  rewrite (Hg 0%nat a eq_refl). cbn [app]. f_equal. apply (IH (h ∘ S)). intros i x Hx. by apply (Hg (S i) x).
Qed.

(** Device number [i] finds the connection made from it, and only that one. *)
Lemma own_connection ds i d :
  NoDup (map v1_id ds) -> ds !! i = Some d ->
  filter (fun c => cr_name c = auto_name d) (split_connections ds) = [split_connection (Z.of_nat i + 1) d].
Proof.
  intros Hnd Hi. pose proof (list_elem_of_split_length _ _ _ Hi) as (l & r & -> & Hl).
  rewrite map_app in Hnd. cbn [map] in Hnd. apply NoDup_app in Hnd as (_ & Hd & [Hr _]%NoDup_cons).
  assert (Hno : forall e, e ∈ l ++ r -> auto_name e <> auto_name d).
  { intros e He Heq%auto_name_id. apply elem_of_app in He as [He|He].
    - apply (Hd (v1_id e)); [by apply list_elem_of_fmap_2|]. rewrite Heq. left.
    - apply Hr. rewrite <- Heq. by apply list_elem_of_fmap_2. }
  assert (Hnone : forall (f : nat -> Z) k, (forall e, e ∈ k -> auto_name e <> auto_name d) ->
    filter (fun c => cr_name c = auto_name d) (imap (fun j e => split_connection (f j) e) k) = []).
  { intros f k Hk. apply filter_none, Forall_forall. intros c Hc.
    apply elem_of_lookup_imap in Hc as (j & e & -> & He). cbn. by apply Hk, (list_elem_of_lookup_2 _ _ _ He). }
  unfold split_connections. rewrite imap_app. cbn [imap]. rewrite filter_app, filter_cons_True by done.
  rewrite (Hnone (fun j => Z.of_nat j + 1)) by (intros e He; apply Hno, elem_of_app; by left).
  unfold compose. rewrite (Hnone (fun j => Z.of_nat (length l + S j) + 1)) by (intros e He; apply Hno, elem_of_app; by right).
  by rewrite Nat.add_0_r, <- Hl.
Qed.

(** C35. Upgrading a version 1 gateway loses no device and mixes none up: script
    0004 makes one connection and one device row for each device, in their
    order; each row keeps its id, name, slave id and enabled flag and refers to
    the connection made from it, which holds that device's own link parameters
    and is enabled; whatever the devices' names, no two of them are joined. *)
Theorem connection_split_preserves ds :
  NoDup (map v1_id ds) ->
  length (split_connections ds) = length ds /\
  split_devices ds (split_connections ds) =
    imap (fun i d => mkDevRow (v1_id d) (v1_name d) (Z.of_nat i + 1) (v1_slave_id d) (v1_enabled d)) ds /\
  forall i d c, ds !! i = Some d -> c ∈ split_connections ds -> cr_id c = Z.of_nat i + 1 ->
    c = split_connection (Z.of_nat i + 1) d.
Proof.
  intros Hnd. split; [apply length_imap|]. split.
  - apply join_singletons. intros i d Hi. by rewrite (own_connection ds i d).
  - intros i d c Hi Hc Hid. apply elem_of_lookup_imap in Hc as (j & e & -> & He). cbn in Hid.
    assert (j = i) as -> by lia. congruence.
Qed.


Lemma demo_device_never_seeded_witness :
  exists s s', schema_after 0 = Some s /\ run_scripts (upgraded 0 s) = (Ok tt, s') /\
    let r := seedDemoDevice (Some 0) (Some 1) (fun _ => false) (Migrate.content s') in
    device_inserted r = false /\ points_inserted r = [] /\ (Some 0 = Some 0 -> last_log r = SeedDeviceFailed).
Proof. apply (demo_device_never_seeded 0). lia. Defined.

(** Two devices of one name, and one named like another's connection. *)
Definition v1_sample : list V1Device :=
  let d id name := mkV1 id name "TCP" None (Some "10.0.0.5") (Some 1) (Some 502) 1000 3 1 9600 8 "N" 1 in
  [d 2 "meter"; d 7 "meter"; d 9 "meter (auto-migrated #2)"].

Lemma connection_split_preserves_witness :
  length (split_connections v1_sample) = length v1_sample /\
  split_devices v1_sample (split_connections v1_sample) =
    imap (fun i d => mkDevRow (v1_id d) (v1_name d) (Z.of_nat i + 1) (v1_slave_id d) (v1_enabled d)) v1_sample /\
  forall i d c, v1_sample !! i = Some d -> c ∈ split_connections v1_sample -> cr_id c = Z.of_nat i + 1 ->
    c = split_connection (Z.of_nat i + 1) d.
Proof. apply (connection_split_preserves v1_sample). apply (bool_decide_unpack _). by vm_compute. Defined.
