(* ===== verification/Json.v ===== *)
(** encoding/json as the API uses it: Go values to be written, documents, what
    [Encoder.Encode] writes and what [Decoder.Decode] puts into the fields of a
    struct.

    A document is its structure; strings in it are what the quoted text stands
    for.  Both directions replace what is not UTF-8. *)

From Stdlib Require Import Ascii.
From Corelib Require Import SpecFloat.
From S2P Require Import Prelude.
From S2P Require Import Float64.
From S2P Require Import GoStrings.
From S2P Require Import GoTime.

Local Open Scope string_scope.
Local Open Scope list_scope.
Local Open Scope Z_scope.

(** * UTF-8 *)

Definition code (a : ascii) : Z := Z.of_N (N_of_ascii a).
Definition between (lo hi : Z) (a : ascii) : bool := (lo <=? code a) && (code a <=? hi).
Definition continues (a : ascii) : bool := between 128 191 a.

(** The second byte a rune of three or four bytes may have after its first. *)
Definition second_of_three (a b : ascii) : bool :=
  (between 224 224 a && between 160 191 b) || (between 225 236 a && continues b) ||
  (between 237 237 a && between 128 159 b) || (between 238 239 a && continues b).
Definition second_of_four (a b : ascii) : bool :=
  (between 240 240 a && between 144 191 b) || (between 241 243 a && continues b) ||
  (between 244 244 a && between 128 143 b).

(** The first rune, and the rest ([utf8.DecodeRune]). *)
Definition rune (l : list ascii) : option (list ascii * list ascii) :=
  match l with
  | a :: b :: c :: d :: r =>
    if between 0 127 a then Some ([a], b :: c :: d :: r)
    else if between 194 223 a && continues b then Some ([a; b], c :: d :: r)
    else if second_of_three a b && continues c then Some ([a; b; c], d :: r)
    else if second_of_four a b && continues c && continues d then Some ([a; b; c; d], r)
    else None
  | [a; b; c] =>
    if between 0 127 a then Some ([a], [b; c])
    else if between 194 223 a && continues b then Some ([a; b], [c])
    else if second_of_three a b && continues c then Some ([a; b; c], [])
    else None
  | [a; b] =>
    if between 0 127 a then Some ([a], [b])
    else if between 194 223 a && continues b then Some ([a; b], [])
    else None
  | [a] => if between 0 127 a then Some ([a], []) else None
  | [] => None
  end.

(** U+FFFD, for every byte that starts no rune. *)
Definition replacement : list ascii := ["239"; "191"; "189"]%char.

Fixpoint to_valid (fuel : nat) (l : list ascii) : list ascii :=
  match fuel, l with
  | S k, a :: r => match rune l with
                   | Some (u, r') => u ++ to_valid k r'
                   | None => replacement ++ to_valid k r
                   end
  | _, _ => []
  end.
Definition valid_text (s : string) : string := of_bytes (to_valid (length (bytes_of s)) (bytes_of s)).

(** UTF-8: nothing is replaced. *)
Definition is_text (s : string) : Prop := valid_text s = s.
#[export] Instance is_text_dec s : Decision (is_text s).
Proof. unfold is_text. apply _. Defined.

(** * Values and documents *)

(** What the handlers write: a struct's fields with their names and whether
    [omitempty] leaves them out. *)
Inductive value :=
| VBool (b : bool)
| VInt (z : Z)
| VFloat (f : f64)
| VStr (s : string)
| VTime (t : Z)
| VList (l : list value)
| VStruct (fields : list (string * bool * value)).

(** A number is one written as an integer or any other. *)
Inductive json :=
| JNull
| JBool (b : bool)
| JInt (z : Z)
| JFloat (f : f64)
| JStr (s : string)
| JArr (l : list json)
| JObj (members : list (string * json)).

Definition is_finite (f : f64) : bool :=
  match f with S754_zero _ | S754_finite _ _ _ => true | _ => false end.

(** [None]: the value cannot be written -- a NaN or an infinity, or a time
    whose year has not four digits. *)
Fixpoint Encode (v : value) : option json :=
  match v with
  | VBool b => Some (JBool b)
  | VInt z => Some (JInt z)
  | VFloat f => if is_finite f then Some (JFloat f) else None
  | VStr s => Some (JStr (valid_text s))
  | VTime t =>
    if (0 <=? year_of t) && (year_of t <=? 9999) then Some (JStr (of_bytes (format_nano t))) else None
  | VList l => JArr <$> (fix list l := match l with
                                       | [] => Some []
                                       | v :: l => j ← Encode v; js ← list l; Some (j :: js)
                                       end) l
  | VStruct fs => JObj <$> (fix members fs := match fs with
                                              | [] => Some []
                                              | (n, omit, v) :: fs =>
                                                if omit : bool then members fs
                                                else j ← Encode v; js ← members fs; Some ((n, j) :: js)
                                              end) fs
  end.
Definition Encode_list : list value -> option (list json) :=
  fix list l := match l with [] => Some [] | v :: l => j ← Encode v; js ← list l; Some (j :: js) end.
Definition Encode_members : list (string * bool * value) -> option (list (string * json)) :=
  fix members fs := match fs with
                    | [] => Some []
                    | (n, omit, v) :: fs =>
                      if omit : bool then members fs else j ← Encode v; js ← members fs; Some ((n, j) :: js)
                    end.

(** * Reading into a struct *)

(** Names are compared without regard to case; two runes beyond ASCII fold to
    letters. *)
Fixpoint fold_name (l : list ascii) : list ascii :=
  match l with
  | "197"%char :: (("191"%char :: r)) => "s"%char :: fold_name r
  | "226"%char :: (("132"%char :: (("170"%char :: r) ))) => "k"%char :: fold_name r
  | a :: r => lower a :: fold_name r
  | [] => []
  end.
Definition names (k n : string) : bool := bool_decide (fold_name (bytes_of k) = bytes_of n).

(** A field of the struct: every member of that name is stored in turn. *)
Definition field {A} (conv : json -> A -> option A) (zero : A) (n : string) (ms : list (string * json)) : option A :=
  foldl (fun r '(k, v) => a ← r; if names k n then conv v a else Some a) (Some zero) ms.

(** The kinds of field; [null] leaves a field that is no pointer alone. *)
Definition to_int (lo hi : Z) (v : json) (old : Z) : option Z :=
  match v with
  | JNull => Some old
  | JInt z => if (lo <=? z) && (z <=? hi) then Some z else None
  | _ => None
  end.
Definition to_int64 : json -> Z -> option Z := to_int (- Int.two63) (Int.two63 - 1).
Definition to_bool (v : json) (old : bool) : option bool :=
  match v with JNull => Some old | JBool b => Some b | _ => None end.
Definition to_str (v : json) (old : string) : option string :=
  match v with JNull => Some old | JStr s => Some (valid_text s) | _ => None end.
Definition to_float (v : json) (old : f64) : option f64 :=
  match v with
  | JNull => Some old
  | JFloat f => Some f
  | JInt z => if is_finite (of_Z z) then Some (of_Z z) else None
  | _ => None
  end.
Definition to_pointer {A} (conv : json -> A -> option A) (zero : A) (v : json) (_ : option A) : option (option A) :=
  match v with JNull => Some None | v => Some <$> conv v zero end.
Definition to_time (v : json) (old : Z) : option Z :=
  match v with
  | JNull => Some old
  | JStr s => parse_rfc3339 (bytes_of s)
  | _ => None
  end.

(** The members of the document; [null] has none. *)
Definition members_of (v : json) : option (list (string * json)) :=
  match v with JNull => Some [] | JObj ms => Some ms | _ => None end.

(** * Answers (router.go) *)

(** An answer: its status, its Content-Type, and the document that is its
    body. *)
Record answer := mkAnswer { status : Z; content_type : option string; sent : option json }.

(** [writeJSON]: the status is written before the value is encoded, and an error
    of the encoder is dropped. *)
Definition writeJSON (status : Z) (v : value) : answer :=
  mkAnswer status (Some "application/json") (Encode v).
Definition writeError (status : Z) (msg : string) : answer :=
  writeJSON status (VStruct [("error", false, VStr msg)]).

(** * A struct read back *)

Lemma Encode_struct fs : Encode (VStruct fs) = JObj <$> Encode_members fs.
Proof. reflexivity. Qed.
Lemma Encode_array l : Encode (VList l) = JArr <$> Encode_list l.
Proof. reflexivity. Qed.

Lemma Encode_list_map {A} (f : A -> value) l js :
  Encode_list (map f l) = Some js -> forall j, j ∈ js -> exists x, x ∈ l /\ Encode (f x) = Some j.
Proof.
  revert js. induction l as [|x l IH]; cbn; intros js.
  { intros [= <-] j Hj. by apply elem_of_nil in Hj. }
  destruct (Encode (f x)) as [j0|] eqn:E; [|done]. cbn.
  destruct (Encode_list (map f l)) as [js0|] eqn:El; [|done]. intros [= <-] j [->|Hj]%elem_of_cons.
  - exists x. split; [by left|done].
  - destruct (IH js0 eq_refl j Hj) as (y & Hy & E'). exists y. split; [by right|done].
Qed.

Lemma Encode_list_none {A} (f : A -> value) l x :
  x ∈ l -> Encode (f x) = None -> Encode_list (map f l) = None.
Proof.
  intros Hx Hn. induction Hx as [x l|x y l Hx IH]; cbn; [by rewrite Hn|].
  destruct (Encode (f y)); [|done]. cbn. by rewrite IH.
Qed.

Lemma Encode_members_none fs n v : (n, false, v) ∈ fs -> Encode v = None -> Encode_members fs = None.
Proof.
  intros Hin Hn. induction fs as [|[[n0 om] v0] fs IH]; [by apply elem_of_nil in Hin|].
  cbn. apply elem_of_cons in Hin as [[= <- <- <-]|Hin]; [by rewrite Hn|]. rewrite IH by done.
  destruct om; [done|]. by destruct (Encode v0).
Qed.

Lemma Encode_members_some fs ms n v : Encode_members fs = Some ms -> (n, false, v) ∈ fs -> is_Some (Encode v).
Proof.
  intros E Hin. destruct (Encode v) eqn:Ev; [by eexists|]. by rewrite (Encode_members_none fs n v) in E.
Qed.

(** Distinct names in lower case. *)
Definition names_ok (ns : list string) : Prop :=
  NoDup ns /\ Forall (fun n => fold_name (bytes_of n) = bytes_of n) ns.

Lemma name_own n : fold_name (bytes_of n) = bytes_of n -> names n n = true.
Proof. intros Hn. unfold names. by rewrite bool_decide_true. Qed.
Lemma name_apart n m : fold_name (bytes_of n) = bytes_of n -> n <> m -> names n m = false.
Proof.
  intros Hn Hne. unfold names. rewrite bool_decide_false; [done|]. rewrite Hn. intros E. apply Hne.
  by rewrite <- (of_bytes_of n), <- (of_bytes_of m), E.
Qed.

Section Fields.
Context {A : Type} (conv : json -> A -> option A).

Lemma field_skip n ms a :
  Forall (fun '(k, _) => names k n = false) ms ->
  foldl (fun r '(k, v) => a ← r; if names k n then conv v a else Some a) (Some a) ms = Some a.
Proof.
  intros Hms. induction ms as [|[k v] ms IH]; [done|]. apply Forall_cons in Hms as [Hk Hms]. cbn. rewrite Hk. by apply IH.
Qed.

Lemma encoded_names fs ms n :
  Encode_members fs = Some ms -> Forall (fun f => names f.1.1 n = false) fs -> Forall (fun '(k, _) => names k n = false) ms.
Proof.
  revert ms. induction fs as [|[[k om] v] fs IH]; cbn; intros ms E Hf; [by injection E as <-|].
  apply Forall_cons in Hf as [Hk Hf]. destruct om; [by apply IH|]. destruct (Encode v); [|done]. cbn in E.
  destruct (Encode_members fs) as [ms0|] eqn:E0; [|done]. injection E as <-. constructor; [done|]. by apply IH.
Qed.

(** A field finds its own value, or nothing when it was left out. *)
Lemma field_encoded fs ms n om v zero :
  Encode_members fs = Some ms -> names_ok (map (fun f => f.1.1) fs) -> (n, om, v) ∈ fs ->
  field conv zero n ms = if om : bool then Some zero else j ← Encode v; conv j zero.
Proof.
  unfold field. revert ms. induction fs as [|[[k om'] v'] fs IH]; intros ms E [Hnd Hlo] Hin; [by apply elem_of_nil in Hin|].
  cbn [map fst] in Hnd, Hlo. apply NoDup_cons in Hnd as [Hk Hnd]. apply Forall_cons in Hlo as [Hkl Hlo].
  cbn [Encode_members] in E. apply elem_of_cons in Hin as [[= <- <- <-]|Hin].
  - assert (Hskip : Forall (fun f : string * bool * value => names f.1.1 n = false) fs).
    { apply Forall_forall. intros [[m om2] v2] Hm. cbn. apply name_apart.
      - rewrite Forall_forall in Hlo. apply Hlo. apply (list_elem_of_fmap_2 (fun f => f.1.1) _ _ Hm).
      - intros ->. apply Hk. apply (list_elem_of_fmap_2 (fun f => f.1.1) _ _ Hm). }
    destruct om; [apply field_skip; by eapply encoded_names|].
    destruct (Encode v) as [j|]; [|done]. cbn in E. destruct (Encode_members fs) as [ms0|] eqn:E0; [|done].
    injection E as <-. cbn [foldl mbind option_bind]. rewrite name_own by done.
    destruct (conv j zero) as [a|]; [apply field_skip; by eapply encoded_names|].
    clear. induction ms0 as [|[k w] ms0 IH]; [done|exact IH].
  - assert (Hne : k <> n).
    { intros ->. apply Hk. apply (list_elem_of_fmap_2 (fun f => f.1.1) _ _ Hin). }
    destruct om'; [by apply IH|]. destruct (Encode v') as [j|]; [|done]. cbn in E.
    destruct (Encode_members fs) as [ms0|] eqn:E0; [|done]. injection E as <-.
    cbn [foldl mbind option_bind]. rewrite name_apart by done. by apply IH.
Qed.
End Fields.

(** What the kinds of field make of their own values. *)
Lemma read_int64 z zero : Int.is_i64 z -> (j ← Encode (VInt z); to_int64 j zero) = Some z.
Proof.
  intros [Hlo Hhi]. cbn. unfold to_int64, to_int, Int.two63.
  by rewrite (proj2 (Z.leb_le _ z)), (proj2 (Z.leb_le z _)) by lia.
Qed.
Lemma read_int lo hi z zero : lo <= z <= hi -> (j ← Encode (VInt z); to_int lo hi j zero) = Some z.
Proof. intros Hz. cbn. by rewrite (proj2 (Z.leb_le _ z)), (proj2 (Z.leb_le z _)) by lia. Qed.
Lemma read_str s zero : is_text s -> (j ← Encode (VStr s); to_str j zero) = Some s.
Proof. intros Hs. cbn. by rewrite Hs, Hs. Qed.
Lemma read_bool b zero : (j ← Encode (VBool b); to_bool j zero) = Some b.
Proof. done. Qed.
Lemma read_float f zero : is_finite f = true -> (j ← Encode (VFloat f); to_float j zero) = Some f.
Proof. intros Hf. cbn. by rewrite Hf. Qed.
Lemma read_float_ptr f (zero : option f64) : is_finite f = true ->
  (j ← Encode (VFloat f); to_pointer to_float (of_Z 0) j zero) = Some (Some f).
Proof. intros Hf. cbn. by rewrite Hf. Qed.
Lemma read_int_ptr z (zero : option Z) : Int.is_i64 z ->
  (j ← Encode (VInt z); to_pointer to_int64 0 j zero) = Some (Some z).
Proof. intros Hz. pose proof (read_int64 z 0 Hz) as E. cbn in *. by rewrite E. Qed.
Lemma read_time_ptr t (zero : option Z) j : Encode (VTime t) = Some j -> to_pointer to_time 0 j zero = Some (Some t).
Proof.
  cbn [Encode]. destruct ((0 <=? year_of t) && _) eqn:E; [|done]. zbool. intros [= <-]. unfold to_pointer, to_time.
  by rewrite bytes_of_bytes, parse_format_nano.
Qed.
