(* ===== verification/Dto.v ===== *)
(** The configuration API on the wire (internal/api: connections.go, devices.go,
    datapoints.go): the DTOs and their JSON, the handlers of file Api from the
    body of a request to the body of its answer, and what becomes of an object
    that the page is shown and sends back. *)

From S2P Require Import Prelude GoTime Float64 GoStrings GoText.
From S2P Require Import Wire.
From S2P Require Import Inventory.
From S2P Require Import Observers.
From S2P Require Import Manager.
From S2P Require Import InventoryProps.
From S2P Require Import Api.
From S2P Require Import ConfigIoProps.
From S2P Require Import Json.

Local Open Scope string_scope.
Local Open Scope list_scope.
Local Open Scope Z_scope.

(** * The DTOs *)

Record connectionDTO := mkConnectionDTO {
  cd_ID : Z;
  cd_Name : string;
  cd_Protocol : string;
  cd_Interface : string;
  cd_IPAddress : string;
  cd_Port : Z;
  cd_BaudRate : Z;
  cd_DataBits : Z;
  cd_Parity : string;
  cd_StopBits : Z;
  cd_TimeoutMs : Z;
  cd_Retry : Z;
  cd_Enabled : bool;
  cd_NextDeviceDelayMs : Z
}.

Definition toConnectionDTO (c : Connection) : connectionDTO :=
  mkConnectionDTO (c_ID c) (c_Name c) (Protocol c) (Interface c) (IPAddress c) (Port c) (BaudRate c) (DataBits c)
    (Parity c) (StopBits c) (TimeoutMs c) (c_Retry c) (c_Enabled c) (NextDeviceDelayMs c).
Definition toConnection (dto : connectionDTO) : Connection :=
  mkConnection (cd_ID dto) (cd_Name dto) (cd_Protocol dto) (cd_Interface dto) (cd_IPAddress dto) (cd_Port dto)
    (cd_TimeoutMs dto) (cd_Retry dto) (cd_Enabled dto) (cd_NextDeviceDelayMs dto) (cd_BaudRate dto)
    (cd_DataBits dto) (cd_Parity dto) (cd_StopBits dto).
Definition toDevice (dto : deviceDTO) : Device := dto_device dto.
Definition toDataPoint (dto : dataPointDTO) : DataPoint := dto_point dto.

(** A field with [omitempty]. *)
Definition str_field (n s : string) : string * bool * value := (n, (s =? "")%string, VStr s).
Definition int_field (n : string) (z : Z) : string * bool * value := (n, z =? 0, VInt z).
Definition ptr_field {A} (n : string) (f : A -> value) (p : option A) : string * bool * value :=
  match p with Some a => (n, false, f a) | None => (n, true, VInt 0) end.

Definition connection_value (dto : connectionDTO) : value := VStruct [
  ("id", false, VInt (cd_ID dto));
  ("name", false, VStr (cd_Name dto));
  ("protocol", false, VStr (cd_Protocol dto));
  str_field "interface" (cd_Interface dto);
  str_field "ip_address" (cd_IPAddress dto);
  int_field "port" (cd_Port dto);
  int_field "baud_rate" (cd_BaudRate dto);
  int_field "data_bits" (cd_DataBits dto);
  str_field "parity" (cd_Parity dto);
  int_field "stop_bits" (cd_StopBits dto);
  ("timeout_ms", false, VInt (cd_TimeoutMs dto));
  ("retry", false, VInt (cd_Retry dto));
  ("enabled", false, VBool (cd_Enabled dto));
  ("next_device_delay_ms", false, VInt (cd_NextDeviceDelayMs dto))
].

Definition device_value (dto : deviceDTO) : value :=
  let d := dto_device dto in VStruct [
  ("id", false, VInt (d_ID d));
  ("name", false, VStr (d_Name d));
  ("connection_id", false, VInt (ConnectionID d));
  ("slave_id", false, VInt (SlaveID d));
  ("enabled", false, VBool (d_Enabled d));
  str_field "status" (dto_Status dto);
  ptr_field "last_seen" (fun t => VStr (wire_time t)) (dto_LastSeen dto);
  ptr_field "last_poll_duration_ms" VInt (dto_LastPollDurationMs dto);
  int_field "datapoints_polled" (dto_DatapointsPolled dto);
  int_field "block_reads" (dto_BlockReads dto)
].

Definition datapoint_value (dto : dataPointDTO) : value :=
  let dp := dto_point dto in VStruct [
  ("id", false, VInt (dp_ID dp));
  ("device_id", false, VInt (dp_DeviceID dp));
  ("tag_name", false, VStr (TagName dp));
  ("function_code", false, VInt (FunctionCode dp));
  ("register_address", false, VInt (RegisterAddress dp));
  ("data_type", false, VStr (DataType dp));
  str_field "byte_order" (ByteOrder dp);
  str_field "word_order" (WordOrder dp);
  ("scale", false, VFloat (Scale dp));
  ("offset", false, VFloat (Offset dp));
  str_field "unit" (Unit dp);
  ("enabled", false, VBool (dp_Enabled dp));
  ptr_field "last_value" VFloat (LastValue dto);
  str_field "last_quality" (LastQuality dto);
  ptr_field "last_read_at" VTime (LastReadAt dto)
].

(** [Decode(&dto)] from the zero value. *)
Definition read_connection (v : json) : option connectionDTO :=
  ms ← members_of v;
  id ← field to_int64 0 "id" ms;
  name ← field to_str "" "name" ms;
  protocol ← field to_str "" "protocol" ms;
  interface ← field to_str "" "interface" ms;
  ip ← field to_str "" "ip_address" ms;
  port ← field to_int64 0 "port" ms;
  baud ← field to_int64 0 "baud_rate" ms;
  bits ← field to_int64 0 "data_bits" ms;
  parity ← field to_str "" "parity" ms;
  stop ← field to_int64 0 "stop_bits" ms;
  timeout ← field to_int64 0 "timeout_ms" ms;
  retry ← field to_int64 0 "retry" ms;
  enabled ← field to_bool false "enabled" ms;
  delay ← field to_int64 0 "next_device_delay_ms" ms;
  mret (mkConnectionDTO id name protocol interface ip port baud bits parity stop timeout retry enabled delay).

(** The fields of the last poll are read too, and dropped by [toDevice] and
    [toDataPoint]. *)
Definition read_device (v : json) : option Device :=
  ms ← members_of v;
  id ← field to_int64 0 "id" ms;
  name ← field to_str "" "name" ms;
  connection ← field to_int64 0 "connection_id" ms;
  slave ← field to_int64 0 "slave_id" ms;
  enabled ← field to_bool false "enabled" ms;
  _ ← field to_str "" "status" ms;
  _ ← field to_str "" "last_seen" ms;
  _ ← field (to_pointer to_int64 0) None "last_poll_duration_ms" ms;
  _ ← field to_int64 0 "datapoints_polled" ms;
  _ ← field to_int64 0 "block_reads" ms;
  mret (mkDevice id name connection slave enabled).

Definition read_datapoint (v : json) : option DataPoint :=
  ms ← members_of v;
  id ← field to_int64 0 "id" ms;
  device ← field to_int64 0 "device_id" ms;
  tag ← field to_str "" "tag_name" ms;
  fc ← field (to_int 0 255) 0 "function_code" ms;
  address ← field (to_int 0 65535) 0 "register_address" ms;
  type ← field to_str "" "data_type" ms;
  byte_order ← field to_str "" "byte_order" ms;
  word_order ← field to_str "" "word_order" ms;
  scale ← field to_float (of_Z 0) "scale" ms;
  offset ← field to_float (of_Z 0) "offset" ms;
  unit ← field to_str "" "unit" ms;
  enabled ← field to_bool false "enabled" ms;
  _ ← field (to_pointer to_float (of_Z 0)) None "last_value" ms;
  _ ← field to_str "" "last_quality" ms;
  _ ← field (to_pointer to_time 0) None "last_read_at" ms;
  mret (mkDataPoint id device tag fc address type byte_order word_order scale offset unit enabled).

(** * The handlers *)

(** [parseID]. *)
Definition parseID (param : string) : option Z :=
  match Atoi param with (n, None) => Some n | (_, Some _) => None end.

Section Handlers.
Context `{InvEnv} (error_text : api_error -> string).

(** What a handler of file Api writes. *)
Definition reply {B} (f : B -> value) (r : response B) : answer :=
match r.2 with
| JSON b => writeJSON r.1 (f b)
| ErrorBody e => writeError r.1 (error_text e)
| NoContent => mkAnswer r.1 None None
end.

Definition connection_json (c : Connection) : value := connection_value (toConnectionDTO c).

(** [body]: the first document of the request's body, if it is one. *)
Definition get_connections (a : Api) : answer * Api :=
let '(r, a) := listConnections a in (reply (fun cs => VList (map connection_json cs)) r, a).
Definition put_connection (param : string) (body : option json) (a : Api) : answer * Api :=
let '(r, a) := updateConnection (parseID param) (toConnection <$> (body ≫= read_connection)) a in
(reply connection_json r, a).

Definition get_devices (a : Api) : answer * Api :=
let '(r, a) := listDevices a in (reply (fun ds => VList (map device_value ds)) r, a).
Definition put_device (param : string) (body : option json) (a : Api) : answer * Api :=
let '(r, a) := updateDevice (parseID param) (body ≫= read_device) a in (reply device_value r, a).

Definition get_datapoints (param : string) (a : Api) : answer * Api :=
let '(r, a) := listDataPoints (parseID param) a in (reply (fun dps => VList (map datapoint_value dps)) r, a).
Definition put_datapoint (param : string) (body : option json) (a : Api) : answer * Api :=
let '(r, a) := updateDataPoint (parseID param) (body ≫= read_datapoint) a in (reply datapoint_value r, a).
End Handlers.
