(* ===== verification/DtoProps.v ===== *)
(** An object the page is shown and sends back unchanged changes nothing
    (file Dto); and a value that JSON cannot carry empties the whole answer. *)

From S2P Require Import Prelude GoTime Float64 GoStrings GoText.
From S2P Require Import Wire.
From S2P Require Import Inventory.
From S2P Require Import Observers.
From S2P Require Import Manager.
From S2P Require Import InventoryProps.
From S2P Require Import Api.
From S2P Require Import ConfigIo.
From S2P Require Import ConfigIoProps.
From S2P Require Import Json.
From S2P Require Import Dto.

Local Open Scope string_scope.
Local Open Scope list_scope.
Local Open Scope Z_scope.

(** * What the DTOs can carry *)

(** Go's integers and UTF-8 texts. *)
Record connection_fits (c : Connection) : Prop := {
  cf_ints : Forall Int.is_i64 [c_ID c; Port c; BaudRate c; DataBits c; StopBits c; TimeoutMs c; c_Retry c; NextDeviceDelayMs c];
  cf_texts : Forall is_text [c_Name c; Protocol c; Interface c; IPAddress c; Parity c]
}.
Record device_fits (dto : deviceDTO) : Prop := {
  df_ints : Forall Int.is_i64 [d_ID (dto_device dto); ConnectionID (dto_device dto); SlaveID (dto_device dto);
                               dto_DatapointsPolled dto; dto_BlockReads dto];
  df_duration : forall z, dto_LastPollDurationMs dto = Some z -> Int.is_i64 z;
  df_text : is_text (d_Name (dto_device dto))
}.
Record datapoint_fits (dp : DataPoint) : Prop := {
  pf_ints : Forall Int.is_i64 [dp_ID dp; dp_DeviceID dp];
  pf_range : dp_range dp;
  pf_texts : Forall is_text [TagName dp; DataType dp; ByteOrder dp; WordOrder dp; Unit dp]
}.

(** A field left out is read as its zero value. *)
Lemma read_str_field fs ms n s :
  Encode_members fs = Some ms -> names_ok (map (fun f => f.1.1) fs) -> str_field n s ∈ fs -> is_text s ->
  field to_str "" n ms = Some s.
Proof.
  intros E Hn Hin Hs. rewrite (field_encoded to_str fs ms n (s =? "")%string (VStr s)) by done.
  destruct (String.eqb_spec s "") as [->|]; [done|by apply read_str].
Qed.
Lemma read_int_field fs ms n z :
  Encode_members fs = Some ms -> names_ok (map (fun f => f.1.1) fs) -> int_field n z ∈ fs -> Int.is_i64 z ->
  field to_int64 0 n ms = Some z.
Proof.
  intros E Hn Hin Hz. rewrite (field_encoded to_int64 fs ms n (z =? 0) (VInt z)) by done.
  destruct (Z.eqb_spec z 0) as [->|]; [done|by apply read_int64].
Qed.
Lemma read_ptr_field {A B} (conv : json -> B -> option B) zero (f : A -> value) fs ms n (p : option A) :
  Encode_members fs = Some ms -> names_ok (map (fun f => f.1.1) fs) -> ptr_field n f p ∈ fs ->
  (forall a, p = Some a -> is_Some (j ← Encode (f a); to_pointer conv zero j None)) ->
  is_Some (field (to_pointer conv zero) None n ms).
Proof.
  intros E Hn Hin Hp. destruct p as [a|]; cbn [ptr_field] in Hin.
  - rewrite (field_encoded _ fs ms n false (f a)) by done. by apply Hp.
  - rewrite (field_encoded _ fs ms n true (VInt 0)) by done. by eexists.
Qed.
Lemma read_plain {A} (conv : json -> A -> option A) fs ms n v zero x :
  Encode_members fs = Some ms -> names_ok (map (fun f => f.1.1) fs) -> (n, false, v) ∈ fs ->
  (j ← Encode v; conv j zero) = Some x -> field conv zero n ms = Some x.
Proof. intros E Hn Hin Hx. by rewrite (field_encoded conv fs ms n false v). Qed.

(** A text is always read, whatever it is. *)
Lemma read_any_str fs ms n s :
  Encode_members fs = Some ms -> names_ok (map (fun f => f.1.1) fs) -> str_field n s ∈ fs ->
  exists s', field to_str "" n ms = Some s'.
Proof.
  intros E Hn Hin. rewrite (field_encoded to_str fs ms n (s =? "")%string (VStr s)) by done.
  destruct (s =? "")%string; by eexists.
Qed.

(** [names_ok] of names that are given. *)
Definition names_okb (ns : list string) : bool :=
  bool_decide (NoDup ns) && forallb (fun n => bool_decide (fold_name (bytes_of n) = bytes_of n)) ns.
Lemma names_ok_compute ns : names_okb ns = true -> names_ok ns.
Proof.
  intros [Hn Hf]%andb_prop. split; [by apply bool_decide_eq_true_1 in Hn|].
  apply Forall_forall. intros n Hin. rewrite forallb_forall in Hf.
  eapply bool_decide_eq_true_1, Hf. by apply list_elem_of_In.
Qed.

(** Membership in a list that is given, and reading one field after another of
    the members [E] encodes. *)
Ltac member := solve [repeat first [left|right]].
Ltac read_fields E N :=
  repeat match goal with
  | |- context [mbind _ (field ?conv ?zero ?n ?ms)] =>
    first
      [ erewrite (read_plain conv _ ms n (VInt _) zero _ E N); [|member|apply read_int64; eassumption]
      | erewrite (read_plain conv _ ms n (VInt _) zero _ E N); [|member|apply read_int; eassumption]
      | erewrite (read_plain conv _ ms n (VStr _) zero _ E N); [|member|apply read_str; eassumption]
      | erewrite (read_plain conv _ ms n (VBool _) zero _ E N); [|member|apply read_bool]
      | erewrite (read_plain conv _ ms n (VFloat _) zero _ E N); [|member|apply read_float; eassumption]
      | erewrite (read_str_field _ ms n _ E N); [|member|eassumption]
      | erewrite (read_int_field _ ms n _ E N); [|member|eassumption] ];
    cbn [mbind option_bind]
  end.

Lemma encoded_struct fs j : Encode (VStruct fs) = Some j -> exists ms, Encode_members fs = Some ms /\ j = JObj ms.
Proof. rewrite Encode_struct. destruct (Encode_members fs) as [ms|]; [|done]. intros [= <-]. by exists ms. Qed.

(** The fields of the three DTOs have different names. *)
Definition fields_of (v : value) : list (string * bool * value) := match v with VStruct fs => fs | _ => [] end.
Definition value_names (v : value) : list string := map (fun f => f.1.1) (fields_of v).
Lemma connection_names c : names_ok (value_names (connection_json c)).
Proof. apply names_ok_compute. vm_compute. reflexivity. Qed.
Lemma device_names dto : names_ok (value_names (device_value dto)).
Proof. apply names_ok_compute. destruct dto as [d q [t|] [z|] n b]; vm_compute; reflexivity. Qed.
Lemma datapoint_names dto : names_ok (value_names (datapoint_value dto)).
Proof. apply names_ok_compute. destruct dto as [dp [v|] q [t|]]; vm_compute; reflexivity. Qed.

(** The id in a document. *)
Definition shown_id (j : json) : option Z := ms ← members_of j; field to_int64 0 "id" ms.
Lemma shown_id_own fs j id :
  Encode (VStruct fs) = Some j -> names_ok (value_names (VStruct fs)) -> ("id", false, VInt id) ∈ fs -> Int.is_i64 id ->
  shown_id j = Some id.
Proof.
  intros (ms & E & ->)%encoded_struct N Hin Hid. cbn. eapply (read_plain to_int64); [exact E|exact N|exact Hin|].
  by apply read_int64.
Qed.

(** ** What was shown is read back *)

Lemma connection_read_back c j :
  connection_fits c -> Encode (connection_json c) = Some j -> toConnection <$> read_connection j = Some c.
Proof.
  intros [Hi Ht] (ms & E & ->)%encoded_struct. rewrite !Forall_cons in Hi. rewrite !Forall_cons in Ht.
  destruct Hi as (I1 & I2 & I3 & I4 & I5 & I6 & I7 & I8 & _), Ht as (T1 & T2 & T3 & T4 & T5 & _).
  pose proof (connection_names c) as N.
  unfold read_connection. cbn [members_of mbind option_bind]. cbn [toConnectionDTO cd_ID cd_Name cd_Protocol cd_Interface
    cd_IPAddress cd_Port cd_BaudRate cd_DataBits cd_Parity cd_StopBits cd_TimeoutMs cd_Retry cd_Enabled cd_NextDeviceDelayMs] in E.
  read_fields E N. cbn. by destruct c.
Qed.

Lemma device_read_back dto j :
  device_fits dto -> Encode (device_value dto) = Some j -> read_device j = Some (toDevice dto).
Proof.
  intros [Hi Hdur Ht] (ms & E & ->)%encoded_struct. rewrite !Forall_cons in Hi. destruct Hi as (I1 & I2 & I3 & I4 & I5 & _).
  pose proof (device_names dto) as N. unfold value_names, device_value in N. cbn [fields_of] in N.
  unfold read_device. cbn [members_of mbind option_bind]. read_fields E N.
  destruct (read_any_str _ _ "status" (dto_Status dto) E N) as [q ->]; [member|].
  assert (Hl : exists t, field to_str "" "last_seen" ms = Some t).
  { destruct (dto_LastSeen dto) as [t|] eqn:El; cbn [ptr_field] in E, N.
    - eexists. erewrite (read_plain _ _ _ _ (VStr _) _ _ E N); [done|member|reflexivity].
    - eexists. erewrite (field_encoded to_str _ _ "last_seen" true _ _ E N); [done|member]. }
  destruct Hl as [t ->]. cbn [mbind option_bind].
  destruct (read_ptr_field to_int64 0 VInt _ _ "last_poll_duration_ms" (dto_LastPollDurationMs dto) E N) as [p ->]; [member| |].
  { intros z Hz. exists (Some z). by apply read_int_ptr, Hdur. }
  cbn [mbind option_bind]. read_fields E N. cbn. unfold toDevice. by destruct (dto_device dto).
Qed.

Lemma datapoint_read_back dto j :
  datapoint_fits (dto_point dto) -> Encode (datapoint_value dto) = Some j -> read_datapoint j = Some (toDataPoint dto).
Proof.
  intros [Hi [Hfc Hra] Ht] (ms & E & ->)%encoded_struct. rewrite !Forall_cons in Hi. rewrite !Forall_cons in Ht.
  destruct Hi as (I1 & I2 & _), Ht as (T1 & T2 & T3 & T4 & T5 & _).
  pose proof (datapoint_names dto) as N. unfold value_names, datapoint_value in N. cbn [fields_of] in N.
  assert (Hs : forall n f, (n, false, VFloat f) ∈ fields_of (datapoint_value dto) -> is_finite f = true).
  { intros n f Hin. destruct (Encode_members_some _ _ n (VFloat f) E) as [j Hj]; [exact Hin|].
    cbn [Encode] in Hj. by destruct (is_finite f). }
  assert (S1 : is_finite (Scale (dto_point dto)) = true) by (apply (Hs "scale"); member).
  assert (S2 : is_finite (Offset (dto_point dto)) = true) by (apply (Hs "offset"); member).
  assert (F : 0 <= FunctionCode (dto_point dto) <= 255) by (destruct Hfc; lia).
  assert (R : 0 <= RegisterAddress (dto_point dto) <= 65535) by (destruct Hra; lia).
  unfold read_datapoint. cbn [members_of mbind option_bind]. read_fields E N.
  destruct (read_ptr_field to_float (of_Z 0) VFloat _ _ "last_value" (LastValue dto) E N) as [v ->]; [member| |].
  { intros f Hf. exists (Some f). apply read_float_ptr, (Hs "last_value"). unfold datapoint_value. cbn [fields_of]. rewrite Hf. cbn [ptr_field]. member. }
  cbn [mbind option_bind].
  destruct (read_any_str _ _ "last_quality" (LastQuality dto) E N) as [q ->]; [member|]. cbn [mbind option_bind].
  destruct (read_ptr_field to_time 0 VTime _ _ "last_read_at" (LastReadAt dto) E N) as [t ->]; [member| |].
  { intros t Ht. destruct (Encode (VTime t)) as [j|] eqn:Ej; [exists (Some t); cbn [mbind option_bind]; by apply read_time_ptr|]. exfalso.
    rewrite Ht in E. cbn [ptr_field] in E. erewrite (Encode_members_none _ "last_read_at" (VTime t)) in E; [done|member|done]. }
  cbn. unfold toDataPoint. by destruct (dto_point dto).
Qed.

(** * Sending back what was shown *)

(** A statement that writes what is there leaves the tables alone, also when it
    fails. *)
Lemma checked_same `{InvEnv} {A} e (f : Tables -> result repo_error (list A * Tables)) rows s r s' :
  f (tables s) = Ok (rows, tables s) -> rows <> [] ->
  (x ← statement f; checkRowsAffected e x) s = (r, s') ->
  tables s' = tables s /\ (inv_fault (stmts s) = false -> r = Ok tt).
Proof.
  intros Hf Hne. unfold mbind at 1, M_bind at 1. unfold statement. rewrite Hf.
  destruct (inv_fault (stmts s)); [by intros [= <- <-]|]. unfold checkRowsAffected. destruct rows; [done|].
  by intros [= <- <-].
Qed.

Section Resubmission.
Context `{InvEnv} (error_text : api_error -> string).

(** The answer shows document [j] in its list. *)
Definition shown (r : answer) (j : json) : Prop := exists js, sent r = Some (JArr js) /\ j ∈ js.

(** [put] with the document and its own id changes nothing in state [b], and is
    answered 200 unless a statement fails. *)
Definition changes_nothing (put : string -> option json -> Api -> answer * Api) (j : json) (b : Api) : Prop :=
  exists id, shown_id j = Some id /\
    tables (inv (put (Itoa id) (Some j) b).2) = tables (inv b) /\
    ((forall n, inv_fault n = false) -> status (put (Itoa id) (Some j) b).1 = 200).

(** What is stored fits the DTOs. *)
Record tables_fit (t : Tables) (st : StatusStore) : Prop := {
  fit_connections : Forall (fun r => connection_fits (conn_of r)) (t_connection t);
  fit_devices : Forall (fun r => device_fits (toDeviceDTO st (dev_of r))) (t_device t);
  fit_points : Forall (fun r => datapoint_fits (dp_of r)) (t_datapoint t)
}.

Lemma dto_device_own st d : dto_device (toDeviceDTO st d) = d.
Proof. unfold toDeviceDTO. destruct (status_Get (d_ID d) st) as [i|]; [|done]. by destruct (0 <? DatapointsPolled i). Qed.
Lemma dto_point_own l dp : dto_point (withLatest l (toDataPointDTO dp)) = dp.
Proof. unfold withLatest. destruct l as [m|]; [|done]. by destruct (latest_Get _ m). Qed.
Lemma parseID_own id : Int.is_i64 id -> parseID (Itoa id) = Some id.
Proof. intros Hid. unfold parseID. by rewrite Atoi_Itoa. Qed.

(** A list in an answer comes from the values it lists. *)
Lemma shown_in {A} (f : A -> value) l j :
  shown (reply error_text (fun l => VList (map f l)) (200, JSON l)) j -> exists x, x ∈ l /\ Encode (f x) = Some j.
Proof.
  intros (js & E & Hj). unfold reply in E. cbn [snd fst writeJSON sent] in E. rewrite Encode_array in E.
  destruct (Encode_list (map f l)) as [js'|] eqn:El; [|done]. injection E as ->. by eapply Encode_list_map.
Qed.
Lemma error_shows_nothing {A} (f : A -> value) code e j : ~ shown (reply error_text f (code, ErrorBody e)) j.
Proof. intros (js & E & _). cbn in E. discriminate. Qed.

(** The rows behind a list that was read. *)
Lemma scan_all_rows {A B} (scan : A -> result repo_error B) (f : A -> B) rows xs x :
  (forall r y, scan r = Ok y -> y = f r) -> scan_all scan rows = Ok xs -> x ∈ xs -> exists r, r ∈ rows /\ x = f r.
Proof.
  intros Hf. revert xs. induction rows as [|r rows IH]; intros xs; cbn [scan_all].
  { intros [= <-] Hx. by apply elem_of_nil in Hx. }
  destruct (scan r) as [y|e] eqn:Es; [|done]. res_simpl. destruct (scan_all scan rows) as [ys|e]; [|done].
  res_simpl. intros [= <-] [->|Hx]%elem_of_cons.
  - exists r. split; [by left|by apply Hf].
  - destruct (IH ys eq_refl Hx) as (r' & Hr & ->). exists r'. split; [by right|done].
Qed.
Lemma listed {A B} (f : Tables -> list A) (scan : A -> result repo_error B) (g : A -> B) s xs s' x :
  (forall r y, scan r = Ok y -> y = g r) -> (rows ← select f; lift (scan_all scan rows)) s = (Ok xs, s') -> x ∈ xs ->
  exists r, r ∈ f (tables s) /\ x = g r.
Proof.
  intros Hg. unfold mbind at 1, M_bind at 1. unfold select, statement.
  destruct (inv_fault (stmts s)); [done|]. unfold lift. intros [= E _]. by eapply scan_all_rows.
Qed.
Lemma point_scanned r y : scanDataPoint r = Ok y -> y = dp_of r.
Proof. unfold scanDataPoint. destruct (_ && _); [|done]. by intros [= <-]. Qed.

(** ** The three updates *)

Lemma put_connection_same r j b :
  config_ok (tables (inv b)) -> r ∈ t_connection (tables (inv b)) -> connection_fits (conn_of r) ->
  Encode (connection_json (conn_of r)) = Some j -> changes_nothing (put_connection error_text) j b.
Proof.
  intros [Ht Hv] Hr Hf Ej. assert (Hid : Int.is_i64 (cr_id r)) by (by apply cf_ints, Forall_cons in Hf as [? _]).
  exists (cr_id r). split; [by eapply shown_id_own; [exact Ej|apply connection_names|left|]|].
  unfold put_connection. rewrite parseID_own by done. cbn [mbind option_bind].
  rewrite (connection_read_back (conn_of r)) by done. unfold updateConnection.
  change (with_connection_id (cr_id r) (conn_of r)) with (conn_of r).
  pose proof (valid_connections _ Hv) as Hvc. rewrite Forall_forall in Hvc. destruct (Hvc r Hr) as [-> _].
  unfold run. destruct (connection_Update (cr_id r) (conn_of r) (inv b)) as [r' s'] eqn:Eu.
  destruct (checked_same _ _ _ _ _ _ (written_connection _ Ht (stored_valid_written _ Hv) r Hr)
    (affected_nonempty cr_id r _ Hr) Eu) as [Hs Hok].
  destruct r' as [u|e]; cbn [fst snd].
  - rewrite reload_tables. by cbn [set_inv inv].
  - split; [done|]. intros Hn. by specialize (Hok (Hn _)).
Qed.

Lemma put_device_same r j b st :
  config_ok (tables (inv b)) -> r ∈ t_device (tables (inv b)) -> device_fits (toDeviceDTO st (dev_of r)) ->
  Encode (device_value (toDeviceDTO st (dev_of r))) = Some j -> changes_nothing (put_device error_text) j b.
Proof.
  intros [Ht Hv] Hr Hf Ej. pose proof (df_ints _ Hf) as Hi. rewrite dto_device_own in Hi. apply Forall_cons in Hi as [Hid _].
  exists (dr_id r). split.
  { eapply shown_id_own; [exact Ej|apply device_names|rewrite dto_device_own; left|done]. }
  unfold put_device. rewrite parseID_own by done. cbn [mbind option_bind].
  rewrite (device_read_back (toDeviceDTO st (dev_of r))) by done. unfold toDevice. rewrite dto_device_own.
  unfold updateDevice. change (with_device_id (dr_id r) (dev_of r)) with (dev_of r).
  pose proof (devices_valid _ Ht (valid_devices _ Hv)) as Hvd. rewrite Forall_forall in Hvd. rewrite (Hvd r Hr).
  unfold run. destruct (device_Update (dr_id r) (dev_of r) (inv b)) as [r' s'] eqn:Eu.
  destruct (checked_same _ _ _ _ _ _ (written_device _ Ht (stored_valid_written _ Hv) r Hr)
    (affected_nonempty dr_id r _ Hr) Eu) as [Hs Hok].
  destruct r' as [u|e]; cbn [fst snd].
  - rewrite reload_tables. by cbn [set_inv inv].
  - split; [done|]. intros Hn. by specialize (Hok (Hn _)).
Qed.

Lemma put_datapoint_same r j b l :
  config_ok (tables (inv b)) -> r ∈ t_datapoint (tables (inv b)) -> datapoint_fits (dp_of r) ->
  Encode (datapoint_value (withLatest l (toDataPointDTO (dp_of r)))) = Some j ->
  changes_nothing (put_datapoint error_text) j b.
Proof.
  intros [Ht Hv] Hr Hf Ej. assert (Hid : Int.is_i64 (pr_id r)) by (by apply pf_ints, Forall_cons in Hf as [? _]).
  exists (pr_id r). split.
  { eapply shown_id_own; [exact Ej|apply datapoint_names|rewrite dto_point_own; left|done]. }
  unfold put_datapoint. rewrite parseID_own by done. cbn [mbind option_bind].
  rewrite (datapoint_read_back (withLatest l (toDataPointDTO (dp_of r)))) by (rewrite ?dto_point_own; done).
  unfold toDataPoint. rewrite dto_point_own. unfold updateDataPoint.
  pose proof (valid_points _ Hv) as Hvp. rewrite Forall_forall in Hvp. destruct (Hvp r Hr) as (Hval & _ & Hrange & _).
  unfold run. destruct (datapoint_Get (pr_id r) (inv b)) as [g s1] eqn:Eg.
  assert (Hg : tables s1 = tables (inv b) /\ match g with Ok x => x = dp_of r | Err _ => inv_fault (stmts (inv b)) = true end).
  { revert Eg. unfold datapoint_Get, mbind at 1, M_bind at 1. unfold select, statement.
    destruct (inv_fault (stmts (inv b))) eqn:Efl; [by intros [= <- <-]|].
    rewrite (affected_one pr_id _ _ _ (ok_datapoints _ Ht) Hr). cbn [get_one]. unfold lift.
    rewrite scan_point by done. by intros [= <- <-]. }
  destruct Hg as [Hs1 Hg]. destruct g as [x|e]; cbn [fst snd].
  2:{ split; [done|]. intros Hn. by rewrite Hn in Hg. }
  subst x. change (with_device (dp_DeviceID (dp_of r)) (with_point_id (pr_id r) (dp_of r))) with (dp_of r). rewrite Hval.
  cbn [set_inv inv]. destruct (datapoint_Update (pr_id r) (dp_of r) s1) as [r' s'] eqn:Eu.
  pose proof (written_point _ Ht (stored_valid_written _ Hv) r Hr) as Hwp. rewrite <- Hs1 in Hwp.
  destruct (checked_same _ _ _ _ _ _ Hwp ltac:(rewrite Hs1; by apply affected_nonempty) Eu) as [Hs Hok].
  destruct r' as [u|e']; cbn [fst snd].
  - rewrite reload_tables. cbn [set_inv inv]. by rewrite Hs, Hs1.
  - split; [cbn [set_inv inv]; by rewrite Hs, Hs1|]. intros Hn. by specialize (Hok (Hn _)).
Qed.

End Resubmission.

(** C13. What the page is shown can be sent back: an object taken from the list of
    connections, devices or data points that the API answers -- with the live
    values of polling beside it, fields left out where they are zero, texts and
    times in JSON -- and sent back under its own id changes no row of the
    configuration, whatever fails, even when requests in between have failed;
    and unless a statement fails it is answered 200. *)
Theorem resubmission_changes_nothing `{InvEnv} error_text a b j :
  config_ok (tables (inv a)) -> tables_fit (tables (inv a)) (a_status a) -> tables (inv b) = tables (inv a) ->
  (shown (get_connections error_text a).1 j -> changes_nothing (put_connection error_text) j b) /\
  (shown (get_devices error_text a).1 j -> changes_nothing (put_device error_text) j b) /\
  (forall param, shown (get_datapoints error_text param a).1 j -> changes_nothing (put_datapoint error_text) j b).
Proof.
  intros Hc Hf Hb. pose proof Hc as Hcb. rewrite <- Hb in Hcb. split; [|split].
  - unfold get_connections, listConnections, run. destruct (connection_List (inv a)) as [[cs|e] s'] eqn:El; cbn [fst].
    2:{ cbn [fst]. intros Hsh. by apply error_shows_nothing in Hsh. }
    intros (c & Hin & Ej)%shown_in. destruct (listed _ scanConnection conn_of _ _ _ c ltac:(by intros ? ? [= <-]) El Hin) as (r & Hr & ->).
    eapply put_connection_same; [done|rewrite Hb; exact Hr| |exact Ej].
    pose proof (fit_connections _ _ Hf) as Hfc. rewrite Forall_forall in Hfc. by apply Hfc.
  - unfold get_devices, listDevices, run. destruct (device_List (inv a)) as [[ds|e] s'] eqn:El; cbn [fst].
    2:{ cbn [fst]. intros Hsh. by apply error_shows_nothing in Hsh. }
    intros (dto & Hin & Ej)%shown_in. apply list_elem_of_fmap in Hin as (d & -> & Hin).
    destruct (listed _ scanDevice dev_of _ _ _ d ltac:(by intros ? ? [= <-]) El Hin) as (r & Hr & ->).
    eapply put_device_same; [done|rewrite Hb; exact Hr| |exact Ej].
    pose proof (fit_devices _ _ Hf) as Hfd. rewrite Forall_forall in Hfd. by apply Hfd.
  - intros param. unfold get_datapoints, listDataPoints, run. destruct (parseID param) as [id|].
    2:{ cbn [fst]. intros Hsh. by apply error_shows_nothing in Hsh. }
    destruct (datapoint_ListByDevice id (inv a)) as [[dps|e] s'] eqn:El; cbn [fst].
    2:{ cbn [fst]. intros Hsh. by apply error_shows_nothing in Hsh. }
    intros (dto & Hin & Ej)%shown_in. apply list_elem_of_fmap in Hin as (dp & -> & Hin).
    destruct (listed _ scanDataPoint dp_of _ _ _ dp ltac:(apply point_scanned) El Hin) as (r & Hr & ->).
    apply list_elem_of_filter in Hr as [_ Hr].
    eapply put_datapoint_same; [done|rewrite Hb; exact Hr| |exact Ej].
    pose proof (fit_points _ _ Hf) as Hfp. rewrite Forall_forall in Hfp. by apply Hfp.
Qed.

(** * A value JSON cannot carry *)

Definition sendable_field (f : string * bool * value) : Prop := f.1.2 = true \/ is_Some (Encode f.2).

Lemma Encode_members_iff fs : is_Some (Encode_members fs) <-> Forall sendable_field fs.
Proof.
  induction fs as [|[[n om] v] fs IH]; [by split; [constructor|eexists]|].
  rewrite Forall_cons, <- IH. unfold sendable_field. cbn [fst snd Encode_members]. destruct om.
  - split; [by intros; split; [left|]|by intros [_ ?]].
  - destruct (Encode v) as [j|]; cbn [mbind option_bind].
    + destruct (Encode_members fs) as [ms|]; cbn [mbind option_bind].
      * split; [|by eexists]. intros _. split; [right|]; by eexists.
      * split; [by intros [? [=]]|by intros [_ [? [=]]]].
    + split; [by intros [? [=]]|]. by intros [[[=]|[? [=]]] _].
Qed.

Lemma Encode_list_iff {A} (f : A -> value) l : is_Some (Encode_list (map f l)) <-> Forall (fun x => is_Some (Encode (f x))) l.
Proof.
  induction l as [|x l IH]; [by split; [constructor|eexists]|]. rewrite Forall_cons, <- IH. cbn [map Encode_list].
  destruct (Encode (f x)) as [j|]; cbn [mbind option_bind].
  - destruct (Encode_list (map f l)) as [js|]; cbn [mbind option_bind].
    + split; [|by eexists]. intros _. split; by eexists.
    + split; [by intros [? [=]]|by intros [_ [? [=]]]].
  - split; [by intros [? [=]]|]. by intros [[? [=]] _].
Qed.

(** The floats of a point and its last reading are finite, and the reading's
    time has a year of four digits. *)
Definition carried (l : option LatestStore) (dp : DataPoint) : Prop :=
  is_finite (Scale dp) = true /\ is_finite (Offset dp) = true /\
  forall m lv, l = Some m -> latest_Get (dp_ID dp) m = Some lv ->
    (forall f, lv_Value lv = Some f -> is_finite f = true) /\ 0 <= year_of (lv_At lv) <= 9999.

Lemma sendable_float n f : sendable_field (n, false, VFloat f) <-> is_finite f = true.
Proof.
  unfold sendable_field. cbn [fst snd Encode]. destruct (is_finite f); [by split; [|right; eexists]|].
  split; [by intros [[=]|[? [=]]]|done].
Qed.
Lemma sendable_time n t : sendable_field (n, false, VTime t) <-> 0 <= year_of t <= 9999.
Proof.
  unfold sendable_field. cbn [fst snd Encode]. destruct ((0 <=? year_of t) && _) eqn:E; zbool.
  - split; [done|]. right. by eexists.
  - split; [by intros [[=]|[? [=]]]|]. intros [Hl Hh]. apply andb_false_iff in E as [E|E]; zbool; lia.
Qed.
Lemma sendable_ptr {A} n (f : A -> value) p : sendable_field (ptr_field n f p) <-> forall a, p = Some a -> sendable_field (n, false, f a).
Proof.
  destruct p as [a|]; cbn [ptr_field]; [split; [by intros ? ? [= <-]|by auto]|].
  split; [done|]. intros _. by left.
Qed.

Lemma point_carried l dp : is_Some (Encode (datapoint_value (withLatest l (toDataPointDTO dp)))) <-> carried l dp.
Proof.
  unfold datapoint_value. rewrite Encode_struct, fmap_is_Some, Encode_members_iff, dto_point_own.
  assert (Hplain : forall n om v, is_Some (Encode v) -> sendable_field (n, om, v)) by (intros; by right).
  rewrite !Forall_cons, !sendable_float, !sendable_ptr. unfold carried.
  unfold withLatest. split.
  - intros (_ & _ & _ & _ & _ & _ & _ & _ & Hs & Ho & _ & _ & Hv & _ & Ht & _). split; [done|]. split; [done|].
    intros m lv -> Hlv. cbn [toDataPointDTO dto_point] in Hv, Ht. rewrite Hlv in Hv, Ht. cbn [LastValue LastReadAt] in Hv, Ht.
    split; [|by apply (sendable_time "last_read_at"), Ht]. intros f Hf. by apply (sendable_float "last_value"), Hv.
  - intros (Hs & Ho & Hc). repeat (split; [try done; try (apply Hplain; by eexists)|]); [..|constructor].
    + intros f Hf. apply sendable_float. destruct l as [m|]; [|done]. cbn [toDataPointDTO dto_point] in Hf.
      destruct (latest_Get (dp_ID dp) m) as [lv|] eqn:El; [|done]. by eapply (Hc m lv).
    + intros t Ht. apply sendable_time. destruct l as [m|]; [|done]. cbn [toDataPointDTO dto_point] in Ht.
      destruct (latest_Get (dp_ID dp) m) as [lv|] eqn:El; [|done]. injection Ht as <-. by eapply (Hc m lv).
Qed.

(** C14. The answer with the data points of a device is 200 in any case, but its
    body is there only when every scale, offset and last value can be carried by
    JSON: [writeJSON] writes the status before it encodes and drops the error, so
    one reading whose value is NaN or infinite leaves the page without any of the
    device's points until that point is read again. *)
Theorem unsendable_value_blanks_list `{InvEnv} error_text param id a dps s' :
  parseID param = Some id -> datapoint_ListByDevice id (inv a) = (Ok dps, s') ->
  let r := (get_datapoints error_text param a).1 in
  status r = 200 /\ content_type r = Some "application/json" /\
  (is_Some (sent r) <-> Forall (carried (a_latest a)) dps) /\
  forall rd sinks dp f, a_latest a = Some (latest (on_reading rd sinks)) -> dp ∈ dps -> dp_ID dp = r_DatapointID rd ->
    r_Value rd = Some f -> is_finite f = false -> sent r = None.
Proof.
  intros Hp Hl. unfold get_datapoints, listDataPoints, run. rewrite Hp, Hl. cbv zeta. cbn [fst].
  unfold reply. cbn [fst snd writeJSON status content_type sent]. split; [done|]. split; [done|].
  assert (Hiff : is_Some (Encode (VList (map datapoint_value
    (map (fun dp => withLatest (a_latest a) (toDataPointDTO dp)) dps)))) <-> Forall (carried (a_latest a)) dps).
  { rewrite Encode_array, fmap_is_Some, map_map, Encode_list_iff. apply Forall_proper; [|done].
    intros dp. apply point_carried. }
  split; [exact Hiff|]. intros rd sinks dp f Ha Hin Hid Hv Hf. apply eq_None_not_Some.
  change (a_latest (set_inv s' a)) with (a_latest a). rewrite Hiff. intros Hc. rewrite Forall_forall in Hc.
  destruct (Hc dp Hin) as (_ & _ & Hlast). edestruct Hlast as [Hfin _]; [exact Ha| |].
  { unfold on_reading, latest, latest_Update, latest_Get. rewrite Hid. apply lookup_insert_eq. }
  specialize (Hfin f Hv). by rewrite Hf in Hfin.
Qed.

(** * Witnesses *)

#[local] Instance steady : InvEnv := {| inv_fault := fun _ => false |}.
Definition plain_error (e : api_error) : string := "failed".

(** Two devices, one of them polled; its points' last values. *)
Definition polled (f : f64) : Api :=
  mkApi (inv plant) None {[1 := mkInfo "GOOD" 1700000000123000000 41 2 1]}
    (Some {[1 := mkLatest (Some f) "GOOD" "" 1700000000123450000; 3 := mkLatest None "TIMEOUT" "" 1700000000200000000]}).

Definition tables_fit_b (t : Tables) (st : StatusStore) : bool :=
  let ints zs := forallb (fun z => (- Int.two63 <=? z) && (z <? Int.two63)) zs in
  let texts ss := forallb (fun s => bool_decide (is_text s)) ss in
  forallb (fun r => let c := conn_of r in
    ints [c_ID c; Port c; BaudRate c; DataBits c; StopBits c; TimeoutMs c; c_Retry c; NextDeviceDelayMs c] &&
    texts [c_Name c; Protocol c; Interface c; IPAddress c; Parity c]) (t_connection t) &&
  forallb (fun r => let dto := toDeviceDTO st (dev_of r) in
    ints (default 0 (dto_LastPollDurationMs dto) :: [d_ID (dto_device dto); ConnectionID (dto_device dto);
      SlaveID (dto_device dto); dto_DatapointsPolled dto; dto_BlockReads dto]) &&
    texts [d_Name (dto_device dto)]) (t_device t) &&
  forallb (fun r => let dp := dp_of r in
    ints [dp_ID dp; dp_DeviceID dp] && (0 <=? FunctionCode dp) && (FunctionCode dp <? 256) &&
    (0 <=? RegisterAddress dp) && (RegisterAddress dp <? 65536) &&
    texts [TagName dp; DataType dp; ByteOrder dp; WordOrder dp; Unit dp]) (t_datapoint t).

Lemma tables_fit_compute t st : tables_fit_b t st = true -> tables_fit t st.
Proof.
  assert (Hi : forall zs, forallb (fun z => (- Int.two63 <=? z) && (z <? Int.two63)) zs = true -> Forall Int.is_i64 zs).
  { intros zs Hz. rewrite forallb_forall in Hz. apply Forall_forall. intros z Hin. apply list_elem_of_In in Hin.
    specialize (Hz z Hin). zbool. unfold Int.is_i64, Int.two63 in *. lia. }
  assert (Hs : forall ss, forallb (fun s => bool_decide (is_text s)) ss = true -> Forall is_text ss).
  { intros ss Hz. rewrite forallb_forall in Hz. apply Forall_forall. intros s Hin. apply list_elem_of_In in Hin.
    by apply (bool_decide_eq_true_1 _), Hz. }
  unfold tables_fit_b. intros [[Hc Hd]%andb_prop Hp]%andb_prop. rewrite forallb_forall in Hc.
  rewrite forallb_forall in Hd. rewrite forallb_forall in Hp.
  split; apply Forall_forall; intros r Hr; apply list_elem_of_In in Hr.
  - specialize (Hc r Hr) as [Hci Hct]%andb_prop. split; [by apply Hi|by apply Hs].
  - specialize (Hd r Hr) as [Hdi Hdt]%andb_prop. apply Hi, Forall_cons in Hdi as [Hdur Hdi]. split; [done| |].
    + intros z Hz. by rewrite Hz in Hdur.
    + by apply Hs, Forall_cons in Hdt as [? _].
  - specialize (Hp r Hr). zbool. destruct_and?. split; [by apply Hi|by split|by apply Hs].
Qed.

(** The documents the page is shown. *)
Definition documents (r : answer) : list json := match sent r with Some (JArr js) => js | _ => [] end.
Lemma documents_shown r j : j ∈ documents r -> shown r j.
Proof.
  unfold documents, shown. destruct (sent r) as [[| | | | |js|]|]; intros Hj; try (by apply elem_of_nil in Hj).
  by exists js.
Qed.
Definition half : f64 := of_bits 4602678819172646912.

Lemma polled_fit : tables_fit (tables (inv (polled half))) (a_status (polled half)).
Proof. apply tables_fit_compute. vm_compute. reflexivity. Qed.

(** The first of each list. *)
Definition first_document (r : answer) : json := default JNull (head (documents r)).
Lemma first_shown r : documents r <> [] -> shown r (first_document r).
Proof.
  intros Hne. apply documents_shown. unfold first_document. destruct (documents r); [done|]. left.
Qed.
Lemma polled_documents :
  documents (get_connections plain_error (polled half)).1 <> [] /\
  documents (get_devices plain_error (polled half)).1 <> [] /\
  documents (get_datapoints plain_error "1" (polled half)).1 <> [].
Proof. vm_compute. done. Qed.

Lemma resubmission_changes_nothing_witness :
  let bus := first_document (get_connections plain_error (polled half)).1 in
  let boiler := first_document (get_devices plain_error (polled half)).1 in
  let temperature := first_document (get_datapoints plain_error "1" (polled half)).1 in
  changes_nothing (put_connection plain_error) bus (polled half) /\
  changes_nothing (put_device plain_error) boiler (polled half) /\
  changes_nothing (put_datapoint plain_error) temperature (polled half).
Proof.
  destruct polled_documents as (H1 & H2 & H3).
  pose proof (fun j => resubmission_changes_nothing plain_error (polled half) (polled half) j plant_ok polled_fit eq_refl) as Hr.
  split; [by apply Hr, first_shown|]. split; [by apply Hr, first_shown|]. by eapply Hr, first_shown.
Defined.

Lemma nan_lists : exists dps dps2 s1 s2,
  datapoint_ListByDevice 1 (inv (polled SpecFloat.S754_nan)) = (Ok dps, s1) /\
  datapoint_ListByDevice 2 (inv (polled SpecFloat.S754_nan)) = (Ok dps2, s2) /\
  ~ Forall (carried (a_latest (polled SpecFloat.S754_nan))) dps /\
  Forall (carried (a_latest (polled SpecFloat.S754_nan))) dps2.
Proof.
  eexists _, _, _, _. split; [vm_compute; reflexivity|]. split; [vm_compute; reflexivity|]. split.
  - intros [(_ & _ & Hf) _]%Forall_cons. cbn [polled a_latest] in Hf.
    destruct (Hf _ (mkLatest (Some SpecFloat.S754_nan) "GOOD" "" 1700000000123450000) eq_refl eq_refl) as [Hn _].
    by specialize (Hn _ eq_refl).
  - constructor; [|constructor]. split; [done|]. split; [done|]. intros m lv [= <-] Hlv.
    cbn in Hlv. vm_compute in Hlv. by simplify_eq.
Qed.

(** The temperature reads NaN: the whole list is gone. *)
Lemma unsendable_value_blanks_list_witness :
  let r := (get_datapoints plain_error "1" (polled SpecFloat.S754_nan)).1 in
  status r = 200 /\ content_type r = Some "application/json" /\ ~ is_Some (sent r) /\
  is_Some (sent (get_datapoints plain_error "2" (polled SpecFloat.S754_nan)).1).
Proof.
  destruct nan_lists as (dps & dps2 & s1 & s2 & E1 & E2 & Hbad & Hgood).
  destruct (unsendable_value_blanks_list plain_error "1" 1 (polled SpecFloat.S754_nan) dps s1) as (Hs & Hc & Hi & _);
    [reflexivity|exact E1|].
  destruct (unsendable_value_blanks_list plain_error "2" 2 (polled SpecFloat.S754_nan) dps2 s2) as (_ & _ & Hi2 & _);
    [reflexivity|exact E2|].
  split; [exact Hs|]. split; [exact Hc|]. split; [by rewrite Hi|by apply Hi2].
Defined.
