(* ===== verification/InfluxClient.v ===== *)
(** The HTTP requests of the reference server's storage client
    (cmd/server-demo/influx.go: newInfluxWriter and do): the URL with its query,
    the headers and bodies of the requests file Influx makes, and what becomes of
    the responses.  The web itself is a parameter. *)

From Stdlib Require Import Ascii.
From stdpp Require Import pretty.
From S2P Require Import Prelude.
From S2P Require Import GoStrings.
From S2P Require Import GoTime.
From S2P Require Import GoText.
From S2P Require Import Json.
From S2P Require Import Influx.

Local Open Scope string_scope.
Local Open Scope list_scope.
Local Open Scope Z_scope.

(** * Queries (net/url) *)

Definition hex_digit (n : Z) : ascii := ascii_of_N (Z.to_N (if n <? 10 then 48 + n else 55 + n)).
Definition hex_value (a : ascii) : option Z :=
  if between 48 57 a then Some (code a - 48)
  else if between 65 70 a then Some (code a - 55)
  else if between 97 102 a then Some (code a - 87)
  else None.

(** Letters, digits and four signs stand for themselves. *)
Definition unreserved (a : ascii) : bool :=
  between 48 57 a || between 65 90 a || between 97 122 a || bool_decide (a ∈ ["-"; "_"; "."; "~"]%char).
Definition query_byte (a : ascii) : list ascii :=
  if unreserved a then [a]
  else if bool_decide (a = " "%char) then ["+"%char]
  else ["%"%char; hex_digit (code a / 16); hex_digit (code a mod 16)].
Definition QueryEscape (s : string) : list ascii := concat (map query_byte (bytes_of s)).

Fixpoint QueryUnescape (l : list ascii) : option (list ascii) :=
  match l with
  | [] => Some []
  | a :: r =>
    if bool_decide (a = "+"%char) then cons " "%char <$> QueryUnescape r
    else if bool_decide (a = "%"%char) then
      match r with
      | h :: k :: r =>
        x ← hex_value h; y ← hex_value k; cons (ascii_of_N (Z.to_N (16 * x + y))) <$> QueryUnescape r
      | _ => None
      end
    else cons a <$> QueryUnescape r
  end.

(** [url.Values.Encode]: sorted by key. *)
Definition key_le (a b : string * string) : Prop := String.leb a.1 b.1 = true.
#[export] Instance key_le_dec : RelDecision key_le.
Proof. intros a b. unfold key_le. apply _. Defined.
Fixpoint join_query (kvs : list (string * string)) : list ascii :=
  match kvs with
  | [] => []
  | [(k, v)] => QueryEscape k ++ "="%char :: QueryEscape v
  | (k, v) :: kvs => QueryEscape k ++ "="%char :: QueryEscape v ++ "&"%char :: join_query kvs
  end.
Definition Values_Encode (kvs : list (string * string)) : string := of_bytes (join_query (merge_sort key_le kvs)).

(** [url.ParseQuery], as the server does. *)
Definition parse_pair (l : list ascii) : option (string * string) :=
  '(k, v) ← cut_at "=" l; k ← QueryUnescape k; v ← QueryUnescape v; Some (of_bytes k, of_bytes v).
Definition parse_query (q : string) : option (list (string * string)) := mapM parse_pair (split_at "&" (bytes_of q)).

(** * Requests and responses *)

Inductive payload := NoBody | Lines (l : list ascii) | Document (v : value).
Record http_request := mkHttp {
  rq_method : string;
  rq_url : string;
  rq_authorization : string;
  rq_content_type : option string;
  rq_body : payload
}.

(** A response: its code and the document in its body, if it is one. *)
Record http_response := mkResponse { rs_code : Z; rs_document : option json }.
Class Web (W : Type) := {
  (** [http.NewRequest] refuses a URL that does not parse *)
  url_error : string -> option string;
  RoundTrip : http_request -> W -> result string http_response * W
}.

(** [influxWriter], less its bucket and last error (file Influx). *)
Record config := mkConfig { baseURL : string; org : string; token : string }.
Definition newInfluxWriter (base org token : string) : config := mkConfig (TrimSuffix base "/") org token.

(** The ids in the list called [list_name] of a document. *)
Definition ids_of (list_name : string) (v : json) : option (list string) :=
  ms ← members_of v;
  field (fun v old => match v with
                      | JNull => Some []
                      | JArr l => mapM (fun x => ms ← members_of x; field to_str "" "id" ms) l
                      | _ => None
                      end) [] list_name ms.

Section Do.
Context {W : Type} `{Web W}.

(** [do]; [out] is the name of the list to decode, if any. *)
Definition http_do (c : config) (method path : string) (content_type : option string) (body : payload)
    (out : option string) (w : W) : result influx_error (list string) * W :=
match url_error (baseURL c +:+ path) with
| Some e => (Err (Transport e), w)
| None =>
match RoundTrip (mkHttp method (baseURL c +:+ path) ("Token " +:+ token c) content_type body) w with
| (Err e, w) => (Err (Transport ("influx " +:+ method +:+ ": " +:+ e)), w)
| (Ok r, w) =>
  if negb (Z.quot (rs_code r) 100 =? 2) then (Err (Status (rs_code r)), w)
  else match out with
       | None => (Ok [], w)
       | Some name =>
         match rs_document r ≫= ids_of name with
         | Some ids => (Ok ids, w)
         | None => (Err (Transport "invalid response"), w)
         end
       end
end
end.

Definition rules (everySeconds : option Z) : value :=
VList (match everySeconds with
       | Some s => [VStruct [("everySeconds", false, VInt s); ("type", false, VStr "expire")]]
       | None => []
       end).

(** The requests of file Influx; map keys are written in order. *)
Definition send (c : config) (r : request) : W -> result influx_error (list string) * W :=
match r with
| Write bucket body =>
  http_do c "POST" ("/api/v2/write?" +:+ Values_Encode [("org", org c); ("bucket", bucket); ("precision", "ms")])
    (Some "text/plain; charset=utf-8") (Lines body) None
| FindBucket name =>
  http_do c "GET" ("/api/v2/buckets?" +:+ Values_Encode [("org", org c); ("name", name)]) None NoBody (Some "buckets")
| FindOrg => http_do c "GET" ("/api/v2/orgs?" +:+ Values_Encode [("org", org c)]) None NoBody (Some "orgs")
| PatchBucket id every =>
  http_do c "PATCH" ("/api/v2/buckets/" +:+ id) (Some "application/json")
    (Document (VStruct [("retentionRules", false, rules every)])) None
| CreateBucket orgID name every =>
  http_do c "POST" "/api/v2/buckets" (Some "application/json")
    (Document (VStruct [("name", false, VStr name); ("orgID", false, VStr orgID); ("retentionRules", false, rules every)])) None
end.

(** The client of file Influx over the web. *)
#[export] Instance influx_over_http : InfluxHTTP (config * W) := {|
do := fun r '(c, w) => let '(a, w) := send c r w in (a, (c, w))
|}.
End Do.

(** * The server reads what was meant *)

Definition plain (a : ascii) : Prop := a <> "&"%char /\ a <> "="%char.

Lemma code_range a : 0 <= code a <= 255.
Proof. unfold code. pose proof (N_ascii_bounded a). lia. Qed.
Lemma code_ascii a : ascii_of_N (Z.to_N (code a)) = a.
Proof. unfold code. rewrite N2Z.id. apply ascii_N_embedding. Qed.
Lemma hex_value_digit n : 0 <= n <= 15 -> hex_value (hex_digit n) = Some n.
Proof. intros Hn. apply (all_range 16 0 (fun n => hex_value (hex_digit n) = Some n)); [by vm_compute|lia]. Qed.
Lemma hex_digit_plain n : 0 <= n <= 15 -> plain (hex_digit n).
Proof.
  intros Hn. unfold plain.
  apply (all_range 16 0 (fun n => hex_digit n <> "&"%char /\ hex_digit n <> "="%char)); [by vm_compute|lia].
Qed.
Lemma code_halves a : 0 <= code a / 16 <= 15 /\ 0 <= code a mod 16 <= 15 /\ 16 * (code a / 16) + code a mod 16 = code a.
Proof.
  pose proof (code_range a). pose proof (Z.div_mod (code a) 16 ltac:(lia)). pose proof (Z.mod_pos_bound (code a) 16 ltac:(lia)).
  assert (code a / 16 <= 15); [|lia]. apply Z.lt_succ_r, Z.div_lt_upper_bound; lia.
Qed.

Lemma query_byte_plain a : Forall plain (query_byte a).
Proof.
  unfold query_byte. destruct (unreserved a) eqn:E.
  - constructor; [|constructor]. split; intros ->; by vm_compute in E.
  - case_bool_decide; [by repeat constructor|]. destruct (code_halves a) as (H1 & H2 & _).
    repeat constructor; first [done|by apply hex_digit_plain].
Qed.

Lemma unescape_byte a r : QueryUnescape (query_byte a ++ r) = cons a <$> QueryUnescape r.
Proof.
  unfold query_byte. destruct (unreserved a) eqn:E.
  - cbn [app QueryUnescape]. rewrite !bool_decide_false; [done|..]; intros ->; by vm_compute in E.
  - case_bool_decide as Hsp; [by subst a|]. destruct (code_halves a) as (H1 & H2 & H3).
    cbn [app QueryUnescape]. rewrite bool_decide_false by done. rewrite bool_decide_true by done.
    rewrite !hex_value_digit by done. cbn [mbind option_bind]. by rewrite H3, code_ascii.
Qed.

Lemma unescape_escape s : QueryUnescape (QueryEscape s) = Some (bytes_of s).
Proof.
  unfold QueryEscape. induction (bytes_of s) as [|a l IH]; [done|].
  cbn [map concat]. by rewrite unescape_byte, IH.
Qed.
Lemma escape_plain s : Forall plain (QueryEscape s).
Proof.
  unfold QueryEscape. induction (bytes_of s) as [|a l IH]; [constructor|]. cbn [map concat].
  apply Forall_app. split; [apply query_byte_plain|exact IH].
Qed.
Lemma plain_lacks l : Forall plain l -> "&"%char ∉ l /\ "="%char ∉ l.
Proof. rewrite Forall_forall. intros Hl. split; intros Hin; by destruct (Hl _ Hin). Qed.

Lemma parse_pair_own k v : parse_pair (QueryEscape k ++ "="%char :: QueryEscape v) = Some (k, v).
Proof.
  destruct (plain_lacks _ (escape_plain k)) as [_ Hk]. unfold parse_pair. rewrite cut_at_app by done.
  cbn [mbind option_bind]. rewrite !unescape_escape. cbn [mbind option_bind]. by rewrite !of_bytes_of.
Qed.

Lemma join_query_split kvs :
  kvs <> [] -> mapM parse_pair (split_at "&" (join_query kvs)) = Some kvs.
Proof.
  induction kvs as [|[k v] kvs IH]; intros Hne; [done|].
  destruct (plain_lacks _ (escape_plain k)) as [Hk _], (plain_lacks _ (escape_plain v)) as [Hv _].
  assert (Hpair : "&"%char ∉ QueryEscape k ++ "="%char :: QueryEscape v).
  { rewrite not_elem_of_app, not_elem_of_cons. done. }
  destruct kvs as [|kv kvs].
  - cbn [join_query]. rewrite split_at_none by done. cbn [mapM]. rewrite parse_pair_own. done.
  - change (join_query ((k, v) :: kv :: kvs)) with
      (QueryEscape k ++ "="%char :: QueryEscape v ++ "&"%char :: join_query (kv :: kvs)).
    replace (QueryEscape k ++ "="%char :: QueryEscape v ++ "&"%char :: join_query (kv :: kvs))
      with ((QueryEscape k ++ "="%char :: QueryEscape v) ++ "&"%char :: join_query (kv :: kvs)) by (by rewrite <- app_assoc).
    rewrite split_at_app by done. cbn [mapM]. rewrite parse_pair_own. cbn [mbind option_bind]. by rewrite IH.
Qed.

(** Whatever bytes the names hold, the server finds every pair of the query. *)
Lemma query_understood kvs : kvs <> [] -> parse_query (Values_Encode kvs) = Some (merge_sort key_le kvs).
Proof.
  intros Hne. unfold parse_query, Values_Encode. rewrite bytes_of_bytes. apply join_query_split.
  intros E. pose proof (merge_sort_Permutation key_le kvs) as Hp. rewrite E in Hp. by apply Permutation_nil_l in Hp.
Qed.

(** A write names the bucket and the organisation that were meant, whatever
    bytes their names hold, and succeeds exactly when the response is a 2xx. *)
Theorem requests_understood `{Web W} c bucket body w :
  url_error (baseURL c +:+ ("/api/v2/write?" +:+ Values_Encode [("org", org c); ("bucket", bucket); ("precision", "ms")])) = None ->
  exists query,
    parse_query query = Some [("bucket", bucket); ("org", org c); ("precision", "ms")] /\
    let rq := mkHttp "POST" (baseURL c +:+ ("/api/v2/write?" +:+ query)) ("Token " +:+ token c)
                (Some "text/plain; charset=utf-8") (Lines body) in
    match RoundTrip rq w with
    | (Ok r, w') => send c (Write bucket body) w =
                    ((if Z.quot (rs_code r) 100 =? 2 then Ok [] else Err (Status (rs_code r))), w')
    | (Err e, w') => exists text, send c (Write bucket body) w = (Err (Transport text), w')
    end.
Proof.
  intros Hu. exists (Values_Encode [("org", org c); ("bucket", bucket); ("precision", "ms")]). split.
  - by rewrite query_understood.
  - cbv zeta. unfold send, http_do. rewrite Hu. destruct (RoundTrip _ w) as [[r|e] w']; [|by eexists].
    by destruct (Z.quot (rs_code r) 100 =? 2).
Qed.

Lemma query_sample :
  Values_Encode [("org", "plant & co"); ("bucket", "a=b+c%"); ("precision", "ms")] =
  "bucket=a%3Db%2Bc%25&org=plant+%26+co&precision=ms".
Proof. vm_compute. reflexivity. Qed.
