(* ===== verification/ModbusClient.v ===== *)
(** The Modbus clients over the goburrow library (internal/modbus/tcp.go,
    rtu.go), and what a polling cycle puts on the wire: one request for each
    planned block, addressed to the slave of its own device.

    The library is a parameter: a handler with public fields, whose slave id is
    in every request it sends. *)

From stdpp Require Import pretty.
From S2P Require Import Prelude.
From S2P Require Import GoTime.
From S2P Require Import Float64.
From S2P Require Import Modbus.
From S2P Require Import Inventory.
From S2P Require Import BlockPlan.
From S2P Require Import Observers.
From S2P Require Import Poller.
From S2P Require Import PollerProps.

Local Open Scope string_scope.
Local Open Scope list_scope.
Local Open Scope Z_scope.

(** * The two clients *)

(** The fields of goburrow's handlers that the gateway sets. *)
Record handler := mkHandler { h_config : client_config; h_SlaveId : Z }.

(** [B] is the library's world: sockets, serial ports, and the clock. *)
Class Library (B : Type) := {
  handler_Connect : handler -> B -> result goerror unit * B;
  handler_Close : handler -> B -> B;
  NewClient : handler -> Goburrow B
}.

Definition NewTCPClient (address : string) (timeout : Z) : handler := mkHandler (TCPConfig address timeout) 0.
Definition NewRTUClient (interface : string) (baud data_bits : Z) (parity : string) (stop_bits timeout : Z) : handler :=
  mkHandler (RTUConfig interface baud data_bits parity stop_bits timeout) 0.

(** The client [BuildClient] makes of a configuration. *)
Definition new_client (c : client_config) : handler :=
  match c with
  | TCPConfig address timeout => NewTCPClient address timeout
  | RTUConfig interface baud data_bits parity stop_bits timeout =>
    NewRTUClient interface baud data_bits parity stop_bits timeout
  end.

Section Client.
Context {B : Type} `{Library B}.

Definition client_Connect (w : handler * B) : result goerror unit * (handler * B) :=
let '(h, b) := w in let '(r, b) := handler_Connect h b in (r, (h, b)).
Definition client_Close (w : handler * B) : handler * B := let '(h, b) := w in (h, handler_Close h b).
Definition client_SetUnitID (id : Z) (w : handler * B) : handler * B :=
let '(h, b) := w in (mkHandler (h_config h) id, b).
Definition client_Read (fc address quantity : Z) (w : handler * B) : result goerror (list Z) * (handler * B) :=
let '(h, b) := w in let '(r, b) := @readFunc B (NewClient h) fc address quantity b in (r, (h, b)).
End Client.

(** The clock, the waits and the context beside the library. *)
Class Surroundings (B : Type) := {
  b_Now : B -> Z * B;
  b_with_timeout : Z -> B -> B;
  b_cancel_timeout : B -> B;
  b_cancelled : B -> bool;
  b_sleep : Z -> B -> bool * B;
  b_ctx_err : B -> option goerror
}.

Definition under {A B} (f : B -> A * B) (w : handler * B) : A * (handler * B) :=
  let '(a, b) := f w.2 in (a, (w.1, b)).

#[export] Instance client_instance {B} `{Library B, Surroundings B} : Client (handler * B) := {|
  Connect := client_Connect;
  CloseConn := client_Close;
  SetUnitID := client_SetUnitID;
  Read := client_Read;
  ctx_err := fun w => b_ctx_err w.2
|}.
#[export] Instance client_world {B} `{Library B, Surroundings B} : World (handler * B) := {|
  world_client := client_instance;
  Now := under b_Now;
  with_timeout := fun t w => (w.1, b_with_timeout t w.2);
  cancel_timeout := fun w => (w.1, b_cancel_timeout w.2);
  cancelled := fun w => b_cancelled w.2;
  sleep := fun d => under (b_sleep d)
|}.

(** * The wire *)

(** A request: the slave it is for, the function code, the first register and
    how many. *)
Record request := mkRequest { q_slave : Z; q_function : Z; q_address : Z; q_quantity : Z }.

Definition readable_code (fc : Z) : Prop := fc ∈ [1; 2; 3; 4].

(** A client whose requests can be watched: [slave] is the one addressed,
    [wire] the requests sent so far; only a read sends, one request each. *)
Class Wired (W : Type) `{World W} (slave : W -> Z) (wire : W -> list request) := {
  wired_unit id w : slave (SetUnitID id w) = id /\ wire (SetUnitID id w) = wire w;
  wired_read fc a q w : readable_code fc ->
    slave (Read fc a q w).2 = slave w /\ wire (Read fc a q w).2 = wire w ++ [mkRequest (slave w) fc a q];
  wired_connect w : slave (Connect w).2 = slave w /\ wire (Connect w).2 = wire w;
  wired_close w : slave (CloseConn w) = slave w /\ wire (CloseConn w) = wire w;
  wired_now w : slave (Now w).2 = slave w /\ wire (Now w).2 = wire w;
  wired_timeout t w : slave (with_timeout t w) = slave w /\ wire (with_timeout t w) = wire w;
  wired_cancel w : slave (cancel_timeout w) = slave w /\ wire (cancel_timeout w) = wire w;
  wired_sleep d w : slave (sleep d w).2 = slave w /\ wire (sleep d w).2 = wire w
}.

(** What goburrow documents: a request carries its handler's slave id, and
    connecting and closing send none. *)
Class Documented (B : Type) `{Library B, Surroundings B} (line : B -> list request) := {
  doc_coils h a q b : line (@ReadCoils B (NewClient h) a q b).2 = line b ++ [mkRequest (h_SlaveId h) 1 a q];
  doc_inputs h a q b : line (@ReadDiscreteInputs B (NewClient h) a q b).2 = line b ++ [mkRequest (h_SlaveId h) 2 a q];
  doc_holding h a q b : line (@ReadHoldingRegisters B (NewClient h) a q b).2 = line b ++ [mkRequest (h_SlaveId h) 3 a q];
  doc_registers h a q b : line (@ReadInputRegisters B (NewClient h) a q b).2 = line b ++ [mkRequest (h_SlaveId h) 4 a q];
  doc_connect h b : line (handler_Connect h b).2 = line b;
  doc_close h b : line (handler_Close h b) = line b;
  doc_now b : line (b_Now b).2 = line b;
  doc_timeout t b : line (b_with_timeout t b) = line b;
  doc_cancel b : line (b_cancel_timeout b) = line b;
  doc_sleep d b : line (b_sleep d b).2 = line b
}.

(** The gateway's clients over such a library can be watched. *)
#[export] Instance clients_wired {B} `{Documented B line} :
  Wired (handler * B) (fun w => h_SlaveId w.1) (fun w => line w.2).
Proof.
  split.
  - by intros id [h b].
  - intros fc a q [h b] Hfc. cbn [Read world_client client_world client_instance client_Read].
    assert (Hl : line (@readFunc B (NewClient h) fc a q b).2 = line b ++ [mkRequest (h_SlaveId h) fc a q]).
    { unfold readable_code in Hfc. rewrite !elem_of_cons in Hfc. unfold readFunc, FuncReadCoils, FuncReadDiscreteInputs,
        FuncReadHoldingRegisters, FuncReadInputRegisters.
      destruct Hfc as [->|[->|[->|[->|Hno]]]]; [apply doc_coils|apply doc_inputs|apply doc_holding|apply doc_registers|].
      by apply elem_of_nil in Hno. }
    by destruct (@readFunc B (NewClient h) fc a q b) as [r b'].
  - intros [h b]. cbn. pose proof (doc_connect h b) as Hd. by destruct (handler_Connect h b).
  - intros [h b]. cbn. split; [done|apply doc_close].
  - intros [h b]. cbn. unfold under. cbn. pose proof (doc_now b) as Hd. by destruct (b_Now b).
  - intros t [h b]. cbn. split; [done|apply doc_timeout].
  - intros [h b]. cbn. split; [done|apply doc_cancel].
  - intros d [h b]. cbn. unfold under. cbn. pose proof (doc_sleep d b) as Hd. by destruct (b_sleep d b).
Qed.

(** * A cycle on the wire *)

Definition block_request (slave : Z) (b : readBlock) : request :=
  mkRequest slave (functionCode b) (startAddress b) (quantity b).

Section Cycle.
Context {W O : Type} `{Wired W slave wire, GoOrder} (p : Poller O).

(** The requests for one device: its planned blocks, to its own slave id. *)
Definition device_requests (dg : deviceWithPoints) : list request :=
map (block_request (Int.u8 (SlaveID (device dg)))) (planBlockReads (dps dg)).

Lemma read_block_wire d timeout t b w o :
readable_code (functionCode b) ->
slave (read_block p d timeout t b w o).2.1 = slave w /\
wire (read_block p d timeout t b w o).2.1 = wire w ++ [block_request (slave w) b].
Proof.
  intros Hfc. unfold read_block. pose proof (wired_timeout timeout w) as [S1 R1].
  pose proof (wired_now (with_timeout timeout w)) as [S2 R2].
  destruct (Now (with_timeout timeout w)) as [start w1]. cbn [snd] in S2, R2.
  rewrite read_once. pose proof (wired_read (functionCode b) (startAddress b) (quantity b) w1 Hfc) as [S3 R3].
  destruct (Read (functionCode b) (startAddress b) (quantity b) w1) as [r w2]. cbn [snd] in S3, R3.
  assert (Hend : forall (x : W), slave x = slave w2 -> wire x = wire w2 ->
    slave x = slave w /\ wire x = wire w ++ [block_request (slave w) b]).
  { intros x Hs Hr. rewrite Hs, Hr, R3, S3, S2, S1, R2, R1. done. }
  pose proof (wired_now w2) as [S4 R4]. pose proof (wired_cancel (Now w2).2) as [S5 R5].
  destruct r as [raw|e]; destruct (Now w2) as [stop w3]; cbn [fst snd] in *; apply Hend; cbn; congruence.
Qed.

Lemma read_blocks_wire d timeout t bs : forall rc br w o,
Forall (fun b => readable_code (functionCode b)) bs ->
slave (read_blocks p d timeout t bs rc br w o).2.1 = slave w /\
wire (read_blocks p d timeout t bs rc br w o).2.1 = wire w ++ map (block_request (slave w)) bs.
Proof.
  induction bs as [|b bs IH]; intros rc br w o Hf; cbn [read_blocks map]; [by rewrite app_nil_r|].
  apply Forall_cons in Hf as [Hb Hf]. destruct (read_block_wire d timeout t b w o Hb) as [S1 R1].
  destruct (read_block p d timeout t b w o) as [n [w1 o1]]. cbn [fst snd] in S1, R1.
  destruct (IH (rc + n) (br + 1) w1 o1 Hf) as [S2 R2]. rewrite S2, R2, S1, R1, <- app_assoc. done.
Qed.

(** The blocks of readable points have readable codes. *)
Lemma blocks_readable pts :
Forall addressable pts -> Forall (fun dp => readable_code (FunctionCode dp)) pts ->
Forall (fun b => readable_code (functionCode b)) (planBlockReads pts).
Proof.
  intros Ha Hr. pose proof (plan_blocks_ok pts Ha) as Hok. rewrite Forall_forall in Hok.
  apply Forall_forall. intros b Hb. destruct (Hok b Hb) as [Hbo Hbf].
  pose proof (ok_nonempty _ _ Hbo). destruct (points b) as [|dp l] eqn:Ep; [done|].
  apply Forall_cons in Hbf as [<- _]. rewrite Forall_forall in Hr. apply Hr.
  assert (Hin : dp ∈ filter known pts); [|by apply list_elem_of_filter in Hin as [_ ?]].
  rewrite <- (plan_points pts). apply list_elem_of_In, in_concat. exists (points b).
  split; [apply in_map; by apply list_elem_of_In|]. rewrite Ep. by left.
Qed.

Lemma readDevice_wire d pts timeout t w o :
Forall addressable pts -> Forall (fun dp => readable_code (FunctionCode dp)) pts ->
slave (readDevice p d pts timeout t w o).2.1 = slave w /\
wire (readDevice p d pts timeout t w o).2.1 = wire w ++ map (block_request (slave w)) (planBlockReads pts).
Proof. intros Ha Hr. apply read_blocks_wire. by apply blocks_readable. Qed.

Lemma wait_wire d w : slave (wait d w).2 = slave w /\ wire (wait d w).2 = wire w.
Proof. unfold wait. destruct (d <=? 0); [done|]. apply wired_sleep. Qed.

(** The devices' points can be planned and requested. *)
Definition group_ok (dg : deviceWithPoints) : Prop :=
Forall addressable (dps dg) /\ Forall (fun dp => readable_code (FunctionCode dp)) (dps dg).

End Cycle.

(** * Witness: two devices on one bus *)

(** A library whose world is the requests sent; everything reads as zero. *)
Definition line_read (h : handler) (fc a q : Z) (b : list request) : result goerror (list Z) * list request :=
  (Ok (replicate (Z.to_nat (2 * q)) 0), b ++ [mkRequest (h_SlaveId h) fc a q]).
#[local] Instance line_library : Library (list request) := {|
  handler_Connect := fun _ b => (Ok tt, b);
  handler_Close := fun _ b => b;
  NewClient := fun h => {| ReadCoils := line_read h 1; ReadDiscreteInputs := line_read h 2;
                           ReadHoldingRegisters := line_read h 3; ReadInputRegisters := line_read h 4 |}
|}.
#[local] Instance line_surroundings : Surroundings (list request) := {|
  b_Now := fun b => (0, b); b_with_timeout := fun _ b => b; b_cancel_timeout := fun b => b;
  b_cancelled := fun _ => false; b_sleep := fun _ b => (true, b); b_ctx_err := fun _ => None
|}.
#[local] Instance line_documented : Documented (list request) id.
Proof. by split. Qed.

Definition two_slaves : list deviceWithPoints :=
  [mkGroup (mkDevice 1 "sensor" 1 1 true) four_tags; mkGroup (mkDevice 2 "meter" 1 247 true) [tag 9 7 UInt16]].
Definition line_start : handler * list request := (NewRTUClient "/dev/ttyUSB0" 9600 8 "N" 1 0, []).

